(* ===== verification/_CoqProject ===== *)
-Q . S2P
Prelude.v
Links.v
Memory.v
CString.v
Libgen.v
Errno.v
Strtol.v
Printf.v
PrintfSpec.v
Heap.v
HeapSpec.v
HeapLaws.v
HeapClient.v
LibcText.v
PrintfTests.v
General.v
Environ.v
Unistd.v
Streams.v
Stdio.v
Uname.v
StdioLaws.v
Canonical.v
Programs.v
ProgramsLaws.v
Shell.v
ShellLaws.v
Vga.v
VgaLaws.v
Keyboard.v
Kthread.v
Terminal.v
TerminalLaws.v
Paging.v
PagingLaws.v
PagingMap.v
PagingDemo.v
Segments.v
SegmentLaws.v
SegmentDemo.v
AddressSpace.v
SpaceLaws.v
SpaceDemo.v
Vfs.v
VfsLaws.v
FileSystem.v
FileSystemInv.v
FileSystemDemo.v
Process.v
Syscall.v
MemoryCalls.v
ProcessLaws.v
RunList.v
ProcessDemo.v
Print.v
Initrd.v
InitrdLaws.v
InitrdDemo.v
Interrupt.v
Ps2.v
Timer.v
Kernel.v
KernelDemo.v
Userland.v
Output.v
Screen.v
UserlandDemo.v
