(* ===== verification/Prelude.v ===== *)
(** * INWOX: a verification library for the INWOX kernel, C library and programs

    INWOX is a small operating system for the i686: a kernel in C++ (kernel/),
    a C library that is linked into the kernel as well as into programs (libc/),
    a handful of programs (programs/) and a table of tests of the formatted
    output (tests/).  This library translates its code into Rocq definitions
    that run, and proves what they do.

    ** How the code is translated

    A function that works on memory or on global variables is a computation of
    the state monad [ST S A := S → res (A * S)] below.  Its outcome is [Ok],
    [Fault] (something C leaves undefined: an access outside mapped memory, a
    failed assert, a missing object) or [NoFuel].  A theorem that ends in [Ok]
    therefore also says that the code stayed in bounds and came to an end.
    - Loops are [loop fuel body a]: the body goes round again with new values of
      the local variables ([Next]) or leaves ([Done]).  Where the bound of a
      loop is known (a size, the length of a table) the fuel is one more than
      it; where only the data decides, the fuel is an argument and the theorem
      says which fuel is enough, nearly always one more than the length of the
      data.  [loop_fuel]: more fuel does not change a result.  A loop that does
      not end is shown to exhaust every fuel ([loop_diverges]).
    - Integers are Z with the width written out: [u8] .. [u64], [s8] .. [s64].
    - The global variables of a component are a record; a component is found in
      the state through the class [Lens], and two components that do not overlap
      are [Indep].  So a definition does not fix the state it runs in: kernel
      and programs use the same definitions of the C library at their own states.
    - Memory is a finite map from addresses to bytes (Memory.v) for the C
      library, the programs and the buffers of the kernel.  The objects of the
      kernel's classes (nodes, processes, segments, timers) are typed maps from
      addresses; page tables are words of physical memory, edited through the
      mappings they describe (Paging.v).
    - The address of a string literal, and of an object on the stack of the
      caller whose address is taken, is an argument.
    - What is not source code, or is assembly, is a class, and its documented
      behaviour the class's laws: [Ports] (in and out instructions), [Sched]
      (what may happen while another thread runs), [Kernel_heap], [Kheap], [Process_heap] (operator new for the typed
      objects), [Image] (the addresses the linker gives), [Stubs] (the interrupt
      entry points), [ExitEnv] (handlers and _fini).  Two classes stand between
      parts that are both source code: [Sys] (the calls of the kernel, seen from
      a program) and [MemMap] (the macros mapMemory and unmapMemory of the heap,
      which libc and libk define differently; its laws leave open what fresh
      pages hold, since the kernel does not clear them).
    - Devices are simulated: the 8042 of Ps2.v takes its time with every byte
      written and every answer, within a bound; while a thread gives the CPU
      away any number of timer interrupts may arrive (Timer.v).

    ** The files

    Links: lists whose objects point to both neighbours.
    The C library:
    - Memory, CString: byte memory; string.h and isspace (libc/src/string,
      libc/src/ctype).  Libgen: basename and dirname.  Errno: the error numbers
      and strerror.  Strtol: strtol and strtoul.
    - Printf: vcbprintf, vsprintf, sprintf; PrintfSpec: the text a format stands
      for; PrintfTests: the tests of tests/printf.c; LibcText: the theorems.
    - Heap: malloc, free, realloc, calloc, strdup; HeapSpec: the heap as a list
      of big blocks and chunks, and a reference first-fit allocator; HeapLaws:
      the theorems; HeapClient: the heap as its clients see it.
    - General: rand, rand_r, atexit, exit.  Environ: getenv, setenv, unsetenv.
    - Unistd: open, access, exec, sleep and the directory streams over [Sys].
      Stdio, StdioLaws: FILE streams.  Canonical: canonicalize_file_name, getcwd.
    - Streams: the promise of read and write a program is verified against
      (classes [Streams] and [Writer]).
    The programs: Programs (cat, ls, pwd, uname, echo, sleep, clear, true,
    false), ProgramsLaws; Shell, ShellLaws.
    The kernel:
    - Vga, VgaLaws (vgaterminal.cpp), Keyboard (keyboard.cpp, ps2keyboard.cpp),
      Kthread (kthread.cpp), Terminal, TerminalLaws (terminal.cpp), Print.
    - Paging, PagingLaws, PagingMap, PagingDemo (addressspace.cpp and
      physicalmemory.cpp, the page tables and frames); Segments, SegmentLaws,
      SegmentDemo (memorysegment.cpp); AddressSpace (the rest of
      addressspace.cpp, and the start of physicalmemory.cpp); SpaceLaws,
      SpaceDemo: the memory of a process.
    - Vfs, VfsLaws, FileSystem, FileSystemInv, FileSystemDemo (vnode.cpp,
      directory.cpp, file.cpp, filedescription.cpp); Initrd, InitrdLaws,
      InitrdDemo (initrd.cpp).
    - Process (process.cpp), Syscall (syscall.cpp), MemoryCalls (mmap and
      munmap), ProcessLaws, RunList, ProcessDemo; Uname (uname.cpp).
    - Interrupt (gdt.cpp, idt.cpp, pic.cpp, interrupt.cpp), Ps2 (ps2.cpp), Timer
      (pit.cpp, timer.cpp), Kernel, KernelDemo (kernel.cpp).
    Kernel and programs together: Userland (the class [Sys] filled with the
    handlers of the kernel); Output (printf to a stream and to the console);
    Screen (the terminal as standard output); UserlandDemo (also getcwd and ls
    run on it).
    The files named Demo hold concrete states on which the theorems are applied.

    ** How the parts meet

    vcbprintf is proved against any callback that keeps the promise of the class
    [Sink]; sprintf, the streams and Print::printf are such callbacks
    ([stream_sink] and [console_sink], Output.v).  The heap
    is proved against [MemMapLaws]; Environ uses only HeapClient.  The terminal
    prints through Vga and is a [Device] of the file system; processes hold
    descriptors of the file system and address spaces of the memory manager; the
    system calls work on the current process; the interrupt handler finds
    scheduler, timers and keyboard in [Kernel_services], which Kernel.v
    discharges.  Programs are proved against [Streams]; [file_streams]
    (Userland.v) shows that descriptors on files keep that promise through
    read and write of the kernel, and so [cat_copies_file] is a theorem about
    the program, the library, the system calls, the process table and the files;
    [screen_streams] (Screen.v) shows it of a descriptor on the terminal, down
    to the video memory.  The memory calls join the process table, the segment
    lists, the page tables and the page frames: [process_ok] (SpaceLaws.v) is the
    invariant all four keep together.

    ** What the theorems show

    - Text: vcbprintf prints the text of its format, sprintf writes it, strtol
      reads a printed number back, the tests of the repository pass; strtoul,
      memmove, strcmp, fgets, the modes of fopen, the words of a command line;
      printf to a stream and to the console.
    - Heap and environment: malloc and free refine the reference allocator; the
      environment setenv leaves behind.
    - Terminal: printing refines a reference screen, every byte keeps the video
      page in bounds, the ring buffer is a queue of lines, a typed line is read;
      echo and cat put their text on the screen.
    - Memory: mapping a page changes the translation of that page only, kernel
      pages appear in every address space, no page frame is lost or handed out
      twice, new segments are disjoint from the others, a segment is cut where a
      range is taken out of it; mmap gives a process pages no other process has,
      munmap takes them away and frees them, and both leave the contents of all
      other pages alone.
    - Files: resolvePath is the reference walk; creation, reading back, and the
      invariant of the store under every call; unpacking an archive.
    - Processes: scheduling is round robin and saves what it interrupts, exit
      and waitpid; a timer interrupt through the whole kernel; nanosleep for any
      spread of the timer interrupts.
    - Mutual exclusion over all interleavings of threads; the interrupt gates;
      the start of the keyboard on a controller with any bounded delays.
    - Defects are theorems too, each with the state that shows it: a full
      keyboard buffer hangs the terminal, unmapping the tail of a range leads to
      a double allocation, cd ../.. goes up one directory only, files fopen
      creates have no permissions, and more that are stated as lemmas
      ([realloc_leaves_stale_prev], [scroll_overruns], [create_below_file],
      [full_table_sleeps_forever], [access_answers], [getcwd_refuses],
      [eof_overtakes], [mapMemory_out_of_frames], [mmap_twice_unaligned],
      [mmap_any_protection], [munmap_unaligned], [unmap_tail_double_allocation]).
      Where a comment promises something else than the code does, the theorem is
      about the code and says so ([openat_creates], [gates_installed],
      [mmap_gives_memory], [mmap_hint_and_zeros]).

    ** Not modelled

    The assembly (loader.s, the interrupt stubs, crt0 and its kind, rfork.s):
    what the code relies on is in the classes above; of the two syscall.s the
    way errno travels is in Userland.v.  dprintf and vdprintf, which pass on the
    address of a piece of text that the model of vcbprintf holds by value.
    Reordering of memory accesses: a step of a thread is a whole operation, and
    only Kthread.v has finer steps.  Floating point does not occur.  Headers that
    only declare, make files, scripts. *)
From Stdlib Require Export ZArith Lia.
From stdpp Require Export base tactics numbers list gmap option strings.
#[export] Set Default Goal Selector "!".
Open Scope Z_scope.

(** ** Outcomes and the state monad

    [Ok a]: the code ran and produced [a]; [Fault]: it did something C leaves
    undefined (an access outside mapped memory, a failed [assert]); [NoFuel]:
    the fuel given to a loop ran out. *)
Inductive res (A : Type) : Type :=
| Ok (a : A)
| Fault
| NoFuel.
Arguments Ok {A} a.
Arguments Fault {A}.
Arguments NoFuel {A}.

Definition ST (S A : Type) : Type := S → res (A * S).

#[export] Instance ST_ret (S : Type) : MRet (ST S) := λ A a s, Ok (a, s).
#[export] Instance ST_bind (S : Type) : MBind (ST S) := λ A B k c s,
  match c s with
  | Ok (a, s') => k a s'
  | Fault => Fault
  | NoFuel => NoFuel
  end.

Definition fault {S A : Type} : ST S A := λ _, Fault.

(** One iteration of a C loop either goes round again with new values of the
    local variables or leaves the loop. *)
Inductive step (A B : Type) : Type :=
| Next (a : A)
| Done (b : B).
Arguments Next {A B} a.
Arguments Done {A B} b.

Fixpoint loop {S A B : Type} (fuel : nat) (body : A → ST S (step A B)) (a : A) : ST S B :=
  match fuel with
  | O => λ _, NoFuel
  | Datatypes.S n => λ s,
      match body a s with
      | Ok (Next a', s') => loop n body a' s'
      | Ok (Done b, s') => Ok (b, s')
      | Fault => Fault
      | NoFuel => NoFuel
      end
  end.

(** [for (i = lo; ...; i++)] run [n] times, with no early exit. *)
Fixpoint for_n {S : Type} (n : nat) (i : Z) (body : Z → ST S unit) : ST S unit :=
  match n with
  | O => mret tt
  | Datatypes.S n => body i;; for_n n (i + 1) body
  end.

Lemma bind_ok {S A B} (c : ST S A) (k : A → ST S B) s a s' :
  c s = Ok (a, s') → (c ≫= k) s = k a s'.
Proof. intros H. unfold mbind, ST_bind. by rewrite H. Qed.

Lemma bind_fault {S A B} (c : ST S A) (k : A → ST S B) s :
  c s = Fault → (c ≫= k) s = Fault.
Proof. intros H. unfold mbind, ST_bind. by rewrite H. Qed.

Lemma bind_nofuel {S A B} (c : ST S A) (k : A → ST S B) s :
  c s = NoFuel → (c ≫= k) s = NoFuel.
Proof. intros H. unfold mbind, ST_bind. by rewrite H. Qed.

Lemma bind_ret {S A B} (a : A) (k : A → ST S B) s : (mret a ≫= k) s = k a s.
Proof. done. Qed.

Lemma loop_next {S A B} n (body : A → ST S (step A B)) a s a' s' :
  body a s = Ok (Next a', s') → loop (Datatypes.S n) body a s = loop n body a' s'.
Proof. intros H. cbn. by rewrite H. Qed.

Lemma loop_done {S A B} n (body : A → ST S (step A B)) a s b s' :
  body a s = Ok (Done b, s') → loop (Datatypes.S n) body a s = Ok (b, s').
Proof. intros H. cbn. by rewrite H. Qed.

Lemma loop_fault {S A B} n (body : A → ST S (step A B)) a s :
  body a s = Fault → loop (Datatypes.S n) body a s = Fault.
Proof. intros H. cbn. by rewrite H. Qed.

Lemma for_n_succ {S} n i (body : Z → ST S unit) s s' :
  body i s = Ok (tt, s') → for_n (Datatypes.S n) i body s = for_n n (i + 1) body s'.
Proof. intros H. cbn. by rewrite (bind_ok _ _ _ _ _ H). Qed.

(** Total correctness of a loop: an invariant, and a measure below the fuel. *)
Lemma loop_total {S A B} (I : A → S → Prop) (Q : B → S → Prop) (mu : A → S → nat)
    (body : A → ST S (step A B)) :
  (∀ a s, I a s → ∃ r s', body a s = Ok (r, s') ∧
     match r with
     | Next a' => I a' s' ∧ (mu a' s' < mu a s)%nat
     | Done b => Q b s'
     end) →
  ∀ fuel a s, I a s → (mu a s < fuel)%nat →
  ∃ b s', loop fuel body a s = Ok (b, s') ∧ Q b s'.
Proof.
  intros Hbody fuel. induction fuel as [|fuel IH]; intros a s HI Hmu; [lia|].
  destruct (Hbody a s HI) as ([a'|b] & s' & Hrun & Hr).
  - rewrite (loop_next _ _ _ _ _ _ Hrun). destruct Hr. apply IH; [done | lia].
  - rewrite (loop_done _ _ _ _ _ _ Hrun). eauto.
Qed.

(** A loop run step by step: [pos j] and [st j] are the loop variables and the
    state at the start of iteration [j], and iteration [k] leaves the loop. *)
Lemma loop_trace {S A B} (pos : nat → A) (st : nat → S) (body : A → ST S (step A B))
    (k fuel : nat) b s' :
  (∀ j, (j < k)%nat →
     body (pos j) (st j) = Ok (Next (pos (Datatypes.S j)), st (Datatypes.S j))) →
  body (pos k) (st k) = Ok (Done b, s') → (k < fuel)%nat →
  loop fuel body (pos 0%nat) (st 0%nat) = Ok (b, s').
Proof.
  revert pos st fuel. induction k as [|k IH]; intros pos st fuel Hj Hk Hf;
    (destruct fuel as [|fuel]; [lia|]).
  - by apply loop_done.
  - erewrite loop_next by (apply Hj; lia).
    apply (IH (λ j, pos (Datatypes.S j)) (λ j, st (Datatypes.S j))); [|done|lia].
    intros j ?. apply Hj. lia.
Qed.

(** The case of a loop that only moves an index and leaves the state alone. *)
Lemma loop_scan {S B} (body : Z → ST S (step Z B)) (i : Z) (s : S) (k fuel : nat) b :
  (∀ j, (j < k)%nat → body (i + Z.of_nat j) s = Ok (Next (i + Z.of_nat j + 1), s)) →
  body (i + Z.of_nat k) s = Ok (Done b, s) → (k < fuel)%nat →
  loop fuel body i s = Ok (b, s).
Proof.
  intros Hj Hk Hf. rewrite <-(Z.add_0_r i) at 1.
  apply (loop_trace (λ j, i + Z.of_nat j) (λ _, s) _ k); [|done..].
  intros j ?. rewrite Hj by done. by replace (i + Z.of_nat (Datatypes.S j)) with (i + Z.of_nat j + 1) by lia.
Qed.

(** The first iterations of such a loop, before something happens. *)
Lemma loop_skip {S B} (body : Z → ST S (step Z B)) (i : Z) (s : S) (k fuel : nat) :
  (k <= fuel)%nat →
  (∀ j, (j < k)%nat → body (i + Z.of_nat j) s = Ok (Next (i + Z.of_nat j + 1), s)) →
  loop fuel body i s = loop (fuel - k) body (i + Z.of_nat k) s.
Proof.
  revert i fuel. induction k as [|k IH]; intros i fuel Hk Hj; [by rewrite Z.add_0_r, Nat.sub_0_r|].
  destruct fuel as [|fuel]; [lia|]. pose proof (Hj 0%nat ltac:(lia)) as H0. rewrite Z.add_0_r in H0.
  rewrite (loop_next _ _ _ _ _ _ H0), IH; [cbn [Nat.sub]; f_equal; lia|lia|].
  intros j ?. specialize (Hj (Datatypes.S j) ltac:(lia)).
  by replace (i + 1 + Z.of_nat j) with (i + Z.of_nat (Datatypes.S j)) by lia.
Qed.

(** More fuel does not change a result. *)
Lemma loop_fuel {S A B} n n' (body : A → ST S (step A B)) a s r :
  loop n body a s = Ok r → (n <= n')%nat → loop n' body a s = Ok r.
Proof.
  revert n' a s. induction n as [|n IH]; intros [|n'] a s H Hn; try done; [lia|].
  cbn in *. destruct (body a s) as [[[a'|b] s']| |]; try done. apply IH; [done|lia].
Qed.

(** A loop whose body always goes round again exhausts every fuel. *)
Lemma loop_diverges {S A B} (I : A → S → Prop) (body : A → ST S (step A B)) :
  (∀ a s, I a s → ∃ a' s', body a s = Ok (Next a', s') ∧ I a' s') →
  ∀ fuel a s, I a s → loop fuel body a s = NoFuel.
Proof.
  intros Hbody fuel. induction fuel as [|fuel IH]; intros a s HI; [done|].
  destruct (Hbody a s HI) as (a' & s' & Hrun & HI').
  rewrite (loop_next _ _ _ _ _ _ Hrun). by apply IH.
Qed.

(** ** State components *)
Class Lens (S A : Type) : Type := {
  get : S → A;
  set : A → S → S;
  get_set : ∀ a s, get (set a s) = a;
  set_get : ∀ s, set (get s) s = s;
  set_set : ∀ a b s, set a (set b s) = set a s;
}.

(** Two components of one state that do not overlap. *)
Class Indep {S A B : Type} (L1 : Lens S A) (L2 : Lens S B) : Prop := {
  get_set_indep : ∀ b s, get (Lens := L1) (set (Lens := L2) b s) = get (Lens := L1) s;
  set_get_indep : ∀ a s, get (Lens := L2) (set (Lens := L1) a s) = get (Lens := L2) s;
  set_comm : ∀ a b s,
    set (Lens := L1) a (set (Lens := L2) b s) = set (Lens := L2) b (set (Lens := L1) a s);
}.

#[export, refine] Instance Lens_id (A : Type) : Lens A A := {
  get a := a;
  set a _ := a;
}.
Proof. all: done. Defined.

#[export, refine] Instance Lens_fst (A B : Type) : Lens (A * B) A := {
  get p := p.1;
  set a p := (a, p.2);
}.
Proof. all: by try intros ? [? ?]; try intros [? ?]. Defined.

#[export, refine] Instance Lens_snd (A B C : Type) (L : Lens B C) : Lens (A * B) C | 10 := {
  get p := get p.2;
  set c p := (p.1, set c p.2);
}.
Proof.
  - intros c [a b]. apply get_set.
  - intros [a b]. cbn. by rewrite set_get.
  - intros c d [a b]. cbn. by rewrite set_set.
Defined.

(** A component of the first half of a pair: the locals a function adds to the
    state of its caller. *)
Definition Lens_left (A B C : Type) (L : Lens A C) : Lens (A * B) C.
Proof.
  refine {| get p := get p.1; set c p := (set c p.1, p.2) |}.
  - intros c [a b]. apply get_set.
  - intros [a b]. cbn. by rewrite set_get.
  - intros c d [a b]. cbn. by rewrite set_set.
Defined.

(** A component of a component. *)
Definition Lens_comp {S A B : Type} (L1 : Lens S A) (L2 : Lens A B) : Lens S B.
Proof.
  refine {| get s := get (Lens := L2) (get (Lens := L1) s);
            set b s := set (Lens := L1) (set (Lens := L2) b (get (Lens := L1) s)) s |}.
  - intros b s. by rewrite !get_set.
  - intros s. by rewrite !set_get.
  - intros b c s. by rewrite get_set, !set_set.
Defined.

#[export] Instance Indep_fst_snd (A B C : Type) (L : Lens B C) :
  Indep (Lens_fst A B) (Lens_snd A B C L).
Proof. split; done. Qed.

#[export] Instance Indep_snd_fst (A B C : Type) (L : Lens B C) :
  Indep (Lens_snd A B C L) (Lens_fst A B).
Proof. split; done. Qed.

#[export] Instance Indep_snd_snd (A B C D : Type) (L1 : Lens B C) (L2 : Lens B D) :
  Indep L1 L2 → Indep (Lens_snd A B C L1) (Lens_snd A B D L2).
Proof.
  intros H. split; cbn.
  - intros d [a b]. apply get_set_indep.
  - intros c [a b]. apply set_get_indep.
  - intros c d [a b]. cbn. by rewrite set_comm.
Qed.

(** A computation on a component of the state. *)
Definition zoom {S V A : Type} (L : Lens S V) (c : ST V A) : ST S A := λ s,
  match c (get s) with
  | Ok (a, v) => Ok (a, set v s)
  | Fault => Fault
  | NoFuel => NoFuel
  end.

Lemma zoom_ok {S V A} (L : Lens S V) (c : ST V A) s a v :
  c (get s) = Ok (a, v) → zoom L c s = Ok (a, set v s).
Proof. intros H. unfold zoom. by rewrite H. Qed.

Create Rewrite HintDb lens.
#[export] Hint Rewrite @get_set @set_get @set_set : lens.

(** ** Fixed-width integers (the target is i686: [int], [long], pointers and
    [size_t] have 32 bits, [long long] and [intmax_t] 64, plain [char] is
    signed) *)
Definition u8 (z : Z) : Z := z mod 2 ^ 8.
Definition u16 (z : Z) : Z := z mod 2 ^ 16.
Definition u32 (z : Z) : Z := z mod 2 ^ 32.
Definition u64 (z : Z) : Z := z mod 2 ^ 64.
Definition s8 (z : Z) : Z := (z + 2 ^ 7) mod 2 ^ 8 - 2 ^ 7.
Definition s16 (z : Z) : Z := (z + 2 ^ 15) mod 2 ^ 16 - 2 ^ 15.
Definition s32 (z : Z) : Z := (z + 2 ^ 31) mod 2 ^ 32 - 2 ^ 31.
Definition s64 (z : Z) : Z := (z + 2 ^ 63) mod 2 ^ 64 - 2 ^ 63.

Definition INT_MAX : Z := 2 ^ 31 - 1.
Definition INT_MIN : Z := - 2 ^ 31.

Lemma u8_small z : 0 <= z < 256 → u8 z = z.
Proof. apply Z.mod_small. Qed.
Lemma u32_small z : 0 <= z < 2 ^ 32 → u32 z = z.
Proof. apply Z.mod_small. Qed.
Lemma u64_small z : 0 <= z < 2 ^ 64 → u64 z = z.
Proof. apply Z.mod_small. Qed.
Lemma u8_range z : 0 <= u8 z < 256.
Proof. apply Z.mod_pos_bound. lia. Qed.
Lemma u32_range z : 0 <= u32 z < 2 ^ 32.
Proof. apply Z.mod_pos_bound. lia. Qed.
Lemma u64_range z : 0 <= u64 z < 2 ^ 64.
Proof. apply Z.mod_pos_bound. lia. Qed.
Lemma s32_small z : - 2 ^ 31 <= z < 2 ^ 31 → s32 z = z.
Proof. intros. unfold s32. rewrite Z.mod_small; lia. Qed.
Lemma s64_small z : - 2 ^ 63 <= z < 2 ^ 63 → s64 z = z.
Proof. intros. unfold s64. rewrite Z.mod_small; lia. Qed.
Lemma s8_small z : - 2 ^ 7 <= z < 2 ^ 7 → s8 z = z.
Proof. intros. unfold s8. rewrite Z.mod_small; lia. Qed.

Create Rewrite HintDb width.
#[export] Hint Rewrite u8_small u32_small u64_small s32_small s64_small s8_small
  using (first [assumption | lia]) : width.

(** C truth values. *)
Definition bool_Z (b : bool) : Z := if b then 1 else 0.
Definition Z_bool (z : Z) : bool := negb (z =? 0).

(** A C string literal as its bytes. *)
Fixpoint str (s : string) : list Z :=
  match s with
  | EmptyString => []
  | String a s => Z.of_N (Ascii.N_of_ascii a) :: str s
  end.

(** A C character constant. *)
Definition ch (s : string) : Z := default 0 (head (str s)).

(** Case analysis on the boolean tests of integers met in translated code. *)
Ltac zb :=
  repeat match goal with
  | H : (_ =? _) = true |- _ => apply Z.eqb_eq in H
  | H : (_ =? _) = false |- _ => apply Z.eqb_neq in H
  | H : (_ <? _) = true |- _ => apply Z.ltb_lt in H
  | H : (_ <? _) = false |- _ => apply Z.ltb_ge in H
  | H : (_ <=? _) = true |- _ => apply Z.leb_le in H
  | H : (_ <=? _) = false |- _ => apply Z.leb_gt in H
  end.

Ltac zcase e := destruct e eqn:?; zb; try (exfalso; lia); try lia.
