(* ===== verification/Links.v ===== *)
(** * Doubly linked lists of objects

    Processes and address spaces are kept in lists linked in both directions by
    their members prev and next, where 0 is the null pointer. *)
From S2P Require Import Prelude.

Definition head0 (l : list Z) : Z := default 0 (head l).
Definition last0 (l : list Z) : Z := default 0 (last l).

Lemma head0_in l : head0 l ≠ 0 → head0 l ∈ l.
Proof. destruct l; [done|]. intros _. left. Qed.
Lemma last0_snoc l q : last0 (l ++ [q]) = q.
Proof. unfold last0. by rewrite last_snoc. Qed.
Lemma last0_app l1 q l2 : last0 (l1 ++ q :: l2) = last0 (q :: l2).
Proof. unfold last0. rewrite last_app. destruct (last (q :: l2)) eqn:He; [done|]. by apply last_None in He. Qed.
Lemma head0_app l1 l2 : l1 ≠ [] → head0 (l1 ++ l2) = head0 l1.
Proof. by destruct l1. Qed.
Lemma last0_app_l l1 l2 : l2 ≠ [] → last0 (l1 ++ l2) = last0 l2.
Proof. destruct l2; [done|]. intros _. apply last0_app. Qed.

Section links.
Context {A : Type} (prev next : A → Z).

(** The objects [l] of the store are linked to each other in this order. *)
Record links (m : gmap Z A) (l : list Z) : Prop := {
  l_nodup : NoDup l;
  l_null : 0 ∉ l;
  l_links : ∀ l1 q l2, l = l1 ++ q :: l2 → ∃ x, m !! q = Some x ∧ prev x = last0 l1 ∧ next x = head0 l2;
}.

(** [p] is taken out: its neighbours are linked to each other, no other link
    changes. *)
Lemma links_remove m m' l1 p l2 :
  links m (l1 ++ p :: l2) →
  (∀ q x, q ≠ p → m !! q = Some x → ∃ x', m' !! q = Some x' ∧
    prev x' = (if decide (l2 ≠ [] ∧ q = head0 l2) then last0 l1 else prev x) ∧
    next x' = (if decide (l1 ≠ [] ∧ q = last0 l1) then head0 l2 else next x)) →
  links m' (l1 ++ l2).
Proof.
  intros [Hnd Hnull R] Hj.
  assert (NoDup (l1 ++ l2) ∧ p ∉ l1 ++ l2) as [Hnd' Hp].
  { rewrite <-Permutation_middle in Hnd. by apply NoDup_cons in Hnd as [? ?]. }
  constructor; [done|set_solver|].
  assert (∀ l, NoDup (l1 ++ l2) → l = l1 ++ l2 → ∀ a q b, l = a ++ q :: b → q ∉ a ∧ q ∉ b) as Hsplit.
  { intros l Hl -> a q b Heq. rewrite Heq, <-Permutation_middle in Hl. apply NoDup_cons in Hl as [Hq _]. set_solver. }
  intros a q b Heq. destruct (Hsplit _ Hnd' eq_refl a q b Heq) as [Hqa Hqb].
  assert (q ≠ p) as Hqp by (intros ->; apply Hp; rewrite Heq; set_solver).
  assert ((∃ k, l1 = a ++ q :: k ∧ b = k ++ l2) ∨ ∃ k, a = l1 ++ k ∧ l2 = k ++ q :: b) as [(k & -> & ->)|(k & -> & ->)].
  { apply app_eq_inv in Heq as [([|q' k] & -> & Hk)|(k & -> & Hk)]; [right|left|right].
    - exists []. by rewrite !app_nil_r.
    - injection Hk as <- ->. by exists k.
    - by exists k. }
  - destruct (R a q (k ++ p :: l2)) as (x & Hx & Hxp & Hxn); [by rewrite <-app_assoc|].
    destruct (Hj q x Hqp Hx) as (x' & Hx' & Hxp' & Hxn'). exists x'. rewrite Hxp', Hxn'. split; [done|]. split.
    + rewrite decide_False; [done|]. intros [Hne Hq]. apply Hqb. destruct l2; [done|]. rewrite Hq. set_solver.
    + destruct k as [|k0 k]; [rewrite decide_True; [done|]; split; [by destruct a|by rewrite last0_app]|].
      rewrite decide_False; [by rewrite Hxn|]. intros [_ Hq]. apply Hqb. rewrite last0_app in Hq.
      change (q :: k0 :: k) with ([q] ++ k0 :: k) in Hq. rewrite last0_app in Hq.
      apply elem_of_app. left. unfold last0 in Hq. destruct (last (k0 :: k)) as [z|] eqn:Hz; [|by apply last_None in Hz].
      cbn in Hq. subst z. by apply last_Some_elem_of in Hz.
  - destruct (R (l1 ++ p :: k) q b) as (x & Hx & Hxp & Hxn); [by rewrite <-app_assoc|].
    destruct (Hj q x Hqp Hx) as (x' & Hx' & Hxp' & Hxn'). exists x'. rewrite Hxp', Hxn'. split; [done|]. split.
    + destruct k as [|k0 k]; [by rewrite app_nil_r, decide_True|].
      rewrite decide_False; [rewrite Hxp, !last0_app; symmetry; exact (last0_app [p] k0 k)|].
      intros [_ Hq]. apply Hqa. cbn in Hq. rewrite Hq. set_solver.
    + rewrite decide_False; [done|]. intros [Hne Hq]. apply Hqa. destruct l1 as [|? ? _] using rev_ind; [done|].
      rewrite last0_snoc in Hq. rewrite Hq. set_solver.
Qed.
End links.
