(* ===== verification/Memory.v ===== *)
(** * Byte-addressed memory, C strings and little-endian words

    The data every libc routine works on: a finite map from addresses to byte
    values (0..255).  An access to an address outside the map is a [Fault], so
    a theorem that ends in [Ok] also says that every access was in bounds. *)
From S2P Require Import Prelude.

Abbreviation mem := (gmap Z Z).

Section access.
Context {S : Type} `{L : !Lens S mem}.

Definition memory (s : S) : mem := get s.
Definition with_memory (s : S) (m : mem) : S := set m s.

(** [*p] read as [unsigned char]. *)
Definition load (p : Z) : ST S Z := λ s,
  match memory s !! p with
  | Some b => Ok (b, s)
  | None => Fault
  end.

(** [*p = (unsigned char)v]. *)
Definition store (p v : Z) : ST S unit := λ s,
  match memory s !! p with
  | Some _ => Ok (tt, with_memory s (<[p := u8 v]> (memory s)))
  | None => Fault
  end.

(** 32-bit words, little endian, as the i686 reads and writes them. *)
Definition load32 (p : Z) : ST S Z :=
  b0 ← load p; b1 ← load (p + 1); b2 ← load (p + 2); b3 ← load (p + 3);
  mret (b0 + 2 ^ 8 * b1 + 2 ^ 16 * b2 + 2 ^ 24 * b3).

Definition store32 (p v : Z) : ST S unit :=
  store p v;; store (p + 1) (v / 2 ^ 8);; store (p + 2) (v / 2 ^ 16);;
  store (p + 3) (v / 2 ^ 24).
End access.

(** ** Contents of a memory range *)
Definition bytes_at (m : mem) (p : Z) (bs : list Z) : Prop :=
  ∀ i b, bs !! i = Some b → m !! (p + Z.of_nat i) = Some b.

Definition mapped (m : mem) (p n : Z) : Prop :=
  ∀ q, p <= q < p + n → is_Some (m !! q).

(** The memory holds the C string [str] at [p], terminator included. *)
Definition char_ok (b : Z) : Prop := 0 < b < 256.
Definition cstr (m : mem) (p : Z) (str : list Z) : Prop :=
  Forall char_ok str ∧ bytes_at m p (str ++ [0]).

Fixpoint write_bytes (m : mem) (p : Z) (bs : list Z) : mem :=
  match bs with
  | [] => m
  | b :: bs => write_bytes (<[p := b]> m) (p + 1) bs
  end.

(** Two ranges that do not meet. *)
Definition disjoint_range (p n q k : Z) : Prop := p + n <= q ∨ q + k <= p.

Lemma bytes_at_nil m p : bytes_at m p [].
Proof. by intros i b ?. Qed.

Lemma bytes_at_cons m p b bs :
  bytes_at m p (b :: bs) ↔ m !! p = Some b ∧ bytes_at m (p + 1) bs.
Proof.
  split.
  - intros H. split.
    + specialize (H 0%nat b eq_refl). by rewrite Z.add_0_r in H.
    + intros i c Hi. specialize (H (Datatypes.S i) c Hi).
      by replace (p + 1 + Z.of_nat i) with (p + Z.of_nat (Datatypes.S i)) by lia.
  - intros [H1 H2] [|i] c Hi; simplify_eq/=.
    + by rewrite Z.add_0_r.
    + replace (p + Z.of_nat (Datatypes.S i)) with (p + 1 + Z.of_nat i) by lia. auto.
Qed.

Lemma bytes_at_app m p bs cs :
  bytes_at m p (bs ++ cs) ↔ bytes_at m p bs ∧ bytes_at m (p + Z.of_nat (length bs)) cs.
Proof.
  revert p. induction bs as [|b bs IH]; intros p; cbn [app length].
  - rewrite Z.add_0_r. pose proof (bytes_at_nil m p). tauto.
  - rewrite !bytes_at_cons, IH.
    replace (p + 1 + Z.of_nat (length bs)) with (p + Z.of_nat (Datatypes.S (length bs))) by lia.
    tauto.
Qed.

Lemma bytes_at_mapped m p bs n :
  bytes_at m p bs → n <= Z.of_nat (length bs) → mapped m p n.
Proof.
  intros H Hn q Hq.
  destruct (lookup_lt_is_Some_2 bs (Z.to_nat (q - p))) as [b Hb]; [lia|].
  exists b. rewrite <-(H _ _ Hb). f_equal. lia.
Qed.

Lemma lookup_write_bytes m p bs q :
  write_bytes m p bs !! q =
  if decide (p <= q < p + Z.of_nat (length bs)) then bs !! Z.to_nat (q - p) else m !! q.
Proof.
  revert m p. induction bs as [|b bs IH]; intros m p; cbn [write_bytes length].
  - rewrite decide_False by lia. done.
  - rewrite IH. repeat case_decide; try lia.
    + replace (Z.to_nat (q - p)) with (Datatypes.S (Z.to_nat (q - (p + 1)))) by lia. done.
    + assert (q = p) as -> by lia. rewrite lookup_insert_eq.
      by replace (Z.to_nat (p - p)) with 0%nat by lia.
    + rewrite lookup_insert_ne by lia. done.
Qed.

Lemma lookup_write_bytes_out m p bs q :
  q < p ∨ p + Z.of_nat (length bs) <= q → write_bytes m p bs !! q = m !! q.
Proof. intros. rewrite lookup_write_bytes, decide_False by lia. done. Qed.

Lemma bytes_at_write m p bs : bytes_at (write_bytes m p bs) p bs.
Proof.
  intros i b Hi. pose proof (lookup_lt_Some _ _ _ Hi).
  rewrite lookup_write_bytes, decide_True by lia.
  by replace (Z.to_nat (p + Z.of_nat i - p)) with i by lia.
Qed.

Lemma bytes_at_write_other m p bs q cs :
  disjoint_range p (Z.of_nat (length bs)) q (Z.of_nat (length cs)) →
  bytes_at m q cs → bytes_at (write_bytes m p bs) q cs.
Proof.
  unfold disjoint_range. intros Hd H i b Hi. pose proof (lookup_lt_Some _ _ _ Hi).
  rewrite lookup_write_bytes_out by lia. auto.
Qed.

Lemma write_bytes_app m p bs cs :
  write_bytes m p (bs ++ cs) =
  write_bytes (write_bytes m p bs) (p + Z.of_nat (length bs)) cs.
Proof.
  revert m p. induction bs as [|b bs IH]; intros m p; cbn [app write_bytes length].
  - by rewrite Z.add_0_r.
  - rewrite IH. f_equal. lia.
Qed.

Lemma write_bytes_snoc m p bs j b :
  bs !! j = Some b →
  write_bytes m p (take (Datatypes.S j) bs) =
  <[p + Z.of_nat j := b]> (write_bytes m p (take j bs)).
Proof.
  intros H. pose proof (lookup_lt_Some _ _ _ H). erewrite take_S_r by done.
  rewrite write_bytes_app, length_take_le by lia. done.
Qed.

Lemma write_bytes_insert_comm m p v q bs :
  p < q → <[p := v]> (write_bytes m q bs) = write_bytes (<[p := v]> m) q bs.
Proof.
  revert m q. induction bs as [|b bs IH]; intros m q Hq; cbn; [done|].
  rewrite IH by lia. f_equal. apply insert_insert_ne. lia.
Qed.

Lemma write_bytes_insert_after m p v q bs :
  q + Z.of_nat (length bs) <= p → <[p := v]> (write_bytes m q bs) = write_bytes (<[p := v]> m) q bs.
Proof.
  revert m q. induction bs as [|b bs IH]; intros m q Hq; cbn; [done|]. cbn [length] in Hq.
  rewrite IH by lia. f_equal. apply insert_insert_ne. lia.
Qed.

Lemma write_bytes_drop m p bs j b :
  bs !! j = Some b →
  write_bytes m (p + Z.of_nat j) (drop j bs) =
  <[p + Z.of_nat j := b]> (write_bytes m (p + Z.of_nat (Datatypes.S j)) (drop (Datatypes.S j) bs)).
Proof.
  intros H. rewrite (drop_S bs b j H). cbn [write_bytes].
  rewrite write_bytes_insert_comm by lia. f_equal. lia.
Qed.

Definition byte_ok (b : Z) : Prop := 0 <= b < 256.

#[export] Instance byte_ok_dec b : Decision (byte_ok b).
Proof. unfold byte_ok. apply _. Defined.
#[export] Instance char_ok_dec b : Decision (char_ok b).
Proof. unfold char_ok. apply _. Defined.

Lemma chars_bytes bs : Forall char_ok bs → Forall byte_ok (bs ++ [0]).
Proof.
  intros H. apply Forall_app_2; [|repeat constructor; lia].
  eapply list.Forall_impl; [done|]. unfold char_ok, byte_ok. lia.
Qed.

Lemma mapped_write m p bs q n : mapped m q n → mapped (write_bytes m p bs) q n.
Proof.
  intros H r Hr. rewrite lookup_write_bytes. case_decide; [|auto].
  apply lookup_lt_is_Some. lia.
Qed.

Lemma mapped_sub m p n q k : mapped m p n → p <= q → q + k <= p + n → mapped m q k.
Proof. intros H ? ? r ?. apply H. lia. Qed.

Lemma mapped_insert m p v q n : mapped m q n → mapped (<[p := v]> m) q n.
Proof. intros H r Hr. rewrite lookup_insert_is_Some'. right. auto. Qed.

Lemma cstr_cons m p b str :
  cstr m p (b :: str) ↔ char_ok b ∧ m !! p = Some b ∧ cstr m (p + 1) str.
Proof. unfold cstr. cbn [app]. rewrite bytes_at_cons, list.Forall_cons. tauto. Qed.

Lemma cstr_nil m p : cstr m p [] ↔ m !! p = Some 0.
Proof.
  unfold cstr. cbn [app]. rewrite bytes_at_cons. pose proof (bytes_at_nil m (p + 1)).
  split; [tauto|]. intros ?. split; [constructor|done].
Qed.

Lemma cstr_write m p str : Forall char_ok str → cstr (write_bytes m p (str ++ [0])) p str.
Proof. intros H. split; [done|]. apply bytes_at_write. Qed.

Lemma cstr_bytes m p str : cstr m p str → bytes_at m p (str ++ [0]).
Proof. by intros [_ H]. Qed.

Lemma cstr_drop m p str n :
  (n <= length str)%nat → cstr m p str → cstr m (p + Z.of_nat n) (drop n str).
Proof.
  intros Hn [H1 H2]. split; [by apply Forall_drop|].
  rewrite <-(take_drop n str) in H2. rewrite <-app_assoc, bytes_at_app in H2.
  destruct H2 as [_ H2]. by rewrite length_take_le in H2.
Qed.

(** The string a pointer designates is determined by the memory. *)
Lemma cstr_unique m p str str' : cstr m p str → cstr m p str' → str = str'.
Proof.
  revert p str'. induction str as [|b str IH]; intros p [|c str'].
  - done.
  - rewrite cstr_nil, cstr_cons. unfold char_ok. intros ? (? & ? & _). simplify_eq. lia.
  - rewrite cstr_nil, cstr_cons. unfold char_ok. intros (? & ? & _) ?. simplify_eq. lia.
  - rewrite !cstr_cons. intros (? & ? & ?) (? & ? & ?). simplify_eq. f_equal. eauto.
Qed.

Section access_lemmas.
Context {S : Type} `{L : !Lens S mem}.
Implicit Types s : S.

Lemma memory_with s m : memory (with_memory s m) = m.
Proof. apply get_set. Qed.
Lemma with_memory_with s m m' : with_memory (with_memory s m) m' = with_memory s m'.
Proof. apply set_set. Qed.
Lemma with_memory_id s : with_memory s (memory s) = s.
Proof. apply set_get. Qed.

Lemma load_ok s p b : memory s !! p = Some b → load p s = Ok (b, s).
Proof. intros H. unfold load. by rewrite H. Qed.

Lemma load_fault s p : memory s !! p = None → load p s = Fault.
Proof. intros H. unfold load. by rewrite H. Qed.

Lemma store_ok s p v :
  is_Some (memory s !! p) → store p v s = Ok (tt, with_memory s (<[p := u8 v]> (memory s))).
Proof. intros [b H]. unfold store. by rewrite H. Qed.

Lemma store_fault s p v : memory s !! p = None → store p v s = Fault.
Proof. intros H. unfold store. by rewrite H. Qed.

Lemma load_cstr s p str i :
  cstr (memory s) p str → (i <= length str)%nat →
  load (p + Z.of_nat i) s = Ok (default 0 (str !! i), s).
Proof.
  intros [_ H] Hi. apply load_ok. apply H.
  destruct (decide (i = length str)) as [->|].
  - by rewrite (lookup_ge_None_2 str), lookup_app_r, Nat.sub_diag by lia.
  - rewrite lookup_app_l by lia.
    destruct (lookup_lt_is_Some_2 str i) as [c ->]; [lia|done].
Qed.
End access_lemmas.

#[export] Hint Rewrite @memory_with @with_memory_with @with_memory_id : lens.

(** ** Words *)
Definition word_at (m : mem) (p w : Z) : Prop :=
  ∃ b0 b1 b2 b3, bytes_at m p [b0; b1; b2; b3] ∧
    Forall (λ b, 0 <= b < 256) [b0; b1; b2; b3] ∧
    w = b0 + 2 ^ 8 * b1 + 2 ^ 16 * b2 + 2 ^ 24 * b3.

Definition le32 (w : Z) : list Z :=
  [u8 w; u8 (w / 2 ^ 8); u8 (w / 2 ^ 16); u8 (w / 2 ^ 24)].

Lemma le32_value w :
  0 <= w < 2 ^ 32 →
  w = u8 w + 2 ^ 8 * u8 (w / 2 ^ 8) + 2 ^ 16 * u8 (w / 2 ^ 16) + 2 ^ 24 * u8 (w / 2 ^ 24).
Proof. intros. unfold u8. Z.to_euclidean_division_equations. lia. Qed.

Lemma word_at_le32 m p w : 0 <= w < 2 ^ 32 → word_at (write_bytes m p (le32 w)) p w.
Proof.
  intros Hw. exists (u8 w), (u8 (w / 2 ^ 8)), (u8 (w / 2 ^ 16)), (u8 (w / 2 ^ 24)).
  split; [apply bytes_at_write|]. split; [|by apply le32_value].
  repeat constructor; apply u8_range.
Qed.

Lemma word_at_write_other m p bs q w :
  disjoint_range p (Z.of_nat (length bs)) q 4 → word_at m q w →
  word_at (write_bytes m p bs) q w.
Proof.
  intros Hd (b0 & b1 & b2 & b3 & H & ?). exists b0, b1, b2, b3. split; [|done].
  by apply bytes_at_write_other.
Qed.

Lemma word_at_range m p w : word_at m p w → 0 <= w < 2 ^ 32.
Proof. intros (b0 & b1 & b2 & b3 & _ & H & ->). decompose_Forall. lia. Qed.

Lemma word_at_unique m p w w' : word_at m p w → word_at m p w' → w = w'.
Proof.
  intros (b0 & b1 & b2 & b3 & H & _ & ->) (c0 & c1 & c2 & c3 & H' & _ & ->).
  rewrite !bytes_at_cons in H, H'.
  destruct H as (H0 & H1 & H2 & H3 & _), H' as (G0 & G1 & G2 & G3 & _).
  by simplify_eq.
Qed.

Lemma word_at_mapped m p w : word_at m p w → mapped m p 4.
Proof. intros (b0 & b1 & b2 & b3 & H & _). by apply (bytes_at_mapped _ _ _ _ H). Qed.

(** [is_Some (m !! q)] from a mapped range, through the stores made since. *)
Ltac is_mapped H :=
  autorewrite with lens; repeat (apply lookup_insert_is_Some'; right); apply H; lia.

Section word_lemmas.
Context {S : Type} `{L : !Lens S mem}.
Implicit Types s : S.

Lemma load32_ok s p w : word_at (memory s) p w → load32 p s = Ok (w, s).
Proof.
  intros (b0 & b1 & b2 & b3 & H & _ & ->). rewrite !bytes_at_cons in H.
  destruct H as (H0 & H1 & H2 & H3 & _). unfold load32.
  rewrite (bind_ok _ _ _ _ _ (load_ok _ _ _ H0)).
  rewrite (bind_ok _ _ _ _ _ (load_ok _ _ _ H1)).
  replace (p + 1 + 1) with (p + 2) in * by lia.
  rewrite (bind_ok _ _ _ _ _ (load_ok _ _ _ H2)).
  replace (p + 2 + 1) with (p + 3) in * by lia.
  by rewrite (bind_ok _ _ _ _ _ (load_ok _ _ _ H3)).
Qed.

Lemma store32_ok s p w :
  mapped (memory s) p 4 →
  store32 p w s = Ok (tt, with_memory s (write_bytes (memory s) p (le32 w))).
Proof.
  intros H. unfold store32.
  do 3 (erewrite bind_ok; [|apply store_ok; is_mapped H]; autorewrite with lens).
  rewrite store_ok by is_mapped H. autorewrite with lens. cbn [write_bytes le32].
  by replace (p + 1 + 1 + 1) with (p + 3) by lia; replace (p + 1 + 1) with (p + 2) by lia.
Qed.
End word_lemmas.

(** Bytes outside a range of memory are the same. *)
Definition same_outside (p n : Z) (m m' : mem) : Prop := ∀ q, ¬ p <= q < p + n → m' !! q = m !! q.

Lemma cstr_same_outside m m' p n q txt :
  same_outside p n m m' → disjoint_range p n q (Z.of_nat (length txt) + 1) → cstr m q txt → cstr m' q txt.
Proof.
  unfold disjoint_range. intros Hs Hd [H1 H2]. split; [done|]. intros i b Hi. rewrite Hs; [by apply H2|].
  apply lookup_lt_Some in Hi. rewrite length_app in Hi. cbn [length] in Hi. lia.
Qed.

Lemma same_outside_write m p n q ws :
  p <= q → q + Z.of_nat (length ws) <= p + n → same_outside p n m (write_bytes m q ws).
Proof. intros Hq Hl r Hr. apply lookup_write_bytes_out. lia. Qed.

Lemma same_outside_trans p n m m' m'' :
  same_outside p n m m' → same_outside p n m' m'' → same_outside p n m m''.
Proof. intros H1 H2 q Hq. by rewrite H2, H1. Qed.

Lemma same_outside_refl p n m : same_outside p n m m.
Proof. by intros q Hq. Qed.

(** ** Contents of a concrete memory, checked by evaluation *)
Fixpoint bytes_b (m : mem) (p : Z) (bs : list Z) : bool :=
  match bs with
  | [] => true
  | b :: bs => bool_decide (m !! p = Some b) && bytes_b m (p + 1) bs
  end.

Lemma bytes_check m p bs : bytes_b m p bs = true → bytes_at m p bs.
Proof.
  revert p. induction bs as [|b bs IH]; intros p; cbn [bytes_b]; [intros _; apply bytes_at_nil|].
  intros [H1 H2]%andb_true_iff. apply bool_decide_eq_true in H1. apply bytes_at_cons. auto.
Qed.

Lemma cstr_check m p txt :
  forallb (λ b, bool_decide (char_ok b)) txt && bytes_b m p (txt ++ [0]) = true → cstr m p txt.
Proof.
  intros [H1 H2]%andb_true_iff. split; [|by apply bytes_check]. rewrite forallb_forall in H1.
  apply Forall_forall. intros b Hb. apply list_elem_of_In in Hb. specialize (H1 b Hb).
  by apply bool_decide_eq_true in H1.
Qed.

Lemma word_check m p w :
  bool_decide (0 <= w < 2 ^ 32) && bytes_b m p (le32 w) = true → word_at m p w.
Proof.
  intros [H1 H2]%andb_true_iff. apply bool_decide_eq_true in H1.
  exists (u8 w), (u8 (w / 2 ^ 8)), (u8 (w / 2 ^ 16)), (u8 (w / 2 ^ 24)).
  split; [by apply bytes_check|]. split; [repeat constructor; apply u8_range | by apply le32_value].
Qed.
