(* ===== verification/CString.v ===== *)
(** * The string and memory routines of libc/src/string and libc/src/ctype

    Each routine is the loop of its C file over byte memory; [fuel] bounds the
    loops whose length only the data decides.  The theorems give each routine's
    result as a function of the strings or byte ranges the memory holds, for
    every fuel above the length of the data. *)
From S2P Require Import Prelude Memory.

Definition NULL : Z := 0.

Section routines.
Context {S : Type} `{L : !Lens S mem}.

(** *** memcmp.c, memcpy.c, memmove.c, memset.c *)
Definition memcmp (p1 p2 size : Z) : ST S Z :=
  loop (Datatypes.S (Z.to_nat size)) (λ i,
    if i <? size then
      a ← load (p1 + i); b ← load (p2 + i);
      if a <? b then mret (Done (-1))
      else if b <? a then mret (Done 1)
      else mret (Next (i + 1))
    else mret (Done 0)) 0.

Definition memcpy (dest src size : Z) : ST S Z :=
  loop (Datatypes.S (Z.to_nat size)) (λ i,
    if i <? size then
      c ← load (src + i); store (dest + i) c;; mret (Next (i + 1))
    else mret (Done dest)) 0.

Definition memmove (dest src size : Z) : ST S Z :=
  if dest <? src then
    loop (Datatypes.S (Z.to_nat size)) (λ i,
      if i <? size then
        c ← load (src + i); store (dest + i) c;; mret (Next (i + 1))
      else mret (Done dest)) 0
  else
    loop (Datatypes.S (Z.to_nat size)) (λ i,
      if 0 <? i then
        c ← load (src + (i - 1)); store (dest + (i - 1)) c;; mret (Next (i - 1))
      else mret (Done dest)) size.

Definition memset (dest value size : Z) : ST S Z :=
  loop (Datatypes.S (Z.to_nat size)) (λ i,
    if i <? size then store (dest + i) (u8 value);; mret (Next (i + 1))
    else mret (Done dest)) 0.

(** *** strlen.c, strnlen.c *)
Definition strlen (fuel : nat) (str : Z) : ST S Z :=
  loop fuel (λ '(p, len),
    c ← load p;
    if Z_bool c then mret (Next (p + 1, len + 1)) else mret (Done len)) (str, 0).

Definition strnlen (str maxlen : Z) : ST S Z :=
  loop (Datatypes.S (Z.to_nat maxlen)) (λ ret,
    if ret <? maxlen then
      c ← load (str + ret);
      if Z_bool c then mret (Next (ret + 1)) else mret (Done ret)
    else mret (Done ret)) 0.

(** *** strcmp.c, strncmp.c *)
Definition strcmp (fuel : nat) (a b : Z) : ST S Z :=
  loop fuel (λ i,
    ac ← load (a + i); bc ← load (b + i);
    if (ac =? 0) && (bc =? 0) then mret (Done 0)
    else if ac <? bc then mret (Done (-1))
    else if bc <? ac then mret (Done 1)
    else mret (Next (i + 1))) 0.

Definition strncmp (str1 str2 length : Z) : ST S Z :=
  loop (Datatypes.S (Z.to_nat length)) (λ i,
    if i <? length then
      str1char ← load (str1 + i); str2char ← load (str2 + i);
      if str1char <? str2char then mret (Done (-1))
      else if str2char <? str1char then mret (Done 1)
      else if (str1char =? 0) && (str2char =? 0) then mret (Done 0)
      else mret (Next (i + 1))
    else mret (Done 0)) 0.

(** *** strchr.c, strrchr.c *)
Definition strchr (fuel : nat) (str c : Z) : ST S Z :=
  loop fuel (λ s,
    x ← load s;
    if x =? u8 c then mret (Done s)
    else if Z_bool x then mret (Next (s + 1)) else mret (Done NULL)) str.

Definition strrchr (fuel : nat) (str c : Z) : ST S Z :=
  loop fuel (λ '(s, result),
    x ← load s;
    let result := if x =? u8 c then s else result in
    if Z_bool x then mret (Next (s + 1, result)) else mret (Done result)) (str, NULL).

(** *** stpcpy.c, strcpy.c *)
Definition stpcpy (fuel : nat) (s1 s2 : Z) : ST S Z :=
  p ← loop fuel (λ '(s1, s2),
    c ← load s2;
    if Z_bool c then store s1 c;; mret (Next (s1 + 1, s2 + 1))
    else mret (Done s1)) (s1, s2);
  store p 0;; mret p.

Definition strcpy (fuel : nat) (s1 s2 : Z) : ST S Z :=
  p ← loop fuel (λ '(s1, s2),
    c ← load s2;
    if Z_bool c then store s1 c;; mret (Next (s1 + 1, s2 + 1))
    else mret (Done s1)) (s1, s2);
  store p 0;; mret s1.

(** *** strcspn.c, strspn.c *)

(** The inner [for] of strcspn: does [c] occur in the C string [characters]? *)
Definition strcspn_found (fuel : nat) (c characters : Z) : ST S bool :=
  loop fuel (λ i,
    x ← load (characters + i);
    if Z_bool x then
      if c =? x then mret (Done true) else mret (Next (i + 1))
    else mret (Done false)) 0.

Definition strcspn (fuel : nat) (string characters : Z) : ST S Z :=
  loop fuel (λ result,
    c ← load (string + result);
    if Z_bool c then
      found ← strcspn_found fuel c characters;
      if found : bool then mret (Done result) else mret (Next (result + 1))
    else mret (Done result)) 0.

(** The inner [for] of strspn reads [string[result]] only when [characters] is
    not empty, and returns from strspn at the first character that differs. *)
Definition strspn_differs (fuel : nat) (p characters : Z) : ST S bool :=
  loop fuel (λ i,
    x ← load (characters + i);
    if Z_bool x then
      c ← load p;
      if negb (c =? x) then mret (Done true) else mret (Next (i + 1))
    else mret (Done false)) 0.

Definition strspn (fuel : nat) (string characters : Z) : ST S Z :=
  loop fuel (λ result,
    differs ← strspn_differs fuel (string + result) characters;
    if differs : bool then mret (Done result) else mret (Next (result + 1))) 0.
End routines.

(** *** strtok.c: the [static char *next] is a state component of its own *)
Record strtok_state : Type := StrtokState { strtok_next : Z }.

Section strtok.
Context {S : Type} `{L : !Lens S mem} `{N : !Lens S strtok_state}.

Definition get_next : ST S Z := λ s, Ok (strtok_next (get s), s).
Definition set_next (p : Z) : ST S unit := λ s, Ok (tt, set (StrtokState p) s).

Definition strtok (fuel : nat) (str seperator : Z) : ST S Z :=
  next ← get_next;
  let str := if negb (Z_bool str) then next else str in
  if negb (Z_bool str) then mret NULL else
  n ← strspn fuel str seperator;
  let str := str + n in
  c ← load str;
  if negb (Z_bool c) then mret NULL else
  tokenEnd ← strcspn fuel str seperator;
  e ← load (str + tokenEnd);
  (if e =? 0 then set_next NULL
   else store (str + tokenEnd) 0;; set_next (str + tokenEnd + 1));;
  mret str.
End strtok.

(** *** ctype/isspace.c *)
Definition isspace (c : Z) : bool :=
  (c =? 9) || (c =? 10) || (c =? 11) || (c =? 12) || (c =? 13) || (c =? 32).

(** ** Reference functions on the strings themselves *)

(** Lexicographic comparison of byte strings, as -1, 0 or 1. *)
Fixpoint lex_cmp (a b : list Z) : Z :=
  match a, b with
  | [], [] => 0
  | [], _ :: _ => -1
  | _ :: _, [] => 1
  | x :: a, y :: b => if x <? y then -1 else if y <? x then 1 else lex_cmp a b
  end.

(** The number of leading characters that satisfy [P]. *)
Fixpoint span_len (P : Z → bool) (l : list Z) : nat :=
  match l with
  | x :: l => if P x then Datatypes.S (span_len P l) else O
  | [] => O
  end.

(** The first and the last position of a character. *)
Fixpoint first_pos (c : Z) (l : list Z) : option nat :=
  match l with
  | [] => None
  | x :: l => if x =? c then Some O else Datatypes.S <$> first_pos c l
  end.

Fixpoint last_pos (c : Z) (l : list Z) : option nat :=
  match l with
  | [] => None
  | x :: l =>
      match last_pos c l with
      | Some n => Some (Datatypes.S n)
      | None => if x =? c then Some O else None
      end
  end.

Definition ptr_of (p : Z) (pos : option nat) : Z :=
  match pos with Some n => p + Z.of_nat n | None => NULL end.

Definition mem_Z (l : list Z) (c : Z) : bool := bool_decide (c ∈ l).

Lemma lex_cmp_refl a : lex_cmp a a = 0.
Proof. induction a as [|x a IH]; cbn; [done|]. by rewrite Z.ltb_irrefl. Qed.

Lemma lex_cmp_eq a b : lex_cmp a b = 0 ↔ a = b.
Proof.
  split; [|intros ->; apply lex_cmp_refl].
  revert b. induction a as [|x a IH]; intros [|y b]; cbn; try done.
  zcase (x <? y). zcase (y <? x). intros ?. f_equal; [lia | auto].
Qed.

Lemma lex_cmp_anti a b : lex_cmp a b = - lex_cmp b a.
Proof.
  revert b. induction a as [|x a IH]; intros [|y b]; cbn; try done.
  zcase (x <? y); zcase (y <? x). auto.
Qed.

Lemma span_len_le P l : (span_len P l <= length l)%nat.
Proof. induction l as [|x l IH]; cbn; [lia|]. destruct (P x); lia. Qed.

Lemma span_len_before P l j c :
  (j < span_len P l)%nat → l !! j = Some c → P c = true.
Proof.
  revert j. induction l as [|x l IH]; intros j; cbn; [lia|].
  destruct (P x) eqn:E; [|lia]. destruct j as [|j]; cbn; [by intros _ [= ->]|].
  intros ? ?. apply (IH j); [lia|done].
Qed.

Lemma span_len_at P l c : l !! span_len P l = Some c → P c = false.
Proof.
  induction l as [|x l IH]; cbn; [done|].
  destruct (P x) eqn:E; cbn; [done|]. by intros [= ->].
Qed.

Lemma mem_Z_true l c : mem_Z l c = true ↔ c ∈ l.
Proof. apply bool_decide_eq_true. Qed.

Lemma mem_Z_false l c : mem_Z l c = false ↔ c ∉ l.
Proof. apply bool_decide_eq_false. Qed.

(** ** Stepping through translated code *)
Ltac run_load H := erewrite bind_ok; [|apply load_ok; exact H].
Ltac run H := erewrite bind_ok; [|exact H].

(** Name the body of the loop in the goal, and generalise its start value. *)
Ltac name_loop body :=
  lazymatch goal with |- context [loop _ ?f _ _] => set (body := f) end.
Ltac enter := lazymatch goal with |- ?body _ _ = _ => unfold body end.

Lemma nz_char b : char_ok b → (b =? 0) = false.
Proof. unfold char_ok. intros. apply Z.eqb_neq. lia. Qed.

Lemma nz_bool b : char_ok b → Z_bool b = true.
Proof. intros H. unfold Z_bool. by rewrite (nz_char b H). Qed.

Section strings.
Context {S : Type} `{L : !Lens S mem}.
Implicit Types s : S.

(** Reading character [j] of a C string, the terminator included. *)
Lemma load_char s p str j :
  cstr (memory s) p str → (j <= length str)%nat →
  load (p + Z.of_nat j) s = Ok (default 0 (str !! j), s).
Proof. apply load_cstr. Qed.

Lemma char_at str j : Forall char_ok str → (j < length str)%nat →
  ∃ c, str !! j = Some c ∧ char_ok c.
Proof.
  intros H Hj. destruct (lookup_lt_is_Some_2 str j Hj) as [c Hc].
  exists c. split; [done|]. by eapply Forall_lookup_1.
Qed.

(** strlen of a C string is its length. *)
Lemma strlen_ok s fuel p str :
  cstr (memory s) p str → (length str < fuel)%nat →
  strlen fuel p s = Ok (Z.of_nat (length str), s).
Proof.
  intros H Hf. unfold strlen. rewrite <-(Z.add_0_r p) at 1.
  apply (loop_trace (λ j, (p + Z.of_nat j, Z.of_nat j)) (λ _, s) _ (length str)); [|..|done].
  - intros j Hj. cbn. run (load_char s p str j H ltac:(lia)).
    destruct (char_at str j (proj1 H) Hj) as (c & -> & Hc). cbn. rewrite nz_bool by done.
    by rewrite !Nat2Z.inj_succ, <-!Z.add_1_r, Z.add_assoc.
  - cbn. run (load_char s p str _ H (le_n _)). by rewrite lookup_ge_None_2.
Qed.

Lemma strnlen_ok s p str maxlen :
  cstr (memory s) p str → 0 <= maxlen →
  strnlen p maxlen s = Ok (Z.min (Z.of_nat (length str)) maxlen, s).
Proof.
  intros H Hm. unfold strnlen.
  apply (loop_scan _ 0 _ (Z.to_nat (Z.min (Z.of_nat (length str)) maxlen))); [|..|lia].
  - intros j Hj. rewrite (proj2 (Z.ltb_lt _ _)) by lia. cbn.
    run (load_char s p str j H ltac:(lia)).
    destruct (char_at str j (proj1 H) ltac:(lia)) as (c & -> & Hc). cbn. by rewrite nz_bool.
  - rewrite Z2Nat.id, Z.add_0_l by lia.
    destruct (Z.min_spec (Z.of_nat (length str)) maxlen) as [[? ->]|[? ->]].
    + rewrite (proj2 (Z.ltb_lt _ _)) by lia.
      run (load_char s p str _ H (le_n _)). by rewrite lookup_ge_None_2.
    + by rewrite Z.ltb_irrefl.
Qed.

(** strcmp computes the lexicographic comparison. *)
Lemma strcmp_ok s fuel pa pb a b :
  cstr (memory s) pa a → cstr (memory s) pb b → (length a < fuel)%nat →
  strcmp fuel pa pb s = Ok (lex_cmp a b, s).
Proof.
  unfold strcmp. intros Ha Hb Hf. name_loop body.
  rewrite <-(Z.add_0_r pa) in Ha. rewrite <-(Z.add_0_r pb) in Hb.
  revert Ha Hb. generalize 0 as i. revert b fuel Hf.
  induction a as [|x a IH]; intros b fuel Hf i Ha Hb; (destruct fuel as [|fuel]; [cbn in Hf; lia|]).
  - apply cstr_nil in Ha. destruct b as [|y b].
    + apply cstr_nil in Hb. apply loop_done. enter. run_load Ha. by run_load Hb.
    + apply cstr_cons in Hb as (Hy & Hb & _). apply loop_done. enter.
      run_load Ha. run_load Hb. cbn. rewrite (nz_char y Hy).
      unfold char_ok in Hy. by rewrite (proj2 (Z.ltb_lt 0 y)) by lia.
  - apply cstr_cons in Ha as (Hx & Ha & Ha'). destruct b as [|y b].
    + apply cstr_nil in Hb. apply loop_done. enter.
      run_load Ha. run_load Hb. rewrite (nz_char x Hx). cbn. unfold char_ok in Hx.
      by rewrite (proj2 (Z.ltb_ge x 0)), (proj2 (Z.ltb_lt 0 x)) by lia.
    + apply cstr_cons in Hb as (Hy & Hb & Hb'). cbn [lex_cmp].
      assert (body i s = (if x <? y then mret (Done (-1)) else if y <? x then mret (Done 1)
                          else mret (Next (i + 1)) : ST S (step Z Z)) s) as Hbody.
      { enter. run_load Ha. run_load Hb. by rewrite (nz_char x Hx). }
      zcase (x <? y); [by apply loop_done|].
      zcase (y <? x); [by apply loop_done|].
      erewrite loop_next; [|exact Hbody]. apply IH; [cbn in Hf; lia|..]; by rewrite Z.add_assoc.
Qed.

Lemma memcmp_ok s pa pb a b :
  bytes_at (memory s) pa a → bytes_at (memory s) pb b → length a = length b →
  memcmp pa pb (Z.of_nat (length a)) s = Ok (lex_cmp a b, s).
Proof.
  unfold memcmp. rewrite Nat2Z.id. intros Ha Hb Hl.
  remember (Z.of_nat (length a)) as size eqn:Hlen. name_loop body.
  rewrite <-(Z.add_0_r pa) in Ha. rewrite <-(Z.add_0_r pb) in Hb.
  rewrite <-(Z.add_0_l (Z.of_nat _)) in Hlen.
  revert Ha Hb Hlen. generalize 0 as i. revert b Hl.
  induction a as [|x a IH]; intros [|y b] Hl i Ha Hb Hlen; try done; cbn [length] in *.
  - apply loop_done. enter. by rewrite (proj2 (Z.ltb_ge _ _)) by lia.
  - apply bytes_at_cons in Ha as [Hx Ha], Hb as [Hy Hb].
    assert (body i s = (if x <? y then mret (Done (-1)) else if y <? x then mret (Done 1)
                        else mret (Next (i + 1)) : ST S (step Z Z)) s) as Hbody.
    { enter. rewrite (proj2 (Z.ltb_lt _ _)) by lia. run_load Hx. by run_load Hy. }
    cbn [lex_cmp]. zcase (x <? y); [by apply loop_done|].
    zcase (y <? x); [by apply loop_done|].
    erewrite loop_next; [|exact Hbody]. apply IH; [lia|..|lia]; by rewrite Z.add_assoc.
Qed.

(** *** Copies *)
Lemma store_byte s p b :
  is_Some (memory s !! p) → byte_ok b →
  store p b s = Ok (tt, with_memory s (<[p := b]> (memory s))).
Proof. intros H ?. by rewrite store_ok, u8_small. Qed.

Lemma read_byte bs j : Forall byte_ok bs → (j < length bs)%nat →
  ∃ c, bs !! j = Some c ∧ byte_ok c.
Proof.
  intros H Hj. destruct (lookup_lt_is_Some_2 bs j Hj) as [c Hc].
  exists c. split; [done|]. by eapply Forall_lookup_1.
Qed.

(** The ascending copy loop, shared by memcpy and memmove. *)
Lemma copy_up_ok s dest src bs :
  bytes_at (memory s) src bs → Forall byte_ok bs →
  mapped (memory s) dest (Z.of_nat (length bs)) →
  dest <= src ∨ src + Z.of_nat (length bs) <= dest →
  loop (Datatypes.S (Z.to_nat (Z.of_nat (length bs)))) (λ i,
    if i <? Z.of_nat (length bs) then
      c ← load (src + i); store (dest + i) c;; mret (Next (i + 1))
    else mret (Done dest)) 0 s =
  Ok (dest, with_memory s (write_bytes (memory s) dest bs)).
Proof.
  intros Hs Hb Hd Hdis. rewrite Nat2Z.id. rewrite <-(with_memory_id s) at 1.
  apply (loop_trace (λ j, Z.of_nat j)
           (λ j, with_memory s (write_bytes (memory s) dest (take j bs))) _ (length bs)); [|..|lia].
  - intros j Hj. rewrite (proj2 (Z.ltb_lt _ _)) by lia.
    destruct (read_byte bs j Hb Hj) as (c & Hc & Hcb).
    erewrite bind_ok; [|apply load_ok; autorewrite with lens].
    2: { rewrite lookup_write_bytes_out; [by apply Hs|]. rewrite length_take. lia. }
    erewrite bind_ok; [|apply store_byte; [autorewrite with lens|done]].
    2: { apply mapped_write with (n := Z.of_nat (length bs)) (q := dest); [done|lia]. }
    autorewrite with lens. rewrite (write_bytes_snoc _ _ _ _ _ Hc).
    by replace (Z.of_nat j + 1) with (Z.of_nat (Datatypes.S j)) by lia.
  - by rewrite Z.ltb_irrefl, take_ge.
Qed.

Lemma memcpy_ok s dest src bs :
  bytes_at (memory s) src bs → Forall byte_ok bs →
  mapped (memory s) dest (Z.of_nat (length bs)) →
  disjoint_range dest (Z.of_nat (length bs)) src (Z.of_nat (length bs)) →
  memcpy dest src (Z.of_nat (length bs)) s =
  Ok (dest, with_memory s (write_bytes (memory s) dest bs)).
Proof. unfold disjoint_range. intros. apply copy_up_ok; try done. lia. Qed.

Lemma memmove_ok s dest src bs :
  bytes_at (memory s) src bs → Forall byte_ok bs →
  mapped (memory s) dest (Z.of_nat (length bs)) →
  memmove dest src (Z.of_nat (length bs)) s =
  Ok (dest, with_memory s (write_bytes (memory s) dest bs)).
Proof.
  intros Hs Hb Hd. unfold memmove. zcase (dest <? src); [apply copy_up_ok; auto with lia|].
  rewrite Nat2Z.id. rewrite <-(with_memory_id s) at 1.
  set (n := length bs).
  pose (st := λ j, with_memory s
          (write_bytes (memory s) (dest + Z.of_nat (n - j)) (drop (n - j) bs))).
  assert (with_memory s (memory s) = st 0%nat) as ->.
  { unfold st. by rewrite drop_ge by lia. }
  assert (Z.of_nat n = Z.of_nat (n - 0)) as Hn by lia. rewrite Hn at 1.
  apply (loop_trace (λ j, Z.of_nat (n - j)) st _ n); [|..|lia].
  - intros j Hj. rewrite (proj2 (Z.ltb_lt _ _)) by lia.
    destruct (read_byte bs (n - Datatypes.S j) Hb ltac:(lia)) as (c & Hc & Hcb).
    assert (Z.of_nat (n - j) - 1 = Z.of_nat (n - Datatypes.S j)) as -> by lia. unfold st.
    erewrite bind_ok; [|apply load_ok; autorewrite with lens].
    2: { rewrite lookup_write_bytes_out; [by apply Hs|]. lia. }
    erewrite bind_ok; [|apply store_byte; [autorewrite with lens|done]].
    2: { apply mapped_write with (n := Z.of_nat (length bs)) (q := dest); [done|lia]. }
    autorewrite with lens. rewrite (write_bytes_drop _ _ _ _ _ Hc).
    by replace (Datatypes.S (n - Datatypes.S j)) with (n - j)%nat by lia.
  - rewrite Nat.sub_diag. unfold st. by rewrite Nat.sub_diag, Z.add_0_r.
Qed.

Lemma memset_ok s dest value n :
  mapped (memory s) dest (Z.of_nat n) →
  memset dest value (Z.of_nat n) s =
  Ok (dest, with_memory s (write_bytes (memory s) dest (replicate n (u8 value)))).
Proof.
  intros Hd. unfold memset. rewrite Nat2Z.id. rewrite <-(with_memory_id s) at 1.
  apply (loop_trace (λ j, Z.of_nat j)
    (λ j, with_memory s (write_bytes (memory s) dest (replicate j (u8 value)))) _ n); [|..|lia].
  - intros j Hj. rewrite (proj2 (Z.ltb_lt _ _)) by lia.
    erewrite bind_ok; [|apply store_byte; [autorewrite with lens|apply u8_range]].
    2: { apply mapped_write with (n := Z.of_nat n) (q := dest); [done|lia]. }
    autorewrite with lens. rewrite replicate_S_end, write_bytes_app, length_replicate.
    by replace (Z.of_nat j + 1) with (Z.of_nat (Datatypes.S j)) by lia.
  - by rewrite Z.ltb_irrefl.
Qed.

(** The copy loop of strcpy and stpcpy. *)
Lemma str_copy_ok s fuel d p str :
  cstr (memory s) p str → mapped (memory s) d (Z.of_nat (length str)) →
  disjoint_range d (Z.of_nat (length str)) p (Z.of_nat (length str) + 1) →
  (length str < fuel)%nat →
  loop fuel (λ '(s1, s2),
    c ← load s2;
    if Z_bool c then store s1 c;; mret (Next (s1 + 1, s2 + 1)) else mret (Done s1)) (d, p) s =
  Ok (d + Z.of_nat (length str), with_memory s (write_bytes (memory s) d str)).
Proof.
  unfold disjoint_range. intros H Hd Hdis Hf.
  rewrite <-(with_memory_id s) at 1. rewrite <-(Z.add_0_r d) at 1. rewrite <-(Z.add_0_r p).
  pose proof (cstr_bytes _ _ _ H) as Hb.
  apply (loop_trace (λ j, (d + Z.of_nat j, p + Z.of_nat j))
    (λ j, with_memory s (write_bytes (memory s) d (take j str))) _ (length str)); [|..|done].
  - intros j Hj. cbn. destruct (char_at str j (proj1 H) Hj) as (c & Hc & Hcc).
    erewrite bind_ok; [|apply load_ok; autorewrite with lens].
    2: { rewrite lookup_write_bytes_out; [|rewrite length_take; lia].
         apply Hb. rewrite lookup_app_l; done. }
    rewrite nz_bool by done.
    erewrite bind_ok; [|apply store_byte; [autorewrite with lens|unfold byte_ok, char_ok in *; lia]].
    2: { apply mapped_write with (n := Z.of_nat (length str)) (q := d); [done|lia]. }
    autorewrite with lens. rewrite (write_bytes_snoc _ _ _ _ _ Hc).
    by rewrite !Nat2Z.inj_succ, <-!Z.add_1_r, !Z.add_assoc.
  - cbn. erewrite bind_ok; [|apply load_ok; autorewrite with lens].
    2: { rewrite lookup_write_bytes_out; [|rewrite length_take; lia].
         apply Hb. rewrite lookup_app_r, Nat.sub_diag by lia. done. }
    by rewrite take_ge.
Qed.

(** The copy loop followed by the store of the terminator. *)
Lemma str_copy_nul s fuel d p str :
  cstr (memory s) p str → mapped (memory s) d (Z.of_nat (length str) + 1) →
  disjoint_range d (Z.of_nat (length str) + 1) p (Z.of_nat (length str) + 1) →
  (length str < fuel)%nat → ∀ ret,
  (q ← loop fuel (λ '(s1, s2),
     c ← load s2;
     if Z_bool c then store s1 c;; mret (Next (s1 + 1, s2 + 1)) else mret (Done s1)) (d, p);
   store q 0;; mret (ret q : Z)) s =
  Ok (ret (d + Z.of_nat (length str)), with_memory s (write_bytes (memory s) d (str ++ [0]))).
Proof.
  intros H Hd Hdis Hf ret.
  erewrite bind_ok; [|apply str_copy_ok; [exact H|..|exact Hf]].
  2: { intros q ?. apply Hd. lia. } 2: { unfold disjoint_range in *. lia. }
  erewrite bind_ok; [|apply store_byte; [autorewrite with lens|unfold byte_ok; lia]].
  2: { apply mapped_write with (n := Z.of_nat (length str) + 1) (q := d); [done|lia]. }
  autorewrite with lens. by rewrite write_bytes_app.
Qed.

Lemma stpcpy_ok s fuel d p str :
  cstr (memory s) p str → mapped (memory s) d (Z.of_nat (length str) + 1) →
  disjoint_range d (Z.of_nat (length str) + 1) p (Z.of_nat (length str) + 1) →
  (length str < fuel)%nat →
  stpcpy fuel d p s =
  Ok (d + Z.of_nat (length str), with_memory s (write_bytes (memory s) d (str ++ [0]))).
Proof. intros. by apply (str_copy_nul s fuel d p str) with (ret := λ q, q). Qed.

Lemma strcpy_ok s fuel d p str :
  cstr (memory s) p str → mapped (memory s) d (Z.of_nat (length str) + 1) →
  disjoint_range d (Z.of_nat (length str) + 1) p (Z.of_nat (length str) + 1) →
  (length str < fuel)%nat →
  strcpy fuel d p s = Ok (d, with_memory s (write_bytes (memory s) d (str ++ [0]))).
Proof. intros. by apply (str_copy_nul s fuel d p str) with (ret := λ _, d). Qed.

(** *** Searches *)
Lemma strchr_ok s fuel p str c :
  cstr (memory s) p str → (length str < fuel)%nat →
  strchr fuel p c s = Ok (ptr_of p (first_pos (u8 c) (str ++ [0])), s).
Proof.
  unfold strchr. intros H Hf. name_loop body. revert p fuel H Hf.
  induction str as [|b str IH]; intros p fuel H Hf; (destruct fuel as [|fuel]; [cbn in Hf; lia|]).
  - apply cstr_nil in H. apply loop_done. enter. run_load H. cbn [app first_pos].
    zcase (0 =? u8 c); [|done]. cbn. by rewrite Z.add_0_r.
  - apply cstr_cons in H as (Hb & Hp & H). cbn [app first_pos].
    zcase (b =? u8 c).
    + apply loop_done. enter. run_load Hp. rewrite (proj2 (Z.eqb_eq _ _)) by done.
      cbn. by rewrite Z.add_0_r.
    + erewrite loop_next; [|enter; run_load Hp; rewrite (proj2 (Z.eqb_neq _ _)) by done; by rewrite nz_bool].
      rewrite IH by (cbn in Hf; done || lia). destruct (first_pos _ _); cbn; [do 2 f_equal; lia|done].
Qed.

Lemma strrchr_ok s fuel p str c :
  cstr (memory s) p str → (length str < fuel)%nat →
  strrchr fuel p c s = Ok (ptr_of p (last_pos (u8 c) (str ++ [0])), s).
Proof.
  unfold strrchr. intros H Hf. name_loop body.
  assert (∀ r, loop fuel body (p, r) s =
    Ok (default r ((λ n, p + Z.of_nat n) <$> last_pos (u8 c) (str ++ [0])), s)) as Hr.
  { revert p fuel H Hf.
    induction str as [|b str IH]; intros p fuel H Hf r; (destruct fuel as [|fuel]; [cbn in Hf; lia|]).
    - apply cstr_nil in H. erewrite loop_done; [|enter; by run_load H]. cbn [app last_pos].
      zcase (0 =? u8 c); [|done]. cbn. by rewrite Z.add_0_r.
    - apply cstr_cons in H as (Hb & Hp & H).
      erewrite loop_next; [|enter; run_load Hp; by rewrite nz_bool].
      rewrite IH by (cbn in Hf; done || lia). cbn [app last_pos].
      destruct (last_pos _ _); cbn; [do 2 f_equal; lia|].
      zcase (b =? u8 c); cbn; by rewrite ?Z.add_0_r. }
  rewrite Hr. by destruct (last_pos _ _).
Qed.

Lemma strcspn_found_ok s fuel q cs c :
  cstr (memory s) q cs → (length cs < fuel)%nat → char_ok c →
  strcspn_found fuel c q s = Ok (mem_Z cs c, s).
Proof.
  unfold strcspn_found. intros H Hf Hc. name_loop body.
  rewrite <-(Z.add_0_r q) in H. revert fuel H Hf. generalize 0 as i.
  induction cs as [|b cs IH]; intros i fuel H Hf; (destruct fuel as [|fuel]; [cbn in Hf; lia|]).
  - apply cstr_nil in H. apply loop_done. enter. by run_load H.
  - apply cstr_cons in H as (Hb & Hp & H). unfold mem_Z in *. zcase (c =? b).
    + subst. rewrite bool_decide_true by constructor.
      apply loop_done. enter. run_load Hp. rewrite nz_bool by done. by rewrite Z.eqb_refl.
    + erewrite loop_next; [|enter; run_load Hp; rewrite nz_bool by done;
        by rewrite (proj2 (Z.eqb_neq _ _)) by done].
      rewrite IH by (rewrite ?Z.add_assoc; cbn in Hf; done || lia). do 2 f_equal.
      apply bool_decide_ext. rewrite elem_of_cons. split; [by right|]. by intros [->|].
Qed.

(** strcspn counts the leading characters that are not in the second string. *)
Lemma strcspn_ok s fuel p q str cs :
  cstr (memory s) p str → cstr (memory s) q cs →
  (length str < fuel)%nat → (length cs < fuel)%nat →
  strcspn fuel p q s = Ok (Z.of_nat (span_len (λ c, negb (mem_Z cs c)) str), s).
Proof.
  unfold strcspn. intros H Hq Hf Hcf. set (P := λ c, negb (mem_Z cs c)).
  pose proof (span_len_le P str) as Hk.
  apply (loop_scan _ 0 _ (span_len P str)); [..|lia].
  - intros j Hj. cbn. run (load_char s p str j H ltac:(lia)).
    destruct (char_at str j (proj1 H) ltac:(lia)) as (c & Hc & Hcc). rewrite Hc. cbn.
    rewrite nz_bool by done. run (strcspn_found_ok s fuel q cs c Hq Hcf Hcc).
    pose proof (span_len_before P _ _ _ Hj Hc) as HP. subst P. cbn in HP.
    by destruct (mem_Z cs c).
  - cbn. run (load_char s p str _ H Hk). destruct (str !! _) as [c|] eqn:Hc; cbn; [|done].
    assert (char_ok c) as Hcc by (eapply Forall_lookup_1; [apply H|done]).
    rewrite nz_bool by done. run (strcspn_found_ok s fuel q cs c Hq Hcf Hcc).
    pose proof (span_len_at P _ _ Hc) as HP. subst P. cbn in HP. by destruct (mem_Z cs c).
Qed.

(** strspn compares a character with every character of the second string and
    stops at the first difference. *)
Definition all_eq (cs : list Z) (x : Z) : bool := forallb (λ c, x =? c) cs.

Lemma strspn_differs_ok s fuel p q cs x :
  cstr (memory s) q cs → (length cs < fuel)%nat → memory s !! p = Some x →
  strspn_differs fuel p q s = Ok (negb (all_eq cs x), s).
Proof.
  unfold strspn_differs. intros H Hf Hx. name_loop body.
  rewrite <-(Z.add_0_r q) in H. revert fuel H Hf. generalize 0 as i.
  induction cs as [|b cs IH]; intros i fuel H Hf; (destruct fuel as [|fuel]; [cbn in Hf; lia|]).
  - apply cstr_nil in H. apply loop_done. enter. by run_load H.
  - apply cstr_cons in H as (Hb & Hp & H). cbn [all_eq forallb].
    assert (body i s = (if negb (x =? b) then mret (Done true) else mret (Next (i + 1))
                        : ST S (step Z bool)) s) as Hbody.
    { enter. run_load Hp. rewrite nz_bool by done. by run_load Hx. }
    destruct (x =? b) eqn:E; cbn [negb] in Hbody; cbn [andb negb].
    + erewrite loop_next; [|exact Hbody]. apply IH; [by rewrite Z.add_assoc | cbn in Hf; lia].
    + by erewrite loop_done.
Qed.

Lemma strspn_ok s fuel p q str cs :
  cstr (memory s) p str → cstr (memory s) q cs → cs ≠ [] →
  (length str < fuel)%nat → (length cs < fuel)%nat →
  strspn fuel p q s = Ok (Z.of_nat (span_len (all_eq cs) str), s).
Proof.
  unfold strspn. intros H Hq Hne Hf Hcf. pose proof (span_len_le (all_eq cs) str) as Hk.
  assert (∀ j, (j <= length str)%nat →
    memory s !! (p + Z.of_nat j) = Some (default 0 (str !! j))) as Hrd.
  { intros j Hj. pose proof (load_char s p str j H Hj) as E. unfold load in E.
    by destruct (memory s !! _); simplify_eq/=. }
  apply (loop_scan _ 0 _ (span_len (all_eq cs) str)); [..|lia].
  - intros j Hj. cbn. destruct (char_at str j (proj1 H) ltac:(lia)) as (c & Hc & Hcc).
    run (strspn_differs_ok s fuel _ q cs _ Hq Hcf (Hrd j ltac:(lia))).
    rewrite Hc. cbn. by rewrite (span_len_before _ _ _ _ Hj Hc).
  - cbn. run (strspn_differs_ok s fuel _ q cs _ Hq Hcf (Hrd _ Hk)).
    destruct (str !! _) as [c|] eqn:Hc; cbn [from_option id]; [by rewrite (span_len_at _ _ _ Hc)|].
    destruct cs as [|b cs]; [done|]. destruct Hq as [Hch _].
    apply list.Forall_cons in Hch as [Hb _]. unfold all_eq. cbn [forallb]. by rewrite (Z.eqb_sym 0), nz_char.
Qed.

Lemma strspn_empty_diverges s fuel fuel' p q :
  cstr (memory s) q [] →
  loop fuel (λ result,
    differs ← strspn_differs (Datatypes.S fuel') (p + result) q;
    if differs : bool then mret (Done result) else mret (Next (result + 1))) 0 s = NoFuel.
Proof.
  intros H. apply cstr_nil in H.
  apply (loop_diverges (λ _ s', s' = s)); [|done].
  intros a ? ->. exists (a + 1), s. split; [|done].
  erewrite bind_ok; [|unfold strspn_differs; apply loop_done; rewrite Z.add_0_r; by run_load H].
  done.
Qed.

(** *** strncmp *)
Lemma strncmp_ok s pa pb a b n :
  cstr (memory s) pa a → cstr (memory s) pb b →
  strncmp pa pb (Z.of_nat n) s = Ok (lex_cmp (take n a) (take n b), s).
Proof.
  unfold strncmp. rewrite Nat2Z.id. intros Ha Hb.
  remember (Z.of_nat n) as size eqn:Hlen. name_loop body.
  rewrite <-(Z.add_0_r pa) in Ha. rewrite <-(Z.add_0_r pb) in Hb.
  rewrite <-(Z.add_0_l (Z.of_nat _)) in Hlen.
  revert a b Ha Hb Hlen. generalize 0 as i.
  induction n as [|n IH]; intros i a b Ha Hb Hlen.
  - apply loop_done. enter. by rewrite (proj2 (Z.ltb_ge _ _)) by lia.
  - assert ((i <? size) = true) as Hi by (apply Z.ltb_lt; lia).
    destruct a as [|x a], b as [|y b]; cbn [take lex_cmp].
    + apply cstr_nil in Ha, Hb. apply loop_done. enter. rewrite Hi. run_load Ha. by run_load Hb.
    + apply cstr_nil in Ha. apply cstr_cons in Hb as (Hy & Hb & _). apply loop_done. enter.
      rewrite Hi. run_load Ha. run_load Hb. unfold char_ok in Hy.
      by rewrite (proj2 (Z.ltb_lt 0 y)) by lia.
    + apply cstr_nil in Hb. apply cstr_cons in Ha as (Hx & Ha & _). apply loop_done. enter.
      rewrite Hi. run_load Ha. run_load Hb. unfold char_ok in Hx.
      by rewrite (proj2 (Z.ltb_ge x 0)), (proj2 (Z.ltb_lt 0 x)) by lia.
    + apply cstr_cons in Ha as (Hx & Ha & Ha'), Hb as (Hy & Hb & Hb').
      assert (body i s = (if x <? y then mret (Done (-1)) else if y <? x then mret (Done 1)
                          else mret (Next (i + 1)) : ST S (step Z Z)) s) as Hbody.
      { enter. rewrite Hi. run_load Ha. run_load Hb. by rewrite (nz_char x Hx). }
      zcase (x <? y); [by apply loop_done|].
      zcase (y <? x); [by apply loop_done|].
      erewrite loop_next; [|exact Hbody]. apply IH; [by rewrite Z.add_assoc..|lia].
Qed.
End strings.

(** *** strtok, with a separator string of one character *)
Section strtok_lemmas.
Context {S : Type} `{L : !Lens S mem} `{N : !Lens S strtok_state}.
Implicit Types s : S.

(** Where strtok starts: its argument, or where the last call stopped. *)
Definition strtok_start (str : Z) (s : S) : Z :=
  if Z_bool str then str else strtok_next (get s).

Definition set_strtok (p : Z) (s : S) : S := set (StrtokState p) s.

Lemma strtok_null s fuel q :
  strtok_next (get s) = NULL → strtok fuel NULL q s = Ok (NULL, s).
Proof. intros H. unfold strtok, mbind, ST_bind, get_next. cbn. by rewrite H. Qed.

(** The start of the next token and its length. *)
Definition tok_skip (c : Z) (txt : list Z) : nat := span_len (λ x, x =? c) txt.
Definition tok_len (c : Z) (txt : list Z) : nat :=
  span_len (λ x, negb (x =? c)) (drop (tok_skip c txt) txt).

Lemma all_eq_single c x : all_eq [c] x = (x =? c).
Proof. apply andb_true_r. Qed.

Lemma mem_Z_single c x : mem_Z [c] x = (x =? c).
Proof.
  unfold mem_Z. zcase (x =? c); [apply bool_decide_eq_true | apply bool_decide_eq_false];
    by rewrite list_elem_of_singleton.
Qed.

Lemma span_len_ext P Q l : (∀ x, P x = Q x) → span_len P l = span_len Q l.
Proof. intros H. induction l as [|x l IH]; cbn; [done|]. by rewrite H, IH. Qed.

(** No token left: NULL, and nothing changes. *)
Lemma strtok_none s fuel str q c txt :
  let p := strtok_start str s in
  Z_bool p = true → cstr (memory s) p txt → cstr (memory s) q [c] →
  (length txt < fuel)%nat → (1 < fuel)%nat →
  drop (tok_skip c txt) txt = [] →
  strtok fuel str q s = Ok (NULL, s).
Proof.
  intros p Hp H Hq Hf Hf1 Hd. unfold strtok. rewrite bind_ok with (a := strtok_next (get s)) (s' := s) by done.
  unfold p, strtok_start in *.
  assert ((if negb (Z_bool str) then strtok_next (get s) else str) =
          (if Z_bool str then str else strtok_next (get s))) as -> by (by destruct (Z_bool str)).
  set (p' := if Z_bool str then _ else _) in *. rewrite Hp. cbn [negb].
  run (strspn_ok s fuel p' q txt [c] H Hq ltac:(done) Hf Hf1).
  rewrite (span_len_ext _ (λ x, x =? c)) by apply all_eq_single. fold (tok_skip c txt).
  pose proof (span_len_le (λ x, x =? c) txt) as Hk. fold (tok_skip c txt) in Hk.
  pose proof (cstr_drop _ _ _ _ Hk H) as H'. rewrite Hd in H'. apply cstr_nil in H'.
  by run_load H'.
Qed.

(** A token is found: its start is returned, it is terminated in place, and
    the next call starts behind it, or finds nothing when it was the last. *)
Lemma strtok_some s fuel str q c txt :
  let p := strtok_start str s in
  Z_bool p = true → cstr (memory s) p txt → cstr (memory s) q [c] →
  (length txt < fuel)%nat → (1 < fuel)%nat →
  drop (tok_skip c txt) txt ≠ [] →
  let b := p + Z.of_nat (tok_skip c txt) in
  let e := b + Z.of_nat (tok_len c txt) in
  strtok fuel str q s =
  Ok (b, if decide (tok_skip c txt + tok_len c txt = length txt)%nat then set_strtok NULL s
         else set_strtok (e + 1) (with_memory s (<[e := 0]> (memory s)))).
Proof.
  intros p Hp H Hq Hf Hf1 Hd b e. unfold strtok.
  rewrite bind_ok with (a := strtok_next (get s)) (s' := s) by done.
  unfold p, strtok_start in *.
  assert ((if negb (Z_bool str) then strtok_next (get s) else str) =
          (if Z_bool str then str else strtok_next (get s))) as -> by (by destruct (Z_bool str)).
  set (p' := if Z_bool str then _ else _) in *. rewrite Hp. cbn [negb].
  run (strspn_ok s fuel p' q txt [c] H Hq ltac:(done) Hf Hf1).
  rewrite (span_len_ext _ (λ x, x =? c)) by apply all_eq_single. fold (tok_skip c txt) b.
  pose proof (span_len_le (λ x, x =? c) txt) as Hk. fold (tok_skip c txt) in Hk.
  pose proof (cstr_drop _ _ _ _ Hk H) as H'. fold b in H'.
  unfold tok_len in *. set (rest := drop (tok_skip c txt) txt) in *.
  assert (length rest = length txt - tok_skip c txt)%nat as Hlen by apply length_drop.
  pose proof (load_char s b rest 0 H' ltac:(lia)) as Hld. rewrite Z.add_0_r in Hld. run Hld.
  destruct (char_at rest 0 (proj1 H')) as (x & Hx & Hxc); [destruct rest; cbn; [done|lia]|].
  rewrite Hx. cbn [from_option id]. rewrite nz_bool by done. cbn [negb].
  run (strcspn_ok s fuel b q rest [c] H' Hq ltac:(lia) Hf1).
  rewrite (span_len_ext _ (λ x, negb (x =? c))) by (intros; by rewrite mem_Z_single). fold e.
  pose proof (span_len_le (λ x, negb (x =? c)) rest) as Hk'.
  run (load_char s b rest _ H' Hk'). case_decide as Hdec.
  - rewrite lookup_ge_None_2 by lia. done.
  - destruct (char_at rest (span_len (λ x, negb (x =? c)) rest) (proj1 H')) as (y & Hy & Hyc); [lia|].
    rewrite Hy. cbn [from_option id]. rewrite (nz_char y) by done.
    erewrite bind_ok; [done|]. erewrite bind_ok; [done|].
    rewrite store_byte; [done| |unfold byte_ok; lia].
    exists y. apply (proj2 H'). by rewrite lookup_app_l by (by eapply lookup_lt_Some).
Qed.
End strtok_lemmas.
