(* ===== verification/Libgen.v ===== *)
(** * basename and dirname (libc/src/libgen)

    Both work in place on the path.  [dot] and [slash] are the addresses of the
    string literals "." and "/" that they return.  The reference functions
    [base_name] and [dir_name] work on the path as a list of characters, read
    backwards. *)
From S2P Require Import Prelude Memory CString.

Definition SLASH : Z := 47.

Section libgen.
Context {S : Type} `{L : !Lens S mem}.
Context (dot slash : Z).

Definition basename (fuel : nat) (path : Z) : ST S Z :=
  if negb (Z_bool path) then mret dot else
  c ← load path;
  if negb (Z_bool c) then mret dot else
  len ← strlen fuel path;
  i ← loop fuel (λ i,
    if Z_bool i then
      c ← load (path + i);
      if c =? SLASH then store (path + i) 0;; mret (Next (i - 1)) else mret (Done i)
    else mret (Done i)) (len - 1);
  i ← loop fuel (λ i,
    if Z_bool i then
      c ← load (path + (i - 1));
      if negb (c =? SLASH) then mret (Next (i - 1)) else mret (Done i)
    else mret (Done i)) i;
  mret (path + i).

(** The three loops of dirname; [inr p] is an early [return p]. *)
Definition skip_while (fuel : nat) (path : Z) (test : Z → bool) (ret i : Z) : ST S (Z + Z) :=
  loop fuel (λ i,
    c ← load (path + i);
    if test c then
      if negb (Z_bool i) then mret (Done (inr ret)) else mret (Next (i - 1))
    else mret (Done (inl i))) i.

Definition dirname (fuel : nat) (path : Z) : ST S Z :=
  if negb (Z_bool path) then mret dot else
  c ← load path;
  if negb (Z_bool c) then mret dot else
  len ← strlen fuel path;
  r ← skip_while fuel path (λ c, c =? SLASH) slash (len - 1);
  match r with
  | inr p => mret p
  | inl i =>
      r ← skip_while fuel path (λ c, negb (c =? SLASH)) dot i;
      match r with
      | inr p => mret p
      | inl i =>
          r ← skip_while fuel path (λ c, c =? SLASH) slash i;
          match r with
          | inr p => mret p
          | inl i => store (path + (i + 1)) 0;; mret path
          end
      end
  end.
End libgen.

(** ** Reference functions *)
Fixpoint drop_while (P : Z → bool) (l : list Z) : list Z :=
  match l with x :: l' => if P x then drop_while P l' else l | [] => [] end.
Fixpoint take_while (P : Z → bool) (l : list Z) : list Z :=
  match l with x :: l' => if P x then x :: take_while P l' else [] | [] => [] end.

Definition is_slash (c : Z) : bool := c =? SLASH.
Definition no_slash (c : Z) : bool := negb (c =? SLASH).

(** The last component: what follows the last slash, trailing slashes aside;
    "/" for a path of slashes. *)
Definition base_name (str : list Z) : list Z :=
  match drop_while is_slash (reverse str) with
  | [] => [SLASH]
  | r => reverse (take_while no_slash r)
  end.

(** The path up to the last component, trailing slashes removed. *)
Definition dir_name (str : list Z) : list Z :=
  match drop_while is_slash (reverse str) with
  | [] => [SLASH]
  | r =>
      match drop_while no_slash r with
      | [] => [46]
      | r =>
          match drop_while is_slash r with
          | [] => [SLASH]
          | r => reverse r
          end
      end
  end.

Lemma drop_while_length P l : (length (drop_while P l) <= length l)%nat.
Proof. induction l as [|x l IH]; cbn; [lia|]. destruct (P x); cbn; lia. Qed.

Lemma take_drop_while P l : take_while P l ++ drop_while P l = l.
Proof. induction l as [|x l IH]; cbn; [done|]. destruct (P x); cbn; by rewrite ?IH. Qed.

Lemma drop_while_head P l x r : drop_while P l = x :: r → P x = false.
Proof. induction l as [|y l IH]; cbn; [done|]. destruct (P y) eqn:E; [auto|]. by intros [= -> ->]. Qed.

Section libgen_lemmas.
Context {S : Type} `{L : !Lens S mem}.
Context (dot slash : Z).
Implicit Types s : S.

(** Reading the last character of a prefix given in reverse. *)
Lemma load_last s p x r rest :
  bytes_at (memory s) p (reverse (x :: r) ++ rest) →
  load (p + Z.of_nat (length r)) s = Ok (x, s).
Proof.
  intros H. apply load_ok, H. rewrite reverse_cons, <-app_assoc.
  rewrite lookup_app_r by (by rewrite length_reverse).
  by rewrite length_reverse, Nat.sub_diag.
Qed.

Lemma bytes_rev_tail m p x r rest :
  bytes_at m p (reverse (x :: r) ++ rest) → bytes_at m p (reverse r ++ x :: rest).
Proof. by rewrite reverse_cons, <-app_assoc. Qed.

(** A loop of dirname walks backwards over the characters that pass the test. *)
Lemma skip_while_ok s fuel path test ret l rest :
  bytes_at (memory s) path (reverse l ++ rest) → l ≠ [] → (length l < fuel)%nat →
  skip_while fuel path test ret (Z.of_nat (length l) - 1) s =
  Ok (match drop_while test l with
      | [] => inr ret
      | r => inl (Z.of_nat (length r) - 1)
      end, s).
Proof.
  unfold skip_while. intros H Hne Hf. name_loop body. revert fuel rest H Hf.
  induction l as [|x l IH]; intros fuel rest H Hf; [done|]. clear Hne.
  destruct fuel as [|fuel]; [cbn in Hf; lia|].
  assert (Z.of_nat (length (x :: l)) - 1 = Z.of_nat (length l)) as -> by (cbn; lia).
  pose proof (load_last s path x l rest H) as Hld. cbn [drop_while].
  destruct (test x) eqn:Hx.
  - destruct l as [|y l].
    + erewrite loop_done; [|enter; run Hld; by rewrite Hx]. done.
    + erewrite loop_next; [|enter; run Hld; by rewrite Hx].
      apply (IH ltac:(done) fuel (x :: rest)); [by apply bytes_rev_tail | cbn in *; lia].
  - erewrite loop_done; [|enter; run Hld; by rewrite Hx].
    do 3 f_equal. cbn. lia.
Qed.

Lemma bytes_rev_split m p a b rest :
  bytes_at m p (reverse (a ++ b) ++ rest) → bytes_at m p (reverse b ++ (reverse a ++ rest)).
Proof. by rewrite reverse_app, app_assoc. Qed.

(** Cutting a string in the middle of a readable range. *)
Lemma cstr_cut m p pre rest :
  Forall char_ok pre → bytes_at m p (pre ++ rest) →
  cstr (<[p + Z.of_nat (length pre) := 0]> m) p pre.
Proof.
  intros Hc Hb. split; [done|]. apply bytes_at_app in Hb as [Hb _]. apply bytes_at_app. split.
  - intros i b Hi. pose proof (lookup_lt_Some _ _ _ Hi).
    rewrite lookup_insert_ne by lia. auto.
  - apply bytes_at_cons. split; [apply lookup_insert_eq | apply bytes_at_nil].
Qed.

Lemma drop_while_Forall (Q : Z → Prop) P l : Forall Q l → Forall Q (drop_while P l).
Proof. induction 1 as [|x l Hx Hl IH]; cbn; [constructor|]. destruct (P x); [done|by constructor]. Qed.

(** dirname returns the directory part, for every path: "." or "/" as string
    literals, with the path untouched, and any other directory in place. *)
Lemma dirname_ok s fuel path str :
  Z_bool path = true → cstr (memory s) path str → (length str < fuel)%nat →
  ∃ r s', dirname dot slash fuel path s = Ok (r, s') ∧
    ((str = [] ∨ dir_name str = [46]) ∧ r = dot ∧ s' = s ∨
     dir_name str = [SLASH] ∧ r = slash ∧ s' = s ∨
     r = path ∧ cstr (memory s') path (dir_name str) ∧
     ∃ n, s' = with_memory s (<[path + n := 0]> (memory s)) ∧ 0 < n < Z.of_nat (length str)).
Proof.
  intros Hp H Hf. unfold dirname. rewrite Hp. cbn [negb].
  destruct (decide (str = [])) as [->|Hne].
  { apply cstr_nil in H. run_load H. eauto 10. }
  pose proof (load_char s path str 0 H ltac:(lia)) as Hld. rewrite Z.add_0_r in Hld. run Hld.
  destruct (char_at str 0 (proj1 H)) as (c & -> & Hc); [destruct str; cbn; [done|lia]|].
  cbn [from_option id]. rewrite nz_bool by done. cbn [negb].
  run (strlen_ok s fuel path str H Hf).
  pose proof (cstr_bytes _ _ _ H) as Hb. rewrite <-(reverse_involutive str) in Hb.
  assert (Forall char_ok (reverse str)) as Hch by (by apply Forall_reverse, H).
  unfold dir_name. rewrite <-(length_reverse str) in *.
  set (l0 := reverse str) in *.
  assert (l0 ≠ []) as Hne0 by (intros E; apply (f_equal reverse) in E; unfold l0 in E; by rewrite reverse_involutive in E).
  erewrite bind_ok; [|by eapply skip_while_ok].
  pose proof (drop_while_length is_slash l0) as Hl1. pose proof (take_drop_while is_slash l0) as E1.
  pose proof (drop_while_Forall _ is_slash l0 Hch) as Hch1.
  rewrite <-E1 in Hb. apply bytes_rev_split in Hb.
  change (λ c, c =? SLASH) with is_slash in *. change (λ c, negb (c =? SLASH)) with no_slash in *.
  destruct (drop_while is_slash l0) as [|x1 r1] eqn:D1; [eauto 10|]. clear E1 Hch Hne.
  erewrite bind_ok; [|eapply skip_while_ok; [exact Hb|done|lia]].
  pose proof (drop_while_length no_slash (x1 :: r1)) as Hl2.
  pose proof (take_drop_while no_slash (x1 :: r1)) as E2.
  pose proof (drop_while_Forall _ no_slash _ Hch1) as Hch2.
  rewrite <-E2 in Hb. apply bytes_rev_split in Hb.
  destruct (drop_while no_slash (x1 :: r1)) as [|x2 r2] eqn:D2; [eauto 10|]. clear E2 Hch1.
  erewrite bind_ok; [|eapply skip_while_ok; [exact Hb|done|lia]].
  pose proof (drop_while_length is_slash (x2 :: r2)) as Hl3.
  pose proof (take_drop_while is_slash (x2 :: r2)) as E3.
  pose proof (drop_while_Forall _ is_slash _ Hch2) as Hch3.
  pose proof (drop_while_head _ _ _ _ D2) as Hx2.
  rewrite <-E3 in Hb. apply bytes_rev_split in Hb.
  destruct (drop_while is_slash (x2 :: r2)) as [|x3 r3] eqn:D3; [eauto 10|]. clear E3.
  assert (length (x3 :: r3) < length (x2 :: r2))%nat.
  { unfold no_slash in Hx2. apply negb_false_iff in Hx2. cbn in D3. unfold is_slash in D3.
    rewrite Hx2 in D3. pose proof (drop_while_length is_slash r2) as Hl.
    unfold is_slash in Hl. rewrite D3 in Hl. cbn in *. lia. }
  assert (Z.of_nat (length (x3 :: r3)) - 1 + 1 = Z.of_nat (length (x3 :: r3))) as -> by lia.
  pose proof Hb as Hcut. apply cstr_cut in Hcut; [|by apply Forall_reverse].
  rewrite length_reverse in Hcut.
  erewrite bind_ok; [|apply store_byte; [|unfold byte_ok; lia]].
  2: { apply (bytes_at_mapped _ _ _ (Z.of_nat (length (x3 :: r3)) + 1) Hb); [|lia].
       rewrite !length_app, !length_reverse. cbn [length]. lia. }
  do 2 eexists. split; [done|]. right; right. split; [done|]. autorewrite with lens.
  split; [done|]. exists (Z.of_nat (length (x3 :: r3))). split; [done|]. cbn [length] in *. lia.
Qed.

(** What is left of a reversed path once its trailing slashes are gone; a path
    of slashes keeps its first one. *)
Definition strip (l : list Z) : list Z :=
  match drop_while is_slash l with [] => [SLASH] | r => r end.

(** The first loop of basename blanks the trailing slashes. *)
Lemma strip_loop_ok fuel path l s :
  l ≠ [] → cstr (memory s) path (reverse l) → (length l < fuel)%nat →
  ∃ m, loop fuel (λ i,
      if Z_bool i then
        c ← load (path + i);
        if c =? SLASH then store (path + i) 0;; mret (Next (i - 1)) else mret (Done i)
      else mret (Done i)) (Z.of_nat (length l) - 1) s =
    Ok (Z.of_nat (length (strip l)) - 1, with_memory s m) ∧
    cstr m path (reverse (strip l)) ∧
    ∀ q, q < path ∨ path + Z.of_nat (length l) <= q → m !! q = memory s !! q.
Proof.
  revert fuel s. induction l as [|x l IH]; intros fuel s Hne H Hf; [done|]. clear Hne.
  destruct fuel as [|fuel]; [cbn in Hf; lia|].
  assert (Z.of_nat (length (x :: l)) - 1 = Z.of_nat (length l)) as -> by (cbn; lia).
  pose proof (cstr_bytes _ _ _ H) as Hb. pose proof (load_last s path x l [0] Hb) as Hld.
  destruct l as [|y l].
  - exists (memory s). rewrite with_memory_id. erewrite loop_done by done.
    unfold strip. cbn [drop_while]. destruct (is_slash x) eqn:Hx; [|done].
    unfold is_slash in Hx. zb. by subst x.
  - assert (Z_bool (Z.of_nat (length (y :: l))) = true) as Hi by done.
    assert (strip (x :: y :: l) = if x =? SLASH then strip (y :: l) else x :: y :: l) as ->.
    { unfold strip. cbn [drop_while]. unfold is_slash at 1. by destruct (x =? SLASH). }
    destruct (x =? SLASH) eqn:Hx.
    + erewrite loop_next.
      2: { rewrite Hi. run Hld. rewrite Hx. erewrite bind_ok; [done|]. apply store_byte.
           - eexists. unfold load in Hld. destruct (memory s !! _); by simplify_eq/=.
           - unfold byte_ok. lia. }
      destruct (IH fuel (with_memory s (<[path + Z.of_nat (length (y :: l)) := 0]> (memory s))))
        as (m & Hrun & Hm & Hfr); [done|..|cbn in *; lia|].
      * rewrite memory_with. rewrite <-(length_reverse (y :: l)).
        apply (cstr_cut _ _ _ [x; 0]).
        -- destruct H as [Hc _]. apply Forall_reverse in Hc. rewrite reverse_involutive in Hc.
           apply Forall_reverse. by inversion Hc.
        -- by rewrite reverse_cons, <-app_assoc in Hb.
      * exists m. rewrite with_memory_with in Hrun. split; [|split; [exact Hm|]].
        -- exact Hrun.
        -- intros q Hq. rewrite Hfr by (cbn in *; lia). rewrite memory_with.
           apply lookup_insert_ne. cbn in *. lia.
    + exists (memory s). rewrite with_memory_id. erewrite loop_done; [|rewrite Hi; run Hld; by rewrite Hx].
      split; [do 2 f_equal; cbn; lia|done].
Qed.

(** The second loop finds the slash before the last component. *)
Lemma base_loop_ok s fuel path x r rest :
  bytes_at (memory s) path (reverse (x :: r) ++ rest) → (length r < fuel)%nat →
  loop fuel (λ i,
    if Z_bool i then
      c ← load (path + (i - 1));
      if negb (c =? SLASH) then mret (Next (i - 1)) else mret (Done i)
    else mret (Done i)) (Z.of_nat (length r)) s =
  Ok (Z.of_nat (length (drop_while no_slash r)), s).
Proof.
  revert x rest fuel. induction r as [|y r IH]; intros x rest fuel H Hf;
    (destruct fuel as [|fuel]; [cbn in Hf; lia|]).
  - by erewrite loop_done.
  - pose proof (bytes_rev_tail _ _ _ _ _ H) as Ht.
    pose proof (load_last s path y r (x :: rest) Ht) as Hld.
    assert (Z.of_nat (length (y :: r)) - 1 = Z.of_nat (length r)) as Hi by (cbn; lia).
    assert (Z_bool (Z.of_nat (length (y :: r))) = true) as Hz by done.
    cbn [drop_while]. unfold no_slash at 1. destruct (y =? SLASH) eqn:Hy; cbn [negb].
    + erewrite loop_done; [done|]. rewrite Hz, Hi. run Hld. by rewrite Hy.
    + erewrite loop_next; [|rewrite Hz, Hi; run Hld; by rewrite Hy].
      eapply IH; [exact Ht | cbn in Hf; lia].
Qed.

(** basename returns the last component, as a C string inside the path, and
    writes nothing outside it. *)
Lemma basename_ok s fuel path str :
  Z_bool path = true → cstr (memory s) path str → (length str < fuel)%nat →
  ∃ r m, basename dot fuel path s = Ok (r, with_memory s m) ∧
    (str = [] → r = dot ∧ m = memory s) ∧
    (str ≠ [] → cstr m r (base_name str) ∧ path <= r < path + Z.of_nat (length str)) ∧
    ∀ q, q < path ∨ path + Z.of_nat (length str) <= q → m !! q = memory s !! q.
Proof.
  intros Hp H Hf. unfold basename. rewrite Hp. cbn [negb].
  destruct (decide (str = [])) as [->|Hne].
  { exists dot, (memory s). rewrite with_memory_id. apply cstr_nil in H. run_load H. done. }
  pose proof (load_char s path str 0 H ltac:(lia)) as Hld. rewrite Z.add_0_r in Hld. run Hld.
  destruct (char_at str 0 (proj1 H)) as (c & -> & Hc); [destruct str; cbn; [done|lia]|].
  cbn [from_option id]. rewrite nz_bool by done. cbn [negb].
  run (strlen_ok s fuel path str H Hf).
  rewrite <-(reverse_involutive str) in H. unfold base_name.
  rewrite <-(length_reverse str) in *. set (l := reverse str) in *.
  assert (l ≠ []) as Hl by (intros E; apply (f_equal reverse) in E; unfold l in E; by rewrite reverse_involutive in E).
  destruct (strip_loop_ok fuel path l s Hl H Hf) as (m & Hrun & Hm & Hfr). run Hrun.
  assert (length (strip l) <= length l)%nat as Hsl.
  { unfold strip. pose proof (drop_while_length is_slash l).
    destruct (drop_while is_slash l); [destruct l; cbn; [done|lia]|done]. }
  destruct (strip l) as [|x r] eqn:Es; [unfold strip in Es; by destruct (drop_while _ _)|].
  assert (Z.of_nat (length (x :: r)) - 1 = Z.of_nat (length r)) as -> by (cbn; lia).
  erewrite bind_ok; [|eapply base_loop_ok; [autorewrite with lens; apply Hm|cbn in Hsl; lia]].
  exists (path + Z.of_nat (length (drop_while no_slash r))), m.
  split; [done|]. split; [done|]. split; [|done]. intros _.
  pose proof (drop_while_length no_slash r) as Hd. split; [|cbn in *; lia].
  assert (match drop_while is_slash l with [] => [SLASH] | z :: l0 => reverse (take_while no_slash (z :: l0)) end
    = reverse (x :: take_while no_slash r)) as ->.
  { unfold strip in Es. destruct (drop_while is_slash l) as [|z l'] eqn:Ed; [by simplify_eq|].
    simplify_eq. pose proof (drop_while_head _ _ _ _ Ed) as Hx. unfold is_slash in Hx.
    cbn [take_while]. unfold no_slash at 1. by rewrite Hx. }
  pose proof (cstr_drop m path (reverse (x :: r)) (length (drop_while no_slash r)) ltac:(rewrite length_reverse; cbn [length]; lia) Hm) as Hc'.
  assert (reverse (x :: r) = reverse (drop_while no_slash r) ++ reverse (x :: take_while no_slash r)) as E
    by (by rewrite <-reverse_app, <-app_comm_cons, take_drop_while).
  rewrite E, drop_app_length' in Hc' by (by rewrite length_reverse). done.
Qed.
End libgen_lemmas.
