(* ===== verification/Errno.v ===== *)
(** * Error codes and their messages

    The constants of kernel/include/inwox/errno.h, the variable [errno]
    (libc/src/errno/errno.c) as a state component, and strerror
    (libc/src/string/strerror.c), whose switch is kept as a table in the order
    of its cases. *)
From S2P Require Import Prelude.

Definition E2BIG : Z := 1.
Definition EACCES : Z := 2.
Definition EADDRINUSE : Z := 3.
Definition EADDRNOTAVAIL : Z := 4.
Definition EAFNOSUPPORT : Z := 5.
Definition EAGAIN : Z := 6.
Definition EALREADY : Z := 7.
Definition EBADF : Z := 8.
Definition EBADMSG : Z := 9.
Definition EBUSY : Z := 10.
Definition ECANCELED : Z := 11.
Definition ECHILD : Z := 12.
Definition ECONNABORTED : Z := 13.
Definition ECONNREFUSED : Z := 14.
Definition ECONNRESET : Z := 15.
Definition EDEADLK : Z := 16.
Definition EDESTADDRREQ : Z := 17.
Definition EDOM : Z := 18.
Definition EDQUOT : Z := 19.
Definition EEXIST : Z := 20.
Definition EFAULT : Z := 21.
Definition EFBIG : Z := 22.
Definition EHOSTUNREACH : Z := 23.
Definition EIDRM : Z := 24.
Definition EILSEQ : Z := 25.
Definition EINPROGRESS : Z := 26.
Definition EINTR : Z := 27.
Definition EINVAL : Z := 28.
Definition EIO : Z := 29.
Definition EISCONN : Z := 30.
Definition EISDIR : Z := 31.
Definition ELOOP : Z := 32.
Definition EMFILE : Z := 33.
Definition EMLINK : Z := 34.
Definition EMSGSIZE : Z := 35.
Definition EMULTIHOP : Z := 36.
Definition ENAMETOOLONG : Z := 37.
Definition ENETDOWN : Z := 38.
Definition ENETRESET : Z := 39.
Definition ENETUNREACH : Z := 40.
Definition ENFILE : Z := 41.
Definition ENOBUFS : Z := 42.
Definition ENODEV : Z := 43.
Definition ENOENT : Z := 44.
Definition ENOEXEC : Z := 45.
Definition ENOLCK : Z := 46.
Definition ENOLINK : Z := 47.
Definition ENOMEM : Z := 48.
Definition ENOMSG : Z := 49.
Definition ENOPROTOOPT : Z := 50.
Definition ENOSPC : Z := 51.
Definition ENOSYS : Z := 52.
Definition ENOTCONN : Z := 53.
Definition ENOTDIR : Z := 54.
Definition ENOTEMPTY : Z := 55.
Definition ENOTRECOVERABLE : Z := 56.
Definition ENOTSOCK : Z := 57.
Definition ENOTSUP : Z := 58.
Definition ENOTTY : Z := 59.
Definition ENXIO : Z := 60.
Definition EOPNOTSUPP : Z := 61.
Definition EOVERFLOW : Z := 62.
Definition EOWNERDEAD : Z := 63.
Definition EPERM : Z := 64.
Definition EPIPE : Z := 65.
Definition EPROTO : Z := 66.
Definition EPROTONOSUPPORT : Z := 67.
Definition EPROTOTYPE : Z := 68.
Definition ERANGE : Z := 69.
Definition EROFS : Z := 70.
Definition ESPIPE : Z := 71.
Definition ESRCH : Z := 72.
Definition ESTALE : Z := 73.
Definition ETIMEDOUT : Z := 74.
Definition ETXTBSY : Z := 75.
Definition EWOULDBLOCK : Z := 76.
Definition EXDEV : Z := 77.

Record errno_st : Type := Errno { errno_val : Z }.

Section errno.
Context {S : Type} `{E : !Lens S errno_st}.
Definition get_errno : ST S Z := λ s, Ok (errno_val (get s), s).
Definition set_errno (e : Z) : ST S unit := λ s, Ok (tt, set (Errno e) s).
End errno.

(** ** strerror *)
Definition strerror_cases_1 : list (Z * string) := [
  (0, "Success");
  (E2BIG, "Argument list too long");
  (EACCES, "Permission denied");
  (EADDRINUSE, "Address already in use");
  (EADDRNOTAVAIL, "Address not available");
  (EAFNOSUPPORT, "Address family not supported");
  (EAGAIN, "Resource temporarily unavailable");
  (EALREADY, "Connection already in progress");
  (EBADF, "Bad file descriptor");
  (EBADMSG, "Bad message");
  (EBUSY, "Device or resource busy");
  (ECANCELED, "Operation canceled");
  (ECHILD, "No child processes");
  (ECONNABORTED, "Connection aborted");
  (ECONNREFUSED, "Connection refused");
  (ECONNRESET, "Connection reset");
  (EDEADLK, "Resource deadlock avoided");
  (EDESTADDRREQ, "Destination address required");
  (EDOM, "Mathematics argument out of domain of function");
  (EDQUOT, "Disk quota exceeded");
  (EEXIST, "File exists");
  (EFAULT, "Bad address");
  (EFBIG, "File too large");
  (EHOSTUNREACH, "Host is unreachable");
  (EIDRM, "Identifier removed");
  (EILSEQ, "Invalid or incomplete multibyte or wide character");
  (EINPROGRESS, "Operation in progress");
  (EINTR, "Interrupted function call");
  (EINVAL, "Invalid argument");
  (EIO, "Input/output error")
].

Definition strerror_cases_2 : list (Z * string) := [
  (EISCONN, "Socket is connected");
  (EISDIR, "Is a directory");
  (ELOOP, "Too many levels of symbolic links");
  (EMFILE, "Too many open files");
  (EMLINK, "Too many links");
  (EMSGSIZE, "Message too long");
  (EMULTIHOP, "Multihop attempted");
  (ENAMETOOLONG, "Filename too long");
  (ENETDOWN, "Network is down");
  (ENETRESET, "Connection aborted by network");
  (ENETUNREACH, "Network unreachable");
  (ENFILE, "Too many open files in system");
  (ENOBUFS, "No buffer space available");
  (ENODEV, "No such device");
  (ENOENT, "No such file or directory");
  (ENOEXEC, "Exec format error");
  (ENOLCK, "No locks available");
  (ENOLINK, "Link has been severed");
  (ENOMEM, "Not enough space/cannot allocate memory");
  (ENOMSG, "No message of the desired type");
  (ENOPROTOOPT, "Protocol not available");
  (ENOSPC, "No space left on device");
  (ENOSYS, "Function not implemented");
  (ENOTCONN, "The socket is not connected");
  (ENOTDIR, "Not a directory");
  (ENOTEMPTY, "Directory not empty");
  (ENOTRECOVERABLE, "State not recoverable");
  (ENOTSOCK, "Not a socket");
  (ENOTSUP, "Operation not supported")
].

Definition strerror_cases_3 : list (Z * string) := [
  (ENOTTY, "Inappropriate I/O control operation");
  (ENXIO, "No such device or address");
  (EOPNOTSUPP, "Operation not supported on socket");
  (EOVERFLOW, "Value too large to be stored in data type");
  (EOWNERDEAD, "Owner died");
  (EPERM, "Operation not permitted");
  (EPIPE, "Broken pipe");
  (EPROTO, "Protocol error");
  (EPROTONOSUPPORT, "Protocol not supported");
  (EPROTOTYPE, "Protocol wrong type for socket");
  (ERANGE, "Result too large");
  (EROFS, "Read-only filesystem");
  (ESPIPE, "Invalid seek");
  (ESRCH, "No such process");
  (ESTALE, "Stale file handle");
  (ETIMEDOUT, "Connection timed out");
  (ETXTBSY, "Text file busy");
  (EWOULDBLOCK, "Operation would block");
  (EXDEV, "Improper link")
].

Fixpoint switch_string (e : Z) (cases : list (Z * string)) : string :=
  match cases with
  | [] => "Unknown error"
  | (n, msg) :: cases => if e =? n then msg else switch_string e cases
  end.

Definition strerror (e : Z) : string :=
  switch_string e (strerror_cases_1 ++ strerror_cases_2 ++ strerror_cases_3).

(** ** What the table says *)
Definition error_codes : list Z := Z.of_nat <$> seq 0 78.

Fixpoint nodup_string (l : list string) : bool :=
  match l with
  | [] => true
  | x :: l => negb (existsb (String.eqb x) l) && nodup_string l
  end.

Lemma nodup_string_NoDup l : nodup_string l = true → NoDup l.
Proof.
  induction l as [|x l IH]; cbn; [constructor|].
  rewrite andb_true_iff, negb_true_iff. intros [H ?]. constructor; [|auto].
  rewrite list_elem_of_In. intros Hin. apply not_true_iff_false in H. apply H.
  apply existsb_exists. exists x. by rewrite String.eqb_refl.
Qed.

Lemma switch_string_default e cases :
  e ∉ cases.*1 → switch_string e cases = "Unknown error"%string.
Proof.
  induction cases as [|[n msg] cases IH]; cbn; [done|].
  rewrite not_elem_of_cons. intros [? ?]. rewrite (proj2 (Z.eqb_neq _ _)) by done. auto.
Qed.

Lemma strerror_messages_NoDup : NoDup ("Unknown error"%string :: (strerror <$> error_codes)).
Proof. apply nodup_string_NoDup. vm_compute. done. Qed.

(** Every error code 0..77 has a message of its own, and any other number is
    an unknown error. *)
Lemma strerror_spec e :
  (0 <= e <= 77 → strerror e ≠ "Unknown error"%string ∧
     ∀ e', 0 <= e' <= 77 → strerror e' = strerror e → e' = e) ∧
  (¬ 0 <= e <= 77 → strerror e = "Unknown error"%string).
Proof.
  assert (∀ x, 0 <= x <= 77 → error_codes !! Z.to_nat x = Some x) as Hcode.
  { intros x Hx. unfold error_codes. rewrite list_lookup_fmap, lookup_seq_lt by lia.
    cbn. f_equal. lia. }
  pose proof strerror_messages_NoDup as [Hnot Hnd]%NoDup_cons. split.
  - intros He. split.
    + intros Heq. apply Hnot. rewrite <-Heq. apply list_elem_of_fmap_2.
      eapply list_elem_of_lookup_2. by apply Hcode.
    + intros e' He' Heq.
      assert (Z.to_nat e' = Z.to_nat e) as ?; [|lia].
      apply (NoDup_lookup _ _ _ (strerror e) Hnd); rewrite list_lookup_fmap, Hcode by lia;
        unfold fmap, option_fmap, option_map; congruence.
  - intros He. apply switch_string_default. intros Hin.
    assert (Forall (λ n, 0 <= n <= 77) (strerror_cases_1 ++ strerror_cases_2 ++ strerror_cases_3).*1) as HF.
    { apply (bool_decide_unpack _). by vm_compute. }
    rewrite Forall_forall in HF. apply He. by apply HF.
Qed.
