(* ===== verification/Strtol.v ===== *)
(** * strtol and strtoul (libc/src/stdlib/strtol.c, strtoul.c)

    strtol.c is a template: strtoul.c includes it with other values of its
    macros.  The section's variables are those macros: the result type is given
    by its bounds and its conversion [wrap].  Signed overflow wraps, as the
    -O0 i686 build of libc does; it is met only after [overflow] is set. *)
From S2P Require Import Prelude Memory CString Errno.

Definition PLUS : Z := 43.
Definition MINUS : Z := 45.
Definition CH_0 : Z := 48.
Definition is_x (c : Z) : bool := (c =? 120) || (c =? 88).

Section template.
Context {S : Type} `{L : !Lens S mem} `{E : !Lens S errno_st}.
Context (RESULT_MAX RESULT_MIN : Z) (UNSIGNED : bool) (wrap : Z → Z).

Definition getDigitValue (c : Z) : Z :=
  if (48 <=? c) && (c <=? 57) then c - 48
  else if (97 <=? c) && (c <=? 122) then 10 + c - 97
  else if (65 <=? c) && (c <=? 90) then 10 + c - 65
  else RESULT_MAX.

(** The digit loop: [result], [overflow], [numberFound] and [str]. *)
Definition digit_step (base : Z) (negative : bool) :
    Z * bool * bool * Z → ST S (step (Z * bool * bool * Z) (Z * bool * bool * Z)) :=
  λ '(result, overflow, numberFound, str),
    c ← load str;
    let digit := getDigitValue c in
    if base <=? digit then mret (Done (result, overflow, numberFound, str)) else
    let product := result * base in
    let result := wrap product in
    let overflow := overflow || negb ((RESULT_MIN <=? product) && (product <=? RESULT_MAX)) in
    let '(result, overflow) :=
      if negb negative && (digit <=? wrap (RESULT_MAX - result)) then (wrap (result + digit), overflow)
      else if negative && (digit <=? wrap (result - RESULT_MIN)) then (wrap (result - digit), overflow)
      else (result, true) in
    mret (Next (result, overflow, true, str + 1)).

Definition STRTOL_NAME (fuel : nat) (string endp base : Z) : ST S Z :=
  if (base <? 0) || (base =? 1) || (36 <? base) then set_errno EINVAL;; mret 0 else
  (* ignore any leading white space *)
  str ← loop fuel (λ str,
    c ← load str;
    if isspace (s8 c) then mret (Next (str + 1)) else mret (Done str)) string;
  c ← load str;
  let '(str, minus) :=
    if c =? PLUS then (str + 1, false) else if c =? MINUS then (str + 1, true) else (str, false) in
  let negative := minus && negb UNSIGNED in
  (* autodetect the base if necessary *)
  base ← (if base =? 0 then
            c ← load str;
            if c =? CH_0 then
              x ← load (str + 1); mret (if is_x x then 16 else 8)
            else mret 10
          else mret base);
  str ← (if base =? 16 then
           c ← load str;
           if c =? CH_0 then
             x ← load (str + 1); mret (if is_x x then str + 2 else str)
           else mret str
         else mret str);
  r ← loop fuel (digit_step base negative) (0, false, false, str);
  let '(result, overflow, numberFound, str) := r in
  result ←
    (if overflow : bool then
       set_errno ERANGE;; mret (if UNSIGNED || negb negative then RESULT_MAX else RESULT_MIN)
     else if minus && UNSIGNED then mret (wrap (- result))
     else mret result);
  (if Z_bool endp then store32 endp (if numberFound : bool then str else string) else mret tt);;
  mret result.
End template.

Definition LONG_MAX : Z := 2 ^ 31 - 1.
Definition LONG_MIN : Z := - 2 ^ 31.
Definition ULONG_MAX : Z := 2 ^ 32 - 1.

Definition strtol {S} `{L : !Lens S mem} `{E : !Lens S errno_st} : nat → Z → Z → Z → ST S Z :=
  STRTOL_NAME LONG_MAX LONG_MIN false s32.
Definition strtoul {S} `{L : !Lens S mem} `{E : !Lens S errno_st} : nat → Z → Z → Z → ST S Z :=
  STRTOL_NAME ULONG_MAX 0 true u32.

(** ** The number a text denotes *)
Fixpoint skip_space (t : list Z) : list Z :=
  match t with c :: t' => if isspace c then skip_space t' else t | [] => [] end.

Definition skip_sign (t : list Z) : list Z * bool :=
  match t with
  | c :: t' => if c =? PLUS then (t', false) else if c =? MINUS then (t', true) else (t, false)
  | [] => ([], false)
  end.

Definition prefix_0x (t : list Z) : bool :=
  match t with c :: x :: _ => (c =? CH_0) && is_x x | _ => false end.

Definition detect_base (base : Z) (t : list Z) : Z :=
  if base =? 0 then
    if prefix_0x t then 16 else
    match t with c :: _ => if c =? CH_0 then 8 else 10 | [] => 10 end
  else base.

Definition skip_0x (base : Z) (t : list Z) : list Z :=
  if (base =? 16) && prefix_0x t then drop 2 t else t.

(** Digits 0-9, a-z, A-Z, of value below [base] <= 36. *)
Definition digit_value (c : Z) : Z := getDigitValue 36 c.

Fixpoint digits (base : Z) (t : list Z) : list Z :=
  match t with
  | c :: t => if digit_value c <? base then digit_value c :: digits base t else []
  | [] => []
  end.

Definition numeral (base : Z) (ds : list Z) : Z := fold_left (λ v d, v * base + d) ds 0.

Record parsed : Type := Parsed {
  p_minus : bool;
  p_base : Z;
  p_digits : list Z;
  p_end : nat   (* how many characters the conversion consumed *)
}.

Definition parse_number (base : Z) (txt : list Z) : parsed :=
  let '(t, minus) := skip_sign (skip_space txt) in
  let b := detect_base base t in
  let t := skip_0x b t in
  let ds := digits b t in
  Parsed minus b ds
    (match ds with [] => 0 | _ => length txt - length t + length ds end)%nat.

Lemma isspace_char c : byte_ok c → isspace (s8 c) = isspace c.
Proof.
  unfold byte_ok. intros H. destruct (decide (c < 128)).
  - by rewrite s8_small by lia.
  - unfold isspace, s8. assert ((c + 2 ^ 7) mod 2 ^ 8 - 2 ^ 7 = c - 256) as ->.
    { Z.to_euclidean_division_equations. lia. }
    by repeat (rewrite (proj2 (Z.eqb_neq _ _)) by lia).
Qed.

Lemma skip_space_length t : (length (skip_space t) <= length t)%nat.
Proof. induction t as [|c t IH]; cbn; [lia|]. destruct (isspace c); cbn; lia. Qed.

Lemma skip_sign_length t : (length (skip_sign t).1 <= length t)%nat.
Proof. destruct t as [|c t]; cbn; [lia|]. destruct (c =? PLUS), (c =? MINUS); cbn; lia. Qed.

Lemma skip_0x_length b t : (length (skip_0x b t) <= length t)%nat.
Proof. unfold skip_0x. destruct (_ && _); rewrite ?length_drop; lia. Qed.

Section strtol_lemmas.
Context {S : Type} `{L : !Lens S mem} `{E : !Lens S errno_st}.
Implicit Types s : S.

Lemma cstr_head s p t :
  cstr (memory s) p t → load p s = Ok (default 0 (head t), s).
Proof.
  intros H. destruct t as [|c t]; apply load_ok; [by apply cstr_nil in H | by apply cstr_cons in H as (_ & ? & _)].
Qed.

(** The pointer to the part of the text that is left. *)
Definition left_of (p : Z) (txt t : list Z) : Z := p + Z.of_nat (length txt - length t).

Lemma skip_space_ok s fuel p t :
  cstr (memory s) p t → (length t < fuel)%nat →
  loop fuel (λ str,
    c ← load str;
    if isspace (s8 c) then mret (Next (str + 1)) else mret (Done str)) p s =
  Ok (left_of p t (skip_space t), s) ∧ cstr (memory s) (left_of p t (skip_space t)) (skip_space t).
Proof.
  intros H Hf. name_loop body. revert p fuel H Hf.
  induction t as [|c t IH]; intros p fuel H Hf; (destruct fuel as [|fuel]; [cbn in Hf; lia|]);
    pose proof (cstr_head s p _ H) as Hld; cbn [skip_space].
  - unfold left_of. cbn. rewrite Z.add_0_r. split; [|done]. apply loop_done. enter. by run Hld.
  - apply cstr_cons in H as (Hc & Hp & H). assert (byte_ok c) as Hcb by (unfold byte_ok, char_ok in *; lia).
    destruct (isspace c) eqn:Hs.
    + erewrite loop_next; [|enter; run Hld; cbn [head from_option id]; by rewrite isspace_char, Hs].
      pose proof (skip_space_length t). assert (left_of p (c :: t) (skip_space t) = left_of (p + 1) t (skip_space t)) as ->
        by (unfold left_of; cbn [length]; lia).
      apply IH; [done | cbn in Hf; lia].
    + unfold left_of. rewrite Nat.sub_diag, Z.add_0_r. split; [|by apply cstr_cons].
      apply loop_done. enter. run Hld. cbn [head from_option id]. by rewrite isspace_char, Hs.
Qed.

(** Reading the sign, the base and the 0x prefix. *)
Lemma sign_ok (s : S) p t :
  cstr (memory s) p t →
  let r := if default 0 (head t) =? PLUS then (p + 1, false)
           else if default 0 (head t) =? MINUS then (p + 1, true) else (p, false) in
  r = (left_of p t (skip_sign t).1, (skip_sign t).2) ∧ cstr (memory s) r.1 (skip_sign t).1.
Proof.
  intros H r. subst r. unfold left_of. destruct t as [|c t]; cbn.
  - by rewrite Z.add_0_r.
  - pose proof H as (Hc & Hp & H')%cstr_cons.
    destruct (c =? PLUS), (c =? MINUS); cbn;
      rewrite ?Nat.sub_diag, ?Z.add_0_r; (split; [do 2 f_equal; lia | done]).
Qed.

Lemma prefix_ok (s : S) p t {A} (k : bool → A) (k0 : A) :
  cstr (memory s) p t →
  (c ← load p; if c =? CH_0 then x ← load (p + 1); mret (k (is_x x)) else mret k0 : ST S A) s =
  Ok (match t with
      | c :: t' => if c =? CH_0 then k (is_x (default 0 (head t'))) else k0
      | [] => k0
      end, s).
Proof.
  intros H. run (cstr_head s p t H). destruct t as [|c t]; cbn [head from_option id]; [done|].
  apply cstr_cons in H as (Hc & Hp & H). destruct (c =? CH_0); [|done].
  by run (cstr_head s (p + 1) t H).
Qed.

Lemma detect_base_ok (s : S) base p t :
  cstr (memory s) p t →
  (if base =? 0 then
     c ← load p;
     if c =? CH_0 then x ← load (p + 1); mret (if is_x x then 16 else 8) else mret 10
   else mret base : ST S Z) s = Ok (detect_base base t, s).
Proof.
  intros H. unfold detect_base. destruct (base =? 0); [|done].
  rewrite (prefix_ok s p t (λ b, if b then 16 else 8) 10 H). do 2 f_equal.
  destruct t as [|c [|x t]]; cbn; [done|by destruct (c =? CH_0)|].
  by destruct (c =? CH_0), (is_x x).
Qed.

Lemma skip_0x_ok (s : S) base p t :
  cstr (memory s) p t →
  (if base =? 16 then
     c ← load p;
     if c =? CH_0 then x ← load (p + 1); mret (if is_x x then p + 2 else p) else mret p
   else mret p : ST S Z) s = Ok (left_of p t (skip_0x base t), s) ∧
  cstr (memory s) (left_of p t (skip_0x base t)) (skip_0x base t).
Proof.
  intros H. unfold skip_0x, left_of.
  assert (p + Z.of_nat (length t - length t) = p) as Hp by lia.
  destruct (base =? 16); cbn [andb]; [|by rewrite Hp].
  rewrite (prefix_ok s p t (λ b, if b then p + 2 else p) p H).
  destruct t as [|c [|x t]]; cbn [prefix_0x head from_option id].
  - by rewrite Hp.
  - rewrite Hp. by destruct (c =? CH_0).
  - destruct (c =? CH_0); cbn [andb]; [|by rewrite Hp].
    destruct (is_x x); [|by rewrite Hp].
    assert (p + Z.of_nat (length (c :: x :: t) - length (drop 2 (c :: x :: t))) = p + Z.of_nat 2) as ->
      by (rewrite length_drop; cbn [length]; lia).
    split; [done|]. apply cstr_drop; [cbn [length]; lia|done].
Qed.
End strtol_lemmas.

(** ** The digit loop *)
Section digit_loop.
Context {S : Type} `{L : !Lens S mem}.
Context (RMAX RMIN : Z) (UNSIGNED : bool) (wrap : Z → Z).
Context (wrap_id : ∀ z, RMIN <= z <= RMAX → wrap z = z).
Context (RMAX_36 : 36 <= RMAX) (RMIN_0 : RMIN <= 0).
Implicit Types s : S.

Lemma getDigitValue_below base c :
  0 <= base <= 36 → (base <=? getDigitValue RMAX c) = negb (digit_value c <? base) ∧
  (digit_value c < base → getDigitValue RMAX c = digit_value c).
Proof.
  intros Hb. unfold digit_value, getDigitValue.
  destruct ((48 <=? c) && (c <=? 57)) eqn:E1; [split; [apply Z.leb_antisym | done]|].
  destruct ((97 <=? c) && (c <=? 122)) eqn:E2; [split; [apply Z.leb_antisym | done]|].
  destruct ((65 <=? c) && (c <=? 90)) eqn:E3; [split; [apply Z.leb_antisym | done]|].
  split; [|lia]. rewrite (proj2 (Z.leb_le _ _)) by lia. by rewrite (proj2 (Z.ltb_ge _ _)) by lia.
Qed.

Lemma digit_value_nonneg c : 0 <= digit_value c.
Proof.
  unfold digit_value, getDigitValue.
  destruct ((48 <=? c) && (c <=? 57)) eqn:E1; [lia|].
  destruct ((97 <=? c) && (c <=? 122)) eqn:E2; [lia|].
  destruct ((65 <=? c) && (c <=? 90)) eqn:E3; lia.
Qed.

Definition in_range (z : Z) : bool := z <=? RMAX.

(** [result] and [overflow] represent the exact value [v] read so far. *)
Definition represents (v result : Z) (overflow : bool) : Prop :=
  0 <= v ∧ overflow = negb (in_range v) ∧ (overflow = false → result = v).

Lemma digit_step_ok s base result overflow found p c v :
  2 <= base <= 36 → memory s !! p = Some c → digit_value c < base →
  represents v result overflow →
  ∃ result' overflow',
    digit_step RMAX RMIN wrap base false (result, overflow, found, p) s =
      Ok (Next (result', overflow', true, p + 1), s) ∧
    represents (v * base + digit_value c) result' overflow'.
Proof.
  intros Hb Hp Hd (Hv & Ho & Hr). unfold digit_step. run_load Hp.
  destruct (getDigitValue_below base c ltac:(lia)) as [Hle Heq].
  rewrite Hle, (proj2 (Z.ltb_lt _ _) Hd), (Heq Hd). cbn [negb andb].
  pose proof (digit_value_nonneg c) as Hd0. set (d := digit_value c) in *. clearbody d.
  assert (v <= v * base) as Hgrow by nia.
  unfold represents, in_range in *.
  destruct (overflow || _) eqn:Eo.
  - (* out of range from here on *)
    assert (negb (v * base + d <=? RMAX) = true) as Hout.
    { destruct overflow; [lia|]. rewrite (Hr eq_refl) in Eo. cbn [orb] in Eo. lia. }
    rewrite Hout. destruct (d <=? _); (do 2 eexists; split; [done|]; split_and!; [lia|done|done]).
  - apply orb_false_iff in Eo as [-> Ep]. rewrite (Hr eq_refl) in *. clear Hr Ho.
    rewrite (wrap_id (v * base)), (wrap_id (RMAX - v * base)) by lia.
    zcase (d <=? RMAX - v * base).
    + do 2 eexists. split; [done|]. rewrite wrap_id by lia. split; [lia|]. split; [lia|done].
    + do 2 eexists. split; [done|]. split; [lia|]. split; [lia|done].
Qed.

Lemma digit_loop_ok s fuel base t p result overflow found v :
  2 <= base <= 36 → cstr (memory s) p t → (length t < fuel)%nat →
  represents v result overflow →
  ∃ result' overflow',
    loop fuel (digit_step RMAX RMIN wrap base false) (result, overflow, found, p) s =
      Ok (result', overflow',
          (found || match digits base t with [] => false | _ => true end),
          p + Z.of_nat (length (digits base t)), s) ∧
    represents (fold_left (λ v d, v * base + d) (digits base t) v) result' overflow'.
Proof.
  intros Hb. revert fuel p result overflow found v.
  induction t as [|c t IH]; intros fuel p result overflow found v H Hf Hrep;
    (destruct fuel as [|fuel]; [cbn in Hf; lia|]).
  - apply cstr_nil in H. exists result, overflow. erewrite loop_done; [split; [|exact Hrep]|].
    + cbn. by rewrite orb_false_r, Z.add_0_r.
    + unfold digit_step. run_load H.
      destruct (getDigitValue_below base 0 ltac:(lia)) as [-> _].
      change (digit_value 0) with 36. by rewrite (proj2 (Z.ltb_ge _ _)) by lia.
  - apply cstr_cons in H as (Hc & Hp & H). cbn [digits].
    destruct (digit_value c <? base) eqn:Hd.
    + destruct (digit_step_ok s base result overflow found p c v Hb Hp
        (proj1 (Z.ltb_lt _ _) Hd) Hrep) as (r1 & o1 & Hrun & Hrep1).
      erewrite loop_next by exact Hrun.
      destruct (IH fuel (p + 1) r1 o1 true (v * base + digit_value c)) as (r2 & o2 & Hrun2 & Hrep2);
        [done|cbn in Hf; lia|done|].
      exists r2, o2. split; [|exact Hrep2]. rewrite Hrun2. rewrite orb_true_r. cbn [orb length].
      do 3 f_equal. lia.
    + exists result, overflow. split; [|exact Hrep]. apply loop_done. unfold digit_step. run_load Hp.
      destruct (getDigitValue_below base c ltac:(lia)) as [-> _]. rewrite Hd. cbn.
      by rewrite orb_false_r, Z.add_0_r.
Qed.

(** With a minus sign the first digit compares it with [0 - RESULT_MIN], which
    wraps to a negative number when the result type is signed: every digit sets
    [overflow]. *)
Lemma negative_step s base result overflow found p c :
  2 <= base <= 36 → memory s !! p = Some c → digit_value c < base →
  wrap (wrap (result * base) - RMIN) < 0 ∨ overflow = true →
  ∃ result',
    digit_step RMAX RMIN wrap base true (result, overflow, found, p) s =
      Ok (Next (result', true, true, p + 1), s).
Proof.
  intros Hb Hp Hd Hw. unfold digit_step. run_load Hp.
  destruct (getDigitValue_below base c ltac:(lia)) as [Hle Heq].
  rewrite Hle, (proj2 (Z.ltb_lt _ _) Hd), (Heq Hd). cbn [negb andb].
  pose proof (digit_value_nonneg c) as Hd0.
  destruct (digit_value c <=? wrap (wrap (result * base) - RMIN)) eqn:Ele; [|by eexists].
  destruct Hw as [Hw | ->]; [lia | by eexists].
Qed.

Lemma negative_loop s fuel base t p result found :
  2 <= base <= 36 → cstr (memory s) p t → (length t < fuel)%nat → digits base t ≠ [] →
  wrap (wrap (result * base) - RMIN) < 0 →
  ∃ result',
    loop fuel (digit_step RMAX RMIN wrap base true) (result, false, found, p) s =
      Ok (result', true, true, p + Z.of_nat (length (digits base t)), s).
Proof.
  intros Hb H Hf Hd Hw.
  assert (∀ t p fuel result, cstr (memory s) p t → (length t < fuel)%nat → ∃ result',
    loop fuel (digit_step RMAX RMIN wrap base true) (result, true, true, p) s =
      Ok (result', true, true, p + Z.of_nat (length (digits base t)), s)) as Hrest.
  { clear -Hb wrap_id RMAX_36 RMIN_0. induction t as [|c t IH]; intros p fuel result H Hf;
      (destruct fuel as [|fuel]; [cbn in Hf; lia|]).
    - apply cstr_nil in H. exists result. erewrite loop_done; [cbn; by rewrite Z.add_0_r|].
      unfold digit_step. run_load H.
      destruct (getDigitValue_below base 0 ltac:(lia)) as [-> _].
      change (digit_value 0) with 36. by rewrite (proj2 (Z.ltb_ge _ _)) by lia.
    - apply cstr_cons in H as (Hc & Hp & H). cbn [digits].
      destruct (digit_value c <? base) eqn:Hd.
      + destruct (negative_step s base result true true p c Hb Hp (proj1 (Z.ltb_lt _ _) Hd)
          (or_intror eq_refl)) as (r1 & Hrun).
        erewrite loop_next by exact Hrun.
        destruct (IH (p + 1) fuel r1 H ltac:(cbn in Hf; lia)) as (r2 & ->). exists r2. cbn [length].
        do 3 f_equal. lia.
      + exists result. apply loop_done. unfold digit_step. run_load Hp.
        destruct (getDigitValue_below base c ltac:(lia)) as [-> _]. rewrite Hd. cbn.
        by rewrite Z.add_0_r. }
  destruct t as [|c t]; [done|]. apply cstr_cons in H as (Hc & Hp & H). cbn [digits] in *.
  destruct (digit_value c <? base) eqn:Hdc; [|done].
  destruct fuel as [|fuel]; [cbn in Hf; lia|].
  destruct (negative_step s base result false found p c Hb Hp (proj1 (Z.ltb_lt _ _) Hdc)
    (or_introl Hw)) as (r1 & Hrun).
  erewrite loop_next by exact Hrun.
  destruct (Hrest t (p + 1) fuel r1 H ltac:(cbn in Hf; lia)) as (r2 & ->). exists r2. cbn [length].
  do 3 f_equal. lia.
Qed.
End digit_loop.

(** ** The whole conversion *)
Section conversion.
Context {S : Type} `{L : !Lens S mem} `{E : !Lens S errno_st} `{I : !Indep L E}.
Context (RMAX RMIN : Z) (UNSIGNED : bool) (wrap : Z → Z).
Implicit Types s : S.

(** Storing the end pointer. *)
Definition store_end (endp p : Z) (s : S) : S :=
  if Z_bool endp then with_memory s (write_bytes (memory s) endp (le32 p)) else s.

Lemma memory_errno s e : memory (set (Errno e) s) = memory s.
Proof. apply (get_set_indep (L1 := L) (L2 := E)). Qed.

Lemma store_end_ok endp p s :
  (Z_bool endp = true → mapped (memory s) endp 4) →
  ((if Z_bool endp then store32 endp p else mret tt) : ST S unit) s = Ok (tt, store_end endp p s).
Proof. unfold store_end. destruct (Z_bool endp); intros H; [by apply store32_ok, H | done]. Qed.

Lemma detect_base_range base t :
  base = 0 ∨ 2 <= base <= 36 → 2 <= detect_base base t <= 36.
Proof.
  unfold detect_base. intros [->|H]; cbn.
  - destruct (prefix_0x t); [lia|]. destruct t as [|c t]; [lia|]. destruct (c =? CH_0); lia.
  - destruct (base =? 0); [|lia]. destruct (prefix_0x t); [lia|].
    destruct t as [|c t]; [lia|]. destruct (c =? CH_0); lia.
Qed.

(** Everything before the digit loop. *)
Lemma prologue_ok s fuel string base txt (k : Z → bool → Z → ST S Z) :
  cstr (memory s) string txt → (length txt < fuel)%nat →
  base = 0 ∨ 2 <= base <= 36 →
  let t1 := skip_space txt in
  let '(t2, minus) := skip_sign t1 in
  let b := detect_base base t2 in
  let t3 := skip_0x b t2 in
  (if (base <? 0) || (base =? 1) || (36 <? base) then set_errno EINVAL;; mret 0 else
   str ← loop fuel (λ str,
     c ← load str;
     if isspace (s8 c) then mret (Next (str + 1)) else mret (Done str)) string;
   c ← load str;
   let '(str, minus) :=
     if c =? PLUS then (str + 1, false) else if c =? MINUS then (str + 1, true) else (str, false) in
   base ← (if base =? 0 then
             c ← load str;
             if c =? CH_0 then
               x ← load (str + 1); mret (if is_x x then 16 else 8)
             else mret 10
           else mret base);
   str ← (if base =? 16 then
            c ← load str;
            if c =? CH_0 then
              x ← load (str + 1); mret (if is_x x then str + 2 else str)
            else mret str
          else mret str);
   k str minus base) s =
  k (left_of string txt t3) minus b s ∧
  cstr (memory s) (left_of string txt t3) t3 ∧ (length t3 <= length txt)%nat.
Proof.
  intros H Hf Hb t1. destruct (skip_sign t1) as [t2 minus] eqn:E2. intros b t3.
  assert ((base <? 0) || (base =? 1) || (36 <? base) = false) as -> by lia.
  destruct (skip_space_ok s fuel string txt H Hf) as [Hrun H1]. fold t1 in Hrun, H1. run Hrun.
  run (cstr_head s _ t1 H1).
  destruct (sign_ok s _ t1 H1) as [Hs H2]. rewrite Hs in *. rewrite E2 in H2 |- *. cbn [fst snd] in *.
  run (detect_base_ok s base _ t2 H2). fold b.
  destruct (skip_0x_ok s b _ t2 H2) as [Hrun3 H3]. fold t3 in Hrun3, H3. run Hrun3.
  pose proof (skip_space_length txt) as L1. fold t1 in L1.
  pose proof (skip_sign_length t1) as L2. rewrite E2 in L2. cbn [fst] in L2.
  pose proof (skip_0x_length b t2) as L3. fold t3 in L3.
  assert (left_of (left_of (left_of string txt t1) t1 t2) t2 t3 = left_of string txt t3) as Heq
    by (unfold left_of; lia).
  rewrite Heq in *. split; [done|]. split; [done|lia].
Qed.

Context (wrap_id : ∀ z, RMIN <= z <= RMAX → wrap z = z).
Context (RMAX_36 : 36 <= RMAX) (RMIN_0 : RMIN <= 0).

(** The value, errno and the end pointer of a conversion without minus sign,
    or to an unsigned type. *)
Lemma STRTOL_NAME_ok s fuel string endp base txt :
  cstr (memory s) string txt → (length txt < fuel)%nat →
  base = 0 ∨ 2 <= base <= 36 →
  (Z_bool endp = true → mapped (memory s) endp 4) →
  let P := parse_number base txt in
  (p_minus P = true → UNSIGNED = true) →
  let v := numeral (p_base P) (p_digits P) in
  STRTOL_NAME RMAX RMIN UNSIGNED wrap fuel string endp base s =
  Ok (if v <=? RMAX then (if p_minus P then wrap (- v) else v) else RMAX,
      store_end endp (string + Z.of_nat (p_end P))
        (if v <=? RMAX then s else set (Errno ERANGE) s)).
Proof.
  intros H Hf Hb Hend P Hminus v. unfold STRTOL_NAME.
  pose proof (prologue_ok s fuel string base txt) as Hpro.
  unfold parse_number in P. cbv zeta in Hpro.
  destruct (skip_sign (skip_space txt)) as [t2 minus].
  set (b := detect_base base t2) in *. set (t3 := skip_0x b t2) in *. subst P v. cbn [p_minus p_base p_digits p_end] in *.
  edestruct (Hpro (λ str minus base,
    r ← loop fuel (digit_step RMAX RMIN wrap base (minus && negb UNSIGNED)) (0, false, false, str);
    let '(result, overflow, numberFound, str) := r in
    result ←
      (if overflow : bool then
         set_errno ERANGE;; mret (if UNSIGNED || negb (minus && negb UNSIGNED) then RMAX else RMIN)
       else if minus && UNSIGNED then mret (wrap (- result))
       else mret result);
    (if Z_bool endp then store32 endp (if numberFound : bool then str else string) else mret tt);;
    mret result)) as (Hrun & H3 & Hlen); [done..|]. rewrite Hrun. clear Hrun Hpro.
  assert (minus && negb UNSIGNED = false) as -> by (destruct minus; [by rewrite Hminus|done]).
  assert (2 <= b <= 36) as Hb' by (by apply detect_base_range).
  destruct (digit_loop_ok RMAX RMIN wrap wrap_id RMAX_36 RMIN_0 s fuel b t3 _ 0 false false 0 Hb' H3)
    as (result & overflow & Hloop & Hv & Ho & Hr); [lia| |].
  { unfold represents, in_range. split_and!; [lia| |done]. by rewrite (proj2 (Z.leb_le _ _)) by lia. }
  run Hloop. fold (numeral b (digits b t3)) in *. unfold in_range in Ho.
  assert ((if false || match digits b t3 with [] => false | _ :: _ => true end
           then left_of string txt t3 + Z.of_nat (length (digits b t3)) else string) =
    string + Z.of_nat (match digits b t3 with [] => 0
                       | _ => length txt - length t3 + length (digits b t3) end)) as Hendp.
  { unfold left_of. destruct (digits b t3); cbn [orb length]; lia. }
  destruct (numeral b (digits b t3) <=? RMAX) eqn:Ev; cbn [negb] in Ho; subst overflow.
  - rewrite (Hr eq_refl).
    rewrite bind_ok with (a := if minus && UNSIGNED then wrap (- numeral b (digits b t3))
                               else numeral b (digits b t3)) (s' := s)
      by (by destruct (minus && UNSIGNED)).
    erewrite bind_ok; [|by apply store_end_ok]. rewrite Hendp.
    destruct minus; cbn [andb]; [by rewrite Hminus|done].
  - rewrite orb_true_r. erewrite bind_ok; [|done].
    erewrite bind_ok; [|apply store_end_ok; by rewrite memory_errno]. by rewrite Hendp.
Qed.
End conversion.

(** ** strtol and strtoul *)
Section properties.
Context {S : Type} `{L : !Lens S mem} `{E : !Lens S errno_st} `{I : !Indep L E}.
Implicit Types s : S.

(** An unusable base is EINVAL and converts nothing. *)
Lemma strtol_bad_base s fuel string endp base :
  base < 0 ∨ base = 1 ∨ 36 < base →
  strtol fuel string endp base s = Ok (0, set (Errno EINVAL) s).
Proof.
  intros H. unfold strtol, STRTOL_NAME.
  assert ((base <? 0) || (base =? 1) || (36 <? base) = true) as -> by lia. done.
Qed.

Lemma strtoul_ok s fuel string endp base txt :
  cstr (memory s) string txt → (length txt < fuel)%nat →
  base = 0 ∨ 2 <= base <= 36 →
  (Z_bool endp = true → mapped (memory s) endp 4) →
  let P := parse_number base txt in
  let v := numeral (p_base P) (p_digits P) in
  strtoul fuel string endp base s =
  Ok (if v <=? ULONG_MAX then (if p_minus P then u32 (- v) else v) else ULONG_MAX,
      store_end endp (string + Z.of_nat (p_end P))
        (if v <=? ULONG_MAX then s else set (Errno ERANGE) s)).
Proof.
  intros. apply STRTOL_NAME_ok; try done.
  intros z Hz. apply u32_small. unfold ULONG_MAX in Hz. lia.
Qed.

Lemma s32_wrap_id z : LONG_MIN <= z <= LONG_MAX → s32 z = z.
Proof. intros Hz. apply s32_small. unfold LONG_MIN, LONG_MAX in Hz. lia. Qed.

Lemma strtol_nonneg s fuel string endp base txt :
  cstr (memory s) string txt → (length txt < fuel)%nat →
  base = 0 ∨ 2 <= base <= 36 →
  (Z_bool endp = true → mapped (memory s) endp 4) →
  let P := parse_number base txt in
  p_minus P = false →
  let v := numeral (p_base P) (p_digits P) in
  strtol fuel string endp base s =
  Ok (if v <=? LONG_MAX then v else LONG_MAX,
      store_end endp (string + Z.of_nat (p_end P))
        (if v <=? LONG_MAX then s else set (Errno ERANGE) s)).
Proof.
  intros H Hf Hb Hend P Hm v. pose proof s32_wrap_id.
  pose proof (STRTOL_NAME_ok LONG_MAX LONG_MIN false s32 s32_wrap_id ltac:(done) ltac:(done)
    s fuel string endp base txt H Hf Hb Hend) as Hok. cbv zeta in Hok. fold P in Hok.
  unfold strtol. rewrite Hok by (rewrite Hm; done). by rewrite Hm.
Qed.

Lemma strtol_minus s fuel string endp base txt :
  cstr (memory s) string txt → (length txt < fuel)%nat →
  base = 0 ∨ 2 <= base <= 36 →
  (Z_bool endp = true → mapped (memory s) endp 4) →
  let P := parse_number base txt in
  p_minus P = true → p_digits P ≠ [] →
  strtol fuel string endp base s =
  Ok (LONG_MIN, store_end endp (string + Z.of_nat (p_end P)) (set (Errno ERANGE) s)).
Proof.
  intros H Hf Hb Hend P Hm Hd. unfold strtol, STRTOL_NAME.
  pose proof (prologue_ok s fuel string base txt) as Hpro. cbv zeta in Hpro.
  unfold parse_number in P. destruct (skip_sign (skip_space txt)) as [t2 minus].
  set (b := detect_base base t2) in *. set (t3 := skip_0x b t2) in *. subst P.
  cbn [p_minus p_base p_digits p_end] in *. subst minus.
  edestruct (Hpro (λ str minus base,
    r ← loop fuel (digit_step LONG_MAX LONG_MIN s32 base (minus && negb false)) (0, false, false, str);
    let '(result, overflow, numberFound, str) := r in
    result ←
      (if overflow : bool then
         set_errno ERANGE;; mret (if false || negb (minus && negb false) then LONG_MAX else LONG_MIN)
       else if minus && false then mret (s32 (- result))
       else mret result);
    (if Z_bool endp then store32 endp (if numberFound : bool then str else string) else mret tt);;
    mret result)) as (Hrun & H3 & Hlen); [done..|]. rewrite Hrun. clear Hrun Hpro.
  assert (2 <= b <= 36) as Hb' by (by apply detect_base_range).
  destruct (negative_loop LONG_MAX LONG_MIN s32 ltac:(done)
    s fuel b t3 _ 0 false Hb' H3 ltac:(lia) Hd ltac:(done)) as (result & Hloop).
  run Hloop. cbv beta iota. erewrite bind_ok; [|done].
  erewrite bind_ok; [|apply store_end_ok; by rewrite memory_errno].
  unfold left_of. destruct (digits b t3) as [|d ds]; [done|].
  by rewrite <-Z.add_assoc, <-Nat2Z.inj_add.
Qed.
End properties.
