(* ===== verification/Printf.v ===== *)
(** * vcbprintf (libc/src/stdio/vcbprintf.c) and its front ends

    [callback] is the function pointer every front end passes, here a state
    action on the bytes it is given; the variadic arguments are the 32-bit
    words the i686 calling convention puts on the stack, so a 64-bit argument
    is two of them.  The format is the list of bytes up to its terminator and
    the pointer into it is the list that is left.  [buffer] is the address of
    printInteger's local array of 24 bytes. *)
From S2P Require Import Prelude Memory CString Errno.

(** The length modifiers, as the enum numbers them. *)
Definition LENGTH_CHAR_HH : Z := 0.
Definition LENGTH_SHORT_H : Z := 1.
Definition LENGTH_INT : Z := 2.
Definition LENGTH_LONG_L : Z := 3.
Definition LENGTH_LONG_LONG_LL : Z := 4.
Definition LENGTH_INTMAX_J : Z := 5.
Definition LENGTH_SIZE_Z : Z := 6.
Definition LENGTH_PTRDIFF_T : Z := 7.
Definition LENGTH_LONG_DOUBLE_L : Z := 8.

Definition FLAG_LEFT_JUSTIFIED : Z := Z.shiftl 1 1.
Definition FLAG_PLUS : Z := Z.shiftl 1 2.
Definition FLAG_SPACE : Z := Z.shiftl 1 3.
Definition FLAG_ALTERNATIVE : Z := Z.shiftl 1 4.
Definition FLAG_LEADING_ZEROS : Z := Z.shiftl 1 5.

(** [flags & mask] as a condition. *)
Definition has (flags mask : Z) : bool := Z_bool (Z.land flags mask).

(** [__builtin_add_overflow] on int: the wrapped sum, and whether it wrapped. *)
Definition add_overflow (a b : Z) : Z * bool :=
  (s32 (a + b), negb ((INT_MIN <=? a + b) && (a + b <=? INT_MAX))).

(** The conversion specifiers. *)
Definition is_signed_spec (c : Z) : bool := (c =? ch "d") || (c =? ch "i").
Definition is_hex_spec (c : Z) : bool := (c =? ch "x") || (c =? ch "X").
Definition is_unsigned_spec (c : Z) : bool := (c =? ch "o") || (c =? ch "u") || is_hex_spec c.
Definition is_digit (c : Z) : bool := (48 <=? c) && (c <=? 57).

Definition digits_lower : list Z := str "0123456789abcdef".
Definition digits_upper : list Z := str "0123456789ABCDEF".

Section vcbprintf.
Context {S : Type} `{L : !Lens S mem} `{E : !Lens S errno_st}.
Context (callback : list Z → ST S Z).
Context (buffer : Z).

Definition overflow {A} (r : A) : ST S A := set_errno EOVERFLOW;; mret r.

(** Counting the digits, then writing them from the last to the first. *)
Definition convert_integer (destination value base : Z) (digits : list Z) : ST S Z :=
  length ← loop 65 (λ '(i, length),
    if 0 <? i then mret (Next (i / base, length + 1)) else mret (Done length)) (value, 0);
  loop 65 (λ '(destination, value),
    let destination := destination - 1 in
    store destination (default 0 (digits !! Z.to_nat (value mod base)));;
    let value := value / base in
    if Z_bool value then mret (Next (destination, value)) else mret (Done tt))
    (destination + length, value);;
  mret length.

(** [for (int i = from; i < to; i++) if (callback(param, c, 1) != 1) return -1;]
    [false] stands for the return. *)
Definition pad (c : Z) (from to : Z) : ST S bool :=
  loop (Datatypes.S (Z.to_nat (to - from))) (λ i,
    if i <? to then
      n ← callback [c];
      if negb (n =? 1) then mret (Done false) else mret (Next (i + 1))
    else mret (Done true)) from.

(** [if (callback(param, s, length) != length) return -1;] *)
Definition emit (s : list Z) : ST S bool :=
  n ← callback s; mret (n =? Z.of_nat (length s)).

(** [length] bytes of memory from [p]. *)
Fixpoint load_bytes (p : Z) (length : nat) : ST S (list Z) :=
  match length with
  | O => mret []
  | Datatypes.S n => b ← load p; bs ← load_bytes (p + 1) n; mret (b :: bs)
  end.

(** Return -1 unless the step before succeeded. *)
Definition guard_ (ok : ST S bool) (k : ST S Z) : ST S Z :=
  b ← ok; if b : bool then k else mret (-1).

Definition printInteger (specifier value fieldWidth precision flags : Z) : ST S Z :=
  let '(negative, value, flags) :=
    if is_signed_spec specifier then
      let signedValue := s64 value in
      if signedValue <? 0 then (true, u64 (- signedValue), flags) else (false, value, flags)
    else (false, value, Z.land flags (Z.lnot (Z.lor FLAG_PLUS FLAG_SPACE))) in
  let digits := if specifier =? ch "X" then digits_upper else digits_lower in
  let base := if specifier =? ch "o" then 8 else if is_hex_spec specifier then 16 else 10 in
  stringLength ← convert_integer buffer value base digits;
  let '(precision, o1) :=
    if has flags FLAG_ALTERNATIVE && (specifier =? ch "o") && (precision <=? stringLength)
    then add_overflow stringLength 1 else (precision, false) in
  if o1 : bool then overflow (-1) else
  let unpaddedLength := if precision <=? stringLength then stringLength else precision in
  let has_sign := negative || has flags (Z.lor FLAG_PLUS FLAG_SPACE) in
  let '(unpaddedLength, o2) :=
    if has_sign then add_overflow unpaddedLength 1 else (unpaddedLength, false) in
  if o2 : bool then overflow (-1) else
  let '(unpaddedLength, o3) :=
    if has flags FLAG_ALTERNATIVE && is_hex_spec specifier && negb (value =? 0)
    then add_overflow unpaddedLength 2 else (unpaddedLength, false) in
  if o3 : bool then overflow (-1) else
  guard_ (if negb (has flags (Z.lor FLAG_LEFT_JUSTIFIED FLAG_LEADING_ZEROS))
          then pad (ch " ") unpaddedLength fieldWidth else mret true)
  (guard_ (if has_sign then
             emit [if negative : bool then ch "-" else if has flags FLAG_PLUS then ch "+" else ch " "]
           else mret true)
  (guard_ (if has flags FLAG_ALTERNATIVE then
             if (specifier =? ch "x") && negb (value =? 0) then emit (str "0x")
             else if (specifier =? ch "X") && negb (value =? 0) then emit (str "0X")
             else mret true
           else mret true)
  (guard_ (if negb (has flags FLAG_LEFT_JUSTIFIED) && has flags FLAG_LEADING_ZEROS
           then pad (ch "0") unpaddedLength fieldWidth else mret true)
  (guard_ (pad (ch "0") stringLength precision)
  (guard_ (bs ← load_bytes buffer (Z.to_nat stringLength); emit bs)
  (guard_ (if has flags FLAG_LEFT_JUSTIFIED
           then pad (ch " ") unpaddedLength fieldWidth else mret true)
  (mret (if fieldWidth <=? unpaddedLength then unpaddedLength else fieldWidth)))))))).

Definition printString (s : ST S (list Z)) (length fieldWidth flags : Z) : ST S Z :=
  guard_ (if negb (has flags FLAG_LEFT_JUSTIFIED) then pad (ch " ") length fieldWidth else mret true)
  (guard_ (bs ← s; emit bs)
  (guard_ (if has flags FLAG_LEFT_JUSTIFIED then pad (ch " ") length fieldWidth else mret true)
  (mret (if fieldWidth <=? length then length else fieldWidth)))).

(** *** Parsing one conversion *)
Fixpoint parse_flags (format : list Z) (flags : Z) : Z * list Z :=
  match format with
  | c :: rest =>
      if c =? ch "-" then parse_flags rest (Z.lor flags FLAG_LEFT_JUSTIFIED)
      else if c =? ch "+" then parse_flags rest (Z.lor flags FLAG_PLUS)
      else if c =? ch " " then parse_flags rest (Z.lor flags FLAG_SPACE)
      else if c =? ch "#" then parse_flags rest (Z.lor flags FLAG_ALTERNATIVE)
      else if c =? ch "0" then parse_flags rest (Z.lor flags FLAG_LEADING_ZEROS)
      else (flags, format)
  | [] => (flags, [])
  end.

Fixpoint parse_decimal (format : list Z) (n : Z) : Z * list Z :=
  match format with
  | c :: rest => if is_digit c then parse_decimal rest (s32 (n * 10 + c - 48)) else (n, format)
  | [] => (n, [])
  end.

Fixpoint parse_length (format : list Z) (length : Z) : Z * list Z :=
  match format with
  | c :: rest =>
      if c =? ch "h" then
        if length =? LENGTH_SHORT_H then (LENGTH_CHAR_HH, rest)
        else parse_length rest LENGTH_SHORT_H
      else if c =? ch "l" then
        if length =? LENGTH_LONG_L then (LENGTH_LONG_LONG_LL, rest)
        else parse_length rest LENGTH_LONG_L
      else if c =? ch "j" then (LENGTH_INTMAX_J, rest)
      else if c =? ch "z" then (LENGTH_SIZE_Z, rest)
      else if c =? ch "t" then (LENGTH_PTRDIFF_T, rest)
      else if c =? ch "L" then (LENGTH_LONG_DOUBLE_L, rest)
      else (length, format)
  | [] => (length, [])
  end.

Definition peek (format : list Z) : Z := default 0 (head format).

(** *** va_arg *)
Definition va_word (vl : list Z) : ST S (Z * list Z) :=
  match vl with w :: vl => mret (w, vl) | [] => fault end.

Definition va_dword (vl : list Z) : ST S (Z * list Z) :=
  match vl with lo :: hi :: vl => mret (lo + 2 ^ 32 * hi, vl) | _ => fault end.

Definition parse_width (format vl : list Z) (flags : Z) : ST S (Z * Z * list Z * list Z) :=
  if peek format =? ch "*" then
    '(w, vl) ← va_word vl;
    let fieldWidth := s32 w in
    mret (if fieldWidth <? 0
          then (s32 (- fieldWidth), Z.lor flags FLAG_LEFT_JUSTIFIED, tail format, vl)
          else (fieldWidth, flags, tail format, vl))
  else
    let '(fieldWidth, format) := parse_decimal format 0 in
    mret (fieldWidth, flags, format, vl).

Definition parse_precision (format vl : list Z) : ST S (Z * list Z * list Z) :=
  if peek format =? ch "." then
    let format := tail format in
    if peek format =? ch "*" then
      '(w, vl) ← va_word vl; mret (s32 w, tail format, vl)
    else
      let '(precision, format) := parse_decimal format 0 in mret (precision, format, vl)
  else mret (-1, format, vl).

(** The value of an integer conversion, converted to uintmax_t. *)
Definition fetch_value (specifier length : Z) (vl : list Z) : ST S (Z * list Z) :=
  if is_unsigned_spec specifier then
    if length =? LENGTH_CHAR_HH then '(w, vl) ← va_word vl; mret (u8 w, vl)
    else if length =? LENGTH_SHORT_H then '(w, vl) ← va_word vl; mret (u16 w, vl)
    else if length =? LENGTH_INT then va_word vl
    else if length =? LENGTH_LONG_L then va_word vl
    else if length =? LENGTH_LONG_LONG_LL then va_dword vl
    else if length =? LENGTH_INTMAX_J then va_dword vl
    else if length =? LENGTH_SIZE_Z then va_word vl
    else if length =? LENGTH_PTRDIFF_T then '(w, vl) ← va_word vl; mret (u64 (s32 w), vl)
    else mret (0, vl)
  else if is_signed_spec specifier then
    if length =? LENGTH_CHAR_HH then '(w, vl) ← va_word vl; mret (u64 (s8 w), vl)
    else if length =? LENGTH_SHORT_H then '(w, vl) ← va_word vl; mret (u64 (s16 w), vl)
    else if length =? LENGTH_INT then '(w, vl) ← va_word vl; mret (u64 (s32 w), vl)
    else if length =? LENGTH_LONG_L then '(w, vl) ← va_word vl; mret (u64 (s32 w), vl)
    else if length =? LENGTH_LONG_LONG_LL then va_dword vl
    else if length =? LENGTH_INTMAX_J then va_dword vl
    else if length =? LENGTH_SIZE_Z then '(w, vl) ← va_word vl; mret (u64 (s32 w), vl)
    else if length =? LENGTH_PTRDIFF_T then '(w, vl) ← va_word vl; mret (u64 (s32 w), vl)
    else mret (0, vl)
  else mret (0, vl).

(** What one conversion does: print [written] characters (negative when it
    failed), go to [overflow], only consume, or turn out not to be one. *)
Inductive conversion : Type :=
| Written (n : Z) (vl : list Z)
| Nothing (vl : list Z)
| TooLong
| Invalid.

Definition convert (fuel : nat) (specifier value fieldWidth precision flags result : Z)
    (vl : list Z) : ST S conversion :=
  if is_signed_spec specifier || is_unsigned_spec specifier then
    let '(precision, flags) :=
      if precision <? 0 then (1, flags)
      else (precision, Z.land flags (Z.lnot FLAG_LEADING_ZEROS)) in
    written ← printInteger specifier value fieldWidth precision flags;
    mret (Written written vl)
  else if specifier =? ch "c" then
    '(w, vl) ← va_word vl;
    written ← printString (mret [u8 w]) 1 fieldWidth flags;
    mret (Written written vl)
  else if specifier =? ch "s" then
    '(s, vl) ← va_word vl;
    size ← (if precision <? 0 then strlen fuel s else strnlen s precision);
    if INT_MAX <? size then mret TooLong else
    written ← printString (load_bytes s (Z.to_nat size)) size fieldWidth flags;
    mret (Written written vl)
  else if specifier =? ch "p" then
    '(w, vl) ← va_word vl;
    written ← printInteger (ch "x") w 0 1 FLAG_ALTERNATIVE;
    mret (Written written vl)
  else if specifier =? ch "n" then
    '(p, vl) ← va_word vl;
    store32 p result;; mret (Nothing vl)
  else if specifier =? ch "%" then
    n ← callback [ch "%"];
    mret (Written (if n =? 1 then 1 else -1) vl)
  else mret Invalid.

(** INCREMENT_RESULT, then the end of the loop body: [format] is what follows. *)
Definition advance (x result : Z) (format vl : list Z) (invalid : bool) :
    ST S (step (list Z * list Z * Z * bool) Z) :=
  let '(result, o) := add_overflow result x in
  if o : bool then overflow (Done (-1)) else mret (Next (format, vl, result, invalid)).

Definition vcbprintf_step (fuel : nat) :
    list Z * list Z * Z * bool → ST S (step (list Z * list Z * Z * bool) Z) :=
  λ '(format, vl, result, invalidConversion),
    match format with
    | [] => mret (Done result)
    | c :: rest =>
        if negb (c =? ch "%") || invalidConversion then
          n ← callback [c];
          if negb (n =? 1) then mret (Done (-1))
          else advance 1 result rest vl invalidConversion
        else
          let specifierBegin := format in
          let '(flags, format) := parse_flags rest 0 in
          '(fieldWidth, flags, format, vl) ← parse_width format vl flags;
          '(precision, format, vl) ← parse_precision format vl;
          let '(length, format) := parse_length format LENGTH_INT in
          let specifier := peek format in
          '(value, vl) ← fetch_value specifier length vl;
          r ← convert fuel specifier value fieldWidth precision flags result vl;
          match r with
          | Written n vl =>
              if n <? 0 then mret (Done (-1))
              else advance n result (tail format) vl invalidConversion
          | Nothing vl => mret (Next (tail format, vl, result, invalidConversion))
          | TooLong => overflow (Done (-1))
          | Invalid => mret (Next (specifierBegin, vl, result, true))
          end
    end.

(** Every iteration but the one that turns an invalid conversion into text
    shortens the format. *)
Definition vcbprintf (fuel : nat) (format vl : list Z) : ST S Z :=
  loop (2 * length format + 2) (vcbprintf_step fuel) (format, vl, 0, false).
End vcbprintf.

(** The callback used when the caller passes a null one. *)
Definition noop_callback {S : Type} (s : list Z) : ST S Z := mret (Z.of_nat (length s)).

(** *** vsprintf.c, sprintf.c

    The pointer [s] is a local of vsprintf, its address the callback's
    parameter: while vcbprintf runs, the state is the caller's and [s]. *)
Section vsprintf.
Context {S : Type} `{L : !Lens S mem} `{E : !Lens S errno_st}.

Fixpoint vsprintf_copy (bs : list Z) : ST (S * Z) unit :=
  match bs with
  | [] => mret tt
  | b :: bs => λ '(st, p),
      match store p b st with
      | Ok (_, st) => vsprintf_copy bs (st, p + 1)
      | Fault => Fault
      | NoFuel => NoFuel
      end
  end.

Definition vsprintf_callback (bs : list Z) : ST (S * Z) Z :=
  vsprintf_copy bs;; mret (Z.of_nat (length bs)).

Definition vsprintf (buffer : Z) (fuel : nat) (s : Z) (format vl : list Z) : ST S Z := λ st,
  match vcbprintf (L := Lens_left S Z mem L) (E := Lens_left S Z errno_st E)
          vsprintf_callback buffer fuel format vl (st, s) with
  | Ok (result, (st, p)) =>
      (if 0 <=? result then store p 0;; mret result else mret result) st
  | Fault => Fault
  | NoFuel => NoFuel
  end.

Definition sprintf (buffer : Z) (fuel : nat) (s : Z) (format vl : list Z) : ST S Z :=
  vsprintf buffer fuel s format vl.
End vsprintf.

Arguments printInteger : simpl never.
Arguments convert_integer : simpl never.
