(* ===== verification/PrintfSpec.v ===== *)
(** * What vcbprintf prints

    A reference for the numerals, the padding and the whole format, and the
    theorems that vcbprintf hands exactly that text to its callback and returns
    its length.  The callback is known through the class [Sink]. *)
From S2P Require Import Prelude Memory CString Errno Printf.

(** ** Numerals *)
Fixpoint to_digits (fuel : nat) (base n : Z) : list Z :=
  match fuel with
  | O => []
  | Datatypes.S fuel => if n <=? 0 then [] else to_digits fuel base (n / base) ++ [n mod base]
  end.

(** The digits of a 64-bit value: 64 binary digits are always enough. *)
Definition numeral_of (base n : Z) : list Z := to_digits 64 base n.

Definition value_of (base : Z) (ds : list Z) : Z := fold_left (λ v d, v * base + d) ds 0.

(** The characters of a numeral. *)
Definition numeral_chars (digits : list Z) (base n : Z) : list Z :=
  (λ d, default 0 (digits !! Z.to_nat d)) <$> numeral_of base n.

Lemma to_digits_value fuel base n :
  2 <= base → 0 <= n < 2 ^ Z.of_nat fuel → value_of base (to_digits fuel base n) = n.
Proof.
  intros Hb. revert n. induction fuel as [|fuel IH]; intros n Hn; cbn [to_digits].
  - cbn in Hn. cbn. lia.
  - zcase (n <=? 0); [cbn; lia|].
    unfold value_of in *. rewrite fold_left_app, IH.
    + cbn [fold_left]. pose proof (Z.div_mod n base). lia.
    + split; [apply Z.div_pos; lia|]. apply Z.div_lt_upper_bound; [lia|].
      rewrite Nat2Z.inj_succ, Z.pow_succ_r in Hn by lia. nia.
Qed.

Lemma to_digits_range fuel base n :
  2 <= base → Forall (λ d, 0 <= d < base) (to_digits fuel base n).
Proof.
  intros Hb. revert n. induction fuel as [|fuel IH]; intros n; cbn [to_digits]; [constructor|].
  zcase (n <=? 0); [constructor|]. apply Forall_app_2; [apply IH|].
  repeat constructor; apply Z.mod_pos_bound; lia.
Qed.

Lemma to_digits_length fuel base n : (length (to_digits fuel base n) <= fuel)%nat.
Proof.
  revert n. induction fuel as [|fuel IH]; intros n; cbn; [lia|].
  destruct (n <=? 0); cbn; [lia|]. rewrite length_app. cbn. specialize (IH (n / base)). lia.
Qed.

(** Enough fuel is as good as more. *)
Lemma to_digits_fuel fuel fuel' base n :
  2 <= base → 0 <= n < 2 ^ Z.of_nat fuel → 0 <= n < 2 ^ Z.of_nat fuel' →
  to_digits fuel base n = to_digits fuel' base n.
Proof.
  intros Hb. revert fuel' n. induction fuel as [|fuel IH]; intros [|fuel'] n Hn Hn'; cbn [to_digits].
  - done.
  - cbn in Hn. by rewrite (proj2 (Z.leb_le _ _)) by lia.
  - cbn in Hn'. by rewrite (proj2 (Z.leb_le _ _)) by lia.
  - zcase (n <=? 0); [done|]. f_equal. rewrite Nat2Z.inj_succ, Z.pow_succ_r in Hn, Hn' by lia.
    apply IH; (split; [apply Z.div_pos; lia | apply Z.div_lt_upper_bound; nia]).
Qed.

(** A base-[base] numeral below [base ^ k] has at most [k] digits. *)
Lemma to_digits_length_pow fuel base n k :
  2 <= base → 0 <= k → n < base ^ k → Z.of_nat (length (to_digits fuel base n)) <= k.
Proof.
  intros Hb. revert n k. induction fuel as [|fuel IH]; intros n k Hk Hn; cbn [to_digits length]; [lia|].
  zcase (n <=? 0); [cbn; lia|]. rewrite length_app. cbn [length].
  destruct (decide (k = 0)) as [->|]; [cbn in Hn; lia|].
  assert (n / base < base ^ (k - 1)) as Hlt.
  { apply Z.div_lt_upper_bound; [lia|]. rewrite <-Z.pow_succ_r by lia.
    by replace (Z.succ (k - 1)) with k by lia. }
  specialize (IH (n / base) (k - 1) ltac:(lia) Hlt). lia.
Qed.

Lemma to_digits_pos fuel base n :
  0 < n → to_digits (Datatypes.S fuel) base n = to_digits fuel base (n / base) ++ [n mod base].
Proof. intros. cbn [to_digits]. by rewrite (proj2 (Z.leb_gt _ _)) by lia. Qed.

Lemma numeral_of_zero base : numeral_of base 0 = [].
Proof. done. Qed.

Lemma numeral_of_step base n :
  2 <= base → 0 < n < 2 ^ 64 → numeral_of base n = numeral_of base (n / base) ++ [n mod base].
Proof.
  intros Hb Hn. unfold numeral_of at 1. rewrite to_digits_pos by lia.
  apply (f_equal (λ l, l ++ [n mod base])). assert (0 <= n / base < 2 ^ 63) as Hd.
  { split; [apply Z.div_pos; lia | apply Z.div_lt_upper_bound; [lia|]]. lia. }
  apply (to_digits_fuel 63 64); [done | exact Hd |]. change (Z.of_nat 64) with 64. lia.
Qed.

(** An octal, decimal or hexadecimal 64-bit numeral fits in printInteger's
    buffer of 24 bytes. *)
Lemma numeral_of_fits base n :
  8 <= base → n < 2 ^ 64 → (length (numeral_of base n) <= 22)%nat.
Proof.
  intros Hb Hn.
  assert (Z.of_nat (length (numeral_of base n)) <= 22); [|lia].
  apply to_digits_length_pow; [lia..|].
  apply Z.lt_le_trans with (8 ^ 22); [lia | apply Z.pow_le_mono_l; lia].
Qed.

Section convert.
Context {S : Type} `{L : !Lens S mem}.
Implicit Types s : S.

(** The first loop counts the digits. *)
Lemma count_digits base value length s fuel :
  2 <= base → 0 <= value < 2 ^ 64 →
  (Datatypes.length (numeral_of base value) < fuel)%nat →
  loop fuel (λ '(i, length),
    if 0 <? i then mret (Next (i / base, length + 1)) else mret (Done length)) (value, length) s =
  Ok (length + Z.of_nat (Datatypes.length (numeral_of base value)), s).
Proof.
  intros Hb Hv Hf. name_loop body. revert value length Hv Hf.
  induction fuel as [|fuel IH]; intros value length Hv Hf; [lia|].
  destruct (decide (value = 0)) as [->|].
  - rewrite numeral_of_zero. cbn [Datatypes.length]. rewrite Z.add_0_r. by apply loop_done.
  - assert (0 <= value / base < 2 ^ 64).
    { split; [apply Z.div_pos; lia | apply Z.div_lt_upper_bound; nia]. }
    rewrite numeral_of_step, length_app in * by lia. cbn [Datatypes.length] in *.
    erewrite loop_next by (enter; by rewrite (proj2 (Z.ltb_lt _ _)) by lia).
    rewrite IH by lia. do 2 f_equal. lia.
Qed.

Lemma numeral_chars_step digits base n :
  2 <= base → 0 < n < 2 ^ 64 →
  numeral_chars digits base n =
  numeral_chars digits base (n / base) ++ [default 0 (digits !! Z.to_nat (n mod base))].
Proof. intros. unfold numeral_chars. by rewrite numeral_of_step, fmap_app by done. Qed.

Lemma length_numeral_chars digits base n :
  length (numeral_chars digits base n) = length (numeral_of base n).
Proof. apply length_fmap. Qed.

(** The second loop writes them, the last one first. *)
Lemma write_digits (dest base value : Z) (digits : list Z) s fuel :
  2 <= base → 0 < value < 2 ^ 64 → Forall byte_ok digits →
  mapped (memory s) dest (Z.of_nat (length (numeral_of base value))) →
  (length (numeral_of base value) <= fuel)%nat →
  loop fuel (λ '(destination, value),
    let destination := destination - 1 in
    store destination (default 0 (digits !! Z.to_nat (value mod base)));;
    let value := value / base in
    if Z_bool value then mret (Next (destination, value)) else mret (Done tt))
    (dest + Z.of_nat (length (numeral_of base value)), value) s =
  Ok (tt, with_memory s (write_bytes (memory s) dest (numeral_chars digits base value))).
Proof.
  intros Hb Hv Hd Hm Hf. name_loop body. revert value s Hv Hm Hf.
  induction fuel as [|fuel IH]; intros value s Hv Hm Hf;
    rewrite numeral_of_step, length_app in Hf, Hm |- * by lia; cbn [length] in *; [lia|].
  set (n := length (numeral_of base (value / base))) in *.
  assert (byte_ok (default 0 (digits !! Z.to_nat (value mod base)))) as Hc.
  { destruct (digits !! _) eqn:E; cbn; [by eapply Forall_lookup_1 | unfold byte_ok; lia]. }
  set (c := default 0 (digits !! _)) in *.
  assert (0 <= value / base < 2 ^ 64).
  { split; [apply Z.div_pos; lia | apply Z.div_lt_upper_bound; nia]. }
  assert (body (dest + Z.of_nat (n + 1), value) s =
    Ok (if Z_bool (value / base) then Next (dest + Z.of_nat n, value / base) else Done tt,
        with_memory s (<[dest + Z.of_nat n := c]> (memory s)))) as Hbody.
  { enter. cbn zeta beta iota. replace (dest + Z.of_nat (n + 1) - 1) with (dest + Z.of_nat n) by lia.
    run (store_ok s (dest + Z.of_nat n) c ltac:(apply Hm; lia)).
    rewrite u8_small by (unfold byte_ok in Hc; lia). by destruct (Z_bool _). }
  rewrite numeral_chars_step, write_bytes_app by lia. fold c. cbn [write_bytes].
  rewrite length_numeral_chars. fold n. rewrite write_bytes_insert_after by (rewrite length_numeral_chars; lia).
  unfold Z_bool in Hbody. zcase (value / base =? 0); cbn [negb] in Hbody.
  - rewrite (loop_done _ _ _ _ _ _ Hbody).
    replace (value / base) with 0 by lia. unfold numeral_chars. by rewrite numeral_of_zero.
  - rewrite (loop_next _ _ _ _ _ _ Hbody). unfold n.
    rewrite IH; [by autorewrite with lens | lia | | lia].
    autorewrite with lens. apply mapped_insert. eapply mapped_sub; [exact Hm|lia|lia].
Qed.

(** convert_integer leaves the numeral at [destination] and returns its length. *)
Lemma convert_integer_ok dest value base digits s :
  2 <= base → 0 < value < 2 ^ 64 → Forall byte_ok digits →
  mapped (memory s) dest (Z.of_nat (length (numeral_of base value))) →
  convert_integer dest value base digits s =
  Ok (Z.of_nat (length (numeral_of base value)),
      with_memory s (write_bytes (memory s) dest (numeral_chars digits base value))).
Proof.
  intros Hb Hv Hd Hm. pose proof (to_digits_length 64 base value) as Hlen. fold (numeral_of base value) in Hlen.
  unfold convert_integer. run (count_digits base value 0 s 65 Hb ltac:(lia) ltac:(lia)).
  rewrite Z.add_0_l. run (write_digits dest base value digits s 65 Hb Hv Hd Hm ltac:(lia)). done.
Qed.

(** For 0 there are no digits, and the do-while loop still writes one: it
    stores '0' one byte in front of [destination]. *)
Lemma convert_integer_zero dest base digits s :
  2 <= base →
  convert_integer dest 0 base digits s =
  (store (dest - 1) (default 0 (digits !! 0%nat));; mret 0) s.
Proof.
  intros Hb. unfold convert_integer. run (count_digits base 0 0 s 65 Hb ltac:(lia) ltac:(rewrite numeral_of_zero; cbn; lia)).
  rewrite numeral_of_zero. cbn [length Z.of_nat]. rewrite !Z.add_0_r.
  unfold mbind, ST_bind, store. cbn [loop]. rewrite Z.mod_0_l, Z.div_0_l by lia.
  by destruct (memory s !! (dest - 1)).
Qed.
End convert.

(** ** What vcbprintf relies on of a callback *)
Section sink.
Context {S : Type} `{L : !Lens S mem}.
Context (inv : S → list Z → Prop) (room : list Z → Prop) (kept : Z → Prop).

(** [c] returns [a] after printing [bs]; [o] was printed before. *)
Definition emits {A} (c : ST S A) (s : S) (o : list Z) (a : A) (bs : list Z) : Prop :=
  ∃ s', c s = Ok (a, s') ∧ inv s' (o ++ bs) ∧
    ∀ q, kept q → memory s' !! q = memory s !! q.
End sink.

(** [inv s o]: in state [s] the text [o] has been printed.  The callback
    appends to it as long as there is [room], and does not touch the memory
    [kept]: that of the arguments, and the locals of printInteger, which in
    turn are no part of [inv]. *)
Class Sink {S : Type} `{L : !Lens S mem} (callback : list Z → ST S Z) (buffer : Z)
    (inv : S → list Z → Prop) (room : list Z → Prop) (kept : Z → Prop) : Prop := {
  sink_run s o bs : inv s o → room (o ++ bs) →
    emits inv kept (callback bs) s o (Z.of_nat (length bs)) bs;
  sink_room a b : room (a ++ b) → room a;
  sink_scratch s o m : inv s o →
    (∀ q, ¬ buffer - 1 <= q < buffer + 24 → m !! q = memory s !! q) →
    inv (with_memory s m) o;
  sink_kept q : buffer - 1 <= q < buffer + 24 → kept q;
}.

Section emits.
Context {S : Type} `{L : !Lens S mem} `{E : !Lens S errno_st}.
Context {callback : list Z → ST S Z} {buffer : Z}.
Context {inv : S → list Z → Prop} {room : list Z → Prop} {kept : Z → Prop}.
Context `{K : !Sink callback buffer inv room kept}.
Implicit Types (s : S) (o bs : list Z).
Local Abbreviation emits := (emits inv kept).

Lemma emits_ret {A} (a : A) s o : inv s o → emits (mret a) s o a [].
Proof. intros H. exists s. by rewrite app_nil_r. Qed.

Lemma emits_bind {A B} (c : ST S A) (k : A → ST S B) s o a b bs cs :
  emits c s o a bs →
  (∀ s', inv s' (o ++ bs) → (∀ q, kept q → memory s' !! q = memory s !! q) →
     emits (k a) s' (o ++ bs) b cs) →
  emits (c ≫= k) s o b (bs ++ cs).
Proof.
  intros (s' & Hc & Hi & Hk) H. destruct (H s' Hi Hk) as (s'' & Hc' & Hi' & Hk').
  exists s''. rewrite (bind_ok _ _ _ _ _ Hc), app_assoc. repeat split; [done..|].
  intros q Hq. by rewrite Hk', Hk.
Qed.

(** One guarded step of a print: [if (... != ...) return -1;]. *)
Lemma emits_guard ok (k : ST S Z) s o b bs cs :
  emits ok s o true bs →
  (∀ s', inv s' (o ++ bs) → (∀ q, kept q → memory s' !! q = memory s !! q) →
     emits k s' (o ++ bs) b cs) →
  emits (guard_ ok k) s o b (bs ++ cs).
Proof. intros H Hk. unfold guard_. by apply (emits_bind _ _ _ _ true). Qed.

Lemma emits_emit s o bs : inv s o → room (o ++ bs) → emits (emit callback bs) s o true bs.
Proof.
  intros Hi Hr. unfold emit. rewrite <-(app_nil_r bs) at 2.
  apply (emits_bind _ _ _ _ (Z.of_nat (length bs))).
  - by apply sink_run.
  - intros s' Hi' _. rewrite Z.eqb_refl. by apply emits_ret.
Qed.

Lemma emits_pad c from to s o :
  inv s o → room (o ++ replicate (Z.to_nat (to - from)) c) →
  emits (pad callback c from to) s o true (replicate (Z.to_nat (to - from)) c).
Proof.
  unfold pad. remember (Z.to_nat (to - from)) as n eqn:Hn. revert from s o Hn.
  induction n as [|n IH]; intros from s o Hn Hi Hr.
  - exists s. rewrite app_nil_r. split; [|done]. apply loop_done.
    by rewrite (proj2 (Z.ltb_ge _ _)) by lia.
  - cbn [replicate] in *. change (c :: replicate n c) with ([c] ++ replicate n c) in *.
    rewrite app_assoc in Hr. destruct (sink_run s o [c] Hi (sink_room _ _ Hr)) as (s1 & Hc & Hi1 & Hk1).
    destruct (IH (from + 1) s1 (o ++ [c]) ltac:(lia) Hi1 Hr) as (s2 & Hl & Hi2 & Hk2).
    exists s2. rewrite app_assoc. repeat split; [|done|].
    + erewrite loop_next; [exact Hl|]. rewrite (proj2 (Z.ltb_lt _ _)) by lia.
      by rewrite (bind_ok _ _ _ _ _ Hc).
    + intros q Hq. by rewrite Hk2, Hk1.
Qed.

Lemma load_bytes_ok s p bs : bytes_at (memory s) p bs → load_bytes p (length bs) s = Ok (bs, s).
Proof.
  revert p. induction bs as [|b bs IH]; intros p H; cbn [load_bytes length]; [done|].
  apply bytes_at_cons in H as [Hb H]. run_load Hb. by run (IH (p + 1) H).
Qed.

(** Printing [bs] from memory. *)
Lemma emits_memory s o p bs :
  inv s o → room (o ++ bs) → bytes_at (memory s) p bs →
  emits (bs ← load_bytes p (length bs); emit callback bs) s o true bs.
Proof.
  intros Hi Hr H. destruct (emits_emit s o bs Hi Hr) as (s' & He & ?).
  exists s'. by rewrite (bind_ok _ _ _ _ _ (load_bytes_ok s p bs H)).
Qed.
End emits.

(** ** The text of an integer conversion *)
Definition is_negative (spec value : Z) : bool := is_signed_spec spec && (s64 value <? 0).
Definition magnitude (spec value : Z) : Z :=
  if is_negative spec value then u64 (- s64 value) else value.
Definition base_of (spec : Z) : Z := if spec =? ch "o" then 8 else if is_hex_spec spec then 16 else 10.
Definition digits_of (spec : Z) : list Z := if spec =? ch "X" then digits_upper else digits_lower.

Definition int_digits (spec value : Z) : list Z :=
  numeral_chars (digits_of spec) (base_of spec) (magnitude spec value).

(** '+' and ' ' only concern signed conversions. *)
Definition sign_text (spec value flags : Z) : list Z :=
  if is_negative spec value then str "-"
  else if negb (is_signed_spec spec) then []
  else if has flags FLAG_PLUS then str "+"
  else if has flags FLAG_SPACE then str " " else [].

Definition prefix_text (spec value flags : Z) : list Z :=
  if has flags FLAG_ALTERNATIVE && negb (value =? 0) then
    if spec =? ch "x" then str "0x" else if spec =? ch "X" then str "0X" else []
  else [].

(** '#' makes an octal number start with a 0. *)
Definition min_digits (spec value precision flags : Z) : Z :=
  let n := Z.of_nat (length (int_digits spec value)) in
  if has flags FLAG_ALTERNATIVE && (spec =? ch "o") && (precision <=? n) then n + 1 else precision.

Definition zeros_text (spec value precision flags : Z) : list Z :=
  replicate (Z.to_nat (min_digits spec value precision flags -
                       Z.of_nat (length (int_digits spec value)))) (ch "0").

Definition int_core (spec value precision flags : Z) : list Z :=
  sign_text spec value flags ++ prefix_text spec value flags ++
  zeros_text spec value precision flags ++ int_digits spec value.

(** The field: blanks on the right, on the left, or zeros after the prefix. *)
Definition int_text (spec value width precision flags : Z) : list Z :=
  let core := int_core spec value precision flags in
  let fill := Z.to_nat (width - Z.of_nat (length core)) in
  if has flags FLAG_LEFT_JUSTIFIED then core ++ replicate fill (ch " ")
  else if has flags FLAG_LEADING_ZEROS then
    sign_text spec value flags ++ prefix_text spec value flags ++ replicate fill (ch "0") ++
    zeros_text spec value precision flags ++ int_digits spec value
  else replicate fill (ch " ") ++ core.

Lemma length_int_text spec value width precision flags :
  Z.of_nat (length (int_text spec value width precision flags)) =
  Z.max width (Z.of_nat (length (int_core spec value precision flags))).
Proof.
  unfold int_text. set (core := int_core _ _ _ _).
  destruct (has _ _); [|destruct (has _ _)].
  - rewrite length_app, length_replicate. lia.
  - unfold core, int_core. rewrite !length_app, length_replicate. lia.
  - rewrite length_app, length_replicate. lia.
Qed.

(** Flags are a bit set. *)
Lemma has_bit flags n : 0 <= n → has flags (Z.shiftl 1 n) = Z.testbit flags n.
Proof.
  intros Hn. unfold has, Z_bool. rewrite Z.shiftl_1_l.
  destruct (Z.testbit flags n) eqn:E.
  - apply negb_true_iff, Z.eqb_neq. intros H0.
    assert (Z.testbit (Z.land flags (2 ^ n)) n = false) as Hf by (rewrite H0; apply Z.bits_0).
    rewrite Z.land_spec, E, Z.pow2_bits_true in Hf by done. done.
  - apply negb_false_iff, Z.eqb_eq. apply Z.bits_inj'. intros k Hk.
    rewrite Z.land_spec, Z.bits_0, Z.pow2_bits_eqb by done.
    destruct (n =? k) eqn:?; zb; [subst; by rewrite E | apply andb_false_r].
Qed.

Lemma has_lor flags a b : has flags (Z.lor a b) = has flags a || has flags b.
Proof.
  unfold has, Z_bool. rewrite Z.land_lor_distr_r, <-negb_andb. f_equal.
  destruct (Z.land flags a =? 0) eqn:Ha, (Z.land flags b =? 0) eqn:Hb; zb; cbn.
  - rewrite Ha, Hb. done.
  - apply Z.eqb_neq. rewrite Z.lor_eq_0_iff. tauto.
  - apply Z.eqb_neq. rewrite Z.lor_eq_0_iff. tauto.
  - apply Z.eqb_neq. rewrite Z.lor_eq_0_iff. tauto.
Qed.

(** Clearing some flags hides those, and no other. *)
Lemma has_clear flags a b :
  has (Z.land flags (Z.lnot a)) b = has flags (Z.land (Z.lnot a) b).
Proof. unfold has. by rewrite Z.land_assoc. Qed.

Lemma has_none flags : has flags 0 = false.
Proof. unfold has. by rewrite Z.land_0_r. Qed.

Lemma magnitude_range spec value : 0 <= value < 2 ^ 64 → 0 <= magnitude spec value < 2 ^ 64.
Proof. intros. unfold magnitude. destruct (is_negative _ _); [apply u64_range | done]. Qed.

Lemma base_of_bounds spec : 8 <= base_of spec <= 16.
Proof. unfold base_of. destruct (spec =? ch "o"); [lia|]. destruct (is_hex_spec spec); lia. Qed.

Lemma digits_of_bytes spec : Forall byte_ok (digits_of spec).
Proof. unfold digits_of. destruct (spec =? _); apply (bool_decide_unpack _); by vm_compute. Qed.

Lemma digits_of_zero spec : digits_of spec !! 0%nat = Some (ch "0").
Proof. unfold digits_of. by destruct (spec =? _). Qed.

Lemma int_digits_fits spec value :
  0 <= value < 2 ^ 64 → (length (int_digits spec value) <= 22)%nat.
Proof.
  intros H. unfold int_digits. rewrite length_numeral_chars.
  pose proof (base_of_bounds spec). pose proof (magnitude_range spec value H).
  apply numeral_of_fits; lia.
Qed.

Lemma add_overflow_ok a b : INT_MIN <= a + b <= INT_MAX → add_overflow a b = (a + b, false).
Proof.
  unfold INT_MIN, INT_MAX. intros H. unfold add_overflow, INT_MIN, INT_MAX.
  rewrite s32_small by lia. by rewrite !(proj2 (Z.leb_le _ _)) by lia.
Qed.

Section printInteger.
Context {S : Type} `{L : !Lens S mem} `{E : !Lens S errno_st}.
Context {callback : list Z → ST S Z} {buffer : Z}.
Context {inv : S → list Z → Prop} {room : list Z → Prop} {kept : Z → Prop}.
Context `{K : !Sink callback buffer inv room kept}.
Implicit Types (s : S) (o bs : list Z).

(** printInteger's locals: the buffer, and the byte below it. *)
Definition scratch (q : Z) : Prop := buffer - 1 <= q < buffer + 24.
Definition locals (s : S) : Prop := mapped (memory s) (buffer - 1) 25.

(** What printing leaves alone. *)
Definition untouched (s s' : S) : Prop :=
  ∀ q, kept q → ¬ scratch q → memory s' !! q = memory s !! q.

Lemma convert_buffer s o spec value :
  inv s o → locals s → 0 <= value < 2 ^ 64 →
  ∃ s', convert_integer buffer (magnitude spec value) (base_of spec) (digits_of spec) s =
          Ok (Z.of_nat (length (int_digits spec value)), s') ∧
        inv s' o ∧ locals s' ∧ untouched s s' ∧
        bytes_at (memory s') buffer (int_digits spec value).
Proof.
  intros Hi Hl Hv. pose proof (base_of_bounds spec). pose proof (magnitude_range spec value Hv).
  pose proof (int_digits_fits spec value Hv) as Hfit.
  unfold int_digits in *. rewrite length_numeral_chars in *.
  destruct (decide (magnitude spec value = 0)) as [Hz|].
  - rewrite Hz. unfold numeral_chars. rewrite numeral_of_zero, convert_integer_zero by lia.
    rewrite digits_of_zero. cbn [from_option id].
    eexists. run (store_ok s (buffer - 1) (ch "0") ltac:(apply Hl; lia)).
    split; [done|]. split; [|split; [|split]].
    + apply (sink_scratch s o _ Hi). intros q Hq. apply lookup_insert_ne. lia.
    + unfold locals in *. autorewrite with lens. by apply mapped_insert.
    + intros q _ Hq. autorewrite with lens. apply lookup_insert_ne. unfold scratch in Hq. lia.
    + apply bytes_at_nil.
  - eexists. split; [apply convert_integer_ok; [lia | lia | apply digits_of_bytes |]|].
    { eapply mapped_sub; [exact Hl | lia | lia]. }
    split; [|split; [|split]].
    + apply (sink_scratch s o _ Hi). intros q Hq. apply lookup_write_bytes_out.
      rewrite length_numeral_chars. lia.
    + unfold locals in *. autorewrite with lens. by apply mapped_write.
    + intros q _ Hq. autorewrite with lens. apply lookup_write_bytes_out.
      rewrite length_numeral_chars. unfold scratch in Hq. lia.
    + autorewrite with lens. apply bytes_at_write.
Qed.

(** The flags printInteger works with. *)
Definition int_flags (spec flags : Z) : Z :=
  if is_signed_spec spec then flags else Z.land flags (Z.lnot (Z.lor FLAG_PLUS FLAG_SPACE)).

Lemma int_flags_has spec flags f :
  Z.land (Z.lnot (Z.lor FLAG_PLUS FLAG_SPACE)) f = f → has (int_flags spec flags) f = has flags f.
Proof. intros H. unfold int_flags. destruct (is_signed_spec spec); [done|]. by rewrite has_clear, H. Qed.

Lemma int_flags_sign spec flags f :
  Z.land (Z.lnot (Z.lor FLAG_PLUS FLAG_SPACE)) f = 0 →
  has (int_flags spec flags) f = is_signed_spec spec && has flags f.
Proof.
  intros H. unfold int_flags. destruct (is_signed_spec spec); [done|]. by rewrite has_clear, H, has_none.
Qed.

Definition has_sign (spec value flags : Z) : bool :=
  is_negative spec value || has (int_flags spec flags) (Z.lor FLAG_PLUS FLAG_SPACE).

Lemma sign_text_has spec value flags :
  sign_text spec value flags =
  if has_sign spec value flags then
    [if is_negative spec value then ch "-"
     else if has (int_flags spec flags) FLAG_PLUS then ch "+" else ch " "]
  else [].
Proof.
  unfold sign_text, has_sign. rewrite has_lor, !int_flags_sign by done.
  destruct (is_negative _ _); [done|]. destruct (is_signed_spec spec), (has flags FLAG_PLUS), (has flags FLAG_SPACE); done.
Qed.

Lemma is_hex_cases spec : is_hex_spec spec = (spec =? ch "x") || (spec =? ch "X").
Proof. done. Qed.

Lemma hex_magnitude spec value :
  is_hex_spec spec = true → magnitude spec value = value.
Proof.
  rewrite is_hex_cases, orb_true_iff. intros H. unfold magnitude, is_negative.
  assert (is_signed_spec spec = false) as ->; [|done].
  destruct H; zb; by subst.
Qed.

Lemma length_prefix spec value flags :
  Z.of_nat (length (prefix_text spec value flags)) =
  if has flags FLAG_ALTERNATIVE && is_hex_spec spec && negb (magnitude spec value =? 0) then 2 else 0.
Proof.
  destruct (is_hex_spec spec) eqn:Hx.
  - rewrite (hex_magnitude spec value Hx). rewrite is_hex_cases in Hx. unfold prefix_text.
    destruct (has _ _), (value =? 0); cbn [andb negb]; try done.
    destruct (spec =? ch "x"); [done|]. cbn [orb] in Hx. by rewrite Hx.
  - rewrite andb_false_r. cbn [andb]. rewrite is_hex_cases, orb_false_iff in Hx. destruct Hx as [Hx Hy].
    unfold prefix_text. rewrite Hx, Hy. by destruct (_ && _).
Qed.

Lemma length_int_core spec value precision flags :
  Z.of_nat (length (int_core spec value precision flags)) =
  Z.max (Z.of_nat (length (int_digits spec value))) (min_digits spec value precision flags) +
  (if has_sign spec value flags then 1 else 0) +
  (if has flags FLAG_ALTERNATIVE && is_hex_spec spec && negb (magnitude spec value =? 0) then 2 else 0).
Proof.
  rewrite <-length_prefix. unfold int_core, zeros_text. rewrite !length_app, length_replicate, sign_text_has.
  destruct (has_sign _ _ _); cbn [length]; lia.
Qed.

Lemma emits_when (b : bool) (c : ST S bool) s o bs :
  inv s o → room (o ++ if b then bs else []) →
  (room (o ++ bs) → emits inv kept c s o true bs) →
  emits inv kept (if b then c else mret true) s o true (if b then bs else []).
Proof. intros Hi Hr H. destruct b; [auto | by apply emits_ret]. Qed.

(** The tail of printInteger, once the digits are in the buffer and
    [unpadded] is known. *)
Definition print_parts (specifier value fieldWidth precision flags : Z)
    (negative : bool) (stringLength unpadded : Z) : ST S Z :=
  guard_ (if negb (has flags (Z.lor FLAG_LEFT_JUSTIFIED FLAG_LEADING_ZEROS))
          then pad callback (ch " ") unpadded fieldWidth else mret true)
  (guard_ (if negative || has flags (Z.lor FLAG_PLUS FLAG_SPACE) then
             emit callback [if negative : bool then ch "-"
                            else if has flags FLAG_PLUS then ch "+" else ch " "]
           else mret true)
  (guard_ (if has flags FLAG_ALTERNATIVE then
             if (specifier =? ch "x") && negb (value =? 0) then emit callback (str "0x")
             else if (specifier =? ch "X") && negb (value =? 0) then emit callback (str "0X")
             else mret true
           else mret true)
  (guard_ (if negb (has flags FLAG_LEFT_JUSTIFIED) && has flags FLAG_LEADING_ZEROS
           then pad callback (ch "0") unpadded fieldWidth else mret true)
  (guard_ (pad callback (ch "0") stringLength precision)
  (guard_ (bs ← load_bytes buffer (Z.to_nat stringLength); emit callback bs)
  (guard_ (if has flags FLAG_LEFT_JUSTIFIED
           then pad callback (ch " ") unpadded fieldWidth else mret true)
  (mret (if fieldWidth <=? unpadded then unpadded else fieldWidth)))))))).

Definition fill (width unpadded : Z) (c : Z) : list Z := replicate (Z.to_nat (width - unpadded)) c.

(** What the tail prints, part by part. *)
Definition parts (spec value width precision flags unpadded : Z) : list Z :=
  (if negb (has flags (Z.lor FLAG_LEFT_JUSTIFIED FLAG_LEADING_ZEROS))
   then fill width unpadded (ch " ") else []) ++
  sign_text spec value flags ++ prefix_text spec value flags ++
  (if negb (has flags FLAG_LEFT_JUSTIFIED) && has flags FLAG_LEADING_ZEROS
   then fill width unpadded (ch "0") else []) ++
  zeros_text spec value precision flags ++ int_digits spec value ++
  (if has flags FLAG_LEFT_JUSTIFIED then fill width unpadded (ch " ") else []) ++ [].

Lemma parts_text spec value width precision flags :
  parts spec value width precision flags (Z.of_nat (length (int_core spec value precision flags))) =
  int_text spec value width precision flags.
Proof.
  unfold parts, int_text, fill. rewrite has_lor, app_nil_r.
  destruct (has flags FLAG_LEFT_JUSTIFIED), (has flags FLAG_LEADING_ZEROS); cbn [orb negb andb app];
    unfold int_core; by rewrite ?app_nil_r, <-?app_assoc.
Qed.

Lemma room_l a b c : room (a ++ b ++ c) → room (a ++ b).
Proof. rewrite app_assoc. apply sink_room. Qed.

Lemma prefix_emit s o spec value flags (Hr : room (o ++ prefix_text spec value flags)) (Hi : inv s o) :
  emits inv kept
    (if has flags FLAG_ALTERNATIVE then
       if (spec =? ch "x") && negb (magnitude spec value =? 0) then emit callback (str "0x")
       else if (spec =? ch "X") && negb (magnitude spec value =? 0) then emit callback (str "0X")
       else mret true
     else mret true) s o true (prefix_text spec value flags).
Proof.
  unfold prefix_text in *.
  destruct (has flags FLAG_ALTERNATIVE); cbn [andb] in *; [|by apply emits_ret].
  destruct (is_hex_spec spec) eqn:Hx.
  - rewrite (hex_magnitude spec value Hx). destruct (negb (value =? 0)); rewrite ?andb_true_r, ?andb_false_r.
    + destruct (spec =? ch "x"); [by apply emits_emit|].
      destruct (spec =? ch "X"); [by apply emits_emit | by apply emits_ret].
    + by apply emits_ret.
  - rewrite is_hex_cases, orb_false_iff in Hx. destruct Hx as [-> ->]. cbn [andb].
    destruct (negb _); by apply emits_ret.
Qed.

Lemma print_parts_ok s o spec value width precision flags unpadded :
  inv s o → room (o ++ parts spec value width precision flags unpadded) →
  bytes_at (memory s) buffer (int_digits spec value) → 0 <= value < 2 ^ 64 →
  emits inv kept
    (print_parts spec (magnitude spec value) width (min_digits spec value precision flags)
       (int_flags spec flags) (is_negative spec value)
       (Z.of_nat (length (int_digits spec value))) unpadded) s o
    (Z.max width unpadded) (parts spec value width precision flags unpadded).
Proof.
  intros Hi Hr Hb Hv. pose proof (int_digits_fits spec value Hv) as Hfit.
  unfold print_parts, parts in *. fold (has_sign spec value flags).
  assert (∀ s', (∀ q, kept q → memory s' !! q = memory s !! q) →
    bytes_at (memory s') buffer (int_digits spec value)) as Hbuf.
  { intros s' Hk i b Hl. rewrite Hk; [by apply Hb|]. apply (sink_kept (buffer := buffer)).
    apply lookup_lt_Some in Hl. lia. }
  rewrite (int_flags_has _ _ (Z.lor FLAG_LEFT_JUSTIFIED FLAG_LEADING_ZEROS)),
    (int_flags_has _ _ FLAG_ALTERNATIVE), (int_flags_has _ _ FLAG_LEFT_JUSTIFIED),
    (int_flags_has _ _ FLAG_LEADING_ZEROS) by done. fold (fill width unpadded (ch " ")).
  eapply emits_guard.
  { apply emits_when; [done | by eapply room_l | by apply emits_pad]. }
  intros s1 Hi1 Hk1. rewrite app_assoc in Hr. eapply emits_guard.
  { rewrite sign_text_has in Hr |- *. apply emits_when; [done | by eapply room_l | by apply emits_emit]. }
  intros s2 Hi2 Hk2. rewrite app_assoc in Hr. eapply emits_guard.
  { apply prefix_emit; [by eapply room_l | done]. }
  intros s3 Hi3 Hk3. rewrite app_assoc in Hr. eapply emits_guard.
  { apply emits_when; [done | by eapply room_l | by apply emits_pad]. }
  intros s4 Hi4 Hk4. rewrite app_assoc in Hr. eapply emits_guard.
  { apply emits_pad; [done | by eapply room_l]. }
  intros s5 Hi5 Hk5. rewrite app_assoc in Hr. eapply emits_guard.
  { rewrite Nat2Z.id. apply emits_memory; [done | by eapply room_l |]. apply Hbuf.
    intros q Hq. by rewrite Hk5, Hk4, Hk3, Hk2, Hk1. }
  intros s6 Hi6 Hk6. rewrite app_assoc in Hr. eapply emits_guard.
  { apply emits_when; [done | by eapply room_l | by apply emits_pad]. }
  intros s7 Hi7 Hk7. replace (Z.max width unpadded) with (if width <=? unpadded then unpadded else width)
    by (zcase (width <=? unpadded)). by apply emits_ret.
Qed.

(** The head of printInteger: sign and magnitude, and the checked sums. *)
Lemma printInteger_head spec value width precision flags s s' :
  convert_integer buffer (magnitude spec value) (base_of spec) (digits_of spec) s =
    Ok (Z.of_nat (length (int_digits spec value)), s') →
  (length (int_digits spec value) <= 22)%nat → precision <= INT_MAX - 3 →
  printInteger callback buffer spec value width precision flags s =
  print_parts spec (magnitude spec value) width (min_digits spec value precision flags)
    (int_flags spec flags) (is_negative spec value) (Z.of_nat (length (int_digits spec value)))
    (Z.of_nat (length (int_core spec value precision flags))) s'.
Proof.
  intros Hc Hfit Hp. unfold printInteger.
  replace (if is_signed_spec spec then _ else _)
    with (is_negative spec value, magnitude spec value, int_flags spec flags); cycle 1.
  { unfold magnitude, is_negative, int_flags. destruct (is_signed_spec spec); [|done].
    cbn [andb]. cbv zeta. by destruct (_ <? 0). }
  fold (base_of spec) (digits_of spec). cbv zeta. run Hc.
  rewrite length_int_core. set (n := Z.of_nat (length (int_digits spec value))).
  assert (0 <= n <= 22) as Hn by lia. unfold INT_MAX in Hp.
  rewrite (int_flags_has _ _ FLAG_ALTERNATIVE) by done. fold (has_sign spec value flags).
  replace (if has flags FLAG_ALTERNATIVE && (spec =? ch "o") && (precision <=? n) then _ else _)
    with (min_digits spec value precision flags, false); cycle 1.
  { unfold min_digits. fold n. destruct (_ && _); [|done].
    rewrite add_overflow_ok; [done | unfold INT_MIN, INT_MAX; lia]. }
  assert (min_digits spec value precision flags <= 2 ^ 31 - 1 - 3) as Hmin.
  { unfold min_digits. fold n. destruct (_ && _); lia. }
  set (m := min_digits spec value precision flags) in *. cbv iota.
  replace (if m <=? n then n else m) with (Z.max n m) by (zcase (m <=? n)).
  replace (if has_sign spec value flags then add_overflow (Z.max n m) 1 else _)
    with (Z.max n m + (if has_sign spec value flags then 1 else 0), false); cycle 1.
  { destruct (has_sign _ _ _); [rewrite add_overflow_ok; [done | unfold INT_MIN, INT_MAX; lia] | by rewrite Z.add_0_r]. }
  cbv iota. set (k := Z.max n m + _).
  assert (0 <= k <= 2 ^ 31 - 3) as Hk by (unfold k; destruct (has_sign _ _ _); lia).
  set (hex := has flags FLAG_ALTERNATIVE && is_hex_spec spec && _).
  replace (if hex then add_overflow k 2 else _) with (k + (if hex then 2 else 0), false); cycle 1.
  { destruct hex; [rewrite add_overflow_ok; [done | unfold INT_MIN, INT_MAX; lia] | by rewrite Z.add_0_r]. }
  cbv iota. unfold print_parts. by rewrite (int_flags_has _ _ FLAG_ALTERNATIVE) by done.
Qed.

(** printInteger prints the field and returns its length. *)
Lemma printInteger_ok s o spec value width precision flags :
  inv s o → locals s → 0 <= value < 2 ^ 64 → precision <= INT_MAX - 3 →
  room (o ++ int_text spec value width precision flags) →
  ∃ s', printInteger callback buffer spec value width precision flags s =
          Ok (Z.of_nat (length (int_text spec value width precision flags)), s') ∧
        inv s' (o ++ int_text spec value width precision flags) ∧ locals s' ∧ untouched s s'.
Proof.
  intros Hi Hl Hv Hp Hr. pose proof (int_digits_fits spec value Hv) as Hfit.
  destruct (convert_buffer s o spec value Hi Hl Hv) as (s1 & Hc & Hi1 & Hl1 & Hu & Hb).
  rewrite length_int_text, <-parts_text in *.
  destruct (print_parts_ok s1 o spec value width precision flags _ Hi1 Hr Hb Hv) as (s2 & Hrun & Hi2 & Hk).
  exists s2. rewrite (printInteger_head _ _ _ _ _ _ _ Hc Hfit Hp), Hrun. repeat split; [done| |].
  - intros q Hq. rewrite Hk; [by apply Hl1|]. apply (sink_kept (buffer := buffer)). lia.
  - intros q Hq Hs. rewrite Hk by done. by apply Hu.
Qed.
End printInteger.

(** ** Formats

    A format is written as the list of its items; [show] gives the text of an
    item, [args] the words it takes from the stack. *)
Inductive width_spec : Type := NoWidth | Width (n : Z) | StarWidth (w : Z).
Inductive prec_spec : Type := NoPrec | Prec (n : Z) | StarPrec (w : Z).
Inductive modifier : Type := M_none | M_hh | M_h | M_l | M_ll | M_j | M_z | M_t | M_L.

Inductive arg : Type :=
| AInt (spec : Z) (words : list Z)   (* d i o u x X *)
| AChar (w : Z)                      (* c *)
| AStr (p : Z) (txt : list Z)        (* s: the string [txt] at [p] *)
| APtr (w : Z)                       (* p *)
| APercent.                          (* % *)

Inductive item : Type :=
| Lit (c : Z)
| Dir (fl : list Z) (w : width_spec) (p : prec_spec) (m : modifier) (a : arg).

Definition decimal (n : Z) : list Z := (λ d, d + 48) <$> numeral_of 10 n.
Definition decimal0 (n : Z) : list Z := if n =? 0 then str "0" else decimal n.

Definition show_width (w : width_spec) : list Z :=
  match w with NoWidth => [] | Width n => decimal n | StarWidth _ => str "*" end.
Definition show_prec (p : prec_spec) : list Z :=
  match p with NoPrec => [] | Prec n => ch "." :: decimal0 n | StarPrec _ => str ".*" end.
Definition show_mod (m : modifier) : list Z :=
  match m with
  | M_none => [] | M_hh => str "hh" | M_h => str "h" | M_l => str "l" | M_ll => str "ll"
  | M_j => str "j" | M_z => str "z" | M_t => str "t" | M_L => str "L"
  end.
Definition spec_of (a : arg) : Z :=
  match a with
  | AInt spec _ => spec | AChar _ => ch "c" | AStr _ _ => ch "s" | APtr _ => ch "p"
  | APercent => ch "%"
  end.

Definition show (it : item) : list Z :=
  match it with
  | Lit c => [c]
  | Dir fl w p m a =>
      ch "%" :: fl ++ show_width w ++ show_prec p ++ show_mod m ++ [spec_of a]
  end.

Definition width_args (w : width_spec) : list Z := match w with StarWidth w => [w] | _ => [] end.
Definition prec_args (p : prec_spec) : list Z := match p with StarPrec w => [w] | _ => [] end.
Definition arg_words (a : arg) : list Z :=
  match a with
  | AInt _ ws => ws | AChar w => [w] | AStr p _ => [p] | APtr w => [w] | APercent => []
  end.
Definition args (it : item) : list Z :=
  match it with Lit _ => [] | Dir _ w p _ a => width_args w ++ prec_args p ++ arg_words a end.

(** *** Their meaning *)
Definition flag_bit (c : Z) : Z :=
  if c =? ch "-" then FLAG_LEFT_JUSTIFIED else if c =? ch "+" then FLAG_PLUS
  else if c =? ch " " then FLAG_SPACE else if c =? ch "#" then FLAG_ALTERNATIVE
  else FLAG_LEADING_ZEROS.
Definition is_flag (c : Z) : bool :=
  (c =? ch "-") || (c =? ch "+") || (c =? ch " ") || (c =? ch "#") || (c =? ch "0").
Definition flag_set (fl : list Z) : Z := fold_left (λ f c, Z.lor f (flag_bit c)) fl 0.

(** A negative '*' width asks for left justification. *)
Definition field_width (w : width_spec) : Z :=
  match w with NoWidth => 0 | Width n => n | StarWidth w => Z.abs (s32 w) end.
Definition field_flags (fl : list Z) (w : width_spec) : Z :=
  match w with
  | StarWidth w => if s32 w <? 0 then Z.lor (flag_set fl) FLAG_LEFT_JUSTIFIED else flag_set fl
  | _ => flag_set fl
  end.
Definition precision_of (p : prec_spec) : Z :=
  match p with NoPrec => -1 | Prec n => n | StarPrec w => s32 w end.

Definition mod_code (m : modifier) : Z :=
  match m with
  | M_none => LENGTH_INT | M_hh => LENGTH_CHAR_HH | M_h => LENGTH_SHORT_H | M_l => LENGTH_LONG_L
  | M_ll => LENGTH_LONG_LONG_LL | M_j => LENGTH_INTMAX_J | M_z => LENGTH_SIZE_Z
  | M_t => LENGTH_PTRDIFF_T | M_L => LENGTH_LONG_DOUBLE_L
  end.

(** The argument as the type its modifier names, then as uintmax_t. *)
Definition mod_words (m : modifier) : nat :=
  match m with M_ll | M_j => 2 | M_L => 0 | _ => 1 end%nat.
Definition raw (words : list Z) : Z :=
  match words with [w] => w | [lo; hi] => lo + 2 ^ 32 * hi | _ => 0 end.
Definition narrow (m : modifier) (signed : bool) (v : Z) : Z :=
  match m, signed with
  | M_hh, false => u8 v | M_hh, true => s8 v
  | M_h, false => u16 v | M_h, true => s16 v
  | (M_none | M_l | M_z), false => v | (M_none | M_l | M_z), true => s32 v
  | (M_ll | M_j), _ => v
  | M_t, _ => s32 v
  | M_L, _ => 0
  end.
Definition arg_value (spec : Z) (m : modifier) (words : list Z) : Z :=
  u64 (narrow m (is_signed_spec spec) (raw words)).

Definition str_text (txt : list Z) (width flags : Z) : list Z :=
  let blanks := replicate (Z.to_nat (width - Z.of_nat (length txt))) (ch " ") in
  if has flags FLAG_LEFT_JUSTIFIED then txt ++ blanks else blanks ++ txt.

Definition cut (precision : Z) (txt : list Z) : list Z :=
  if precision <? 0 then txt else take (Z.to_nat precision) txt.

Definition arg_text (width flags precision : Z) (m : modifier) (a : arg) : list Z :=
  match a with
  | AInt spec ws =>
      if precision <? 0 then int_text spec (arg_value spec m ws) width 1 flags
      else int_text spec (arg_value spec m ws) width precision (Z.land flags (Z.lnot FLAG_LEADING_ZEROS))
  | AChar w => str_text [u8 w] width flags
  | AStr _ txt => str_text (cut precision txt) width flags
  | APtr w => int_text (ch "x") w 0 1 FLAG_ALTERNATIVE
  | APercent => str "%"
  end.

Definition item_text (it : item) : list Z :=
  match it with
  | Lit c => [c]
  | Dir fl w p m a => arg_text (field_width w) (field_flags fl w) (precision_of p) m a
  end.

Definition format_text (items : list item) : list Z := items ≫= item_text.
Definition format_of (items : list item) : list Z := items ≫= show.
Definition format_args (items : list item) : list Z := items ≫= args.

(** ** Parsing a shown item gives it back *)
Definition fold_digits (ds : list Z) (acc : Z) : Z := fold_left (λ v d, v * 10 + d) ds acc.

Lemma fold_digits_le ds acc : Forall (λ d, 0 <= d < 10) ds → 0 <= acc → acc <= fold_digits ds acc.
Proof.
  intros H. revert acc. induction H as [|d ds Hd H IH]; intros acc Ha; cbn; [lia|].
  specialize (IH (acc * 10 + d)). unfold fold_digits in *. lia.
Qed.

Lemma parse_decimal_digits ds rest acc :
  Forall (λ d, 0 <= d < 10) ds → 0 <= acc → fold_digits ds acc <= INT_MAX →
  is_digit (peek rest) = false →
  parse_decimal (((λ d, d + 48) <$> ds) ++ rest) acc = (fold_digits ds acc, rest).
Proof.
  intros H. revert acc. induction H as [|d ds Hd H IH]; intros acc Ha Hm Hr.
  - destruct rest as [|c rest]; [done|]. cbn in *. by rewrite Hr.
  - cbn [fmap list_fmap app parse_decimal]. unfold is_digit at 1.
    rewrite !(proj2 (Z.leb_le _ _)) by lia. cbn [andb].
    pose proof (fold_digits_le ds (acc * 10 + d) H ltac:(lia)) as Hle.
    unfold fold_digits in Hm |- *. cbn [fold_left] in Hm |- *. fold (fold_digits ds (acc * 10 + d)) in Hm |- *.
    unfold INT_MAX in *. rewrite s32_small by lia.
    replace (acc * 10 + (d + 48) - 48) with (acc * 10 + d) by lia. apply IH; [lia | exact Hm | exact Hr].
Qed.

Lemma parse_decimal_shown n rest :
  0 <= n <= INT_MAX → is_digit (peek rest) = false → parse_decimal (decimal n ++ rest) 0 = (n, rest).
Proof.
  intros Hn Hr. unfold INT_MAX in Hn.
  assert (fold_digits (numeral_of 10 n) 0 = n) as Hv.
  { apply (to_digits_value 64 10 n); [lia|]. change (Z.of_nat 64) with 64. lia. }
  unfold decimal. rewrite parse_decimal_digits; [by rewrite Hv| | done | unfold INT_MAX; lia | done].
  apply to_digits_range. lia.
Qed.

(** A numeral does not start with a 0. *)
Lemma to_digits_head fuel base n :
  2 <= base → 0 < n < 2 ^ Z.of_nat fuel →
  ∃ d ds, to_digits fuel base n = d :: ds ∧ 0 < d < base.
Proof.
  intros Hb. revert n. induction fuel as [|fuel IH]; intros n Hn; [cbn in Hn; lia|].
  rewrite to_digits_pos by lia. rewrite Nat2Z.inj_succ, Z.pow_succ_r in Hn by lia.
  pose proof (Z.mod_pos_bound n base ltac:(lia)). pose proof (Z.div_mod n base ltac:(lia)).
  destruct (decide (n / base = 0)) as [E|E].
  - rewrite E. exists (n mod base), []. split; [|lia].
    destruct fuel; [done|]. cbn [to_digits]. by rewrite (proj2 (Z.leb_le 0 0)) by lia.
  - destruct (IH (n / base)) as (d & ds & -> & Hd).
    { pose proof (Z.div_pos n base ltac:(lia) ltac:(lia)).
      split; [lia | apply Z.div_lt_upper_bound; nia]. }
    by exists d, (ds ++ [n mod base]).
Qed.

Lemma decimal_head n : 0 < n <= INT_MAX → ∃ c cs, decimal n = c :: cs ∧ 49 <= c <= 57.
Proof.
  intros Hn. unfold INT_MAX in Hn. unfold decimal.
  destruct (to_digits_head 64 10 n) as (d & ds & Heq & Hd); [lia | change (Z.of_nat 64) with 64; lia|].
  unfold numeral_of. rewrite Heq. exists (d + 48), ((λ d, d + 48) <$> ds). split; [done | lia].
Qed.

Lemma flag_of c : is_flag c = true → ∀ rest f,
  parse_flags (c :: rest) f = parse_flags rest (Z.lor f (flag_bit c)).
Proof.
  unfold is_flag. intros H rest f. cbn [parse_flags]. unfold flag_bit.
  destruct (c =? ch "-"); [done|]. destruct (c =? ch "+"); [done|]. destruct (c =? ch " "); [done|].
  destruct (c =? ch "#"); [done|]. cbn [orb] in H. by rewrite H.
Qed.

Lemma parse_flags_shown fl rest f :
  Forall (λ c, is_flag c = true) fl → is_flag (peek rest) = false →
  parse_flags (fl ++ rest) f = (fold_left (λ f c, Z.lor f (flag_bit c)) fl f, rest).
Proof.
  intros H Hr. revert f. induction H as [|c fl Hc H IH]; intros f; cbn [app fold_left].
  - destruct rest as [|c rest]; [done|]. unfold peek in Hr. cbn [head from_option id] in Hr.
    unfold is_flag in Hr. rewrite !orb_false_iff in Hr. destruct Hr as [[[[H1 H2] H3] H4] H5].
    cbn [parse_flags]. by rewrite H1, H2, H3, H4, H5.
  - rewrite flag_of by done. apply IH.
Qed.

Definition is_length_char (c : Z) : bool :=
  (c =? ch "h") || (c =? ch "l") || (c =? ch "j") || (c =? ch "z") || (c =? ch "t") || (c =? ch "L").

Lemma parse_length_shown m c rest :
  is_length_char c = false →
  parse_length (show_mod m ++ c :: rest) LENGTH_INT = (mod_code m, c :: rest).
Proof.
  unfold is_length_char. rewrite !orb_false_iff. intros [[[[[H1 H2] H3] H4] H5] H6].
  destruct m; cbn -[Z.eqb ch]; rewrite ?H1, ?H2, ?H3, ?H4, ?H5, ?H6; done.
Qed.

(** ** Which items the theorem covers *)
Definition word (w : Z) : Prop := 0 <= w < 2 ^ 32.

Definition width_ok (w : width_spec) : Prop :=
  match w with
  | NoWidth => True
  | Width n => 0 < n <= INT_MAX
  | StarWidth w => INT_MIN < s32 w
  end.

(** Room is left for a sign and a 0x prefix. *)
Definition prec_ok (p : prec_spec) : Prop :=
  match p with
  | NoPrec => True
  | Prec n => 0 <= n <= INT_MAX - 3
  | StarPrec w => s32 w <= INT_MAX - 3
  end.

Section format.
Context {S : Type} `{L : !Lens S mem} `{E : !Lens S errno_st}.
Context {callback : list Z → ST S Z} {buffer : Z}.
Context {inv : S → list Z → Prop} {room : list Z → Prop} {kept : Z → Prop}.
Context `{K : !Sink callback buffer inv room kept}.
Implicit Types (s : S) (o bs : list Z).
Local Abbreviation untouched := (untouched (buffer := buffer) (kept := kept)).
Local Abbreviation locals := (locals (buffer := buffer)).

(** A string argument lies in kept memory, off printInteger's locals. *)
Definition arg_ok (fuel : nat) (s : S) (m : modifier) (a : arg) : Prop :=
  match a with
  | AInt spec ws =>
      is_signed_spec spec || is_unsigned_spec spec = true ∧
      length ws = mod_words m ∧ Forall word ws
  | AStr p txt =>
      cstr (memory s) p txt ∧ (length txt < fuel)%nat ∧ Z.of_nat (length txt) <= INT_MAX ∧
      ∀ q, p <= q <= p + Z.of_nat (length txt) → kept q ∧ ¬ buffer - 1 <= q < buffer + 24
  | APtr w => word w
  | AChar _ | APercent => True
  end.

Definition item_ok (fuel : nat) (s : S) (it : item) : Prop :=
  match it with
  | Lit c => char_ok c ∧ c ≠ ch "%"
  | Dir fl w p m a =>
      Forall (λ c, is_flag c = true) fl ∧ width_ok w ∧ prec_ok p ∧ arg_ok fuel s m a
  end.

(** Printing does not spoil the arguments still to be printed. *)
Lemma cstr_untouched s s' p txt :
  untouched s s' →
  (∀ q, p <= q <= p + Z.of_nat (length txt) → kept q ∧ ¬ buffer - 1 <= q < buffer + 24) →
  cstr (memory s) p txt → cstr (memory s') p txt.
Proof.
  intros Hu Hq [H1 H2]. split; [done|]. intros i b Hb.
  pose proof (lookup_lt_Some _ _ _ Hb) as Hl. rewrite length_app in Hl. cbn [length] in Hl.
  destruct (Hq (p + Z.of_nat i)) as [? ?]; [lia|]. rewrite Hu; [by apply H2 | done | done].
Qed.

Lemma item_ok_untouched fuel s s' it : untouched s s' → item_ok fuel s it → item_ok fuel s' it.
Proof.
  intros Hu. destruct it as [c|fl w p m [| | | |]]; cbn; [done|naive_solver|naive_solver| |naive_solver..].
  intros (Hf & Hw & Hp & Hc & Hlen & Hmax & Hq). do 3 (split; [done|]).
  split; [by apply (cstr_untouched s) | done].
Qed.

(** printString prints its field and returns its length. *)
Lemma printString_ok s o (get : ST S (list Z)) txt width flags :
  inv s o → locals s → room (o ++ str_text txt width flags) →
  (∀ s', untouched s s' → get s' = Ok (txt, s')) →
  ∃ s', printString callback get (Z.of_nat (length txt)) width flags s =
          Ok (Z.of_nat (length (str_text txt width flags)), s') ∧
        inv s' (o ++ str_text txt width flags) ∧ locals s' ∧ untouched s s'.
Proof.
  intros Hi Hl Hr Hget.
  set (blanks := replicate (Z.to_nat (width - Z.of_nat (length txt))) (ch " ")).
  assert (str_text txt width flags =
    (if negb (has flags FLAG_LEFT_JUSTIFIED) then blanks else []) ++ txt ++
    (if has flags FLAG_LEFT_JUSTIFIED then blanks else []) ++ []) as Htext.
  { unfold str_text. fold blanks. destruct (has _ _); cbn [negb app]; by rewrite ?app_nil_r. }
  assert (Z.of_nat (length (str_text txt width flags)) =
    if width <=? Z.of_nat (length txt) then Z.of_nat (length txt) else width) as ->.
  { unfold str_text. fold blanks. zcase (width <=? Z.of_nat (length txt)); destruct (has _ _);
      rewrite length_app; unfold blanks; rewrite length_replicate; lia. }
  rewrite Htext in *. unfold printString.
  edestruct (emits_guard (inv := inv) (kept := kept)) as (s' & Hrun & Hi' & Hk);
    [| |exists s'; split; [exact Hrun|]].
  - apply (emits_when (room := room)); [done | by eapply room_l | by apply emits_pad].
  - intros s1 Hi1 Hk1. rewrite app_assoc in Hr. apply emits_guard.
    { destruct (emits_emit s1 _ txt Hi1) as (s' & ? & ?); [by eapply room_l|].
      exists s'. rewrite (bind_ok _ _ _ _ _ (Hget s1 (λ q Hq _, Hk1 q Hq))). done. }
    intros s2 Hi2 Hk2. rewrite app_assoc in Hr. apply emits_guard.
    { apply (emits_when (room := room)); [done | by eapply room_l | by apply emits_pad]. }
    intros s3 Hi3 Hk3. by apply emits_ret.
  - split; [exact Hi'|]. split; [|intros q Hq _; by apply Hk].
    intros q Hq. rewrite Hk; [by apply Hl|]. apply (sink_kept (buffer := buffer)). lia.
Qed.

Lemma u64_id z : 0 <= z < 2 ^ 64 → u64 z = z.
Proof. apply u64_small. Qed.

(** va_arg reads the words of the argument at the type of its modifier. *)
Lemma fetch_int (s : S) spec m ws vl :
  is_signed_spec spec || is_unsigned_spec spec = true →
  length ws = mod_words m → Forall word ws →
  fetch_value spec (mod_code m) (ws ++ vl) s = Ok ((arg_value spec m ws, vl), s).
Proof.
  intros Hspec Hlen Hws. unfold fetch_value, arg_value.
  assert (is_unsigned_spec spec = negb (is_signed_spec spec)) as Hsg.
  { unfold is_unsigned_spec, is_signed_spec, is_hex_spec in *.
    destruct (spec =? ch "d") eqn:Hd; zb; [by subst|].
    destruct (spec =? ch "i") eqn:Hi'; zb; [by subst|]. exact Hspec. }
  rewrite Hsg. assert (∀ w, word w → u64 w = w) as Hw.
  { unfold word. intros w ?. apply u64_small. lia. }
  assert (∀ w, u64 (u8 w) = u8 w) as H8.
  { intros w. pose proof (u8_range w). apply u64_small. lia. }
  assert (∀ w, u64 (u16 w) = u16 w) as H16.
  { intros w. pose proof (Z.mod_pos_bound w (2 ^ 16) ltac:(lia)). apply u64_small. unfold u16. lia. }
  destruct m; cbn [mod_words] in Hlen;
    (destruct ws as [|w1 [|w2 [|w3 ws]]]; cbn [length] in Hlen; try lia);
    cbn [app raw narrow]; decompose_Forall;
    destruct (is_signed_spec spec); cbn [negb]; cbn -[u8 u16 s8 s16 s32 u64 Z.pow];
    rewrite ?H8, ?H16, ?Hw by done; try done;
    rewrite u64_id; try done; unfold word in *; lia.
Qed.

Lemma fetch_other (s : S) spec m vl :
  is_signed_spec spec = false → is_unsigned_spec spec = false →
  fetch_value spec (mod_code m) vl s = Ok ((0, vl), s).
Proof. intros H1 H2. unfold fetch_value. by rewrite H1, H2. Qed.

Definition directive fuel a m vl width precision flags result : ST S conversion :=
  '(value, vl) ← fetch_value (spec_of a) (mod_code m) vl;
  convert callback buffer fuel (spec_of a) value width precision flags result vl.

Lemma arg_value_range spec m ws : 0 <= arg_value spec m ws < 2 ^ 64.
Proof. apply u64_range. Qed.

Lemma directive_ok s o fuel a m vl width precision flags result :
  inv s o → locals s → arg_ok fuel s m a → precision <= INT_MAX - 3 →
  room (o ++ arg_text width flags precision m a) →
  ∃ s', directive fuel a m (arg_words a ++ vl) width precision flags result s =
          Ok (Written (Z.of_nat (length (arg_text width flags precision m a))) vl, s') ∧
        inv s' (o ++ arg_text width flags precision m a) ∧ locals s' ∧ untouched s s'.
Proof.
  intros Hi Hl Ha Hp Hr. destruct a as [spec ws|w|p txt|w|]; cbn [arg_text arg_words spec_of arg_ok] in *;
    unfold directive; cbn [spec_of].
  - destruct Ha as (Hspec & Hlen & Hws). run (fetch_int s spec m ws vl Hspec Hlen Hws).
    unfold convert. rewrite Hspec. destruct (precision <? 0) eqn:Hn; zb.
    + destruct (printInteger_ok s o spec (arg_value spec m ws) width 1 flags Hi Hl
        (arg_value_range _ _ _) ltac:(unfold INT_MAX; lia) Hr) as (s' & Hrun & ?).
      exists s'. by run Hrun.
    + destruct (printInteger_ok s o spec (arg_value spec m ws) width precision
        (Z.land flags (Z.lnot FLAG_LEADING_ZEROS)) Hi Hl (arg_value_range _ _ _) Hp Hr) as (s' & Hrun & ?).
      exists s'. by run Hrun.
  - run (fetch_other s (ch "c") m ([w] ++ vl) eq_refl eq_refl).
    cbv beta iota. change (convert _ _ _ _ _ _ _ _ _ _) with
      (written ← printString callback (mret [u8 w]) 1 width flags; mret (Written written vl) : ST S conversion).
    destruct (printString_ok s o (mret [u8 w]) [u8 w] width flags Hi Hl Hr ltac:(done)) as (s' & Hrun & ?).
    exists s'. by run Hrun.
  - destruct Ha as (Hc & Hlen & Hmax & Hq). run (fetch_other s (ch "s") m ([p] ++ vl) eq_refl eq_refl).
    assert (Z.of_nat (length (cut precision txt)) <= INT_MAX) as Hcut.
    { unfold cut. destruct (_ <? _); [done|]. rewrite length_take. lia. }
    assert ((if precision <? 0 then strlen fuel p else strnlen p precision) s =
      Ok (Z.of_nat (length (cut precision txt)), s)) as Hsize.
    { unfold cut. destruct (precision <? 0) eqn:Hn; zb; [by apply strlen_ok|].
      rewrite (strnlen_ok s p txt precision Hc Hn). do 2 f_equal. rewrite length_take. lia. }
    cbv beta iota. change (convert _ _ _ _ _ _ _ _ _ _) with
      (size ← (if precision <? 0 then strlen fuel p else strnlen p precision);
       if INT_MAX <? size then mret TooLong else
       written ← printString callback (load_bytes p (Z.to_nat size)) size width flags;
       mret (Written written vl) : ST S conversion).
    run Hsize.
    rewrite (proj2 (Z.ltb_ge _ _)) by lia. rewrite Nat2Z.id.
    destruct (printString_ok s o (load_bytes p (length (cut precision txt))) (cut precision txt) width flags
      Hi Hl Hr) as (s' & Hrun & ?).
    { intros s1 Hu. apply load_bytes_ok. pose proof (cstr_untouched s s1 p txt Hu Hq Hc) as [_ Hb].
      apply bytes_at_app in Hb as [Hb _]. unfold cut. destruct (_ <? _); [done|].
      rewrite <-(take_drop (Z.to_nat precision) txt) in Hb. by apply bytes_at_app in Hb as [? _]. }
    exists s'. by run Hrun.
  - run (fetch_other s (ch "p") m ([w] ++ vl) eq_refl eq_refl).
    cbv beta iota. change (convert _ _ _ _ _ _ _ _ _ _) with
      (written ← printInteger callback buffer (ch "x") w 0 1 FLAG_ALTERNATIVE;
       mret (Written written vl) : ST S conversion).
    destruct (printInteger_ok s o (ch "x") w 0 1 FLAG_ALTERNATIVE Hi Hl
      ltac:(unfold word in Ha; lia) ltac:(unfold INT_MAX; lia) Hr) as (s' & Hrun & ?).
    exists s'. by run Hrun.
  - run (fetch_other s (ch "%") m ([] ++ vl) eq_refl eq_refl).
    cbv beta iota. change (convert _ _ _ _ _ _ _ _ _ _) with
      (n ← callback [ch "%"]; mret (Written (if n =? 1 then 1 else -1) vl) : ST S conversion).
    destruct (sink_run s o (str "%") Hi Hr) as (s' & Hrun & Hi' & Hk).
    exists s'. run Hrun. split; [done|]. split; [done|]. split.
    + intros q Hq. rewrite Hk; [by apply Hl|]. apply (sink_kept (buffer := buffer)). lia.
    + intros q Hq _. by apply Hk.
Qed.

(** The character a part of a directive starts with. *)
Definition plain (c : Z) : bool :=
  negb (is_flag c) && negb (is_digit c) && negb (c =? ch "*") && negb (c =? ch ".").

Lemma int_specs spec :
  is_signed_spec spec || is_unsigned_spec spec = true →
  spec ∈ [ch "d"; ch "i"; ch "o"; ch "u"; ch "x"; ch "X"].
Proof.
  unfold is_signed_spec, is_unsigned_spec, is_hex_spec.
  destruct (spec =? ch "d") eqn:?; zb; [set_solver|]. destruct (spec =? ch "i") eqn:?; zb; [set_solver|].
  destruct (spec =? ch "o") eqn:?; zb; [set_solver|]. destruct (spec =? ch "u") eqn:?; zb; [set_solver|].
  destruct (spec =? ch "x") eqn:?; zb; [set_solver|]. destruct (spec =? ch "X") eqn:?; zb; [set_solver|].
  done.
Qed.

Lemma spec_plain fuel s m a :
  arg_ok fuel s m a → plain (spec_of a) = true ∧ is_length_char (spec_of a) = false.
Proof.
  destruct a as [spec ws|w|p txt|w|]; cbn [arg_ok spec_of]; [|done..].
  intros (H & _). apply int_specs in H. rewrite !elem_of_cons, elem_of_nil in H.
  destruct H as [->|[->|[->|[->|[->|[->|[]]]]]]]; done.
Qed.

Lemma mod_plain m c rest : plain c = true → plain (peek (show_mod m ++ c :: rest)) = true.
Proof. by destruct m. Qed.

Lemma plain_spec c : plain c = true →
  is_flag c = false ∧ is_digit c = false ∧ (c =? ch "*") = false ∧ (c =? ch ".") = false.
Proof. unfold plain. rewrite !andb_true_iff, !negb_true_iff. tauto. Qed.

Lemma peek_prec p rest :
  plain (peek rest) = true →
  is_flag (peek (show_prec p ++ rest)) = false ∧ is_digit (peek (show_prec p ++ rest)) = false ∧
  (peek (show_prec p ++ rest) =? ch "*") = false.
Proof. intros (? & ? & ? & ?)%plain_spec. by destruct p. Qed.

Lemma peek_width w p rest :
  plain (peek rest) = true → width_ok w → is_flag (peek (show_width w ++ show_prec p ++ rest)) = false.
Proof.
  intros H Hw. destruct w as [|n|w]; cbn [show_width app]; [by apply peek_prec | | done].
  destruct (decimal_head n Hw) as (c & cs & -> & Hc). cbn [peek app head from_option id].
  unfold is_flag. by repeat (rewrite (proj2 (Z.eqb_neq c _)) by (cbn; lia)).
Qed.

Lemma parse_width_shown (s : S) w p rest vl f :
  plain (peek rest) = true → width_ok w →
  parse_width (show_width w ++ show_prec p ++ rest) (width_args w ++ vl) f s =
  Ok (field_width w,
      match w with StarWidth w => if s32 w <? 0 then Z.lor f FLAG_LEFT_JUSTIFIED else f | _ => f end,
      show_prec p ++ rest, vl, s).
Proof.
  intros H Hw. destruct (peek_prec p rest H) as (_ & Hd & Hs). unfold parse_width.
  destruct w as [|n|w]; cbn [show_width width_args app field_width].
  - rewrite Hs. destruct (show_prec p ++ rest) as [|c t]; [done|]. cbn [parse_decimal].
    unfold peek in Hd. cbn [head from_option id] in Hd. by rewrite Hd.
  - cbn [width_ok] in Hw. rewrite parse_decimal_shown by (done || lia).
    destruct (decimal_head n Hw) as (c & cs & -> & Hc). cbn [peek app head from_option id].
    by rewrite (proj2 (Z.eqb_neq c _)) by (cbn; lia).
  - cbn [width_ok] in Hw. unfold INT_MIN in Hw. change (peek _ =? ch "*") with true. cbv iota.
    cbn [va_word tail]. unfold mbind, ST_bind. cbn -[s32 Z.abs Z.pow].
    destruct (s32 w <? 0) eqn:Hn; zb.
    + rewrite (s32_small (- s32 w)) by (unfold s32 in *; lia).
      by rewrite Z.abs_neq by lia.
    + by rewrite Z.abs_eq by lia.
Qed.

Lemma parse_precision_shown (s : S) p rest vl :
  plain (peek rest) = true → prec_ok p →
  parse_precision (show_prec p ++ rest) (prec_args p ++ vl) s = Ok (precision_of p, rest, vl, s).
Proof.
  intros (_ & Hd & Hs & Hp)%plain_spec Hok. unfold parse_precision.
  destruct p as [|n|w]; cbn [show_prec prec_args app precision_of].
  - by rewrite Hp.
  - change (peek (ch "." :: _) =? ch ".") with true. cbv iota. cbn [tail]. cbn [prec_ok] in Hok.
    unfold decimal0. destruct (n =? 0) eqn:H0; zb.
    + subst n. change (peek (str "0" ++ rest) =? ch "*") with false. cbv iota.
      change (parse_decimal (str "0" ++ rest) 0) with (parse_decimal rest 0).
      destruct rest as [|c t]; [done|]. cbn [parse_decimal].
      unfold peek in Hd. cbn [head from_option id] in Hd. by rewrite Hd.
    + rewrite parse_decimal_shown by (done || lia).
      destruct (decimal_head n ltac:(lia)) as (c & cs & -> & Hc). cbn [peek app head from_option id].
      by rewrite (proj2 (Z.eqb_neq c _)) by (cbn; lia).
  - done.
Qed.

Lemma advance_ok n result format vl invalid (s : S) :
  0 <= result → 0 <= n → result + n <= INT_MAX →
  advance n result format vl invalid s = Ok (Next (format, vl, result + n, invalid), s).
Proof. intros. unfold advance. rewrite add_overflow_ok by (unfold INT_MIN, INT_MAX in *; lia). done. Qed.

(** A directive as the text the loop meets and the words it takes. *)
Lemma directive_step s o fuel fl w p m a rest vl result :
  inv s o → locals s → item_ok fuel s (Dir fl w p m a) →
  0 <= result → result + Z.of_nat (length (item_text (Dir fl w p m a))) <= INT_MAX →
  room (o ++ item_text (Dir fl w p m a)) →
  ∃ s', vcbprintf_step callback buffer fuel
          (show (Dir fl w p m a) ++ rest, args (Dir fl w p m a) ++ vl, result, false) s =
          Ok (Next (rest, vl, result + Z.of_nat (length (item_text (Dir fl w p m a))), false), s') ∧
        inv s' (o ++ item_text (Dir fl w p m a)) ∧ locals s' ∧ untouched s s'.
Proof.
  intros Hi Hl (Hfl & Hw & Hp & Ha) Hr0 Hr1 Hr.
  destruct (spec_plain fuel s m a Ha) as [Hplain Hlen].
  set (t3 := show_mod m ++ spec_of a :: rest).
  assert (plain (peek t3) = true) as H3 by by apply mod_plain.
  assert (show (Dir fl w p m a) ++ rest = ch "%" :: fl ++ show_width w ++ show_prec p ++ t3) as ->.
  { unfold t3. cbn [show app]. by rewrite <-!app_assoc. }
  assert (precision_of p <= INT_MAX - 3) as Hprec.
  { unfold INT_MAX in *. destruct p; cbn in *; unfold INT_MAX in *; lia. }
  destruct (directive_ok s o fuel a m vl (field_width w) (precision_of p) (field_flags fl w) result
    Hi Hl Ha Hprec Hr) as (s' & Hrun & Hi' & Hl' & Hu).
  exists s'. split; [|done]. unfold vcbprintf_step. rewrite Z.eqb_refl. cbn [negb orb].
  rewrite parse_flags_shown by (done || by apply peek_width). fold (flag_set fl).
  cbn [args]. rewrite <-!app_assoc. cbv beta iota zeta.
  run (parse_width_shown s w p t3 (prec_args p ++ arg_words a ++ vl) (flag_set fl) H3 Hw). cbv beta iota zeta.
  run (parse_precision_shown s p t3 (arg_words a ++ vl) H3 Hp). cbv beta iota zeta.
  unfold t3. rewrite parse_length_shown by done. cbv beta iota zeta. cbn [peek head from_option id tail].
  change (match w with StarWidth w => _ | _ => _ end) with (field_flags fl w).
  unfold directive in Hrun. cbv zeta. cbn [item_text] in *.
  set (n := Z.of_nat (length (arg_text _ _ _ _ _))) in *.
  destruct (fetch_value (spec_of a) (mod_code m) (arg_words a ++ vl) s) as [[[value vl1] s1]| |] eqn:Hf;
    unfold mbind, ST_bind in Hrun; rewrite Hf in Hrun; [|done..].
  run Hf. cbv beta iota zeta. run Hrun. cbv beta iota zeta. rewrite (proj2 (Z.ltb_ge _ _)) by lia. by apply advance_ok; lia.
Qed.

Lemma item_step s o fuel it rest vl result :
  inv s o → locals s → item_ok fuel s it →
  0 <= result → result + Z.of_nat (length (item_text it)) <= INT_MAX → room (o ++ item_text it) →
  ∃ s', vcbprintf_step callback buffer fuel (show it ++ rest, args it ++ vl, result, false) s =
          Ok (Next (rest, vl, result + Z.of_nat (length (item_text it)), false), s') ∧
        inv s' (o ++ item_text it) ∧ locals s' ∧ untouched s s'.
Proof.
  intros Hi Hl Hok Hr0 Hr1 Hr. destruct it as [c|fl w p m a]; [|by apply directive_step].
  destruct Hok as [Hc Hne]. cbn [item_text show args app] in *.
  destruct (sink_run s o [c] Hi Hr) as (s' & Hrun & Hi' & Hk).
  exists s'. unfold vcbprintf_step. rewrite (proj2 (Z.eqb_neq c _)) by done. cbn [negb orb].
  run Hrun. cbn [length Z.of_nat Z.eqb negb]. split; [|split; [done|split]].
  - by apply advance_ok.
  - intros q Hq. rewrite Hk; [by apply Hl|]. apply (sink_kept (buffer := buffer)). lia.
  - intros q Hq _. by apply Hk.
Qed.

Lemma items_loop s o fuel items result n :
  inv s o → locals s → Forall (item_ok fuel s) items → 0 <= result →
  result + Z.of_nat (length (format_text items)) <= INT_MAX → room (o ++ format_text items) →
  (length items < n)%nat →
  ∃ s', loop n (vcbprintf_step callback buffer fuel)
          (format_of items, format_args items, result, false) s =
          Ok (result + Z.of_nat (length (format_text items)), s') ∧
        inv s' (o ++ format_text items) ∧ locals s' ∧ untouched s s'.
Proof.
  revert s o result n. induction items as [|it items IH]; intros s o result n Hi Hl Hok Hr0 Hr1 Hr Hn.
  - exists s. destruct n as [|n]; [lia|]. change (format_text []) with (@nil Z).
    rewrite app_nil_r, Z.add_0_r. split; [by apply loop_done | done].
  - destruct n as [|n]; [cbn in Hn; lia|]. apply list.Forall_cons in Hok as [Hit Hok].
    change (format_text (it :: items)) with (item_text it ++ format_text items) in *.
    rewrite length_app in Hr1 |- *. rewrite app_assoc in Hr |- *.
    destruct (item_step s o fuel it (format_of items) (format_args items) result Hi Hl Hit Hr0
      ltac:(lia) (sink_room _ _ Hr)) as (s1 & Hrun & Hi1 & Hl1 & Hu1).
    destruct (IH s1 _ (result + Z.of_nat (length (item_text it))) n Hi1 Hl1) as (s2 & Hloop & Hi2 & Hl2 & Hu2);
      [|lia|lia|done|cbn in Hn; lia|].
    { eapply list.Forall_impl; [exact Hok|]. intros x. by apply item_ok_untouched. }
    exists s2. split; [|split; [done|split; [done|]]].
    + rewrite (loop_next _ _ _ _ _ _ Hrun), Hloop. do 2 f_equal. lia.
    + intros q Hq Hs. by rewrite Hu2, Hu1.
Qed.

Lemma show_nonempty it : (1 <= length (show it))%nat.
Proof. destruct it; cbn; lia. Qed.

Lemma format_length items : (length items <= length (format_of items))%nat.
Proof.
  induction items as [|it items IH]; [done|].
  change (format_of (it :: items)) with (show it ++ format_of items).
  rewrite length_app. pose proof (show_nonempty it). cbn [length]. lia.
Qed.

(** The whole format: the text of its items, in order, and their number. *)
Lemma vcbprintf_ok s o fuel items :
  inv s o → locals s → Forall (item_ok fuel s) items →
  Z.of_nat (length (format_text items)) <= INT_MAX → room (o ++ format_text items) →
  ∃ s', vcbprintf callback buffer fuel (format_of items) (format_args items) s =
          Ok (Z.of_nat (length (format_text items)), s') ∧
        inv s' (o ++ format_text items) ∧ locals s' ∧ untouched s s'.
Proof.
  intros Hi Hl Hok Hmax Hr. pose proof (format_length items).
  apply (items_loop s o fuel items 0); try done; lia.
Qed.
End format.

(** ** sprintf: the sink is a range of memory *)
Lemma numeral_chars_bytes digits base n : Forall byte_ok digits → Forall byte_ok (numeral_chars digits base n).
Proof.
  intros H. apply list.Forall_fmap, Forall_forall. intros d _. cbn.
  destruct (digits !! Z.to_nat d) eqn:Hd; [by eapply Forall_lookup_1 | unfold byte_ok; cbn; lia].
Qed.

Lemma replicate_bytes n c : byte_ok c → Forall byte_ok (replicate n c).
Proof. intros. by apply Forall_replicate. Qed.

Lemma str_bytes t : Forall byte_ok (str t).
Proof.
  induction t as [|a t IH]; cbn; constructor; [|done].
  pose proof (Ascii.N_ascii_bounded a). unfold byte_ok. lia.
Qed.

Lemma int_text_bytes spec value width precision flags :
  Forall byte_ok (int_text spec value width precision flags).
Proof.
  assert (Forall byte_ok (sign_text spec value flags)) as H1.
  { unfold sign_text. repeat case_match; constructor; try done. }
  assert (Forall byte_ok (prefix_text spec value flags)) as H2.
  { unfold prefix_text. repeat case_match; first [apply str_bytes | constructor]. }
  assert (Forall byte_ok (int_digits spec value)) as H3 by apply numeral_chars_bytes, digits_of_bytes.
  unfold int_text, int_core, zeros_text.
  destruct (has _ _); [|destruct (has _ _)]; rewrite ?Forall_app;
    repeat (split || assumption || (apply replicate_bytes; done)).
Qed.

Lemma str_text_bytes txt width flags : Forall byte_ok txt → Forall byte_ok (str_text txt width flags).
Proof. intros. unfold str_text. destruct (has _ _); apply Forall_app_2; try done; by apply replicate_bytes. Qed.

Section sprintf.
Context {S : Type} `{L : !Lens S mem} `{E : !Lens S errno_st}.
Local Abbreviation LL := (Lens_left S Z mem L).
Local Abbreviation EE := (Lens_left S Z errno_st E).

Lemma item_text_bytes buffer kept fuel (s : S) it :
  item_ok (buffer := buffer) (kept := kept) fuel s it → Forall byte_ok (item_text it).
Proof.
  destruct it as [c|fl w p m a]; cbn [item_ok item_text].
  - intros [Hc _]. repeat constructor; unfold char_ok, byte_ok in *; lia.
  - intros (_ & _ & _ & Ha). destruct a as [spec ws|x|q txt|x|]; cbn [arg_text].
    + destruct (_ <? _); apply int_text_bytes.
    + apply str_text_bytes. repeat constructor; apply u8_range.
    + apply str_text_bytes. destruct Ha as ([Hc _] & _).
      assert (Forall byte_ok txt).
      { eapply list.Forall_impl; [exact Hc|]. unfold char_ok, byte_ok. lia. }
      unfold cut. destruct (_ <? _); [done | by apply Forall_take].
    + apply int_text_bytes.
    + apply str_bytes.
Qed.

Context (buffer dest n : Z).

(** [n] bytes from [dest]: the text so far, then room for the rest and the
    terminator. *)
Definition sprintf_inv (st : S * Z) (o : list Z) : Prop :=
  Z.of_nat (length o) < n ∧ st.2 = dest + Z.of_nat (length o) ∧
  bytes_at (memory st.1) dest o ∧ mapped (memory st.1) dest n.
Definition sprintf_room (o : list Z) : Prop := Z.of_nat (length o) < n ∧ Forall byte_ok o.
Definition sprintf_kept (q : Z) : Prop := ¬ dest <= q < dest + n.

Lemma vsprintf_copy_ok bs o (s : S) p :
  sprintf_inv (s, p) o → sprintf_room (o ++ bs) →
  ∃ st', vsprintf_copy bs (s, p) = Ok (tt, st') ∧ sprintf_inv st' (o ++ bs) ∧
    ∀ q, sprintf_kept q → memory (L := LL) st' !! q = memory s !! q.
Proof.
  revert o s p. induction bs as [|b bs IH]; intros o s p Hi [Hlen Hb].
  - exists (s, p). by rewrite app_nil_r.
  - destruct Hi as (_ & Hp & Ho & Hm). cbn [fst snd] in *. rewrite length_app in Hlen. cbn [length] in Hlen.
    assert (byte_ok b) as Hbb by (apply Forall_app in Hb as [_ Hb]; by apply list.Forall_cons in Hb as [? _]).
    destruct (IH (o ++ [b]) (with_memory s (<[p := b]> (memory s))) (p + 1)) as (st' & Hrun & Hi' & Hk).
    + split; [rewrite length_app; cbn [length]; lia|].
      split; [cbn [snd]; rewrite length_app; cbn [length]; lia|]. cbn [fst]. autorewrite with lens.
      split; [|by apply mapped_insert]. apply bytes_at_app. split.
      * intros i c Hc. rewrite lookup_insert_ne; [by apply Ho|]. apply lookup_lt_Some in Hc. lia.
      * apply bytes_at_cons. rewrite <-Hp, lookup_insert_eq. split; [done | apply bytes_at_nil].
    + rewrite <-app_assoc. split; [|done]. rewrite length_app. cbn [app length]. lia.
    + exists st'. rewrite <-app_assoc in Hi'. split; [|split; [exact Hi'|]].
      * cbn [vsprintf_copy]. rewrite (store_ok s p b ltac:(apply Hm; lia)).
        rewrite u8_small by exact Hbb. exact Hrun.
      * intros q Hq. rewrite Hk by done. autorewrite with lens. apply lookup_insert_ne.
        unfold sprintf_kept in Hq. lia.
Qed.

Lemma sprintf_sink (Hd : disjoint_range dest n (buffer - 1) 25) :
  Sink (L := LL) vsprintf_callback buffer sprintf_inv sprintf_room sprintf_kept.
Proof.
  split.
  - intros [s p] o bs Hi Hr. destruct (vsprintf_copy_ok bs o s p Hi Hr) as (st' & Hrun & Hi' & Hk).
    exists st'. unfold vsprintf_callback. run Hrun. done.
  - intros a b [Hl Hb]. rewrite length_app in Hl. apply Forall_app in Hb as [? _]. split; [lia|done].
  - intros [s p] o m (Hn & Hp & Ho & Hm) Heq. unfold disjoint_range in Hd. cbn [fst snd] in *.
    assert (∀ q, dest <= q < dest + n → m !! q = memory s !! q) as Hin by (intros; apply Heq; lia).
    split; [done|]. split; [done|]. unfold with_memory. cbn [fst set LL Lens_left]. unfold memory at 1 2.
    rewrite get_set. split.
    + intros i b Hb. rewrite Hin; [by apply Ho|]. apply lookup_lt_Some in Hb. lia.
    + intros q Hq. rewrite Hin by lia. by apply Hm.
  - intros q Hq. unfold sprintf_kept. unfold disjoint_range in Hd. lia.
Qed.

(** sprintf leaves the text of the format at [dest] as a C string (of bytes:
    a '%c' of 0 ends it early for its readers) and returns its length. *)
Lemma sprintf_ok (s : S) fuel items :
  disjoint_range dest n (buffer - 1) 25 → mapped (memory s) dest n → mapped (memory s) (buffer - 1) 25 →
  Forall (item_ok (buffer := buffer) (kept := sprintf_kept) fuel s) items →
  Z.of_nat (length (format_text items)) < n <= INT_MAX →
  ∃ s', sprintf buffer fuel dest (format_of items) (format_args items) s =
          Ok (Z.of_nat (length (format_text items)), s') ∧
        bytes_at (memory s') dest (format_text items ++ [0]) ∧
        ∀ q, sprintf_kept q → ¬ buffer - 1 <= q < buffer + 24 → memory s' !! q = memory s !! q.
Proof.
  intros Hd Hm Hl Hok Hn. pose proof (sprintf_sink Hd) as K.
  assert (Forall byte_ok (format_text items)) as Hbytes.
  { unfold format_text. clear Hn. induction Hok as [|it items Hit Hok IH]; [constructor|].
    cbn. apply Forall_app_2; [by eapply item_text_bytes | done]. }
  destruct (vcbprintf_ok (L := LL) (E := EE) (s, dest) [] fuel items) as ([s1 p] & Hrun & Hi & _ & Hu);
    [|exact Hl| |lia|split; [cbn [app]; lia | done]|].
  - split; [cbn; lia|]. split; [cbn; lia|]. split; [apply bytes_at_nil | done].
  - eapply list.Forall_impl; [exact Hok|]. intros [c|fl w q m [| | | |]] H; exact H.
  - destruct Hi as (Hlen & Hp & Ho & Hm1). cbn [app fst snd] in *.
    exists (with_memory s1 (<[p := 0]> (memory s1))).
    unfold sprintf, vsprintf. rewrite Hrun.
    rewrite (proj2 (Z.leb_le _ _)) by lia.
    run (store_ok s1 p 0 ltac:(apply Hm1; lia)). split; [done|]. autorewrite with lens. split.
    + apply bytes_at_app. split.
      * intros i b Hb. rewrite lookup_insert_ne; [by apply Ho|]. apply lookup_lt_Some in Hb. lia.
      * apply bytes_at_cons. rewrite <-Hp, lookup_insert_eq. split; [done | apply bytes_at_nil].
    + intros q Hq Hs. rewrite lookup_insert_ne by (unfold sprintf_kept in Hq; lia).
      by apply (Hu q Hq).
Qed.
End sprintf.
