(* ===== verification/Heap.v ===== *)
(** * The heap (libc/src/stdlib/malloc.c, free.c, realloc.c, calloc.c, malloc.h)

    The heap is a list of big blocks, each a range of pages tiled by chunks; a
    memory control block of four words (magic, size, prev, next) stands in
    front of every chunk, in front of every big block and at its end.  The
    definitions work on those words in byte memory, as the code does; pages come
    from and go to the system through the class [MemMap].  [size_t] is 32 bits
    wide and wraps. *)
From S2P Require Import Prelude Memory CString Errno.

(** mapMemory and unmapMemory of malloc.h are macros: this file is compiled twice,
    in libc for mmap and munmap, in libk for the kernel's __mapMemory and
    __unmapMemory.  The heap promises the same over both, so they are operations
    of a class; what malloc and free need of them is [MemMapLaws] in HeapSpec.v,
    which says nothing of the contents of fresh pages, since mmap does not clear
    them (MemoryCalls.v). *)
Class MemMap (S : Type) : Type := {
  mapMemory : Z → ST S Z;
  unmapMemory : Z → Z → ST S unit;
}.

Definition MAGIC_BIG_MCB : Z := 0xC001C0DE.
Definition MAGIC_FREE_MCB : Z := 0xBEEFBEEF.
Definition MAGIC_USED_MCB : Z := 0xDEADBEEF.
Definition MAGIC_END_MCB : Z := 0xDEADDEAD.
Definition PAGESIZE : Z := 0x1000.

(** [(((value)-1) & ~((alignment)-1)) + (alignment)] on size_t. *)
Definition ALIGN_UP (value alignment : Z) : Z :=
  u32 (Z.land (u32 (value - 1)) (Z.lnot (alignment - 1)) + alignment).

(** Mem_Ctrl_Blk: its size and the offsets of its fields. *)
Definition sizeof_MCB : Z := 16.
Definition max_align : Z := 16.
Definition f_magic : Z := 0.
Definition f_size : Z := 4.
Definition f_prev : Z := 8.
Definition f_next : Z := 12.

Section heap.
Context {S : Type} `{L : !Lens S mem} `{E : !Lens S errno_st} `{M : !MemMap S}.
(** The address of the static array [emptyBigBlock]. *)
Context (emptyBigBlock : Z).

Definition get_field (block f : Z) : ST S Z := load32 (block + f).
Definition set_field (block f v : Z) : ST S unit := store32 (block + f) (u32 v).

(** [assert]: abort when the condition is false. *)
Definition assert_ (b : bool) : ST S unit := if b then mret tt else fault.

Definition __lockHeap : ST S unit := mret tt.
Definition __unlockHeap : ST S unit := mret tt.

Definition firstBigBlock : Z := emptyBigBlock.

Definition __allocateBigBlock (lastBigBlock size : Z) : ST S Z :=
  magic ← get_field lastBigBlock f_magic;
  assert_ (magic =? MAGIC_BIG_MCB);;
  let size := u32 (size + 3 * sizeof_MCB) in
  let size := ALIGN_UP size PAGESIZE in
  bigBlock ← mapMemory size;
  let block := bigBlock + sizeof_MCB in
  let endBlock := bigBlock + size - sizeof_MCB in
  set_field bigBlock f_magic MAGIC_BIG_MCB;;
  set_field bigBlock f_size size;;
  set_field bigBlock f_prev lastBigBlock;;
  set_field bigBlock f_next NULL;;
  set_field lastBigBlock f_next bigBlock;;
  set_field block f_magic MAGIC_FREE_MCB;;
  set_field block f_size (size - 3 * sizeof_MCB);;
  set_field block f_prev NULL;;
  set_field block f_next endBlock;;
  set_field endBlock f_magic MAGIC_END_MCB;;
  set_field endBlock f_size 0;;
  set_field endBlock f_prev block;;
  set_field endBlock f_next NULL;;
  mret bigBlock.

Definition __unifyBlocks (first second : Z) : ST S Z :=
  next ← get_field second f_next;
  set_field first f_next next;;
  size1 ← get_field first f_size;
  size2 ← get_field second f_size;
  set_field first f_size (size1 + (sizeof_MCB + size2));;
  next ← get_field second f_next;
  set_field next f_prev first;;
  mret first.

Definition __splitBlock (block size : Z) : ST S unit :=
  let newBlock := block + sizeof_MCB + size in
  set_field newBlock f_magic MAGIC_FREE_MCB;;
  blockSize ← get_field block f_size;
  set_field newBlock f_size (blockSize - sizeof_MCB - size);;
  set_field newBlock f_prev block;;
  next ← get_field block f_next;
  set_field newBlock f_next next;;
  set_field block f_size size;;
  next ← get_field block f_next;
  set_field next f_prev newBlock;;
  set_field block f_next newBlock.

(** One round of malloc's [while (1)]: the current big block and block. *)
Definition malloc_step (size totalSize : Z) : Z * Z → ST S (step (Z * Z) Z) :=
  λ '(currentBigBlock, currentBlock),
    magic ← get_field currentBlock f_magic;
    if magic =? MAGIC_FREE_MCB then
      blockSize ← get_field currentBlock f_size;
      if size <=? blockSize then
        (if totalSize <? blockSize then __splitBlock currentBlock size else mret tt);;
        set_field currentBlock f_magic MAGIC_USED_MCB;;
        __unlockHeap;;
        mret (Done (currentBlock + sizeof_MCB))
      else
        next ← get_field currentBlock f_next;
        mret (Next (currentBigBlock, next))
    else if magic =? MAGIC_USED_MCB then
      next ← get_field currentBlock f_next;
      mret (Next (currentBigBlock, next))
    else if magic =? MAGIC_END_MCB then
      nextBig ← get_field currentBigBlock f_next;
      if Z_bool nextBig then mret (Next (nextBig, nextBig + sizeof_MCB))
      else
        newBig ← __allocateBigBlock currentBigBlock size;
        if negb (Z_bool newBig) then set_errno ENOMEM;; __unlockHeap;; mret (Done NULL)
        else mret (Next (newBig, newBig + sizeof_MCB))
    else __unlockHeap;; mret (Done NULL).

Definition malloc (fuel : nat) (size : Z) : ST S Z :=
  let size := if size =? 0 then 1 else size in
  let size := ALIGN_UP size max_align in
  let totalSize := u32 (sizeof_MCB + size) in
  __lockHeap;;
  loop fuel (malloc_step size totalSize) (firstBigBlock, firstBigBlock + sizeof_MCB).

Definition free (addr : Z) : ST S unit :=
  if addr =? NULL then mret tt else
  __lockHeap;;
  let block := addr - sizeof_MCB in
  set_field block f_magic MAGIC_FREE_MCB;;
  prev ← get_field block f_prev;
  prevFree ← (if Z_bool prev then magic ← get_field prev f_magic; mret (magic =? MAGIC_FREE_MCB)
              else mret false);
  block ← (if prevFree : bool then __unifyBlocks prev block else mret block);
  next ← get_field block f_next;
  magic ← get_field next f_magic;
  block ← (if magic =? MAGIC_FREE_MCB then __unifyBlocks block next else mret block);
  prev ← get_field block f_prev;
  whole ← (if prev =? NULL then
             next ← get_field block f_next; magic ← get_field next f_magic;
             mret (magic =? MAGIC_END_MCB)
           else mret false);
  (if whole : bool then
     let bigBlock := block - sizeof_MCB in
     bigPrev ← get_field bigBlock f_prev;
     (if Z_bool bigPrev then
        bigNext ← get_field bigBlock f_next; set_field bigPrev f_next bigNext
      else mret tt);;
     bigNext ← get_field bigBlock f_next;
     (if Z_bool bigNext then
        bigPrev ← get_field bigBlock f_prev; set_field bigNext f_prev bigPrev
      else mret tt);;
     size ← get_field bigBlock f_size;
     unmapMemory bigBlock size
   else mret tt);;
  __unlockHeap.

(** realloc.c; [sizeDiff] is signed and wraps into size_t where it is added. *)
Definition changeChunkSize (chunk sizeDiff : Z) : ST S unit :=
  next ← get_field chunk f_next;
  let newNextChunk := u32 (next + sizeDiff) in
  memmove newNextChunk next sizeof_MCB;;
  set_field chunk f_next newNextChunk;;
  size ← get_field chunk f_size;
  set_field chunk f_size (size + sizeDiff);;
  nextSize ← get_field newNextChunk f_size;
  set_field newNextChunk f_size (nextSize - sizeDiff).

Definition realloc (fuel : nat) (addr size : Z) : ST S Z :=
  if addr =? NULL then malloc fuel size else
  __lockHeap;;
  let chunk := addr - sizeof_MCB in
  magic ← get_field chunk f_magic;
  assert_ (magic =? MAGIC_USED_MCB);;
  let size := if size =? 0 then 1 else size in
  let size := ALIGN_UP size max_align in
  chunkSize ← get_field chunk f_size;
  let sizeDiff := s32 (size - chunkSize) in
  if sizeDiff =? 0 then __unlockHeap;; mret addr else
  next ← get_field chunk f_next;
  magic ← get_field next f_magic;
  inPlace ←
    (if magic =? MAGIC_FREE_MCB then
       nextSize ← get_field next f_size;
       mret (((0 <? sizeDiff) && (u32 (sizeDiff + sizeof_MCB) <? nextSize)) || (sizeDiff <? 0))
     else mret false);
  if inPlace : bool then changeChunkSize chunk sizeDiff;; __unlockHeap;; mret addr else
  __unlockHeap;;
  newAddr ← malloc fuel size;
  if newAddr =? NULL then mret NULL else
  chunkSize ← get_field chunk f_size;
  let copySize := if sizeDiff <? 0 then size else chunkSize in
  memcpy newAddr addr copySize;;
  free addr;;
  mret newAddr.

Definition calloc (fuel : nat) (num size : Z) : ST S Z :=
  result ← malloc fuel (u32 (num * size));
  (if negb (result =? NULL) then memset result 0 (u32 (num * size));; mret tt else mret tt);;
  mret result.

(** strdup.c *)
Definition strdup (fuel : nat) (str : Z) : ST S Z :=
  length ← strlen fuel str;
  result ← malloc fuel (u32 (length + 1));
  memcpy result str (u32 (length + 1));;
  mret result.

(** cxx/new.cpp: the operators forward to malloc and free. *)
Definition operator_new (fuel : nat) (size : Z) : ST S Z := malloc fuel size.
Definition operator_new_array (fuel : nat) (size : Z) : ST S Z := malloc fuel size.
Definition operator_delete (addr : Z) : ST S unit := free addr.
Definition operator_delete_array (addr : Z) : ST S unit := free addr.
Definition operator_delete_sized (addr size : Z) : ST S unit := free addr.
Definition operator_delete_array_sized (addr size : Z) : ST S unit := free addr.
End heap.
