(* ===== verification/HeapSpec.v ===== *)
(** * The heap as a list of big blocks and chunks

    The representation of the heap in memory, a reference first-fit allocator on
    lists of chunks, and the lemmas that the operations of Heap.v implement it
    and touch nothing but headers and free memory. *)
From S2P Require Import Prelude Memory CString Errno Heap.

(** ** Representation *)
Definition field_at (m : mem) (block f v : Z) : Prop := word_at m (block + f) v.

Definition mcb (m : mem) (a magic size prev next : Z) : Prop :=
  field_at m a f_magic magic ∧ field_at m a f_size size ∧
  field_at m a f_prev prev ∧ field_at m a f_next next.

(** A chunk: whether it is free, and the size of its payload. *)
Definition chunk : Type := bool * Z.
Definition magic_of (c : chunk) : Z := if c.1 then MAGIC_FREE_MCB else MAGIC_USED_MCB.

(** Where the chunks [cs] from [a] end. *)
Definition span (cs : list chunk) : Z := foldr (λ c z, 16 + c.2 + z) 0 cs.

(** The chunks from [a] on, behind the chunk [prev], up to the one at the end. *)
Fixpoint chunk_seg (m : mem) (prev a : Z) (cs : list chunk) : Prop :=
  match cs with
  | [] => True
  | c :: cs => mcb m a (magic_of c) c.2 prev (a + 16 + c.2) ∧ chunk_seg m a (a + 16 + c.2) cs
  end.

(** The block before the end of [cs]. *)
Fixpoint last_of (prev a : Z) (cs : list chunk) : Z :=
  match cs with [] => prev | c :: cs => last_of a (a + 16 + c.2) cs end.

Definition end_at (m : mem) (prev e : Z) : Prop := mcb m e MAGIC_END_MCB 0 prev NULL.

Definition chunks_ok (cs : list chunk) : Prop :=
  Forall (λ c, 0 < c.2 ∧ c.2 mod 16 = 0) cs.

(** A big block: its address and its chunks; [big_size] is its size in bytes. *)
Record big : Type := Big { b_addr : Z; b_chunks : list chunk }.
Definition big_size (b : big) : Z := 32 + span (b_chunks b).
Definition b_first (b : big) : Z := b_addr b + 16.
Definition b_end (b : big) : Z := b_first b + span (b_chunks b).

Definition big_rep (m : mem) (prev next : Z) (b : big) : Prop :=
  mcb m (b_addr b) MAGIC_BIG_MCB (big_size b) prev next ∧
  chunk_seg m NULL (b_first b) (b_chunks b) ∧
  end_at m (last_of NULL (b_first b) (b_chunks b)) (b_end b) ∧
  chunks_ok (b_chunks b) ∧ mapped m (b_addr b) (big_size b) ∧
  0 < b_addr b ∧ b_addr b + big_size b <= 2 ^ 32.

(** The big blocks [bs] behind [prev], the last of them linked to [nx]. *)
Definition addr_of (bs : list big) (nx : Z) : Z := match bs with [] => nx | b :: _ => b_addr b end.

Fixpoint bigs_seg (m : mem) (prev : Z) (bs : list big) (nx : Z) : Prop :=
  match bs with
  | [] => True
  | b :: bs => big_rep m prev (addr_of bs nx) b ∧ bigs_seg m (b_addr b) bs nx
  end.

Fixpoint last_big (prev : Z) (bs : list big) : Z :=
  match bs with [] => prev | b :: bs => last_big (b_addr b) bs end.

Definition in_big (b : big) (q : Z) : Prop := b_addr b <= q < b_addr b + big_size b.
Definition apart (b b' : big) : Prop := disjoint_range (b_addr b) (big_size b) (b_addr b') (big_size b').

Fixpoint all_apart (bs : list big) : Prop :=
  match bs with [] => True | b :: bs => Forall (apart b) bs ∧ all_apart bs end.

(** The heap: the static empty big block first. *)
Definition heap_rep (m : mem) (empty : Z) (bs : list big) : Prop :=
  bigs_seg m NULL (Big empty [] :: bs) NULL ∧ all_apart (Big empty [] :: bs).

(** ** The reference allocator *)

(** First fit in the chunks from [a]: the payload found and the new chunks. *)
Fixpoint fit_chunks (n a : Z) (cs : list chunk) : option (Z * list chunk) :=
  match cs with
  | [] => None
  | (f, sz) :: cs =>
      if f && (n <=? sz) then
        Some (a + 16, if n + 16 <? sz then (false, n) :: (true, sz - 16 - n) :: cs else (false, sz) :: cs)
      else
        '(p, cs') ← fit_chunks n (a + 16 + sz) cs; Some (p, (f, sz) :: cs')
  end.

Fixpoint fit (n : Z) (bs : list big) : option (Z * list big) :=
  match bs with
  | [] => None
  | b :: bs =>
      match fit_chunks n (b_first b) (b_chunks b) with
      | Some (p, cs) => Some (p, Big (b_addr b) cs :: bs)
      | None => '(p, bs') ← fit n bs; Some (p, b :: bs')
      end
  end.

(** The payload bytes of a used chunk, and of any chunk. *)
Fixpoint payload (used : bool) (a : Z) (cs : list chunk) (q : Z) : Prop :=
  match cs with
  | [] => False
  | c :: cs => (negb c.1 = used ∧ a + 16 <= q < a + 16 + c.2) ∨ payload used (a + 16 + c.2) cs q
  end.

Definition in_used (bs : list big) (q : Z) : Prop :=
  Exists (λ b, payload true (b_first b) (b_chunks b) q) bs.
Definition in_heap (bs : list big) (q : Z) : Prop := Exists (λ b, in_big b q) bs.

(** ** Lemmas on the representation *)
Lemma field_at_write_other m a f v p bs :
  disjoint_range p (Z.of_nat (length bs)) (a + f) 4 → field_at m a f v →
  field_at (write_bytes m p bs) a f v.
Proof. apply word_at_write_other. Qed.

Lemma field_ext m m' a f v :
  (∀ q, a + f <= q < a + f + 4 → m' !! q = m !! q) → field_at m a f v → field_at m' a f v.
Proof.
  unfold field_at. intros Heq (b0 & b1 & b2 & b3 & H & ?). exists b0, b1, b2, b3. split; [|done].
  intros i b Hb. rewrite Heq; [by apply H|]. apply lookup_lt_Some in Hb. cbn in Hb. lia.
Qed.

Lemma mcb_ext m m' a magic size prev next :
  (∀ q, a <= q < a + 16 → m' !! q = m !! q) → mcb m a magic size prev next → mcb m' a magic size prev next.
Proof.
  intros Heq (H1 & H2 & H3 & H4). unfold mcb, f_magic, f_size, f_prev, f_next in *.
  split_and!; (eapply field_ext; [|done]); intros; apply Heq; lia.
Qed.

Lemma mcb_mapped m a magic size prev next : mcb m a magic size prev next → mapped m a 16.
Proof.
  intros (H1 & H2 & H3 & H4) q Hq. unfold field_at, f_magic, f_size, f_prev, f_next in *.
  apply word_at_mapped in H1, H2, H3, H4.
  destruct (decide (q < a + 4)); [apply H1; lia|]. destruct (decide (q < a + 8)); [apply H2; lia|].
  destruct (decide (q < a + 12)); [apply H3; lia | apply H4; lia].
Qed.

Lemma span_nil : span [] = 0.
Proof. done. Qed.

Lemma span_cons c cs : span (c :: cs) = 16 + c.2 + span cs.
Proof. done. Qed.

Lemma span_app cs cs' : span (cs ++ cs') = span cs + span cs'.
Proof. induction cs as [|c cs IH]; cbn [app]; rewrite ?span_cons, ?span_nil; lia. Qed.

Lemma span_nonneg cs : chunks_ok cs → 0 <= span cs.
Proof. induction 1 as [|c cs [H _] _ IH]; [done|]. rewrite span_cons. lia. Qed.

Lemma chunk_seg_app m prev a cs cs' :
  chunk_seg m prev a (cs ++ cs') ↔
  chunk_seg m prev a cs ∧ chunk_seg m (last_of prev a cs) (a + span cs) cs'.
Proof.
  revert prev a. induction cs as [|c cs IH]; intros prev a; cbn [app chunk_seg last_of].
  - rewrite span_nil, Z.add_0_r. tauto.
  - rewrite IH, span_cons. replace (a + 16 + c.2 + span cs) with (a + (16 + c.2 + span cs)) by lia. tauto.
Qed.

Lemma last_of_app prev a cs cs' : last_of prev a (cs ++ cs') = last_of (last_of prev a cs) (a + span cs) cs'.
Proof.
  revert prev a. induction cs as [|c cs IH]; intros prev a; cbn [app last_of];
    [by rewrite span_nil, Z.add_0_r|]. rewrite IH, span_cons.
  by replace (a + 16 + c.2 + span cs) with (a + (16 + c.2 + span cs)) by lia.
Qed.

Lemma chunk_seg_ext m m' prev a cs :
  chunks_ok cs → (∀ q, a <= q < a + span cs → m' !! q = m !! q) →
  chunk_seg m prev a cs → chunk_seg m' prev a cs.
Proof.
  intros Hok. revert prev a. induction Hok as [|c cs [Hc _] Hok IH]; intros prev a Heq; cbn [chunk_seg]; [done|].
  pose proof (span_nonneg cs Hok). rewrite span_cons in Heq. intros [H1 H2]. split.
  - eapply mcb_ext; [|done]. intros. apply Heq. lia.
  - apply IH; [|done]. intros. apply Heq. lia.
Qed.

Lemma big_rep_ext m m' prev next b :
  (∀ q, in_big b q → m' !! q = m !! q) → big_rep m prev next b → big_rep m' prev next b.
Proof.
  unfold big_rep, in_big, big_size, b_end, b_first. intros Heq (H1 & H2 & H3 & H4 & H5 & H6).
  pose proof (span_nonneg _ H4). split; [|split; [|split; [|split; [done|split; [|done]]]]].
  - eapply mcb_ext; [|done]. intros. apply Heq. lia.
  - eapply chunk_seg_ext; [done| |done]. intros. apply Heq. lia.
  - eapply mcb_ext; [|done]. intros. apply Heq. lia.
  - intros q Hq. rewrite Heq by lia. by apply H5.
Qed.

Lemma bigs_seg_ext m m' prev bs nx :
  (∀ q, in_heap bs q → m' !! q = m !! q) → bigs_seg m prev bs nx → bigs_seg m' prev bs nx.
Proof.
  revert prev. induction bs as [|b bs IH]; intros prev Heq; cbn; [done|]. intros [H1 H2]. split.
  - eapply big_rep_ext; [|done]. intros. apply Heq. by apply Exists_cons_hd.
  - apply IH; [|done]. intros. apply Heq. by apply Exists_cons_tl.
Qed.

Lemma addr_of_app bs bs' nx : addr_of (bs ++ bs') nx = addr_of bs (addr_of bs' nx).
Proof. by destruct bs. Qed.

Lemma bigs_seg_app m prev bs bs' nx :
  bigs_seg m prev (bs ++ bs') nx ↔
  bigs_seg m prev bs (addr_of bs' nx) ∧ bigs_seg m (last_big prev bs) bs' nx.
Proof.
  revert prev. induction bs as [|b bs IH]; intros prev; cbn [app bigs_seg last_big]; [tauto|].
  rewrite IH, addr_of_app. tauto.
Qed.

Lemma all_apart_app bs bs' :
  all_apart (bs ++ bs') ↔ all_apart bs ∧ all_apart bs' ∧ Forall (λ b, Forall (apart b) bs') bs.
Proof.
  induction bs as [|b bs IH]; cbn.
  - split; [intros; split_and!; [done|done|constructor] | tauto].
  - rewrite IH, Forall_app, list.Forall_cons. tauto.
Qed.

Lemma apart_sym b b' : apart b b' → apart b' b.
Proof. unfold apart, disjoint_range. lia. Qed.

(** Memory changes inside [P] only, and stays mapped. *)
Definition upd (P : Z → Prop) (m m' : mem) : Prop :=
  (∀ q, ¬ P q → m' !! q = m !! q) ∧ (∀ q, is_Some (m !! q) → is_Some (m' !! q)).

Lemma upd_weaken (P Q : Z → Prop) m m' : upd P m m' → (∀ q, P q → Q q) → upd Q m m'.
Proof. intros [H1 H2] HPQ. split; [|done]. intros q Hq. apply H1. auto. Qed.

Lemma upd_refl (P : Z → Prop) m : upd P m m.
Proof. by split. Qed.

Lemma upd_trans (P : Z → Prop) m m' m'' : upd P m m' → upd P m' m'' → upd P m m''.
Proof. intros [H1 H2] [H3 H4]. split; [|auto]. intros q Hq. by rewrite H3, H1. Qed.

Lemma upd_mapped P m m' p n : upd P m m' → mapped m p n → mapped m' p n.
Proof. intros [_ H] Hm q Hq. auto. Qed.

(** The magic number of the block that chunks [cs] and the end block start with. *)
Definition head_magic (cs : list chunk) : Z :=
  match cs with [] => MAGIC_END_MCB | c :: _ => magic_of c end.

(** *** The chunks up to the end block *)
Definition chunk_tail (m : mem) (prev a : Z) (cs : list chunk) : Prop :=
  chunk_seg m prev a cs ∧ end_at m (last_of prev a cs) (a + span cs).

Lemma chunk_tail_app m prev a cs cs' :
  chunk_tail m prev a (cs ++ cs') ↔
  chunk_seg m prev a cs ∧ chunk_tail m (last_of prev a cs) (a + span cs) cs'.
Proof.
  unfold chunk_tail. rewrite chunk_seg_app, last_of_app, span_app.
  replace (a + (span cs + span cs')) with (a + span cs + span cs') by lia. tauto.
Qed.

Lemma chunk_tail_cons m prev a c cs :
  chunk_tail m prev a (c :: cs) ↔
  mcb m a (magic_of c) c.2 prev (a + 16 + c.2) ∧ chunk_tail m a (a + 16 + c.2) cs.
Proof.
  unfold chunk_tail. cbn [chunk_seg last_of]. rewrite span_cons.
  replace (a + (16 + c.2 + span cs)) with (a + 16 + c.2 + span cs) by lia. tauto.
Qed.

Lemma chunk_tail_ext m m' prev a cs :
  chunks_ok cs → (∀ q, a <= q < a + span cs + 16 → m' !! q = m !! q) →
  chunk_tail m prev a cs → chunk_tail m' prev a cs.
Proof.
  intros Hok Heq [H1 H2]. pose proof (span_nonneg cs Hok). split.
  - eapply chunk_seg_ext; [done| |done]. intros. apply Heq. lia.
  - eapply mcb_ext; [|done]. intros. apply Heq. lia.
Qed.

(** The block a tail starts with; it can get another [prev]. *)
Lemma chunk_tail_head m prev a cs :
  chunks_ok cs → chunk_tail m prev a cs →
  ∃ mg sz nx, mcb m a mg sz prev nx ∧
    mg = (head_magic cs) ∧
    ∀ m' prev', mcb m' a mg sz prev' nx →
      (∀ q, a + 16 <= q < a + span cs + 16 → m' !! q = m !! q) → chunk_tail m' prev' a cs.
Proof.
  intros Hok Ht. destruct cs as [|c cs].
  - destruct Ht as [_ Ht]. unfold end_at in Ht. rewrite span_nil, Z.add_0_r in Ht. cbn [last_of] in Ht.
    exists MAGIC_END_MCB, 0, NULL. split; [done|]. split; [done|]. intros m' prev' H _.
    split; [done|]. by rewrite span_nil, Z.add_0_r.
  - apply chunk_tail_cons in Ht as [H Ht]. apply list.Forall_cons in Hok as [[Hc _] Hok].
    eexists _, _, _. split; [exact H|]. split; [done|]. intros m' prev' H' Heq. apply chunk_tail_cons. split; [done|].
    rewrite span_cons in Heq. eapply chunk_tail_ext; [done| |done]. intros. apply Heq. lia.
Qed.

(** ** Reading and writing fields *)
Definition setf (m : mem) (a f v : Z) : mem := write_bytes m (a + f) (le32 (u32 v)).

Lemma field_setf_same m a f v b g w : a + f = b + g → u32 v = w → field_at (setf m a f v) b g w.
Proof. intros H <-. unfold field_at, setf. rewrite <-H. apply word_at_le32, u32_range. Qed.

Lemma field_setf_other m a f v b g w :
  disjoint_range (a + f) 4 (b + g) 4 → field_at m b g w → field_at (setf m a f v) b g w.
Proof. intros H. by apply word_at_write_other. Qed.

Lemma lookup_setf m a f v q : ¬ a + f <= q < a + f + 4 → setf m a f v !! q = m !! q.
Proof. intros H. apply lookup_write_bytes_out. cbn [length le32]. lia. Qed.

Lemma mapped_setf m a f v p n : mapped m p n → mapped (setf m a f v) p n.
Proof. apply mapped_write. Qed.

Lemma upd_setf (P : Z → Prop) m m' a f v :
  (∀ q, a + f <= q < a + f + 4 → P q) → upd P m m' → upd P m (setf m' a f v).
Proof.
  intros HP [H1 H2]. split.
  - intros q Hq. rewrite lookup_setf; [by apply H1|]. intros ?. by apply Hq, HP.
  - intros q Hq. apply (mapped_setf m' a f v q 1); [|lia].
    intros q' ?. replace q' with q by lia. auto.
Qed.

Ltac upd_tac := repeat (apply upd_setf; [intros; lia|]); apply upd_refl.

Ltac unfields := unfold f_magic, f_size, f_prev, f_next, sizeof_MCB, NULL in *.

(** A field behind any number of stores: the last store to it, or none. *)
Ltac field_tac :=
  first
    [ eassumption
    | apply field_setf_same; [lia | first [reflexivity | apply u32_small; lia | rewrite u32_small; lia]]
    | apply field_setf_other; [unfold disjoint_range; lia | field_tac] ].

Ltac mapped_tac :=
  autorewrite with lens;
  repeat apply mapped_setf;
  first [ eassumption
        | match goal with H : mapped _ ?a ?n |- mapped _ _ _ =>
            apply (mapped_sub _ a n _ _ H); lia end ].

Section fields.
Context {S : Type} `{L : !Lens S mem}.
Implicit Types s : S.

Lemma get_field_ok s a f v : field_at (memory s) a f v → get_field a f s = Ok (v, s).
Proof. apply load32_ok. Qed.

Lemma set_field_ok s a f v :
  mapped (memory s) (a + f) 4 → set_field a f v s = Ok (tt, with_memory s (setf (memory s) a f v)).
Proof. apply store32_ok. Qed.
End fields.

(** One statement of the code that reads or writes a field. *)
Ltac heap_get := erewrite bind_ok; [|apply get_field_ok; autorewrite with lens; field_tac].
Ltac heap_set := erewrite bind_ok; [|apply set_field_ok; mapped_tac]; autorewrite with lens.

(** Every magic number, and what the fields of a block in range hold. *)
Lemma mcb_range m a magic size prev next :
  mcb m a magic size prev next →
  0 <= magic < 2 ^ 32 ∧ 0 <= size < 2 ^ 32 ∧ 0 <= prev < 2 ^ 32 ∧ 0 <= next < 2 ^ 32.
Proof. intros (H1 & H2 & H3 & H4). split_and!; by eapply word_at_range. Qed.

Section operations.
Context {S : Type} `{L : !Lens S mem}.
Implicit Types s : S.

(** Splitting the chunk at [c] of payload [sz]. *)
Lemma splitBlock_ok s c magic sz prev mg2 sz2 nx2 n :
  let nx := c + 16 + sz in
  let new := c + 16 + n in
  mcb (memory s) c magic sz prev nx → mcb (memory s) nx mg2 sz2 c nx2 →
  mapped (memory s) new 16 → 0 <= n → n + 16 < sz → 0 < c → nx < 2 ^ 32 →
  ∃ m', __splitBlock c n s = Ok (tt, with_memory s m') ∧
    mcb m' c magic n prev new ∧ mcb m' new MAGIC_FREE_MCB (sz - 16 - n) c nx ∧
    mcb m' nx mg2 sz2 new nx2 ∧
    upd (λ q, c <= q < c + 16 ∨ new <= q < new + 16 ∨ nx <= q < nx + 16) (memory s) m'.
Proof.
  intros nx new Hc Hnx Hnew Hn Hsz Hc0 Hnx0. subst nx new.
  pose proof (mcb_range _ _ _ _ _ _ Hc) as Rc. pose proof (mcb_range _ _ _ _ _ _ Hnx) as Rn.
  pose proof (mcb_mapped _ _ _ _ _ _ Hc) as Mc. pose proof (mcb_mapped _ _ _ _ _ _ Hnx) as Mn.
  destruct Hc as (C1 & C2 & C3 & C4), Hnx as (N1 & N2 & N3 & N4).
  unfold __splitBlock, mcb. unfields. cbv zeta.
  heap_set. heap_get. heap_set. heap_set. heap_get. heap_set. heap_set. heap_get. heap_set.
  rewrite set_field_ok by mapped_tac. autorewrite with lens.
  eexists. split; [reflexivity|].
  assert (MAGIC_FREE_MCB = u32 MAGIC_FREE_MCB) as Hmag by done.
  split_and!; try field_tac. upd_tac.
Qed.

Definition split_chunk (n sz : Z) (cs : list chunk) : list chunk :=
  if n + 16 <? sz then (false, n) :: (true, sz - 16 - n) :: cs else (false, sz) :: cs.

Lemma span_split n sz cs : span (split_chunk n sz cs) = 16 + sz + span cs.
Proof. unfold split_chunk. destruct (n + 16 <? sz); rewrite !span_cons; cbn [snd]; lia. Qed.

(** The round of malloc that finds its chunk. *)
Lemma take_chunk `{E : !Lens S errno_st} `{M : !MemMap S} s B prev c sz cs n :
  chunk_tail (memory s) prev c ((true, sz) :: cs) → chunks_ok ((true, sz) :: cs) →
  mapped (memory s) c (16 + sz) →
  0 < n → n <= sz → 0 < c → c + 16 + sz + span cs < 2 ^ 32 →
  ∃ m', malloc_step n (n + 16) (B, c) s = Ok (Done (c + 16), with_memory s m') ∧
    chunk_tail m' prev c (split_chunk n sz cs) ∧
    upd (λ q, c <= q < c + 16 ∨ c + 16 + n <= q < c + 16 + sz + 16) (memory s) m'.
Proof.
  intros Ht Hok Hm Hn Hsz Hc Hbound.
  apply list.Forall_cons in Hok as [[Hsz0 _] Hok]. cbn [snd] in Hsz0.
  pose proof (span_nonneg cs Hok) as Hspan.
  apply chunk_tail_cons in Ht as [Hch Ht]. cbn [snd magic_of fst] in Hch.
  destruct (chunk_tail_head _ _ _ _ Hok Ht) as (mg & sz2 & nx2 & Hnx & _ & Htail). cbn [snd] in *.
  unfold malloc_step. destruct Hch as (C1 & C2 & C3 & C4) eqn:Hch'. clear Hch'.
  erewrite bind_ok; [|by apply get_field_ok]. rewrite Z.eqb_refl.
  erewrite bind_ok; [|by apply get_field_ok]. rewrite (proj2 (Z.leb_le _ _)) by done.
  unfold split_chunk. destruct (n + 16 <? sz) eqn:Hsplit; zb.
  - destruct (splitBlock_ok s c MAGIC_FREE_MCB sz prev mg sz2 nx2 n) as (m1 & Hrun & H1 & H2 & H3 & Hu);
      [done..| |lia|lia|lia|lia|].
    { eapply mapped_sub; [exact Hm|lia|lia]. }
    erewrite bind_ok; [|exact Hrun].
    pose proof (mcb_mapped _ _ _ _ _ _ H1) as M1.
    destruct H1 as (D1 & D2 & D3 & D4). unfields.
    heap_set. unfold __unlockHeap. rewrite bind_ret. eexists. split; [reflexivity|].
    split.
    + apply chunk_tail_cons. cbn [snd fst magic_of]. split.
      { unfold mcb. unfields. split_and!; field_tac. }
      apply chunk_tail_cons. cbn [snd fst magic_of].
      replace (c + 16 + n + 16 + (sz - 16 - n)) with (c + 16 + sz) by lia. split.
      { eapply mcb_ext; [|exact H2]. intros. apply lookup_setf. unfields. lia. }
      apply Htail.
      * eapply mcb_ext; [|exact H3]. intros. apply lookup_setf. unfields. lia.
      * intros q Hq. rewrite lookup_setf by (unfields; lia). apply Hu. lia.
    + apply upd_setf; [intros; unfields; lia|]. eapply upd_weaken; [exact Hu|]. cbn. lia.
  - rewrite bind_ret. pose proof (mapped_sub _ _ _ c 16 Hm ltac:(lia) ltac:(lia)) as M1. unfields. heap_set.
    unfold __unlockHeap. rewrite bind_ret. eexists. split; [reflexivity|]. split.
    + apply chunk_tail_cons. cbn [snd fst magic_of]. split.
      { unfold mcb. unfields. split_and!; field_tac. }
      eapply chunk_tail_ext; [done| |exact Ht]. intros. apply lookup_setf. unfields. lia.
    + apply upd_setf; [intros; unfields; lia | apply upd_refl].
Qed.
End operations.

(** ** Walking the heap *)
Definition unfit (n : Z) (c : chunk) : Prop := c.1 = true → c.2 < n.

Lemma fit_chunks_None n a cs : fit_chunks n a cs = None ↔ Forall (unfit n) cs.
Proof.
  revert a. induction cs as [|[f sz] cs IH]; intros a; cbn [fit_chunks]; [by split|].
  rewrite list.Forall_cons, <-(IH (a + 16 + sz)). unfold unfit. cbn [fst snd].
  destruct f; cbn [andb]; [destruct (n <=? sz) eqn:H; zb|].
  - split; [done|]. intros [H1 _]. specialize (H1 eq_refl). lia.
  - destruct (fit_chunks n (a + 16 + sz) cs) as [[p cs']|]; cbn; split; [done|by intros []| |done].
    intros _. split; [lia|done].
  - destruct (fit_chunks n (a + 16 + sz) cs) as [[p cs']|]; cbn; split; [done|by intros []| |done].
    intros _. split; [done|done].
Qed.

Lemma fit_chunks_Some n a cs p cs' :
  fit_chunks n a cs = Some (p, cs') →
  ∃ cs1 sz cs2, cs = cs1 ++ (true, sz) :: cs2 ∧ Forall (unfit n) cs1 ∧ n <= sz ∧
    p = a + span cs1 + 16 ∧ cs' = cs1 ++ split_chunk n sz cs2.
Proof.
  revert a p cs'. induction cs as [|[f sz] cs IH]; intros a p cs'; cbn [fit_chunks]; [done|].
  destruct (f && (n <=? sz)) eqn:Hf.
  - intros [= <- <-]. apply andb_true_iff in Hf as [-> Hf]. zb.
    exists [], sz, cs. change (span []) with 0. split_and!; [done|constructor|done|lia|done].
  - destruct (fit_chunks n (a + 16 + sz) cs) as [[p' cs'']|] eqn:Hc; [|done].
    intros [= <- <-]. destruct (IH _ _ _ Hc) as (cs1 & sz' & cs2 & -> & Hu & Hn & -> & ->).
    exists ((f, sz) :: cs1), sz', cs2. rewrite span_cons. cbn [snd]. split_and!; [done| |done|lia|done].
    constructor; [|done]. unfold unfit. cbn [fst snd]. intros ->. cbn [andb] in Hf. zb. lia.
Qed.

Lemma fit_None n bs : fit n bs = None ↔ Forall (λ b, Forall (unfit n) (b_chunks b)) bs.
Proof.
  induction bs as [|b bs IH]; cbn [fit]; [by split|].
  rewrite list.Forall_cons, <-IH, <-(fit_chunks_None n (b_first b)).
  destruct (fit_chunks n (b_first b) (b_chunks b)) as [[p cs]|]; [split; [done|by intros []]|].
  destruct (fit n bs) as [[p bs']|]; cbn; [split; [done|by intros []] | by split].
Qed.

Lemma fit_Some n bs p bs' :
  fit n bs = Some (p, bs') →
  ∃ bs1 b bs2 cs', bs = bs1 ++ b :: bs2 ∧ Forall (λ b, Forall (unfit n) (b_chunks b)) bs1 ∧
    fit_chunks n (b_first b) (b_chunks b) = Some (p, cs') ∧ bs' = bs1 ++ Big (b_addr b) cs' :: bs2.
Proof.
  revert p bs'. induction bs as [|b bs IH]; intros p bs'; cbn [fit]; [done|].
  destruct (fit_chunks n (b_first b) (b_chunks b)) as [[p' cs]|] eqn:Hc.
  - intros [= <- <-]. exists [], b, bs, cs. split_and!; [done|constructor|done|done].
  - destruct (fit n bs) as [[p' bs'']|]; [|done]. intros [= <- <-].
    destruct (IH _ _ eq_refl) as (bs1 & b' & bs2 & cs' & -> & Hu & Hf & ->).
    exists (b :: bs1), b', bs2, cs'. split_and!; [done| |done|done].
    constructor; [|done]. by apply fit_chunks_None in Hc.
Qed.


Definition steps (bs : list big) : nat := foldr (λ b k, length (b_chunks b) + 1 + k)%nat 0%nat bs.

Lemma steps_cons b bs : steps (b :: bs) = (length (b_chunks b) + 1 + steps bs)%nat.
Proof. done. Qed.

Lemma steps_app bs bs' : steps (bs ++ bs') = (steps bs + steps bs')%nat.
Proof. induction bs as [|b bs IH]; [done|]. cbn [app]. rewrite !steps_cons, IH. lia. Qed.

Section walk.
Context {S : Type} `{L : !Lens S mem} `{E : !Lens S errno_st} `{M : !MemMap S}.
Implicit Types s : S.

(** Chunks that do not fit are passed over. *)
Lemma walk_chunks s B n prev a cs k :
  chunk_seg (memory s) prev a cs → Forall (unfit n) cs →
  loop (length cs + k) (malloc_step n (n + 16)) (B, a) s =
  loop k (malloc_step n (n + 16)) (B, a + span cs) s.
Proof.
  revert prev a. induction cs as [|c cs IH]; intros prev a Hs Hu; cbn [length Nat.add].
  - by rewrite span_nil, Z.add_0_r.
  - cbn [chunk_seg] in Hs. destruct Hs as [(C1 & C2 & C3 & C4) Hs]. apply list.Forall_cons in Hu as [Hu Hus].
    erewrite loop_next.
    + rewrite span_cons. rewrite (IH _ _ Hs Hus).
      by replace (a + 16 + c.2 + span cs) with (a + (16 + c.2 + span cs)) by lia.
    + unfold malloc_step. erewrite bind_ok; [|by apply get_field_ok].
      unfold magic_of, unfit in *. destruct c.1.
      * rewrite Z.eqb_refl. erewrite bind_ok; [|by apply get_field_ok].
        rewrite (proj2 (Z.leb_gt _ _)) by (by apply Hu).
        erewrite bind_ok; [|by apply get_field_ok]. done.
      * cbn [Z.eqb]. change (MAGIC_USED_MCB =? MAGIC_FREE_MCB) with false. rewrite Z.eqb_refl.
        cbv iota. erewrite bind_ok; [|by apply get_field_ok]. done.
Qed.

(** At the end of a big block the next one follows. *)
Lemma walk_end s n b prev nx k :
  big_rep (memory s) prev nx b → nx ≠ NULL →
  loop (Datatypes.S k) (malloc_step n (n + 16)) (b_addr b, b_end b) s =
  loop k (malloc_step n (n + 16)) (nx, nx + 16) s.
Proof.
  intros ((B1 & B2 & B3 & B4) & _ & (E1 & _) & _) Hnx. apply loop_next. unfold malloc_step.
  erewrite bind_ok; [|by apply get_field_ok].
  change (MAGIC_END_MCB =? MAGIC_FREE_MCB) with false. change (MAGIC_END_MCB =? MAGIC_USED_MCB) with false.
  rewrite Z.eqb_refl. cbv iota. erewrite bind_ok; [|by apply get_field_ok].
  unfold Z_bool. by rewrite (proj2 (Z.eqb_neq nx 0)).
Qed.

Lemma walk_big s n b prev nx k :
  big_rep (memory s) prev nx b → Forall (unfit n) (b_chunks b) → nx ≠ NULL →
  loop (length (b_chunks b) + 1 + k) (malloc_step n (n + 16)) (b_addr b, b_first b) s =
  loop k (malloc_step n (n + 16)) (nx, nx + 16) s.
Proof.
  intros Hb Hu Hnx. pose proof Hb as (_ & Hseg & _). rewrite <-Nat.add_assoc.
  rewrite (walk_chunks s _ n NULL _ _ _ Hseg Hu). by apply (walk_end s n b prev).
Qed.

Lemma walk_bigs s n bs prev b nx k :
  bigs_seg (memory s) prev bs (b_addr b) → 0 < b_addr b →
  Forall (λ b, Forall (unfit n) (b_chunks b)) bs → nx = addr_of bs (b_addr b) →
  loop (steps bs + k) (malloc_step n (n + 16)) (nx, nx + 16) s =
  loop k (malloc_step n (n + 16)) (b_addr b, b_first b) s.
Proof.
  revert prev nx. induction bs as [|b' bs IH]; intros prev nx Hs Hb Hu ->; [done|].
  destruct Hs as [Hb' Hs]. apply list.Forall_cons in Hu as [Hu Hus]. cbn [addr_of]. rewrite steps_cons.
  rewrite <-Nat.add_assoc.
  assert (addr_of bs (b_addr b) ≠ NULL) as Hnx.
  { unfold NULL. destruct bs as [|b2 bs]; cbn [addr_of]; [lia|].
    destruct Hs as [(_ & _ & _ & _ & _ & ? & _) _]. lia. }
  rewrite (walk_big s n b' prev (addr_of bs (b_addr b)) _ Hb' Hu Hnx).
  by apply (IH (b_addr b')).
Qed.
End walk.


(** ** Where payloads lie *)
Lemma payload_app u a cs cs' q :
  payload u a (cs ++ cs') q ↔ payload u a cs q ∨ payload u (a + span cs) cs' q.
Proof.
  revert a. induction cs as [|c cs IH]; intros a; cbn [app payload].
  - rewrite span_nil, Z.add_0_r. tauto.
  - rewrite IH, span_cons. replace (a + 16 + c.2 + span cs) with (a + (16 + c.2 + span cs)) by lia. tauto.
Qed.

Lemma payload_bounds u a cs q : chunks_ok cs → payload u a cs q → a + 16 <= q < a + span cs.
Proof.
  intros Hok. revert a. induction Hok as [|c cs [Hc _] Hok IH]; intros a; cbn [payload]; [done|].
  rewrite span_cons. pose proof (span_nonneg cs Hok). intros [[_ H1]|H1]; [lia|]. apply IH in H1. lia.
Qed.

Lemma chunks_ok_app cs cs' : chunks_ok (cs ++ cs') ↔ chunks_ok cs ∧ chunks_ok cs'.
Proof. apply Forall_app. Qed.

(** A free chunk and the header behind it are no used payload. *)
Lemma payload_free a cs1 sz cs2 q :
  chunks_ok (cs1 ++ (true, sz) :: cs2) → a + span cs1 <= q < a + span cs1 + 16 + sz + 16 →
  ¬ payload true a (cs1 ++ (true, sz) :: cs2) q.
Proof.
  intros [Hok1 Hok2]%chunks_ok_app Hq. apply list.Forall_cons in Hok2 as [[Hsz _] Hok2]. cbn in Hsz.
  rewrite payload_app. cbn [payload fst snd negb].
  intros [H|[[H _]|H]]; [|done|]; apply payload_bounds in H; [|done| |done]; try lia.
Qed.

Lemma big_rep_chunks m prev nx b : big_rep m prev nx b → chunks_ok (b_chunks b) ∧ 0 < b_addr b.
Proof. intros (_ & _ & _ & ? & _ & ? & _). done. Qed.

Lemma bigs_seg_chunks m prev bs nx :
  bigs_seg m prev bs nx → Forall (λ b, chunks_ok (b_chunks b) ∧ 0 < b_addr b) bs.
Proof.
  revert prev. induction bs as [|b bs IH]; intros prev; [constructor|].
  intros [Hb Hs]. constructor; [by eapply big_rep_chunks | by eapply IH].
Qed.

Lemma payload_in_big b q u : chunks_ok (b_chunks b) → payload u (b_first b) (b_chunks b) q → in_big b q.
Proof.
  intros Hok H. apply payload_bounds in H; [|done]. unfold in_big, big_size, b_first in *. lia.
Qed.

(** Used payload of other big blocks is not in this one. *)
Lemma in_used_mid bs1 b bs2 q :
  Forall (λ b, chunks_ok (b_chunks b) ∧ 0 < b_addr b) (bs1 ++ b :: bs2) → all_apart (bs1 ++ b :: bs2) →
  in_big b q → in_used (bs1 ++ b :: bs2) q → payload true (b_first b) (b_chunks b) q.
Proof.
  intros Hok Hap Hq H. apply Exists_exists in H as (b' & Hin & Hp).
  apply all_apart_app in Hap as (_ & [H2 _] & H1).
  rewrite Forall_forall in Hok. destruct (Hok b' Hin) as [Hok' _].
  apply payload_in_big in Hp as Hq'; [|done].
  rewrite elem_of_app, elem_of_cons in Hin. unfold in_big, apart, disjoint_range in *.
  destruct Hin as [Hin|[->|Hin]]; [|done|].
  - rewrite Forall_forall in H1. specialize (H1 b' Hin). apply list.Forall_cons in H1 as [H1 _].
    unfold disjoint_range in *. lia.
  - rewrite Forall_forall in H2. specialize (H2 b' Hin). unfold disjoint_range in *. lia.
Qed.

(** Changing one big block, in place. *)
Lemma bigs_seg_replace m m' prev bs1 b bs2 nx b' :
  bigs_seg m prev (bs1 ++ b :: bs2) nx → all_apart (bs1 ++ b :: bs2) →
  b_addr b' = b_addr b → big_size b' = big_size b →
  upd (in_big b) m m' →
  (big_rep m (last_big prev bs1) (addr_of bs2 nx) b → big_rep m' (last_big prev bs1) (addr_of bs2 nx) b') →
  bigs_seg m' prev (bs1 ++ b' :: bs2) nx ∧ all_apart (bs1 ++ b' :: bs2).
Proof.
  intros Hs Hap Ha Hz Hu Hb. apply bigs_seg_app in Hs as (Hs1 & Hsb & Hs2). cbn [addr_of] in Hs1.
  apply all_apart_app in Hap as (A1 & [Ab A2] & A12). cbn [all_apart] in *.
  assert (∀ b0, apart b b0 → ∀ q, in_big b0 q → m' !! q = m !! q) as Hout.
  { intros b0 Hb0 q Hq. apply Hu. unfold apart, in_big, disjoint_range in *. lia. }
  split.
  - apply bigs_seg_app. cbn [addr_of bigs_seg]. rewrite Ha. split; [|split].
    + eapply bigs_seg_ext; [|exact Hs1]. intros q Hq. apply Exists_exists in Hq as (b0 & Hin & Hq).
      apply (Hout b0); [|done]. rewrite Forall_forall in A12.
      specialize (A12 b0 Hin). apply list.Forall_cons in A12 as [A12 _]. by apply apart_sym.
    + by apply Hb.
    + eapply bigs_seg_ext; [|exact Hs2]. intros q Hq. apply Exists_exists in Hq as (b0 & Hin & Hq).
      apply (Hout b0); [|done]. rewrite Forall_forall in Ab. by apply Ab.
  - apply all_apart_app. cbn [all_apart]. unfold apart in *. rewrite Ha, Hz. split; [done|split; [done|]].
    eapply list.Forall_impl; [exact A12|]. intros b0 H0. apply list.Forall_cons in H0 as [H0 H0'].
    constructor; [|done]. by rewrite Ha, Hz.
Qed.


Section malloc.
Context {S : Type} `{L : !Lens S mem} `{E : !Lens S errno_st} `{M : !MemMap S}.
Implicit Types s : S.

Lemma chunks_ok_split n sz cs :
  0 < n → n mod 16 = 0 → n <= sz → chunks_ok ((true, sz) :: cs) → chunks_ok (split_chunk n sz cs).
Proof.
  intros Hn Hm Hsz [[H1 H2] Hok]%list.Forall_cons. cbn [snd] in *. unfold split_chunk.
  destruct (n + 16 <? sz) eqn:Hs; zb; repeat apply Forall_cons_2; cbn [snd]; try done.
  split; [lia|]. Z.to_euclidean_division_equations. lia.
Qed.

(** Taking a chunk out of one big block. *)
Lemma take_in_big s prev nx b cs1 sz cs2 n :
  big_rep (memory s) prev nx b → b_chunks b = cs1 ++ (true, sz) :: cs2 →
  0 < n → n mod 16 = 0 → n <= sz →
  let c := b_first b + span cs1 in
  ∃ m', malloc_step n (n + 16) (b_addr b, c) s = Ok (Done (c + 16), with_memory s m') ∧
    big_rep m' prev nx (Big (b_addr b) (cs1 ++ split_chunk n sz cs2)) ∧
    upd (λ q, c <= q < c + 16 + sz + 16) (memory s) m'.
Proof.
  intros (B & Hseg & Hend & Hok & Hmap & Hb0 & Hb1) Hcs Hn Hn16 Hsz c.
  unfold big_size, b_first, b_end in *. rewrite Hcs in *. apply chunks_ok_app in Hok as [Hok1 Hok2].
  pose proof (span_nonneg _ Hok1). pose proof Hok2 as Hok2'. apply list.Forall_cons in Hok2' as [[Hsz0 _] Hok3].
  cbn [snd] in Hsz0. pose proof (span_nonneg _ Hok3). rewrite span_app, span_cons in *. cbn [snd] in *.
  assert (chunk_tail (memory s) NULL (b_addr b + 16) (cs1 ++ (true, sz) :: cs2)) as Ht.
  { split; [done|]. rewrite span_app, span_cons. exact Hend. }
  apply chunk_tail_app in Ht as [Ht1 Ht2]. fold c in Ht2.
  destruct (take_chunk s (b_addr b) (last_of NULL (b_addr b + 16) cs1) c sz cs2 n Ht2 Hok2)
    as (m' & Hrun & Ht' & Hu); [|done|done|lia|lia|].
  { eapply mapped_sub; [exact Hmap|lia|lia]. }
  exists m'. split; [exact Hrun|]. split; [|eapply upd_weaken; [exact Hu|]; cbn; lia].
  assert (chunk_tail m' NULL (b_addr b + 16) (cs1 ++ split_chunk n sz cs2)) as [Hs' He'].
  { apply chunk_tail_app. split; [|exact Ht'].
    eapply chunk_seg_ext; [done| |exact Ht1]. intros. apply Hu. lia. }
  unfold big_rep, big_size, b_first, b_end. cbn [b_addr b_chunks]. rewrite !span_app, span_split in *.
  split; [|split; [done|split; [|split; [|split; [|lia]]]]].
  - eapply mcb_ext; [|exact B]. intros. apply Hu. lia.
  - done.
  - apply chunks_ok_app. split; [done | by apply chunks_ok_split].
  - eapply upd_mapped; [exact Hu|]. eapply mapped_sub; [exact Hmap|lia|lia].
Qed.

(** malloc when some chunk fits: the first that does. *)
Lemma malloc_hit s bs n p bs' fuel :
  bigs_seg (memory s) NULL bs NULL → all_apart bs → 0 < n → n mod 16 = 0 →
  fit n bs = Some (p, bs') → (steps bs <= fuel)%nat →
  ∃ m', loop fuel (malloc_step n (n + 16)) (addr_of bs NULL, addr_of bs NULL + 16) s =
          Ok (p, with_memory s m') ∧
    bigs_seg m' NULL bs' NULL ∧ all_apart bs' ∧
    upd (λ q, in_heap bs q ∧ ¬ in_used bs q) (memory s) m'.
Proof.
  intros Hs Hap Hn Hn16 Hfit Hfuel.
  apply fit_Some in Hfit as (bs1 & b & bs2 & cs' & -> & Hu1 & Hfc & ->).
  apply fit_chunks_Some in Hfc as (cs1 & sz & cs2 & Hcs & Huc & Hsz & -> & ->).
  pose proof (bigs_seg_chunks _ _ _ _ Hs) as Hoks.
  pose proof Hs as Hs'. apply bigs_seg_app in Hs' as (Hs1 & [Hb _]). cbn [addr_of] in Hs1.
  pose proof (big_rep_chunks _ _ _ _ Hb) as [Hok Hb0].
  destruct (take_in_big s _ _ b cs1 sz cs2 n Hb Hcs Hn Hn16 Hsz) as (m' & Hrun & Hb' & Hu).
  pose proof (span_nonneg _ Hok) as Hsp. rewrite Hcs in Hok, Hsp.
  pose proof Hok as [Hok1 Hok2]%chunks_ok_app. pose proof (span_nonneg _ Hok1).
  apply list.Forall_cons in Hok2 as [[Hsz0 _] Hok2]. cbn [snd] in Hsz0. pose proof (span_nonneg _ Hok2).
  rewrite span_app, span_cons in Hsp. cbn [snd] in Hsp.
  assert (∀ q, b_first b + span cs1 <= q < b_first b + span cs1 + 16 + sz + 16 → in_big b q) as Hin.
  { unfold in_big, big_size, b_first. rewrite Hcs, span_app, span_cons. cbn [snd]. intros. lia. }
  destruct (bigs_seg_replace (memory s) m' NULL bs1 b bs2 NULL
    (Big (b_addr b) (cs1 ++ split_chunk n sz cs2)) Hs Hap) as [Hs' Hap']; [done| | |done|].
  { unfold big_size. cbn [b_chunks]. rewrite Hcs, !span_app, span_split, span_cons. cbn [snd]. lia. }
  { eapply upd_weaken; [exact Hu|exact Hin]. }
  exists m'. split; [|split; [done|split; [done|]]].
  - apply (loop_fuel (steps bs1 + (length cs1 + 1))).
    + rewrite addr_of_app. cbn [addr_of].
      rewrite (walk_bigs s n bs1 NULL b _ (length cs1 + 1) Hs1 Hb0 Hu1 eq_refl).
      destruct Hb as (_ & Hseg & _). rewrite Hcs in Hseg. apply chunk_seg_app in Hseg as [Hseg _].
      rewrite (walk_chunks s _ n NULL _ cs1 1 Hseg Huc). by apply loop_done.
    + rewrite steps_app, steps_cons, Hcs, length_app in Hfuel. cbn [length] in Hfuel. lia.
  - eapply upd_weaken; [exact Hu|]. cbn. intros q Hq. split.
    + apply Exists_app. right. apply Exists_cons_hd. by apply Hin.
    + intros Hus. apply (in_used_mid _ _ _ _ Hoks Hap) in Hus; [|by apply Hin].
      rewrite Hcs in Hus. revert Hus. apply payload_free; [done|lia].
Qed.
End malloc.

(** ** Rounding sizes up *)
Lemma align_up k v al :
  al = 2 ^ k → 0 <= k → 0 < v → v + al <= 2 ^ 32 →
  v <= ALIGN_UP v al < v + al ∧ ALIGN_UP v al mod al = 0.
Proof.
  intros Hal Hk Hv Hb. assert (0 < al) by (subst; apply Z.pow_pos_nonneg; lia).
  assert (Z.land (v - 1) (Z.lnot (al - 1)) = (v - 1) / al * al) as Hl.
  { replace (al - 1) with (Z.ones k) by (rewrite Z.ones_equiv; lia).
    rewrite <-Z.ldiff_land, Z.ldiff_ones_r by done.
    by rewrite Z.shiftl_mul_pow2, Z.shiftr_div_pow2, <-Hal by done. }
  pose proof (Z.div_mod (v - 1) al ltac:(lia)). pose proof (Z.mod_pos_bound (v - 1) al ltac:(lia)).
  unfold ALIGN_UP. rewrite (u32_small (v - 1)), Hl by lia. rewrite u32_small by nia.
  split; [nia|]. rewrite <-Z.mul_succ_l. apply Z.mod_mul. lia.
Qed.

Lemma align_16 v : 0 < v → v + 16 <= 2 ^ 32 →
  v <= ALIGN_UP v max_align < v + 16 ∧ ALIGN_UP v max_align mod 16 = 0.
Proof. intros. apply (align_up 4); done || lia. Qed.

(** A size in the top 15 bytes of size_t is rounded up to 0. *)
Lemma align_16_wraps v : 2 ^ 32 - 16 < v < 2 ^ 32 → ALIGN_UP v max_align = 0.
Proof.
  intros Hv. unfold ALIGN_UP, max_align.
  assert (v = 4294967281 ∨ v = 4294967282 ∨ v = 4294967283 ∨ v = 4294967284 ∨ v = 4294967285 ∨
    v = 4294967286 ∨ v = 4294967287 ∨ v = 4294967288 ∨ v = 4294967289 ∨ v = 4294967290 ∨
    v = 4294967291 ∨ v = 4294967292 ∨ v = 4294967293 ∨ v = 4294967294 ∨ v = 4294967295) as Hc by lia.
  by repeat (destruct Hc as [->|Hc]; [done|]); subst.
Qed.

(** The pages asked for when nothing of [n] bytes fits. *)
Definition new_size (n : Z) : Z := ALIGN_UP (u32 (n + 3 * sizeof_MCB)) PAGESIZE.

Lemma new_size_ok n :
  0 < n → n + 48 + 4096 <= 2 ^ 32 → n mod 16 = 0 →
  n + 48 <= new_size n < n + 48 + 4096 ∧ new_size n mod 16 = 0.
Proof.
  intros Hn Hb Hm. unfold new_size, sizeof_MCB. rewrite u32_small by lia.
  destruct (align_up 12 (n + 3 * 16) PAGESIZE) as [H1 H2]; [done|lia|lia|unfold PAGESIZE; lia|].
  unfold PAGESIZE in *. split; [lia|]. Z.to_euclidean_division_equations. lia.
Qed.

(** ** What malloc relies on of the system *)
(** mmap of anonymous memory, and __mapMemory in the kernel, return NULL or fresh
    pages with any contents; munmap takes pages away. *)
Class MemMapLaws (S : Type) `{L : !Lens S mem} `{M : !MemMap S} : Prop := {
  map_pages s size : 0 < size < 2 ^ 32 →
    ∃ p s', mapMemory size s = Ok (p, s') ∧
      ((p = NULL ∧ memory s' = memory s) ∨
       (0 < p ∧ p + size <= 2 ^ 32 ∧ (∀ q, p <= q < p + size → memory s !! q = None) ∧
        ∃ bs, Z.of_nat (length bs) = size ∧ Forall (λ b, 0 <= b < 256) bs ∧ memory s' = write_bytes (memory s) p bs));
  unmap_pages s p size :
    ∃ s', unmapMemory p size s = Ok (tt, s') ∧
      ∀ q, memory s' !! q = if decide (p <= q < p + size) then None else memory s !! q;
}.

Section grow.
Context {S : Type} `{L : !Lens S mem} `{E : !Lens S errno_st} `{M : !MemMap S} `{W : !MemMapLaws S}.
Implicit Types s : S.

(** Linking a new block behind the last one. *)
Lemma link_last m prev bs b nx p :
  bigs_seg m prev (bs ++ [b]) nx → all_apart (bs ++ [b]) → 0 <= p < 2 ^ 32 →
  bigs_seg (setf m (b_addr b) f_next p) prev (bs ++ [b]) p.
Proof.
  intros Hs Hap Hp. apply bigs_seg_app in Hs as (Hs1 & [Hb _]). cbn [addr_of] in *.
  apply all_apart_app in Hap as (_ & _ & Hap).
  pose proof (big_rep_chunks _ _ _ _ Hb) as [Hok Hb0]. pose proof (span_nonneg _ Hok).
  assert (∀ q, ¬ b_addr b + 12 <= q < b_addr b + 16 → setf m (b_addr b) f_next p !! q = m !! q) as Hout.
  { intros q Hq. apply lookup_setf. unfold f_next. lia. }
  apply bigs_seg_app. cbn [bigs_seg addr_of]. split; [|split; [|done]].
  - eapply bigs_seg_ext; [|exact Hs1]. intros q Hq. apply Hout.
    apply Exists_exists in Hq as (b0 & Hin & Hq). rewrite Forall_forall in Hap.
    specialize (Hap b0 Hin). apply list.Forall_cons in Hap as [Hap _].
    unfold apart, disjoint_range, in_big, big_size in *. lia.
  - destruct Hb as (B & Hseg & Hend & _ & Hmap & Hb1). unfold b_first, b_end, b_first in *.
    split; [|split; [|split; [|split; [done|split; [by apply mapped_setf|done]]]]].
    + destruct B as (B1 & B2 & B3 & B4). unfold mcb. unfields. split_and!; field_tac.
    + eapply chunk_seg_ext; [done| |exact Hseg]. intros. apply Hout. unfold b_first in *. lia.
    + eapply mcb_ext; [|exact Hend]. intros. apply Hout. unfold b_end, b_first in *. lia.
Qed.

Lemma mapped_fresh m p bs : mapped (write_bytes m p bs) p (Z.of_nat (length bs)).
Proof.
  intros q Hq. rewrite lookup_write_bytes, decide_True by lia. apply lookup_lt_is_Some. lia.
Qed.

(** The block written into fresh pages of [size] bytes at [p]. *)
Definition fresh (p size : Z) : big := Big p [(true, size - 48)].

Lemma allocateBigBlock_ok s prev nx b n p s1 junk :
  big_rep (memory s) prev nx b → 0 < n → n + 48 + 4096 <= 2 ^ 32 → n mod 16 = 0 →
  let size := new_size n in
  mapMemory size s = Ok (p, s1) → 0 < p → p + size <= 2 ^ 32 →
  (∀ q, p <= q < p + size → memory s !! q = None) →
  Z.of_nat (length junk) = size → memory s1 = write_bytes (memory s) p junk →
  ∃ m', __allocateBigBlock (b_addr b) n s = Ok (p, with_memory s1 m') ∧
    big_rep m' (b_addr b) NULL (fresh p size) ∧
    ∀ q, ¬ p <= q < p + size → m' !! q = setf (memory s) (b_addr b) f_next p !! q.
Proof.
  intros Hb Hn Hn1 Hn16 size Hmap Hp0 Hp1 Hnone Hjunk Hm1.
  destruct (new_size_ok n Hn Hn1 Hn16) as [Hsz Hsz16]. fold size in Hsz, Hsz16.
  pose proof (big_rep_chunks _ _ _ _ Hb) as [Hok Hb0]. pose proof (span_nonneg _ Hok) as Hsp.
  destruct Hb as ((B1 & _) & _ & _ & _ & Hbm & Hb1). unfold big_size in *.
  assert (∀ q, b_addr b <= q < b_addr b + 16 → ¬ p <= q < p + size) as Hsep.
  { intros q Hq Hq'. destruct (Hbm q ltac:(lia)) as [x Hx]. by rewrite Hnone in Hx. }
  assert (disjoint_range (b_addr b) 16 p size) as Hd.
  { unfold disjoint_range. pose proof (Hsep (b_addr b) ltac:(lia)). pose proof (Hsep (b_addr b + 15) ltac:(lia)). lia. }
  unfold disjoint_range in Hd.
  pose proof (mapped_fresh (memory s) p junk) as Mp. rewrite <-Hm1, Hjunk in Mp.
  assert (mapped (memory s1) (b_addr b) 16) as Mb.
  { rewrite Hm1. apply mapped_write. eapply mapped_sub; [exact Hbm|lia|lia]. }
  unfold __allocateBigBlock. erewrite bind_ok; [|by apply get_field_ok]. rewrite Z.eqb_refl.
  unfold assert_. rewrite bind_ret. cbv zeta. fold (new_size n). fold size.
  erewrite bind_ok; [|exact Hmap]. unfields.
  do 13 heap_set. eexists. split; [reflexivity|].
  assert (MAGIC_BIG_MCB = u32 MAGIC_BIG_MCB) as Hmag1 by done.
  split.
  - unfold fresh, big_rep, big_size, b_first, b_end, end_at. cbn [b_addr b_chunks chunk_seg last_of].
    unfold b_first. cbn [b_addr]. rewrite span_cons. change (span []) with 0. cbn [snd fst magic_of].
    replace (32 + (16 + (size - 48) + 0)) with size by lia.
    replace (p + 16 + (16 + (size - 48) + 0)) with (p + size - 16) by lia.
    replace (p + 16 + 16 + (size - 48)) with (p + size - 16) by lia.
    unfold mcb. unfields. split_and!; try done; try field_tac; try lia.
    + repeat constructor; cbn [snd]; [lia|]. Z.to_euclidean_division_equations. lia.
    + do 13 apply mapped_setf. exact Mp.
  - intros q Hq. do 8 (rewrite lookup_setf by (unfields; lia)).
    destruct (decide (b_addr b + 12 <= q < b_addr b + 16)) as [Hin|Hin].
    + unfold setf. rewrite !lookup_write_bytes. cbn [length le32].
      rewrite !(decide_True (P := b_addr b + 12 <= q < b_addr b + 12 + Z.of_nat 4)) by lia. done.
    + do 5 (rewrite lookup_setf by (unfields; lia)). rewrite lookup_setf by (unfields; lia).
      rewrite Hm1. apply lookup_write_bytes_out. lia.
Qed.

(** The chunks of fresh pages once malloc has taken [n] bytes of them. *)
Definition fresh_used (p n : Z) : big := Big p (split_chunk n (new_size n - 48) []).

Lemma in_heap_mapped m prev bs nx q : bigs_seg m prev bs nx → in_heap bs q → is_Some (m !! q).
Proof.
  revert prev. induction bs as [|b bs IH]; intros prev; [by intros _ H%Exists_nil|].
  intros [Hb Hs] H. apply Exists_cons in H as [H|H]; [|by eapply IH].
  destruct Hb as (_ & _ & _ & _ & Hm & _). by apply Hm.
Qed.

(** malloc when nothing fits: it appends fresh pages and takes its chunk there,
    if the system has any. *)
Lemma malloc_miss s bs0 b n p s1 junk fuel :
  let bs := bs0 ++ [b] in
  let size := new_size n in
  bigs_seg (memory s) NULL bs NULL → all_apart bs → 0 < n → n + 48 + 4096 <= 2 ^ 32 → n mod 16 = 0 →
  fit n bs = None → (steps bs + 1 <= fuel)%nat →
  mapMemory size s = Ok (p, s1) → 0 < p → p + size <= 2 ^ 32 →
  (∀ q, p <= q < p + size → memory s !! q = None) →
  Z.of_nat (length junk) = size → memory s1 = write_bytes (memory s) p junk →
  ∃ m', loop fuel (malloc_step n (n + 16)) (addr_of bs NULL, addr_of bs NULL + 16) s =
          Ok (p + 32, with_memory s1 m') ∧
    bigs_seg m' NULL (bs ++ [fresh_used p n]) NULL ∧ all_apart (bs ++ [fresh_used p n]) ∧
    ∀ q, ¬ in_heap bs q ∨ in_used bs q → ¬ p <= q < p + size → m' !! q = memory s !! q.
Proof.
  intros bs size Hs Hap Hn Hn1 Hn16 Hfit Hfuel Hmap Hp0 Hp1 Hnone Hjunk Hm1.
  apply fit_None in Hfit. destruct (new_size_ok n Hn Hn1 Hn16) as [Hsz Hsz16]. fold size in Hsz, Hsz16.
  pose proof (bigs_seg_chunks _ _ _ _ Hs) as Hoks.
  pose proof Hs as Hs'. apply bigs_seg_app in Hs' as (Hs1 & [Hb _]). cbn [addr_of] in Hs1, Hb.
  apply Forall_app in Hfit as [Hu1 Hu2]. apply list.Forall_cons in Hu2 as [Hu2 _].
  pose proof (big_rep_chunks _ _ _ _ Hb) as [Hok Hb0]. pose proof (span_nonneg _ Hok) as Hsp.
  destruct (allocateBigBlock_ok s _ _ b n p s1 junk Hb Hn Hn1 Hn16 Hmap Hp0 Hp1 Hnone Hjunk Hm1)
    as (m1 & Hal & Hfresh & Hout). fold size in Hfresh, Hout.
  assert (Forall (λ b0, apart b0 (fresh p size)) bs) as Hapf.
  { apply Forall_forall. intros b0 Hin. unfold apart, disjoint_range. cbn [b_addr fresh].
    assert (big_size (fresh p size) = size) as ->.
    { unfold big_size, fresh. cbn [b_chunks]. rewrite span_cons. change (span []) with 0. cbn [snd]. lia. }
    rewrite Forall_forall in Hoks. destruct (Hoks b0 Hin) as [Hok0 _].
    pose proof (span_nonneg _ Hok0). destruct (decide (b_addr b0 + big_size b0 <= p)); [by left|].
    destruct (decide (p + size <= b_addr b0)); [by right|]. exfalso.
    destruct (in_heap_mapped _ _ _ _ (Z.max p (b_addr b0)) Hs) as [x Hx].
    - apply Exists_exists. exists b0. split; [done|]. unfold in_big. unfold big_size in *. lia.
    - rewrite Hnone in Hx; [done|]. unfold big_size in *. lia. }
  assert (bigs_seg m1 NULL (bs ++ [fresh p size]) NULL) as Hs2.
  { apply bigs_seg_app. cbn [addr_of bigs_seg]. assert (last_big NULL bs = b_addr b) as ->.
    { unfold bs. clear. generalize NULL. induction bs0 as [|b1 bs0 IH]; intros z; [done|]. apply IH. }
    split; [|split; [exact Hfresh|done]].
    eapply bigs_seg_ext; [|apply (link_last (memory s) NULL bs0 b NULL p Hs Hap); lia].
    intros q Hq. apply Hout. intros Hq'.
    destruct (in_heap_mapped _ _ _ _ q Hs Hq) as [x Hx]. by rewrite Hnone in Hx. }
  assert (all_apart (bs ++ [fresh p size])) as Hap2.
  { apply all_apart_app. split; [exact Hap|]. split; [by repeat constructor|].
    eapply list.Forall_impl; [exact Hapf|]. intros b0 H0. constructor; [exact H0 | constructor]. }
  set (s2 := with_memory s1 m1).
  assert (big_rep (memory s2) (b_addr b) NULL (fresh p size)) as Hfresh2 by (unfold s2; by rewrite memory_with).
  destruct (take_in_big s2 _ _ (fresh p size) [] (size - 48) [] n Hfresh2) as (m2 & Hrun & Hb2 & Hu);
    [done|done|done|lia|].
  rewrite app_nil_l in Hb2. unfold s2 in Hu. rewrite memory_with in Hu. cbn [b_addr fresh] in Hb2, Hrun, Hu.
  change (b_first (fresh p size)) with (p + 16) in Hrun, Hu. change (span []) with 0 in Hrun, Hu. rewrite Z.add_0_r in Hrun, Hu.
  destruct (bigs_seg_replace m1 m2 NULL bs (fresh p size) [] NULL (fresh_used p n) Hs2 Hap2) as [Hs3 Hap3];
    [done| | | |].
  { unfold big_size, fresh_used, fresh. cbn [b_chunks]. rewrite span_split, span_cons. change (span []) with 0. cbn [snd]. lia. }
  { eapply upd_weaken; [exact Hu|]. cbv beta. intros q Hq. unfold in_big, big_size, fresh. cbn [b_chunks b_addr].
    rewrite span_cons. change (span []) with 0. cbn [snd]. fold size. lia. }
  { assert (last_big NULL bs = b_addr b) as ->; [|done].
    unfold bs. clear. generalize NULL. induction bs0 as [|b1 bs0 IH]; intros z; [done|]. apply IH. }
  exists m2. split; [|split; [exact Hs3|split; [exact Hap3|]]].
  - apply (loop_fuel (steps bs + 1)); [|lia]. unfold bs. rewrite steps_app, steps_cons.
    replace (steps bs0 + (length (b_chunks b) + 1 + steps []) + 1)%nat
      with (steps bs0 + (length (b_chunks b) + 2))%nat by (cbn [steps foldr]; lia).
    rewrite addr_of_app. cbn [addr_of].
    rewrite (walk_bigs s n bs0 NULL b _ (length (b_chunks b) + 2) Hs1 Hb0 Hu1 eq_refl).
    destruct Hb as ((B1 & B2 & B3 & B4) & Hseg & (E1 & _) & _).
    rewrite (walk_chunks s _ n NULL _ _ 2 Hseg Hu2).
    erewrite loop_next.
    + unfold s2 in Hrun. replace (p + 32) with (p + 16 + 16) by lia.
      erewrite loop_done; [|exact Hrun]. by rewrite with_memory_with.
    + unfold malloc_step. erewrite bind_ok; [|by apply get_field_ok].
      change (MAGIC_END_MCB =? MAGIC_FREE_MCB) with false. change (MAGIC_END_MCB =? MAGIC_USED_MCB) with false.
      rewrite Z.eqb_refl. cbv iota. erewrite bind_ok; [|by apply get_field_ok].
      change (Z_bool NULL) with false. cbv iota. erewrite bind_ok; [|exact Hal].
      unfold Z_bool. rewrite (proj2 (Z.eqb_neq p 0)) by lia. done.
  - intros q Hq Hq2. rewrite (proj1 Hu) by lia. rewrite Hout by done. apply lookup_setf. intros Hf.
    assert (in_big b q) as Hinb.
    { unfold in_big, big_size, f_next in *. lia. }
    destruct Hq as [Hq|Hq].
    + apply Hq. apply Exists_app. right. by apply Exists_cons_hd.
    + apply (in_used_mid bs0 b []) in Hq; [|done|done|done].
      apply payload_bounds in Hq; [|done]. unfold b_first, f_next in *. lia.
Qed.

(** With no pages left the code writes through the null pointer before it tests
    it. *)
Lemma malloc_exhausted s bs0 b n s1 fuel :
  let bs := bs0 ++ [b] in
  bigs_seg (memory s) NULL bs NULL → fit n bs = None → (steps bs <= fuel)%nat →
  mapMemory (new_size n) s = Ok (NULL, s1) → memory s1 !! NULL = None →
  loop fuel (malloc_step n (n + 16)) (addr_of bs NULL, addr_of bs NULL + 16) s = Fault.
Proof.
  intros bs Hs Hfit Hfuel Hmap Hnull. apply fit_None in Hfit.
  pose proof Hs as Hs'. apply bigs_seg_app in Hs' as (Hs1 & [Hb _]). cbn [addr_of] in Hs1, Hb.
  apply Forall_app in Hfit as [Hu1 Hu2]. apply list.Forall_cons in Hu2 as [Hu2 _].
  pose proof (big_rep_chunks _ _ _ _ Hb) as [Hok Hb0].
  unfold bs in *. rewrite steps_app, steps_cons in Hfuel. cbn [steps foldr] in Hfuel. fold (steps bs0) in Hfuel.
  assert (∃ k, fuel = steps bs0 + (length (b_chunks b) + Datatypes.S k))%nat as [k ->].
  { exists (fuel - steps bs0 - length (b_chunks b) - 1)%nat. unfold steps in *. lia. }
  rewrite addr_of_app. cbn [addr_of].
  rewrite (walk_bigs s n bs0 NULL b _ _ Hs1 Hb0 Hu1 eq_refl).
  destruct Hb as ((B1 & B2 & B3 & B4) & Hseg & (E1 & _) & _).
  rewrite (walk_chunks s _ n NULL _ _ _ Hseg Hu2). apply loop_fault.
  unfold malloc_step. erewrite bind_ok; [|by apply get_field_ok].
  change (MAGIC_END_MCB =? MAGIC_FREE_MCB) with false. change (MAGIC_END_MCB =? MAGIC_USED_MCB) with false.
  rewrite Z.eqb_refl. cbv iota. erewrite bind_ok; [|by apply get_field_ok].
  change (Z_bool NULL) with false. cbv iota. apply bind_fault.
  unfold __allocateBigBlock. erewrite bind_ok; [|by apply get_field_ok]. rewrite Z.eqb_refl.
  unfold assert_. rewrite bind_ret. cbv zeta. erewrite bind_ok; [|exact Hmap].
  apply bind_fault. unfold set_field, store32. apply bind_fault. by apply store_fault.
Qed.
End grow.

(** ** free *)

(** The chunk of [sz] bytes between [cs1] and [cs2] is freed: it joins a free
    chunk in front of it and one behind it. *)
Definition join_prev (cs1 : list chunk) (sz : Z) : list chunk * Z :=
  match last cs1 with
  | Some (true, szp) => (removelast cs1, szp + 16 + sz)
  | _ => (cs1, sz)
  end.
Definition join_next (sz : Z) (cs2 : list chunk) : Z * list chunk :=
  match cs2 with
  | (true, szn) :: cs2 => (sz + 16 + szn, cs2)
  | _ => (sz, cs2)
  end.

Section free.
Context {S : Type} `{L : !Lens S mem} `{E : !Lens S errno_st} `{M : !MemMap S} `{W : !MemMapLaws S}.
Implicit Types s : S.

(** Two neighbours become one chunk. *)
Lemma unify_ok s prev nx b (cs1 : list chunk) f (s1 : Z) g (s2 : Z) (cs2 : list chunk) :
  big_rep (memory s) prev nx b → b_chunks b = cs1 ++ (f, s1) :: (g, s2) :: cs2 →
  let c := b_first b + span cs1 in
  ∃ m', __unifyBlocks c (c + 16 + s1) s = Ok (c, with_memory s m') ∧
    big_rep m' prev nx (Big (b_addr b) (cs1 ++ (f, s1 + 16 + s2) :: cs2)) ∧
    upd (λ q, c <= q < c + 16 ∨ c + 16 + s1 + 16 + s2 <= q < c + 16 + s1 + 16 + s2 + 16) (memory s) m'.
Proof.
  intros (B & Hseg & Hend & Hok & Hmap & Hb0 & Hb1) Hcs c.
  unfold big_size, b_first, b_end in *. rewrite Hcs in *. apply chunks_ok_app in Hok as [Hok1 Hok2].
  pose proof Hok2 as Hok3. apply list.Forall_cons in Hok3 as [[Hs1 Hm1] Hok3].
  apply list.Forall_cons in Hok3 as [[Hs2 Hm2] Hok3]. cbn [snd] in *.
  pose proof (span_nonneg _ Hok1). pose proof (span_nonneg _ Hok3).
  rewrite span_app, !span_cons in *. cbn [snd] in *.
  assert (chunk_tail (memory s) NULL (b_addr b + 16) (cs1 ++ (f, s1) :: (g, s2) :: cs2)) as Ht.
  { split; [done|]. rewrite span_app, !span_cons. exact Hend. }
  apply chunk_tail_app in Ht as [Ht1 Ht2]. fold c in Ht2.
  apply chunk_tail_cons in Ht2 as [C1 Ht2]. apply chunk_tail_cons in Ht2 as [C2 Ht2].
  destruct (chunk_tail_head _ _ _ _ Hok3 Ht2) as (mg & sz3 & nx3 & C3 & _ & Htail). cbn [snd] in *.
  pose proof (mcb_range _ _ _ _ _ _ C1) as R1. pose proof (mcb_range _ _ _ _ _ _ C2) as R2.
  pose proof (mcb_range _ _ _ _ _ _ C3) as R3.
  pose proof (mcb_mapped _ _ _ _ _ _ C1) as M1. pose proof (mcb_mapped _ _ _ _ _ _ C2) as M2.
  pose proof (mcb_mapped _ _ _ _ _ _ C3) as M3.
  destruct C1 as (A1 & A2 & A3 & A4), C2 as (B1' & B2 & B3 & B4), C3 as (D1 & D2 & D3 & D4).
  unfold __unifyBlocks. unfields.
  heap_get. heap_set. heap_get. heap_get. heap_set. heap_get. heap_set.
  eexists. split; [reflexivity|]. split; [|upd_tac].
  unfold big_rep, big_size, b_first, b_end. cbn [b_addr b_chunks].
  assert (span (cs1 ++ (f, s1 + 16 + s2) :: cs2) = span cs1 + (16 + s1 + (16 + s2 + span cs2))) as Hspan.
  { rewrite span_app, span_cons. cbn [snd]. lia. }
  match goal with |- mcb ?m _ _ _ _ _ ∧ _ => set (m' := m) end.
  assert (∀ q, ¬ c <= q < c + 16 → ¬ c + 16 + s1 + 16 + s2 <= q < c + 16 + s1 + 16 + s2 + 16 →
    m' !! q = memory s !! q) as Hout.
  { intros q Hq1 Hq2. unfold m'. by repeat rewrite lookup_setf by lia. }
  assert (chunk_tail m' 0 (b_addr b + 16) (cs1 ++ (f, s1 + 16 + s2) :: cs2)) as [Hs' He'].
  { apply chunk_tail_app. split.
    - eapply chunk_seg_ext; [done| |exact Ht1]. intros. apply Hout; lia.
    - fold c. apply chunk_tail_cons. cbn [snd fst]. split.
      + unfold mcb. unfields. unfold m'. split_and!; field_tac.
      + replace (c + 16 + (s1 + 16 + s2)) with (c + 16 + s1 + 16 + s2) by lia. apply Htail.
        * unfold mcb. unfields. unfold m'. split_and!; field_tac.
        * intros. apply Hout; lia. }
  rewrite Hspan in *. split; [|split; [done|split; [exact He'|split; [|split; [|lia]]]]].
  - eapply mcb_ext; [|exact B]. intros. apply Hout; lia.
  - apply chunks_ok_app. split; [done|]. constructor; [|done]. cbn [snd].
    split; [lia|]. Z.to_euclidean_division_equations. lia.
  - unfold m'. do 3 apply mapped_setf. eapply mapped_sub; [exact Hmap|lia|lia].
Qed.

(** The head of the chunk at [c], and its neighbours. *)
Lemma big_chunk m prev nx b (cs1 : list chunk) f sz (cs2 : list chunk) :
  big_rep m prev nx b → b_chunks b = cs1 ++ (f, sz) :: cs2 →
  let c := b_first b + span cs1 in
  mcb m c (magic_of (f, sz)) sz (last_of NULL (b_first b) cs1) (c + 16 + sz) ∧
  field_at m (c + 16 + sz) f_magic (head_magic cs2) ∧
  (cs1 = [] ∧ last_of NULL (b_first b) cs1 = NULL ∨
   ∃ cs0 d, cs1 = cs0 ++ [d] ∧ last_of NULL (b_first b) cs1 = b_first b + span cs0 ∧
     0 < b_first b + span cs0 ∧ c = b_first b + span cs0 + 16 + d.2 ∧
     field_at m (b_first b + span cs0) f_magic (magic_of d)).
Proof.
  intros (B & Hseg & Hend & Hok & Hmap & Hb0 & Hb1) Hcs c. rewrite Hcs in *.
  assert (chunk_tail m NULL (b_first b) (cs1 ++ (f, sz) :: cs2)) as Ht.
  { split; [done|]. unfold b_end in Hend. by rewrite Hcs in Hend. }
  apply chunk_tail_app in Ht as [Ht1 Ht2]. fold c in Ht2. apply chunk_tail_cons in Ht2 as [C Ht2].
  apply chunks_ok_app in Hok as [Hok1 Hok2]. apply list.Forall_cons in Hok2 as [_ Hok2].
  cbn [snd] in *. split; [exact C|]. split.
  - destruct (chunk_tail_head _ _ _ _ Hok2 Ht2) as (mg & sz3 & nx3 & (C3 & _) & -> & _). exact C3.
  - destruct (decide (cs1 = [])) as [->|Hne]; [by left|]. right.
    destruct (exists_last Hne) as (cs0 & d & ->). exists cs0, d. split; [done|].
    apply chunks_ok_app in Hok1 as [Hok1 _]. pose proof (span_nonneg _ Hok1).
    rewrite last_of_app. cbn [last_of]. split; [done|]. unfold b_first in *. split; [lia|].
    unfold c, b_first. rewrite span_app, span_cons. change (span []) with 0. split; [lia|].
    apply chunk_seg_app in Ht1 as [_ [(D & _) _]]. exact D.
Qed.

Lemma mark_free s prev nx b (cs1 : list chunk) sz (cs2 : list chunk) :
  big_rep (memory s) prev nx b → b_chunks b = cs1 ++ (false, sz) :: cs2 →
  let c := b_first b + span cs1 in
  ∃ m', set_field c f_magic MAGIC_FREE_MCB s = Ok (tt, with_memory s m') ∧
    big_rep m' prev nx (Big (b_addr b) (cs1 ++ (true, sz) :: cs2)) ∧
    upd (λ q, c <= q < c + 16) (memory s) m'.
Proof.
  intros Hb Hcs c. destruct (big_chunk _ _ _ _ _ _ _ _ Hb Hcs) as (C & _ & _). fold c in C.
  pose proof (mcb_range _ _ _ _ _ _ C) as R. pose proof (mcb_mapped _ _ _ _ _ _ C) as Mc.
  destruct Hb as (B & Hseg & Hend & Hok & Hmap & Hb0 & Hb1).
  unfold big_size, b_first, b_end in *. rewrite Hcs in *. apply chunks_ok_app in Hok as [Hok1 Hok2].
  pose proof Hok2 as Hok3. apply list.Forall_cons in Hok3 as [[Hs1 Hm1] Hok3]. cbn [snd] in *.
  pose proof (span_nonneg _ Hok1). pose proof (span_nonneg _ Hok3).
  rewrite span_app, !span_cons in *. cbn [snd] in *. unfold b_first in c.
  assert (chunk_tail (memory s) NULL (b_addr b + 16) (cs1 ++ (false, sz) :: cs2)) as Ht.
  { split; [done|]. rewrite span_app, !span_cons. exact Hend. }
  apply chunk_tail_app in Ht as [Ht1 Ht2]. fold c in Ht2. apply chunk_tail_cons in Ht2 as [_ Ht2]. cbn [snd] in *.
  rewrite set_field_ok; [|unfields; mapped_tac]. eexists. split; [reflexivity|]. split; [|unfields; upd_tac].
  unfold big_rep, big_size, b_first, b_end. cbn [b_addr b_chunks].
  set (m' := setf (memory s) c f_magic MAGIC_FREE_MCB).
  assert (∀ q, ¬ c <= q < c + 4 → m' !! q = memory s !! q) as Hout.
  { intros q Hq1. unfold m'. apply lookup_setf. unfields. lia. }
  assert (chunk_tail m' 0 (b_addr b + 16) (cs1 ++ (true, sz) :: cs2)) as [Hs' He'].
  { apply chunk_tail_app. split.
    - eapply chunk_seg_ext; [done| |exact Ht1]. intros. apply Hout; lia.
    - fold c. apply chunk_tail_cons. cbn [snd fst magic_of]. split.
      + destruct C as (A1 & A2 & A3 & A4). unfold mcb, m'. unfields. split_and!; field_tac.
      + eapply chunk_tail_ext; [done| |exact Ht2]. intros. apply Hout; lia. }
  rewrite span_app, span_cons in *. cbn [snd] in *.
  split; [|split; [done|split; [exact He'|split; [|split; [|lia]]]]].
  - eapply mcb_ext; [|exact B]. intros. apply Hout; lia.
  - apply chunks_ok_app. split; [done|]. by constructor.
  - by apply mapped_setf.
Qed.

(** The end of free: hand a big block back that is one free chunk. *)
Definition free_tail (block : Z) : ST S unit :=
  prev ← get_field block f_prev;
  whole ← (if prev =? NULL then
             next ← get_field block f_next; magic ← get_field next f_magic;
             mret (magic =? MAGIC_END_MCB)
           else mret false);
  (if whole : bool then
     let bigBlock := block - sizeof_MCB in
     bigPrev ← get_field bigBlock f_prev;
     (if Z_bool bigPrev then
        bigNext ← get_field bigBlock f_next; set_field bigPrev f_next bigNext
      else mret tt);;
     bigNext ← get_field bigBlock f_next;
     (if Z_bool bigNext then
        bigPrev ← get_field bigBlock f_prev; set_field bigNext f_prev bigPrev
      else mret tt);;
     size ← get_field bigBlock f_size;
     unmapMemory bigBlock size
   else mret tt);;
  __unlockHeap.

Lemma join_prev_cases cs1 sz :
  (∃ cs0 szp, cs1 = cs0 ++ [(true, szp)] ∧ join_prev cs1 sz = (cs0, szp + 16 + sz)) ∨
  ((cs1 = [] ∨ ∃ cs0 szp, cs1 = cs0 ++ [(false, szp)]) ∧ join_prev cs1 sz = (cs1, sz)).
Proof.
  destruct (decide (cs1 = [])) as [->|Hne]; [right; split; [by left|done]|].
  destruct (exists_last Hne) as (cs0 & [f szp] & ->). unfold join_prev. rewrite last_snoc.
  destruct f; [left; exists cs0, szp; by rewrite removelast_last|].
  right. split; [|done]. right. by exists cs0, szp.
Qed.

Lemma join_next_cases sz cs2 :
  (∃ szn cs3, cs2 = (true, szn) :: cs3 ∧ join_next sz cs2 = (sz + 16 + szn, cs3)) ∨
  ((head_magic cs2 =? MAGIC_FREE_MCB) = false ∧
   join_next sz cs2 = (sz, cs2)).
Proof.
  destruct cs2 as [|[[] szn] cs3]; [by right| |by right]. left. by exists szn, cs3.
Qed.

(** Headers are no payload. *)
Lemma header_no_payload u a cs1 cs2 q :
  chunks_ok (cs1 ++ cs2) → a + span cs1 <= q < a + span cs1 + 16 → ¬ payload u a (cs1 ++ cs2) q.
Proof.
  intros [Hok1 Hok2]%chunks_ok_app Hq. rewrite payload_app.
  intros [H|H]; apply payload_bounds in H; [|done| |done]; lia.
Qed.

(** Joining two free chunks keeps the used payloads. *)
Lemma payload_merge a cs0 x y cs2 q :
  payload true a (cs0 ++ (true, x) :: (true, y) :: cs2) q ↔
  payload true a (cs0 ++ (true, x + 16 + y) :: cs2) q.
Proof.
  rewrite !payload_app. cbn [payload fst snd negb].
  replace (a + span cs0 + 16 + x + 16 + y) with (a + span cs0 + 16 + (x + 16 + y)) by lia.
  split; [intros [?|[[? _]|[[? _]|?]]] | intros [?|[[? _]|?]]]; done || tauto.
Qed.

(** What free may write of a big block. *)
Definition free_area (b : big) (cs : list chunk) (q : Z) : Prop :=
  in_big b q ∧ ¬ payload true (b_first b) cs q.

Lemma header_free_area b l1 l2 q :
  chunks_ok (l1 ++ l2) → span (b_chunks b) = span (l1 ++ l2) →
  b_first b + span l1 <= q < b_first b + span l1 + 16 → free_area b (l1 ++ l2) q.
Proof.
  intros Hok Hsp Hq. split; [|by apply header_no_payload].
  apply chunks_ok_app in Hok as [H1 H2]. pose proof (span_nonneg _ H1). pose proof (span_nonneg _ H2).
  unfold in_big, big_size. rewrite Hsp, span_app. unfold b_first in Hq. lia.
Qed.

(** Joining the freed chunk with the one in front of it. *)
Lemma free_join_prev s prev nx b (cs1 : list chunk) sz (cs2 pre : list chunk) sz1 :
  big_rep (memory s) prev nx b → b_chunks b = cs1 ++ (true, sz) :: cs2 →
  join_prev cs1 sz = (pre, sz1) →
  let c := b_first b + span cs1 in
  ∃ prevc prevFree m',
    get_field c f_prev s = Ok (prevc, s) ∧
    (if Z_bool prevc then magic ← get_field prevc f_magic; mret (magic =? MAGIC_FREE_MCB)
     else mret false) s = Ok (prevFree, s) ∧
    (if prevFree : bool then __unifyBlocks prevc c else mret c) s = Ok (b_first b + span pre, with_memory s m') ∧
    big_rep m' prev nx (Big (b_addr b) (pre ++ (true, sz1) :: cs2)) ∧
    upd (free_area b (b_chunks b)) (memory s) m' ∧ span pre + sz1 = span cs1 + sz ∧
    chunks_ok (pre ++ (true, sz1) :: cs2).
Proof.
  intros Hb Hcs Hpre c. pose proof Hb as (_ & _ & _ & Hok & _).
  destruct (big_chunk _ _ _ _ _ _ _ _ Hb Hcs) as ((_ & _ & C3 & _) & _ & Hprev). fold c in C3, Hprev.
  exists (last_of NULL (b_first b) cs1).
  destruct (join_prev_cases cs1 sz) as [(cs0 & szp & Heq & Hj)|[Hno Hj]]; rewrite Hj in Hpre;
    injection Hpre as <- <-.
  - destruct Hprev as [[H _]|(cs0' & d & Heq' & Hl & Hpos & Hc & Hd)].
    { rewrite Heq in H. by destruct cs0. }
    rewrite Heq in Heq'. apply app_inj_tail in Heq' as [<- <-]. cbn [magic_of fst snd] in *.
    rewrite Hl in *. exists true.
    assert (b_chunks b = cs0 ++ (true, szp) :: (true, sz) :: cs2) as Hcs'.
    { by rewrite Hcs, Heq, <-app_assoc. }
    destruct (unify_ok s prev nx b cs0 true szp true sz cs2 Hb Hcs') as (m' & Hrun & Hb' & Hu).
    exists m'. split; [by apply get_field_ok|]. split; [|split; [|split; [exact Hb'|split; [|split]]]].
    + unfold Z_bool. rewrite (proj2 (Z.eqb_neq _ 0)) by lia. cbn [negb].
      erewrite bind_ok; [|by apply get_field_ok]. by rewrite Z.eqb_refl.
    + replace c with (b_first b + span cs0 + 16 + szp) by lia. exact Hrun.
    + eapply upd_weaken; [exact Hu|]. cbv beta. rewrite Hcs' in *. intros q [Hq|Hq].
      * apply header_free_area; [done|by rewrite Hcs'|done].
      * replace (cs0 ++ (true, szp) :: (true, sz) :: cs2) with ((cs0 ++ [(true, szp); (true, sz)]) ++ cs2) in *
          by by rewrite <-app_assoc.
        apply header_free_area; [done|by rewrite Hcs'|]. rewrite span_app, !span_cons. change (span []) with 0.
        cbn [snd]. lia.
    + rewrite Heq, span_app, span_cons. change (span []) with 0. cbn [snd]. lia.
    + by destruct Hb' as (_ & _ & _ & H & _).
  - exists false, (memory s). split; [by apply get_field_ok|].
    rewrite with_memory_id. split; [|split; [done|split; [|split; [apply upd_refl|split; [lia|by rewrite <-Hcs]]]]].
    + destruct Hprev as [[_ ->]|(cs0 & d & Heq & Hl & Hpos & _ & Hd)]; [done|].
      destruct Hno as [Hno|(cs0' & szp & Hno)]; rewrite Hno in Heq; [by destruct cs0|].
      apply app_inj_tail in Heq as [<- <-]. cbn [magic_of fst] in Hd. rewrite Hl.
      unfold Z_bool. rewrite (proj2 (Z.eqb_neq _ 0)) by lia. cbn [negb].
      erewrite bind_ok; [|by apply get_field_ok]. done.
    + destruct b as [a cs]. cbn [b_addr b_chunks] in *. by rewrite <-Hcs.
Qed.

(** And with the one behind it. *)
Lemma free_join_next s prev nx b (pre : list chunk) sz1 (cs2 : list chunk) sz2 (post : list chunk) :
  big_rep (memory s) prev nx b → b_chunks b = pre ++ (true, sz1) :: cs2 →
  join_next sz1 cs2 = (sz2, post) →
  let c := b_first b + span pre in
  ∃ next magic m',
    get_field c f_next s = Ok (next, s) ∧ get_field next f_magic s = Ok (magic, s) ∧
    (if magic =? MAGIC_FREE_MCB then __unifyBlocks c next else mret c) s = Ok (c, with_memory s m') ∧
    big_rep m' prev nx (Big (b_addr b) (pre ++ (true, sz2) :: post)) ∧
    upd (free_area b (b_chunks b)) (memory s) m'.
Proof.
  intros Hb Hcs Hpost c. pose proof Hb as (_ & _ & _ & Hok & _).
  destruct (big_chunk _ _ _ _ _ _ _ _ Hb Hcs) as ((_ & _ & _ & C4) & Hnext & _). fold c in C4, Hnext.
  exists (c + 16 + sz1), (head_magic cs2).
  destruct (join_next_cases sz1 cs2) as [(szn & cs3 & Heq & Hj)|[Hno Hj]]; rewrite Hj in Hpost;
    injection Hpost as <- <-.
  - rewrite Heq in *. cbn [magic_of fst] in Hnext |- *.
    destruct (unify_ok s prev nx b pre true sz1 true szn cs3 Hb Hcs) as (m' & Hrun & Hb' & Hu).
    exists m'. split; [by apply get_field_ok|]. split; [by apply get_field_ok|].
    rewrite Z.eqb_refl. split; [exact Hrun|]. split; [exact Hb'|].
    eapply upd_weaken; [exact Hu|]. cbv beta. rewrite Hcs in *. fold c. intros q [Hq|Hq].
    + apply header_free_area; [done|by rewrite Hcs|done].
    + replace (pre ++ (true, sz1) :: (true, szn) :: cs3) with ((pre ++ [(true, sz1); (true, szn)]) ++ cs3) in *
        by by rewrite <-app_assoc.
      apply header_free_area; [done|by rewrite Hcs|]. rewrite span_app, !span_cons. change (span []) with 0.
      cbn [snd]. unfold c in Hq. lia.
  - exists (memory s). split; [by apply get_field_ok|]. split; [by apply get_field_ok|]. rewrite Hno, with_memory_id.
    split; [done|]. split; [|apply upd_refl]. destruct b as [a cs]. cbn [b_addr b_chunks] in *. by rewrite <-Hcs.
Qed.

(** The first part of free: mark the chunk, join it with its neighbours. *)
Lemma free_joins s prev nx b (cs1 : list chunk) sz (cs2 pre : list chunk) sz1 sz2 (post : list chunk) :
  big_rep (memory s) prev nx b → b_chunks b = cs1 ++ (false, sz) :: cs2 →
  join_prev cs1 sz = (pre, sz1) → join_next sz1 cs2 = (sz2, post) →
  ∃ m', free (b_first b + span cs1 + 16) s = free_tail (b_first b + span pre) (with_memory s m') ∧
    big_rep m' prev nx (Big (b_addr b) (pre ++ (true, sz2) :: post)) ∧
    upd (free_area b (cs1 ++ (true, sz) :: cs2)) (memory s) m' ∧
    span (pre ++ (true, sz2) :: post) = span (b_chunks b).
Proof.
  intros Hb Hcs Hpre Hpost. set (c := b_first b + span cs1).
  pose proof Hb as (_ & _ & _ & Hok & _ & Hb0 & _). rewrite Hcs in Hok.
  apply chunks_ok_app in Hok as [Hok1 Hok2]. pose proof (span_nonneg _ Hok1) as Hsp1.
  unfold free. rewrite (proj2 (Z.eqb_neq _ _)) by (unfold c, b_first, NULL; lia).
  unfold __lockHeap. rewrite bind_ret. cbv zeta.
  replace (c + 16 - sizeof_MCB) with c by (unfold sizeof_MCB; lia).
  destruct (mark_free s prev nx b cs1 sz cs2 Hb Hcs) as (m1 & Hrun1 & Hb1 & Hu1). fold c in Hrun1, Hu1.
  erewrite bind_ok; [|exact Hrun1]. set (s1 := with_memory s m1).
  set (b1 := Big (b_addr b) (cs1 ++ (true, sz) :: cs2)) in *.
  assert (memory s1 = m1) as Hm1 by apply memory_with. rewrite <-Hm1 in Hb1.
  destruct (free_join_prev s1 prev nx b1 cs1 sz cs2 pre sz1 Hb1 eq_refl Hpre)
    as (prevc & pf & m2 & Hg & Hpf & Hrun2 & Hb2 & Hu2 & Hsp2 & Hok3).
  change (b_first b1) with (b_first b) in *. fold c in Hg, Hrun2. change (b_addr b1) with (b_addr b) in Hb2.
  erewrite bind_ok; [|exact Hg]. erewrite bind_ok; [|exact Hpf]. erewrite bind_ok; [|exact Hrun2].
  set (s2 := with_memory s1 m2). set (b2 := Big (b_addr b) (pre ++ (true, sz1) :: cs2)) in *.
  assert (memory s2 = m2) as Hm2 by apply memory_with. rewrite <-Hm2 in Hb2.
  destruct (free_join_next s2 prev nx b2 pre sz1 cs2 sz2 post Hb2 eq_refl Hpost)
    as (next & magic & m3 & Hg3 & Hmg & Hrun3 & Hb3 & Hu3).
  change (b_first b2) with (b_first b) in *. change (b_addr b2) with (b_addr b) in Hb3.
  erewrite bind_ok; [|exact Hg3]. erewrite bind_ok; [|exact Hmg]. erewrite bind_ok; [|exact Hrun3].
  exists m3. split; [unfold s2, s1; by rewrite !with_memory_with|]. split; [exact Hb3|].
  assert (span (b_chunks b1) = span (b_chunks b)) as Hz1.
  { rewrite Hcs. cbn [b_chunks b1]. by rewrite !span_app, !span_cons. }
  assert (span (b_chunks b2) = span (b_chunks b)) as Hz2.
  { rewrite Hcs. cbn [b_chunks b2]. rewrite !span_app, !span_cons. cbn [snd]. lia. }
  split.
  - apply (upd_trans _ _ m1).
    { eapply upd_weaken; [exact Hu1|]. cbv beta. intros q Hq. apply header_free_area; [|exact (eq_sym Hz1)|exact Hq].
      by destruct Hb1 as (_ & _ & _ & H & _). }
    apply (upd_trans _ _ m2).
    { rewrite <-Hm1. eapply upd_weaken; [exact Hu2|]. intros q [Hq Hp]. cbn [b_chunks b1] in Hp. split; [|exact Hp].
      unfold in_big, big_size in *. by rewrite Hz1 in Hq. }
    rewrite <-Hm2. eapply upd_weaken; [exact Hu3|]. intros q [Hq Hp]. split.
    { unfold in_big, big_size in *. by rewrite Hz2 in Hq. }
    intros H. apply Hp. cbn [b_chunks b2]. change (b_first b2) with (b_first b).
    destruct (join_prev_cases cs1 sz) as [(cs0 & szp & Heq & Hj)|[_ Hj]]; rewrite Hj in Hpre;
      injection Hpre as <- <-; [|exact H].
    rewrite Heq, <-app_assoc in H. by apply payload_merge in H.
  - destruct (join_next_cases sz1 cs2) as [(szn & cs3 & Heq & Hj)|[_ Hj]]; rewrite Hj in Hpost;
      injection Hpost as <- <-; rewrite <-Hz2; cbn [b_chunks b2]; rewrite ?Heq, !span_app, !span_cons;
      cbn [snd]; lia.
Qed.

(** *** Taking a big block out of the list *)
Lemma link_first m prev b bs nx p :
  bigs_seg m prev (b :: bs) nx → all_apart (b :: bs) → 0 <= p < 2 ^ 32 →
  bigs_seg (setf m (b_addr b) f_prev p) p (b :: bs) nx.
Proof.
  intros [Hb Hs] [Hap _] Hp.
  pose proof (big_rep_chunks _ _ _ _ Hb) as [Hok Hb0]. pose proof (span_nonneg _ Hok).
  assert (∀ q, ¬ b_addr b + 8 <= q < b_addr b + 12 → setf m (b_addr b) f_prev p !! q = m !! q) as Hout.
  { intros q Hq. apply lookup_setf. unfold f_prev. lia. }
  split.
  - destruct Hb as (B & Hseg & Hend & _ & Hmap & Hb1). unfold b_first, b_end, b_first in *.
    split; [|split; [|split; [|split; [done|split; [by apply mapped_setf|done]]]]].
    + destruct B as (B1 & B2 & B3 & B4). unfold mcb. unfields. split_and!; field_tac.
    + eapply chunk_seg_ext; [done| |exact Hseg]. intros. apply Hout. unfold b_first in *. lia.
    + eapply mcb_ext; [|exact Hend]. intros. apply Hout. unfold b_end, b_first in *. lia.
  - eapply bigs_seg_ext; [|exact Hs]. intros q Hq. apply Hout.
    apply Exists_exists in Hq as (b0 & Hin & Hq). rewrite Forall_forall in Hap.
    specialize (Hap b0 Hin). unfold apart, disjoint_range, in_big, big_size in *. lia.
Qed.

(** A field of a big block's own header is in no other big block. *)
Lemma header_out bs b f q :
  Forall (apart b) bs → chunks_ok (b_chunks b) → b_addr b + f <= q < b_addr b + f + 4 → 0 <= f <= 12 →
  in_heap bs q → False.
Proof.
  intros Hap Hok Hq Hf Hin0. pose proof (span_nonneg _ Hok).
  apply Exists_exists in Hin0 as (b0 & Hin & Hq0). rewrite Forall_forall in Hap.
  specialize (Hap b0 Hin). unfold apart, disjoint_range, in_big, big_size in *. lia.
Qed.

Lemma all_apart_sub bs1 b bs2 : all_apart (bs1 ++ b :: bs2) → all_apart (bs1 ++ bs2).
Proof.
  rewrite !all_apart_app. cbn [all_apart]. intros (Ha & [Hb Hc] & Hd). split; [done|]. split; [done|].
  eapply list.Forall_impl; [exact Hd|]. intros b0 H0. by apply list.Forall_cons in H0 as [_ H0].
Qed.

Lemma apart_others bs1 b bs2 : all_apart (bs1 ++ b :: bs2) → Forall (apart b) (bs1 ++ bs2).
Proof.
  rewrite all_apart_app. cbn [all_apart]. intros (_ & [H2 _] & H1). apply Forall_app_2; [|done].
  eapply list.Forall_impl; [exact H1|]. intros b0 H0. apply list.Forall_cons in H0 as [H0 _]. by apply apart_sym.
Qed.

Definition set_prev_of (m : mem) (bs : list big) (p : Z) : mem :=
  match bs with [] => m | b :: _ => setf m (b_addr b) f_prev p end.

Lemma unlink m bs0 bl b bs2 :
  bigs_seg m NULL (bs0 ++ [bl] ++ b :: bs2) NULL → all_apart (bs0 ++ [bl] ++ b :: bs2) →
  bigs_seg (set_prev_of (setf m (b_addr bl) f_next (addr_of bs2 NULL)) bs2 (b_addr bl))
    NULL (bs0 ++ [bl] ++ bs2) NULL.
Proof.
  intros Hs Hap. rewrite !app_assoc in *.
  pose proof (bigs_seg_chunks _ _ _ _ Hs) as Hoks.
  apply bigs_seg_app in Hs as [Hs1 [_ Hs2]]. cbn [addr_of] in Hs1.
  pose proof (all_apart_sub _ _ _ Hap) as Hap'. apply all_apart_app in Hap' as (A1 & A2 & A12).
  apply Forall_app in Hoks as [Hok1 Hok2]. apply list.Forall_cons in Hok2 as [_ Hok2].
  assert (last_big NULL (bs0 ++ [bl]) = b_addr bl) as Hl.
  { clear. generalize NULL. induction bs0 as [|b1 bs0 IH]; intros z; [done|]. apply IH. }
  assert (0 <= b_addr bl < 2 ^ 32 ∧ chunks_ok (b_chunks bl)) as [Hbl Hokl].
  { apply bigs_seg_app in Hs1 as [_ [(_ & _ & _ & H1 & _ & H2 & H3) _]]. pose proof (span_nonneg _ H1).
    unfold big_size in H3. split; [lia|done]. }
  assert (0 <= addr_of bs2 NULL < 2 ^ 32) as Hadr.
  { destruct bs2 as [|b2 bs3]; cbn [addr_of]; [unfold NULL; lia|].
    destruct Hs2 as [(_ & _ & _ & H1 & _ & H2 & H3) _]. pose proof (span_nonneg _ H1). unfold big_size in H3. lia. }
  set (m1 := setf m (b_addr bl) f_next (addr_of bs2 NULL)).
  assert (bigs_seg m1 NULL (bs0 ++ [bl]) (addr_of bs2 NULL)) as Hs1' by (by apply (link_last m NULL bs0 bl (b_addr b))).
  assert (bigs_seg m1 (b_addr b) bs2 NULL) as Hs2'.
  { eapply bigs_seg_ext; [|exact Hs2]. intros q Hq. apply lookup_setf. intros Hf.
    apply Forall_app in A12 as [_ A12]. apply list.Forall_cons in A12 as [A12 _].
    eapply (header_out bs2 bl f_next q); [done|done|done|unfold f_next; lia|done]. }
  apply bigs_seg_app. rewrite Hl. destruct bs2 as [|b2 bs3]; [by split|].
  cbn [set_prev_of]. split; [|by eapply link_first].
  eapply bigs_seg_ext; [|exact Hs1']. intros q Hq. apply lookup_setf. intros Hf.
  apply list.Forall_cons in Hok2 as [[Hok2 _] _].
  eapply (header_out (bs0 ++ [bl]) b2 f_prev q); [|done|done|unfold f_prev; lia|done].
  eapply list.Forall_impl; [exact A12|]. intros b0 H0. apply list.Forall_cons in H0 as [H0 _]. by apply apart_sym.
Qed.

Lemma free_tail_keep s prev nx b (pre : list chunk) sz (post : list chunk) :
  big_rep (memory s) prev nx b → b_chunks b = pre ++ (true, sz) :: post →
  ¬ (pre = [] ∧ post = []) → free_tail (b_first b + span pre) s = Ok (tt, s).
Proof.
  intros Hb Hcs Hne. destruct (big_chunk _ _ _ _ _ _ _ _ Hb Hcs) as ((_ & _ & C3 & C4) & Hnext & Hprev).
  unfold free_tail. erewrite bind_ok; [|by apply get_field_ok].
  destruct Hprev as [[-> Hl]|(cs0 & d & -> & Hl & Hpos & _)]; rewrite Hl in *.
  - rewrite Z.eqb_refl. destruct post as [|d post]; [by destruct Hne|].
    erewrite bind_ok; [|erewrite bind_ok; [|by apply get_field_ok]; erewrite bind_ok; [|by apply get_field_ok]; done].
    cbn [head_magic]. unfold magic_of. by destruct d.1.
  - rewrite (proj2 (Z.eqb_neq _ _)) by (unfold NULL; lia). by rewrite bind_ret.
Qed.

Lemma free_tail_unmap s bs0 bl b bs2 sz :
  bigs_seg (memory s) NULL (bs0 ++ [bl] ++ b :: bs2) NULL → all_apart (bs0 ++ [bl] ++ b :: bs2) →
  b_chunks b = [(true, sz)] →
  ∃ s', free_tail (b_first b) s = Ok (tt, s') ∧
    bigs_seg (memory s') NULL (bs0 ++ [bl] ++ bs2) NULL ∧
    (∀ q, in_big b q → memory s' !! q = None) ∧
    ∀ q, ¬ in_big b q →
      memory s' !! q = set_prev_of (setf (memory s) (b_addr bl) f_next (addr_of bs2 NULL)) bs2 (b_addr bl) !! q.
Proof.
  intros Hs Hap Hcs. pose proof (unlink _ _ _ _ _ Hs Hap) as Hun.
  pose proof (bigs_seg_chunks _ _ _ _ Hs) as Hoks.
  pose proof Hs as Hs'. rewrite app_assoc in Hs', Hap. apply bigs_seg_app in Hs' as [Hs1 [Hb Hs2]].
  cbn [addr_of] in Hs1. apply bigs_seg_app in Hs1 as [_ [Hbl _]]. cbn [addr_of] in Hbl.
  assert (last_big NULL (bs0 ++ [bl]) = b_addr bl) as Hl.
  { clear. generalize NULL. induction bs0 as [|b1 bs0 IH]; intros z; [done|]. apply IH. }
  rewrite Hl in Hb.
  destruct (big_chunk _ _ _ _ [] _ _ [] Hb Hcs) as ((_ & _ & C3 & C4) & Hnext & _).
  change (span []) with 0 in *. cbn [last_of head_magic] in *. rewrite Z.add_0_r in *.
  pose proof Hb as ((B1 & B2 & B3 & B4) & _ & _ & Hok & Hbm & Hb0 & Hb1).
  pose proof Hbl as ((L1 & L2 & L3 & L4) & _ & _ & Hokl & Hlm & Hl0 & Hl1).
  pose proof (span_nonneg _ Hok) as Hsp. pose proof (span_nonneg _ Hokl) as Hspl.
  assert (apart b bl) as Hbl'.
  { apply apart_others in Hap. apply Forall_app in Hap as [Hap _]. apply Forall_app in Hap as [_ Hap].
    by apply list.Forall_cons in Hap as [Hap _]. }
  unfold apart, disjoint_range, big_size in *. unfold free_tail.
  erewrite bind_ok; [|by apply get_field_ok]. rewrite Z.eqb_refl.
  erewrite bind_ok; [|erewrite bind_ok; [|by apply get_field_ok]; erewrite bind_ok; [|by apply get_field_ok]; done].
  rewrite Z.eqb_refl. cbv iota. replace (b_first b - sizeof_MCB) with (b_addr b) by (unfold b_first, sizeof_MCB; lia).
  assert (mapped (memory s) (b_addr bl) 16) as Ml by (eapply mapped_sub; [exact Hlm|lia|lia]).
  set (m1 := setf (memory s) (b_addr bl) f_next (addr_of bs2 NULL)) in *.
  set (m2 := set_prev_of m1 bs2 (b_addr bl)) in *.
  assert (Z_bool (b_addr bl) = true) as Hbz by (unfold Z_bool; by rewrite (proj2 (Z.eqb_neq _ 0)) by lia).
  assert (∀ f w, f = f_prev ∨ f = f_next ∨ f = f_size → field_at (memory s) (b_addr b) f w →
    field_at m1 (b_addr b) f w) as Hm1.
  { intros f w Hf Hfd. apply field_setf_other; [|done]. unfold disjoint_range. unfields. lia. }
  assert (field_at m2 (b_addr b) f_size (32 + span (b_chunks b))) as Hsize2.
  { unfold m2. destruct bs2 as [|b2 bs3]; cbn [set_prev_of]; [apply Hm1; [tauto|exact B2]|].
    apply field_setf_other; [|apply Hm1; [tauto|exact B2]].
    apply apart_others in Hap. apply Forall_app in Hap as [_ Hap]. apply list.Forall_cons in Hap as [Hap _].
    destruct Hs2 as [(_ & _ & _ & Hok2 & _) _]. pose proof (span_nonneg _ Hok2).
    unfold apart, disjoint_range, big_size in *. unfields. lia. }
  assert ((bigPrev ← get_field (b_addr b) f_prev;
    (if Z_bool bigPrev then
        bigNext ← get_field (b_addr b) f_next; set_field bigPrev f_next bigNext
      else mret tt);;
     bigNext ← get_field (b_addr b) f_next;
     (if Z_bool bigNext then
        bigPrev ← get_field (b_addr b) f_prev; set_field bigNext f_prev bigPrev
      else mret tt);;
     size ← get_field (b_addr b) f_size;
     unmapMemory (b_addr b) size) s =
     unmapMemory (b_addr b) (32 + span (b_chunks b)) (with_memory s m2)) as Hrun.
  { erewrite bind_ok; [|apply get_field_ok; exact B3]. rewrite Hbz.
    erewrite bind_ok; [|erewrite bind_ok; [|apply get_field_ok; exact B4];
      apply set_field_ok; unfields; mapped_tac]. fold m1.
    erewrite bind_ok; [|apply get_field_ok; rewrite memory_with; apply Hm1; [tauto|exact B4]].
    unfold m2. destruct bs2 as [|b2 bs3]; cbn [addr_of set_prev_of].
    - change (Z_bool NULL) with false. cbv iota. rewrite bind_ret.
      erewrite bind_ok; [|apply get_field_ok; rewrite memory_with; apply Hm1; [tauto|exact B2]]. done.
    - destruct Hs2 as [(_ & _ & _ & Hok2 & Hm2 & H20 & _) _]. pose proof (span_nonneg _ Hok2).
      assert (Z_bool (b_addr b2) = true) as -> by (unfold Z_bool; by rewrite (proj2 (Z.eqb_neq _ 0)) by lia).
      assert (mapped m1 (b_addr b2) 16) as M2.
      { apply mapped_setf. eapply mapped_sub; [exact Hm2|lia|unfold big_size; lia]. }
      erewrite bind_ok; [|erewrite bind_ok; [|apply get_field_ok; rewrite memory_with; apply Hm1; [tauto|exact B3]];
        apply set_field_ok; rewrite memory_with; unfields; eapply mapped_sub; [exact M2|lia|lia]].
      autorewrite with lens.
      erewrite bind_ok; [|apply get_field_ok; rewrite memory_with; exact Hsize2]. done. }
  destruct (unmap_pages (with_memory s m2) (b_addr b) (32 + span (b_chunks b))) as (s' & Hun' & Hmem).
  rewrite Hun' in Hrun. exists s'. split; [erewrite bind_ok; [|exact Hrun]; done|].
  assert (∀ q, ¬ in_big b q → memory s' !! q = m2 !! q) as Hout.
  { intros q Hq. rewrite Hmem, memory_with. unfold in_big, big_size in Hq. by rewrite decide_False by lia. }
  split; [|split; [|exact Hout]].
  2:{ intros q Hq. rewrite Hmem. unfold in_big, big_size in Hq. by rewrite decide_True by lia. }
  eapply bigs_seg_ext; [|exact Hun]. intros q Hq. apply Hout. intros Hqb.
  rewrite app_assoc in Hq. apply Exists_exists in Hq as (b0 & Hin & Hq0).
  apply apart_others in Hap. rewrite Forall_forall in Hap. specialize (Hap b0 Hin).
  unfold apart, disjoint_range, in_big, big_size in *. lia.
Qed.

(** The big block once the chunk is freed and joined. *)
Definition freed (b : big) (cs1 : list chunk) (sz : Z) (cs2 : list chunk) : list big :=
  let '(pre, sz1) := join_prev cs1 sz in
  let '(sz2, post) := join_next sz1 cs2 in
  match pre ++ post with
  | [] => []
  | _ => [Big (b_addr b) (pre ++ (true, sz2) :: post)]
  end.

Lemma payload_true_mid a cs1 sz cs2 q :
  payload true a (cs1 ++ (true, sz) :: cs2) q → payload true a (cs1 ++ (false, sz) :: cs2) q.
Proof. rewrite !payload_app. cbn [payload fst snd negb]. intros [?|[[? _]|?]]; [by left|done|tauto]. Qed.

(** Joining free chunks keeps the used payloads. *)
Lemma payload_joins a cs1 sz cs2 pre sz1 sz2 post q :
  join_prev cs1 sz = (pre, sz1) → join_next sz1 cs2 = (sz2, post) →
  payload true a (pre ++ (true, sz2) :: post) q ↔ payload true a (cs1 ++ (true, sz) :: cs2) q.
Proof.
  intros Hpre Hpost.
  assert (payload true a (pre ++ (true, sz1) :: cs2) q ↔ payload true a (cs1 ++ (true, sz) :: cs2) q) as <-.
  { destruct (join_prev_cases cs1 sz) as [(cs0 & szp & -> & Hj)|[_ Hj]]; rewrite Hj in Hpre;
      injection Hpre as <- <-; [|done].
    rewrite <-app_assoc. symmetry. apply payload_merge. }
  destruct (join_next_cases sz1 cs2) as [(szn & cs3 & -> & Hj)|[_ Hj]]; rewrite Hj in Hpost;
    injection Hpost as <- <-; [|done].
  symmetry. apply payload_merge.
Qed.

Lemma in_used_bigs bs bs' q : in_used (bs ++ bs') q ↔ in_used bs q ∨ in_used bs' q.
Proof. apply Exists_app. Qed.

Lemma in_used_heap bs q : Forall (λ b, chunks_ok (b_chunks b) ∧ 0 < b_addr b) bs → in_used bs q → in_heap bs q.
Proof.
  intros Hok H. apply Exists_exists in H as (b & Hin & Hp). apply Exists_exists. exists b. split; [done|].
  rewrite Forall_forall in Hok. destruct (Hok b Hin) as [Hc _]. by eapply payload_in_big.
Qed.

(** The links that taking out a big block changes are headers. *)
Lemma set_links_used m bs0 bl bs2 x q :
  Forall (λ b, chunks_ok (b_chunks b) ∧ 0 < b_addr b) (bs0 ++ [bl] ++ bs2) → all_apart (bs0 ++ [bl] ++ bs2) →
  ¬ in_heap (bs0 ++ [bl] ++ bs2) q ∨ in_used (bs0 ++ [bl] ++ bs2) q →
  set_prev_of (setf m (b_addr bl) f_next x) bs2 (b_addr bl) !! q = m !! q.
Proof.
  intros Hok Hap Hq.
  assert (∀ b f, b ∈ bs0 ++ [bl] ++ bs2 → 0 <= f <= 12 → ¬ b_addr b + f <= q < b_addr b + f + 4) as Hno.
  { intros b f Hin Hf Hqf. apply list_elem_of_split in Hin as (l1 & l2 & Hl). rewrite Hl in *.
    assert (in_big b q) as Hqb.
    { apply Forall_app in Hok as [_ Hok]. apply list.Forall_cons in Hok as [[Hc _] _].
      pose proof (span_nonneg _ Hc). unfold in_big, big_size. lia. }
    destruct Hq as [Hq|Hq].
    - apply Hq. apply Exists_app. right. by apply Exists_cons_hd.
    - apply (in_used_mid l1 b l2) in Hq; [|done..].
      apply Forall_app in Hok as [_ Hok]. apply list.Forall_cons in Hok as [[Hc _] _].
      apply payload_bounds in Hq; [|done]. unfold b_first in Hq. lia. }
  assert (setf m (b_addr bl) f_next x !! q = m !! q) as H1.
  { apply lookup_setf. apply Hno; [|unfold f_next; lia].
    rewrite !elem_of_app, elem_of_cons. tauto. }
  destruct bs2 as [|b2 bs3]; cbn [set_prev_of]; [done|]. rewrite lookup_setf; [done|].
  apply Hno; [|unfold f_prev; lia]. rewrite !elem_of_app, !elem_of_cons. tauto.
Qed.

Lemma Exists_drop (P : big → Prop) bs0 bl b bs2 :
  Exists P (bs0 ++ [bl] ++ bs2) → Exists P (bs0 ++ [bl] ++ b :: bs2).
Proof. rewrite !Exists_app, !Exists_cons. tauto. Qed.

(** free: the list of big blocks and chunks it leaves, and what it does not
    touch. *)
Lemma free_ok s bs0 bl b bs2 (cs1 : list chunk) sz (cs2 : list chunk) :
  let bs := bs0 ++ [bl] ++ b :: bs2 in
  bigs_seg (memory s) NULL bs NULL → all_apart bs → b_chunks b = cs1 ++ (false, sz) :: cs2 →
  let bs' := bs0 ++ [bl] ++ freed b cs1 sz cs2 ++ bs2 in
  ∃ s', free (b_first b + span cs1 + 16) s = Ok (tt, s') ∧
    bigs_seg (memory s') NULL bs' NULL ∧ all_apart bs' ∧
    (∀ q, in_heap bs q → ¬ in_heap bs' q → memory s' !! q = None) ∧
    ∀ q, ¬ in_heap bs q ∨ in_used bs' q → memory s' !! q = memory s !! q.
Proof.
  intros bs Hs Hap Hcs bs'. unfold bs, bs' in *. clear bs bs'.
  pose proof (bigs_seg_chunks _ _ _ _ Hs) as Hoks.
  pose proof Hs as Hs'. rewrite app_assoc in Hs'. apply bigs_seg_app in Hs' as [_ [Hb _]].
  destruct (join_prev cs1 sz) as [pre sz1] eqn:Hpre. destruct (join_next sz1 cs2) as [sz2 post] eqn:Hpost.
  destruct (free_joins s _ _ b cs1 sz cs2 pre sz1 sz2 post Hb Hcs Hpre Hpost) as (m1 & Hrun & Hb1 & Hu1 & Hsp).
  set (b' := Big (b_addr b) (pre ++ (true, sz2) :: post)) in *.
  assert (big_size b' = big_size b) as Hsize by (unfold big_size; by rewrite <-Hsp).
  assert (∀ q, in_big b' q ↔ in_big b q) as Hbig by (intros q; unfold in_big; by rewrite Hsize).
  assert (bigs_seg m1 NULL (bs0 ++ [bl] ++ b' :: bs2) NULL ∧ all_apart (bs0 ++ [bl] ++ b' :: bs2)) as [Hs1 Hap1].
  { rewrite !app_assoc in *. apply (bigs_seg_replace (memory s) m1 NULL _ b bs2 NULL b'); try done.
    eapply upd_weaken; [exact Hu1|]. by intros q [? _]. }
  set (s1 := with_memory s m1). assert (memory s1 = m1) as Hm1 by apply memory_with.
  assert (∀ q, ¬ in_heap (bs0 ++ [bl] ++ b :: bs2) q ∨ in_used (bs0 ++ [bl] ++ b' :: bs2) q →
    m1 !! q = memory s !! q) as Hkeep.
  { intros q Hq. apply Hu1. intros [Hqb Hqp]. destruct Hq as [Hq|Hq].
    - apply Hq. rewrite app_assoc. apply Exists_app. right. by apply Exists_cons_hd.
    - apply Hqp. rewrite <-(payload_joins _ _ _ _ _ _ _ _ q Hpre Hpost).
      change (b_first b) with (b_first b'). rewrite app_assoc in Hq.
      apply (in_used_mid (bs0 ++ [bl]) b' bs2 q) in Hq; [done| | |].
      + rewrite <-app_assoc. by eapply bigs_seg_chunks.
      + by rewrite <-app_assoc.
      + unfold in_big in *. by rewrite Hsize. }
  unfold freed. rewrite Hpre, Hpost. rewrite Hrun. fold s1.
  destruct (pre ++ post) as [|c0 cs0] eqn:Hpp.
  - apply app_nil in Hpp as [-> ->]. change (([] : list big) ++ bs2) with bs2. rewrite <-Hm1 in Hs1.
    destruct (free_tail_unmap s1 bs0 bl b' bs2 sz2 Hs1 Hap1 eq_refl) as (s' & Hrun' & Hs2 & Hgone & Hout).
    change (span []) with 0. rewrite Z.add_0_r. exists s'. split; [exact Hrun'|]. split; [exact Hs2|].
    assert (all_apart (bs0 ++ [bl] ++ bs2)) as Hap2.
    { rewrite app_assoc in *. by eapply all_apart_sub. }
    pose proof (bigs_seg_chunks _ _ _ _ Hs2) as Hoks2. split; [exact Hap2|]. split.
    { intros q Hq Hnq. apply Hgone, Hbig. unfold in_heap in *. rewrite !Exists_app, !Exists_cons in Hq.
      rewrite !Exists_app, !Exists_cons in Hnq. tauto. }
    intros q Hq. assert (¬ in_heap (bs0 ++ [bl] ++ bs2) q ∨ in_used (bs0 ++ [bl] ++ bs2) q) as Hq2.
    { destruct Hq as [Hq|Hq]; [left|by right]. intros H. by apply Hq, Exists_drop. }
    rewrite Hout; [|].
    + rewrite (set_links_used _ bs0 bl bs2 _ q Hoks2 Hap2 Hq2), Hm1. apply Hkeep.
      destruct Hq as [Hq|Hq]; [by left|right]. by apply Exists_drop.
    + intros Hqb. destruct Hq as [Hq|Hq].
      * apply Hq. rewrite app_assoc. apply Exists_app. right. apply Exists_cons_hd.
        unfold in_big in *. by rewrite Hsize in Hqb.
      * apply (in_used_heap _ _ Hoks2) in Hq. rewrite app_assoc in *.
        apply apart_others in Hap1. apply Exists_exists in Hq as (b0 & Hin & Hq0).
        rewrite Forall_forall in Hap1. specialize (Hap1 b0 Hin).
        unfold apart, disjoint_range, in_big in *. lia.
  - assert (¬ (pre = [] ∧ post = [])) as Hne by (intros [-> ->]; done).
    exists s1. rewrite Hm1. split; [|split; [exact Hs1|split; [exact Hap1|split; [|exact Hkeep]]]].
    2:{ intros q Hq Hnq. exfalso. apply Hnq. pose proof (proj2 (Hbig q)). unfold in_heap in *.
        rewrite !Exists_app, !Exists_cons in *. tauto. }
    rewrite app_assoc in Hs1. apply bigs_seg_app in Hs1 as [_ [Hb2 _]]. rewrite <-Hm1 in Hb2.
    apply (free_tail_keep s1 _ _ b' pre sz2 post Hb2 eq_refl Hne).
Qed.
End free.
