(* ===== verification/HeapLaws.v ===== *)
(** * Properties of the heap

    What malloc, calloc, realloc and free promise and where they break their
    promise, with a concrete system of pages for the instances. *)
From S2P Require Import Prelude Memory CString Errno Heap HeapSpec.

(** ** A system that maps pages above all that is mapped *)
Definition sys : Type := mem * errno_st.

Definition top_of (m : mem) : Z := map_fold (λ k _ acc, Z.max (k + 1) acc) 4096 m.

Lemma top_of_above m q : is_Some (m !! q) → q < top_of m.
Proof.
  unfold top_of. apply (map_fold_weak_ind (λ r m, is_Some (m !! q) → q < r)).
  - rewrite lookup_empty. by intros [].
  - intros k v m' r Hk IH. rewrite lookup_insert_is_Some'. intros [->|H]; [lia|].
    specialize (IH H). lia.
Qed.

Lemma top_of_pos m : 0 < top_of m.
Proof.
  unfold top_of. apply (map_fold_weak_ind (λ r _, 0 < r)); [lia|]. intros. lia.
Qed.

#[export] Instance sys_map : MemMap sys := {
  mapMemory size := λ '(m, e),
    let p := ALIGN_UP (top_of m) PAGESIZE in
    if (top_of m + 4096 <=? 2 ^ 32) && (p + size <=? 2 ^ 32)
    then Ok (p, (write_bytes m p (replicate (Z.to_nat size) 0xCD), e)) else Ok (NULL, (m, e));
  unmapMemory p size := λ '(m, e), Ok (tt, (filter (λ kv, ¬ p <= kv.1 < p + size) m, e));
}.

#[export] Instance sys_map_laws : MemMapLaws sys.
Proof.
  split.
  - intros [m e] size Hs. cbn [mapMemory sys_map]. cbv zeta. pose proof (top_of_pos m).
    destruct (top_of m + 4096 <=? 2 ^ 32) eqn:H1; zb; cbn [andb]; [|by eexists _, _; split; [done|left]].
    destruct (align_up 12 (top_of m) PAGESIZE) as [Ha _]; [done|lia|lia|unfold PAGESIZE; lia|].
    set (p := ALIGN_UP _ _) in *.
    destruct (p + size <=? 2 ^ 32) eqn:H2; zb; [|by eexists _, _; split; [done|left]].
    exists p. eexists. split; [done|]. right. split; [lia|]. split; [lia|]. split.
    2:{ exists (replicate (Z.to_nat size) 0xCD). split; [rewrite length_replicate; lia|]. split; [by apply Forall_replicate|done]. }
    intros q Hq. cbn. destruct (m !! q) eqn:E; [|done].
    pose proof (top_of_above m q ltac:(by rewrite E)). lia.
  - intros [m e] p size. eexists. split; [done|]. intros q. cbn.
    destruct (decide (p <= q < p + size)) as [H|H].
    + apply map_lookup_filter_None. right. intros x _. cbn. tauto.
    + destruct (m !! q) as [x|] eqn:E.
      * by apply map_lookup_filter_Some.
      * apply map_lookup_filter_None. by left.
Qed.

(** The memory of a program before its first malloc: the static block at 64. *)
Definition words (ws : list Z) : list Z := ws ≫= λ w, le32 w.
Definition start_mem : mem :=
  write_bytes ∅ 64 (words [MAGIC_BIG_MCB; 32; 0; 0; MAGIC_END_MCB; 0; 0; 0]).
Definition start : sys := (start_mem, Errno 0).

Lemma word_in_words m p ws i w :
  bytes_at m p (words ws) → Forall (λ w, 0 <= w < 2 ^ 32) ws → ws !! i = Some w →
  word_at m (p + 4 * Z.of_nat i) w.
Proof.
  revert p i. induction ws as [|x ws IH]; intros p i Hb Hr Hi; [done|].
  apply list.Forall_cons in Hr as [Hx Hr]. change (words (x :: ws)) with (le32 x ++ words ws) in Hb.
  apply bytes_at_app in Hb as [Hx' Hb]. destruct i as [|i]; cbn in Hi.
  - injection Hi as <-. rewrite Z.mul_0_r, Z.add_0_r.
    exists (u8 x), (u8 (x / 2 ^ 8)), (u8 (x / 2 ^ 16)), (u8 (x / 2 ^ 24)).
    split; [exact Hx'|]. split; [repeat constructor; apply u8_range | by apply le32_value].
  - replace (p + 4 * Z.of_nat (Datatypes.S i)) with (p + Z.of_nat (length (le32 x)) + 4 * Z.of_nat i) by (cbn [length le32]; lia).
    by apply IH.
Qed.

Lemma words_mcb m p ws i :
  bytes_at m p (words ws) → Forall (λ w, 0 <= w < 2 ^ 32) ws → (i + 3 < length ws)%nat →
  mcb m (p + 4 * Z.of_nat i) (default 0 (ws !! i)) (default 0 (ws !! (i + 1)%nat))
    (default 0 (ws !! (i + 2)%nat)) (default 0 (ws !! (i + 3)%nat)).
Proof.
  intros Hb Hr Hi.
  assert (∀ k, (k <= 3)%nat →
    word_at m (p + 4 * Z.of_nat i + 4 * Z.of_nat k) (default 0 (ws !! (i + k)%nat))) as Hk.
  { intros k Hk. replace (p + 4 * Z.of_nat i + 4 * Z.of_nat k) with (p + 4 * Z.of_nat (i + k)) by lia.
    apply (word_in_words m p ws _ _ Hb Hr). destruct (lookup_lt_is_Some_2 ws (i + k)) as [w ->]; [lia|done]. }
  split_and!; [rewrite <-(Nat.add_0_r i) at 2; apply (Hk 0%nat) | apply (Hk 1%nat) | apply (Hk 2%nat) | apply (Hk 3%nat)]; lia.
Qed.

Lemma start_heap : heap_rep start_mem 64 [].
Proof.
  assert (bytes_at start_mem 64 (words [MAGIC_BIG_MCB; 32; 0; 0; MAGIC_END_MCB; 0; 0; 0])) as Hb
    by apply bytes_at_write.
  assert (Forall (λ w, 0 <= w < 2 ^ 32) [MAGIC_BIG_MCB; 32; 0; 0; MAGIC_END_MCB; 0; 0; 0]) as Hr by by repeat constructor.
  split; [|by repeat constructor]. split; [|done].
  split; [|split; [done|split; [|split; [constructor|split; [|done]]]]].
  - apply (words_mcb _ _ _ 0 Hb Hr). cbn. lia.
  - apply (words_mcb _ _ _ 4 Hb Hr). cbn. lia.
  - eapply bytes_at_mapped; [exact Hb|done].
Qed.

(** ** malloc *)

(** What malloc makes of the size it is asked for. *)
Definition rounded (size : Z) : Z := ALIGN_UP (if size =? 0 then 1 else size) max_align.

Lemma rounded_ok size :
  0 <= size → size + 16 <= 2 ^ 32 →
  Z.max 1 size <= rounded size < Z.max 1 size + 16 ∧ rounded size mod 16 = 0.
Proof.
  intros H0 H1. unfold rounded. destruct (size =? 0) eqn:E; zb.
  - destruct (align_16 1); lia.
  - destruct (align_16 size); lia.
Qed.

Section laws.
Context {S : Type} `{L : !Lens S mem} `{E : !Lens S errno_st} `{M : !MemMap S} `{W : !MemMapLaws S}.
Implicit Types s : S.

Lemma malloc_unfold empty fuel size s :
  0 <= size → size + 8192 <= 2 ^ 32 →
  malloc empty fuel size s = loop fuel (malloc_step (rounded size) (rounded size + 16)) (empty, empty + 16) s.
Proof.
  intros H0 H1. destruct (rounded_ok size H0 ltac:(lia)) as [Hr _].
  unfold malloc. fold (rounded size). cbv zeta. unfold __lockHeap. rewrite bind_ret.
  unfold sizeof_MCB. rewrite u32_small by lia. by rewrite Z.add_comm.
Qed.

(** What malloc returns is fresh: used afterwards, not used before. *)
Lemma fit_fresh n bs p bs' m :
  bigs_seg m NULL bs NULL → all_apart bs → 0 < n → fit n bs = Some (p, bs') →
  ∀ q, p <= q < p + n → in_used bs' q ∧ ¬ in_used bs q.
Proof.
  intros Hs Hap Hn Hfit q Hq. pose proof (bigs_seg_chunks _ _ _ _ Hs) as Hoks.
  apply fit_Some in Hfit as (bs1 & b & bs2 & cs' & -> & _ & Hfc & ->).
  apply fit_chunks_Some in Hfc as (cs1 & sz & cs2 & Hcs & _ & Hsz & -> & ->).
  assert (chunks_ok (b_chunks b)) as Hok.
  { apply Forall_app in Hoks as [_ Hoks]. by apply list.Forall_cons in Hoks as [[Hok _] _]. }
  split.
  - apply in_used_bigs. right. apply Exists_cons_hd. cbn [b_first b_chunks b_addr].
    change (b_first (Big (b_addr b) _)) with (b_first b). apply payload_app. right.
    unfold split_chunk. destruct (_ <? _); cbn [payload fst snd negb]; left; (split; [done|lia]).
  - intros Hu. rewrite Hcs in Hok. pose proof Hok as [Hok1 Hok2]%chunks_ok_app.
    pose proof (span_nonneg _ Hok1). apply list.Forall_cons in Hok2 as [[Hsz0 _] Hok2].
    pose proof (span_nonneg _ Hok2). cbn [snd] in *.
    apply (in_used_mid _ _ _ _ Hoks Hap) in Hu.
    + rewrite Hcs in Hu. revert Hu. apply payload_free; [done|lia].
    + unfold in_big, big_size. rewrite Hcs, span_app, span_cons. cbn [snd]. unfold b_first in Hq. lia.
Qed.

(** malloc on a heap where the request fits somewhere. *)
Lemma malloc_fits s empty bs size p bs' fuel :
  heap_rep (memory s) empty bs → 0 <= size → size + 8192 <= 2 ^ 32 →
  fit (rounded size) bs = Some (p, bs') → (1 + steps bs <= fuel)%nat →
  ∃ m', malloc empty fuel size s = Ok (p, with_memory s m') ∧ heap_rep m' empty bs' ∧
    (∀ q, p <= q < p + size → in_used bs' q ∧ ¬ in_used bs q) ∧
    upd (λ q, in_heap (Big empty [] :: bs) q ∧ ¬ in_used bs q) (memory s) m'.
Proof.
  intros [Hs Hap] H0 H1 Hfit Hfuel. destruct (rounded_ok size H0 ltac:(lia)) as [Hr Hr16].
  assert (fit (rounded size) (Big empty [] :: bs) = Some (p, Big empty [] :: bs')) as Hfit'.
  { cbn [fit fit_chunks b_chunks]. by rewrite Hfit. }
  destruct (malloc_hit s (Big empty [] :: bs) (rounded size) p (Big empty [] :: bs') fuel Hs Hap)
    as (m' & Hrun & Hs' & Hap' & Hu); [lia|done|done|by rewrite steps_cons|].
  exists m'. rewrite malloc_unfold by done. split; [exact Hrun|]. split; [by split|]. split.
  - intros q Hq. destruct (fit_fresh (rounded size) _ p _ (memory s) Hs Hap ltac:(lia) Hfit' q ltac:(lia)) as [Hq1 Hq2].
    apply Exists_cons in Hq1 as [[]|Hq1]. split; [exact Hq1|]. intros H. apply Hq2. by apply Exists_cons_tl.
  - eapply upd_weaken; [exact Hu|]. cbv beta. intros q [Hq1 Hq2]. split; [done|].
    intros H. apply Hq2. by apply Exists_cons_tl.
Qed.
End laws.

(** C5. malloc is first fit: when a free chunk of the heap holds the rounded
    size, malloc returns the payload of the first one, splitting it when at
    least a control block would be left over.  The heap then is the reference
    allocator's; the block was in no used chunk before and is in one now; no
    byte of a used chunk or outside the heap changes. *)
Theorem malloc_first_fit {S : Type} `{L : !Lens S mem} `{E : !Lens S errno_st} `{M : !MemMap S}
    (s : S) (empty : Z) (bs : list big) (size p : Z) (bs' : list big) (fuel : nat) :
  heap_rep (memory s) empty bs → 0 <= size → size + 8192 <= 2 ^ 32 →
  fit (rounded size) bs = Some (p, bs') → (1 + steps bs <= fuel)%nat →
  ∃ s', malloc empty fuel size s = Ok (p, s') ∧ heap_rep (memory s') empty bs' ∧
    (∀ q, p <= q < p + size → in_used bs' q ∧ ¬ in_used bs q) ∧
    ∀ q, in_used bs q ∨ ¬ in_heap (Big empty [] :: bs) q → memory s' !! q = memory s !! q.
Proof.
  intros Hh H0 H1 Hfit Hfuel.
  destruct (malloc_fits s empty bs size p bs' fuel Hh H0 H1 Hfit Hfuel) as (m' & Hrun & Hh' & Hf & Hu).
  exists (with_memory s m'). rewrite memory_with. split; [done|]. split; [done|]. split; [done|].
  intros q Hq. apply Hu. tauto.
Qed.

(** C6. malloc grows the heap when nothing fits: it asks the system for pages for
    the rounded size and three control blocks.  If it gets them, whatever they
    contain, it links them behind the last big block and returns the front of
    them, changing nothing else.  Exactly if the system has none left it faults:
    it does not report ENOMEM but writes through the null pointer. *)
Theorem malloc_grows {S : Type} `{L : !Lens S mem} `{E : !Lens S errno_st} `{M : !MemMap S} `{W : !MemMapLaws S}
    (s : S) (empty : Z) (bs : list big) (size : Z) (fuel : nat) (p : Z) (s1 : S) :
  heap_rep (memory s) empty bs → 0 <= size → size + 8192 <= 2 ^ 32 →
  fit (rounded size) bs = None → (2 + steps bs <= fuel)%nat → memory s !! NULL = None →
  mapMemory (new_size (rounded size)) s = Ok (p, s1) →
  if p =? NULL then malloc empty fuel size s = Fault else
  ∃ s', malloc empty fuel size s = Ok (p + 32, s') ∧
    heap_rep (memory s') empty (bs ++ [fresh_used p (rounded size)]) ∧
    (∀ q, p <= q < p + new_size (rounded size) → memory s !! q = None ∧ is_Some (memory s' !! q)) ∧
    ∀ q, in_used bs q ∨ ¬ in_heap (Big empty [] :: bs) q → ¬ p <= q < p + new_size (rounded size) →
      memory s' !! q = memory s !! q.
Proof.
  intros [Hs Hap] H0 H1 Hfit Hfuel Hnull Hmapped. destruct (rounded_ok size H0 ltac:(lia)) as [Hr Hr16].
  destruct (new_size_ok (rounded size) ltac:(lia) ltac:(lia) Hr16) as [Hns _].
  assert (fit (rounded size) (Big empty [] :: bs) = None) as Hfit'.
  { cbn [fit fit_chunks b_chunks]. by rewrite Hfit. }
  destruct (exists_last (l := Big empty [] :: bs) ltac:(done)) as (bs0 & b & Heq).
  rewrite malloc_unfold by done.
  assert (addr_of (bs0 ++ [b]) NULL = empty) as Hadr by by rewrite <-Heq.
  destruct (map_pages s (new_size (rounded size)) ltac:(lia)) as (p' & s1' & Hmap & Hcase).
  rewrite Hmap in Hmapped. injection Hmapped as -> ->.
  destruct Hcase as [[-> Hm]|(Hp & Hp1 & Hnone & junk & Hjunk & _ & Hm)].
  - change (NULL =? NULL) with true. cbv iota. rewrite <-Hadr. apply (malloc_exhausted s bs0 b (rounded size) s1); rewrite <-?Heq; try done.
    + rewrite steps_cons. cbn [b_chunks length]. lia.
    + by rewrite Hm.
  - rewrite (proj2 (Z.eqb_neq p NULL)) by (unfold NULL; lia). destruct (malloc_miss s bs0 b (rounded size) p s1 junk fuel) as (m' & Hrun & Hs' & Hap' & Hk);
      rewrite <-?Heq; try done; try lia.
    { rewrite steps_cons. cbn [b_chunks length]. lia. }
    exists (with_memory s1 m'). rewrite memory_with. rewrite Hadr in Hrun. split; [exact Hrun|].
    rewrite <-Heq in Hs', Hap', Hk. split; [by split|]. split.
    + intros q Hq. split; [by apply Hnone|].
      eapply in_heap_mapped; [exact Hs'|]. apply Exists_app. right. apply Exists_cons_hd.
      unfold in_big, big_size, fresh_used. cbn [b_addr b_chunks]. rewrite span_split. change (span []) with 0. lia.
    + intros q Hq Hq2. apply Hk; [|done]. destruct Hq as [Hq|Hq]; [right; by apply Exists_cons_tl | by left].
Qed.

(** ** free *)

(** The heap [bs] with the chunk at payload address [p] freed. *)
Definition frees (bs : list big) (p : Z) (bs' : list big) : Prop :=
  ∃ bs1 b bs2 cs1 sz cs2,
    bs = bs1 ++ b :: bs2 ∧ b_chunks b = cs1 ++ (false, sz) :: cs2 ∧
    p = b_first b + span cs1 + 16 ∧ bs' = bs1 ++ freed b cs1 sz cs2 ++ bs2.

Section free_laws.
Context {S : Type} `{L : !Lens S mem} `{E : !Lens S errno_st} `{M : !MemMap S} `{W : !MemMapLaws S}.
Implicit Types s : S.

Lemma free_frees s empty bs p bs' :
  heap_rep (memory s) empty bs → frees bs p bs' →
  ∃ s', free p s = Ok (tt, s') ∧ heap_rep (memory s') empty bs' ∧
    (∀ q, in_heap bs q → ¬ in_heap bs' q → memory s' !! q = None) ∧
    ∀ q, ¬ in_heap (Big empty [] :: bs) q ∨ in_used bs' q → memory s' !! q = memory s !! q.
Proof.
  intros [Hs Hap] (bs1 & b & bs2 & cs1 & sz & cs2 & -> & Hcs & -> & ->).
  destruct (exists_last (l := Big empty [] :: bs1) ltac:(done)) as (bs0 & bl & Heq).
  assert (Big empty [] :: bs1 ++ b :: bs2 = bs0 ++ [bl] ++ b :: bs2) as Hbs by (rewrite app_assoc, <-Heq; done).
  rewrite Hbs in Hs, Hap. destruct (free_ok s bs0 bl b bs2 cs1 sz cs2 Hs Hap Hcs) as (s' & Hrun & Hs' & Hap' & Hgone & Hk).
  exists s'. split; [exact Hrun|].
  assert (bs0 ++ [bl] ++ freed b cs1 sz cs2 ++ bs2 = Big empty [] :: bs1 ++ freed b cs1 sz cs2 ++ bs2) as Heq'.
  { rewrite app_assoc, <-Heq. done. }
  rewrite Heq' in *. split; [by split|]. split.
  - intros q Hq Hnq. destruct (decide (empty <= q < empty + 32)) as [He|He].
    + exfalso. change (Big empty [] :: bs1 ++ b :: bs2) with ([] ++ Big empty [] :: bs1 ++ b :: bs2) in Hbs.
      rewrite <-Hbs in Hap. destruct Hap as [Hap _]. rewrite Forall_forall in Hap.
      apply Exists_exists in Hq as (b0 & Hin & Hq). specialize (Hap b0 Hin).
      unfold apart, disjoint_range, in_big, big_size in *. cbn in *. lia.
    + apply Hgone; rewrite <-?Hbs; [by apply Exists_cons_tl|]. intros [Hq'|Hq']%Exists_cons; [|done].
      unfold in_big, big_size in Hq'. cbn in Hq'. lia.
  - rewrite Hbs. intros q [Hq|Hq]; apply Hk; [by left|right]. by apply Exists_cons_tl.
Qed.

(** Freeing removes the payload of the chunk from the used bytes, no other. *)
Lemma freed_used b cs1 sz cs2 q :
  in_used (freed b cs1 sz cs2) q ↔ payload true (b_first b) (cs1 ++ (true, sz) :: cs2) q.
Proof.
  unfold freed. destruct (join_prev cs1 sz) as [pre sz1] eqn:Hpre.
  destruct (join_next sz1 cs2) as [sz2 post] eqn:Hpost.
  rewrite <-(payload_joins (b_first b) _ _ _ _ _ _ _ q Hpre Hpost).
  destruct (pre ++ post) as [|c l] eqn:Hpp.
  - apply app_nil in Hpp as [-> ->]. cbn [app payload fst snd negb]. split; [by intros H%Exists_nil|].
    intros [[? _]|[]]. done.
  - unfold in_used. rewrite Exists_cons, Exists_nil. cbn [b_chunks]. change (b_first (Big (b_addr b) _)) with (b_first b).
    tauto.
Qed.

(** A chunk malloc took can be freed, and what is used then is what was used
    before malloc. *)
Lemma fit_frees n bs p bs' :
  fit n bs = Some (p, bs') →
  ∃ bs'', frees bs' p bs'' ∧ ∀ q, in_used bs'' q ↔ in_used bs q.
Proof.
  intros Hfit. apply fit_Some in Hfit as (bs1 & b & bs2 & cs' & -> & _ & Hfc & ->).
  apply fit_chunks_Some in Hfc as (cs1 & sz & cs2 & Hcs & _ & Hsz & -> & ->).
  set (b' := Big (b_addr b) (cs1 ++ split_chunk n sz cs2)).
  assert (∃ sz' cs3, split_chunk n sz cs2 = (false, sz') :: cs3 ∧
    ∀ q, payload true (b_first b) (cs1 ++ (true, sz') :: cs3) q ↔ payload true (b_first b) (b_chunks b) q)
    as (sz' & cs3 & Hsplit & Hpay).
  { rewrite Hcs. unfold split_chunk. destruct (n + 16 <? sz).
    - exists n, ((true, sz - 16 - n) :: cs2). split; [done|]. intros q. rewrite payload_merge.
      by replace (n + 16 + (sz - 16 - n)) with sz by lia.
    - by exists sz, cs2. }
  exists (bs1 ++ freed b' cs1 sz' cs3 ++ bs2). split.
  - exists bs1, b', bs2, cs1, sz', cs3. split; [done|]. cbn [b_chunks b']. rewrite Hsplit. done.
  - intros q. unfold in_used. rewrite !Exists_app, Exists_cons. fold (in_used (freed b' cs1 sz' cs3) q).
    rewrite freed_used. change (b_first b') with (b_first b). rewrite Hpay. tauto.
Qed.
End free_laws.

(** C7. free on a used chunk marks it free, joins it with a free chunk before
    and behind it, and hands the big block back to the system when nothing else
    is in it: the heap is the list that is left, and the bytes that are no longer
    in it are not mapped any more.  No byte of another used chunk or outside the
    heap changes. *)
Theorem free_coalesces {S : Type} `{L : !Lens S mem} `{E : !Lens S errno_st} `{M : !MemMap S} `{W : !MemMapLaws S}
    (s : S) (empty : Z) (bs : list big) (p : Z) (bs' : list big) :
  heap_rep (memory s) empty bs → frees bs p bs' →
  ∃ s', free p s = Ok (tt, s') ∧ heap_rep (memory s') empty bs' ∧
    (∀ q, in_heap bs q → ¬ in_heap bs' q → memory s' !! q = None) ∧
    ∀ q, ¬ in_heap (Big empty [] :: bs) q ∨ in_used bs' q → memory s' !! q = memory s !! q.
Proof. apply free_frees. Qed.

(** free undoes malloc: freeing at once what malloc returned leaves a well
    formed heap in which the same bytes are used as before, with the same
    contents. *)
Theorem malloc_then_free {S : Type} `{L : !Lens S mem} `{E : !Lens S errno_st} `{M : !MemMap S} `{W : !MemMapLaws S}
    (s : S) (empty : Z) (bs : list big) (size p : Z) (bs' : list big) (fuel : nat) :
  heap_rep (memory s) empty bs → 0 <= size → size + 8192 <= 2 ^ 32 →
  fit (rounded size) bs = Some (p, bs') → (1 + steps bs <= fuel)%nat →
  ∃ s' s'' bs'', malloc empty fuel size s = Ok (p, s') ∧ free p s' = Ok (tt, s'') ∧
    heap_rep (memory s'') empty bs'' ∧
    (∀ q, in_used bs'' q ↔ in_used bs q) ∧
    ∀ q, in_used bs q → memory s'' !! q = memory s !! q.
Proof.
  intros Hh H0 H1 Hfit Hfuel.
  destruct (malloc_fits s empty bs size p bs' fuel Hh H0 H1 Hfit Hfuel) as (m' & Hrun & Hh' & _ & Hu).
  destruct (fit_frees _ _ _ _ Hfit) as (bs'' & Hfr & Hused). rewrite <-(memory_with s m') in Hh'.
  destruct (free_frees (with_memory s m') empty bs' p bs'' Hh' Hfr) as (s'' & Hrun' & Hh'' & _ & Hk).
  exists (with_memory s m'), s'', bs''. split; [done|]. split; [done|]. split; [done|]. split; [done|].
  intros q Hq. rewrite Hk by (right; by apply Hused). rewrite memory_with. apply Hu. tauto.
Qed.

(** *** Instances: the first malloc of a program, and its free *)
Lemma start_null : memory start !! NULL = None.
Proof. vm_compute. done. Qed.

Lemma malloc_grows_witness :
  ∃ s', malloc 64 10 100 start = Ok (4096 + 32, s') ∧ heap_rep (memory s') 64 [fresh_used 4096 112].
Proof.
  destruct (malloc_grows start 64 [] 100 10 4096 (match mapMemory 4096 start with Ok (_, s) => s | _ => start end))
    as (s' & H & Hh & _).
  - apply start_heap.
  - lia.
  - lia.
  - done.
  - cbn. lia.
  - apply start_null.
  - vm_compute. reflexivity.
  - exists s'. exact (conj H Hh).
Defined.

(** A heap of one big block at 256: used, free and used chunks of 16, 64 and 32
    bytes. *)
Definition demo_static : list Z := [MAGIC_BIG_MCB; 32; 0; 256; MAGIC_END_MCB; 0; 0; 0].
Definition demo_heap_of (ws : list Z) : sys :=
  (write_bytes (write_bytes ∅ 64 (words demo_static)) 256 (words ws), Errno 0).

Lemma demo_heap_of_rep ws cs :
  Forall (λ w, 0 <= w < 2 ^ 32) ws → big_rep (write_bytes (write_bytes ∅ 64 (words demo_static)) 256 (words ws)) 64 NULL (Big 256 cs) →
  heap_rep (memory (demo_heap_of ws)) 64 [Big 256 cs].
Proof.
  intros Hr Hb.
  assert (bytes_at (memory (demo_heap_of ws)) 64 (words demo_static)) as Hs.
  { apply bytes_at_write_other; [by right | apply bytes_at_write]. }
  assert (Forall (λ w, 0 <= w < 2 ^ 32) demo_static) as Hrs by by repeat constructor.
  split; [|split; [constructor; [by left | constructor] | by split; [constructor|]]].
  split; [|split; [exact Hb|done]].
  split; [|split; [done|split; [|split; [constructor|split; [|done]]]]].
  - apply (words_mcb _ _ _ 0 Hs Hrs). cbn. lia.
  - apply (words_mcb _ _ _ 4 Hs Hrs). cbn. lia.
  - eapply bytes_at_mapped; [exact Hs|done].
Qed.

Definition demo_big : list Z :=
  [MAGIC_BIG_MCB; 192; 64; 0; MAGIC_USED_MCB; 16; 0; 304] ++ replicate 4 7 ++
  [MAGIC_FREE_MCB; 64; 272; 384] ++ replicate 16 0 ++
  [MAGIC_USED_MCB; 32; 304; 432] ++ replicate 8 9 ++ [MAGIC_END_MCB; 0; 384; 0].
Definition demo_heap : sys := demo_heap_of demo_big.
Definition demo_bigs : list big := [Big 256 [(false, 16); (true, 64); (false, 32)]].

Lemma demo_heap_rep : heap_rep (memory demo_heap) 64 demo_bigs.
Proof.
  assert (Forall (λ w, 0 <= w < 2 ^ 32) demo_big) as Hr by by repeat constructor.
  assert (bytes_at (memory demo_heap) 256 (words demo_big)) as Hb by apply bytes_at_write.
  apply demo_heap_of_rep; [exact Hr|].
  split; [|split; [|split; [|split; [by repeat constructor|split; [|done]]]]].
  - apply (words_mcb _ _ _ 0 Hb Hr). cbn. lia.
  - split; [apply (words_mcb _ _ _ 4 Hb Hr); cbn; lia|].
    split; [apply (words_mcb _ _ _ 12 Hb Hr); cbn; lia|].
    split; [apply (words_mcb _ _ _ 32 Hb Hr); cbn; lia|done].
  - apply (words_mcb _ _ _ 44 Hb Hr). cbn. lia.
  - eapply bytes_at_mapped; [exact Hb|done].
Qed.

(** And one with a single chunk. *)
Definition demo_one (free : bool) : list Z :=
  [MAGIC_BIG_MCB; 112; 64; 0; if free then MAGIC_FREE_MCB else MAGIC_USED_MCB; 64; 0; 352] ++ replicate 16 0 ++
  [MAGIC_END_MCB; 0; 272; 0].

Lemma demo_one_rep free : heap_rep (memory (demo_heap_of (demo_one free))) 64 [Big 256 [(free, 64)]].
Proof.
  assert (Forall (λ w, 0 <= w < 2 ^ 32) (demo_one free)) as Hr by by destruct free; repeat constructor.
  assert (bytes_at (memory (demo_heap_of (demo_one free))) 256 (words (demo_one free))) as Hb by apply bytes_at_write.
  apply demo_heap_of_rep; [exact Hr|].
  split; [|split; [|split; [|split; [by repeat constructor|split; [|done]]]]].
  - apply (words_mcb _ _ _ 0 Hb Hr). cbn. lia.
  - split; [destruct free; apply (words_mcb _ _ _ 4 Hb Hr); cbn; lia|done].
  - apply (words_mcb _ _ _ 24 Hb Hr). cbn. lia.
  - eapply bytes_at_mapped; [exact Hb|by destruct free].
Qed.

Definition demo_bigs_used : list big := [Big 256 [(false, 16); (false, 32); (true, 16); (false, 32)]].

Lemma malloc_first_fit_witness : ∃ s',
  malloc 64 10 20 demo_heap = Ok (320, s') ∧ heap_rep (memory s') 64 demo_bigs_used.
Proof.
  destruct (malloc_first_fit demo_heap 64 demo_bigs 20 320 demo_bigs_used 10) as (s' & H & Hh & _).
  - apply demo_heap_rep.
  - lia.
  - lia.
  - vm_compute. done.
  - cbn. lia.
  - exists s'. exact (conj H Hh).
Defined.

Lemma free_coalesces_witness :
  (∃ s', free 288 demo_heap = Ok (tt, s') ∧ heap_rep (memory s') 64 [Big 256 [(true, 96); (false, 32)]]) ∧
  (∃ s', free 288 (demo_heap_of (demo_one false)) = Ok (tt, s') ∧ heap_rep (memory s') 64 [] ∧ memory s' !! 256 = None).
Proof.
  split.
  - destruct (free_coalesces demo_heap 64 demo_bigs 288 [Big 256 [(true, 96); (false, 32)]]) as (s' & H & Hh & _).
    + apply demo_heap_rep.
    + exists [], (Big 256 [(false, 16); (true, 64); (false, 32)]), [], [], 16, [(true, 64); (false, 32)].
      repeat (split; [done|]). done.
    + exists s'. exact (conj H Hh).
  - destruct (free_coalesces (demo_heap_of (demo_one false)) 64 [Big 256 [(false, 64)]] 288 []) as (s' & H & Hh & Hgone & _).
    + apply demo_one_rep.
    + exists [], (Big 256 [(false, 64)]), [], [], 64, []. repeat (split; [done|]). done.
    + exists s'. split; [exact H|]. split; [exact Hh|]. apply Hgone.
      * left. unfold in_big, big_size. cbn. lia.
      * intros Hn. by apply Exists_nil in Hn.
Defined.

Lemma malloc_then_free_witness : ∃ s' s'' bs'',
  malloc 64 10 20 demo_heap = Ok (320, s') ∧ free 320 s' = Ok (tt, s'') ∧ heap_rep (memory s'') 64 bs''.
Proof.
  destruct (malloc_then_free demo_heap 64 demo_bigs 20 320 demo_bigs_used 10) as (s' & s'' & bs'' & H & H' & Hh & _).
  - apply demo_heap_rep.
  - lia.
  - lia.
  - vm_compute. done.
  - cbn. lia.
  - exists s', s'', bs''. exact (conj H (conj H' Hh)).
Defined.

(** ** Where the code breaks its contract *)

(** A request in the last 15 bytes of size_t is rounded up to 0: malloc
    succeeds and returns a block of 0 bytes where the first chunk of the heap is
    free. *)
Theorem malloc_huge_succeeds {S : Type} `{L : !Lens S mem} `{E : !Lens S errno_st} `{M : !MemMap S}
    (s : S) (empty : Z) (b : big) (bs : list big) (sz : Z) (cs : list chunk) (size : Z) (fuel : nat) :
  heap_rep (memory s) empty (b :: bs) → b_chunks b = (true, sz) :: cs → 16 < sz →
  2 ^ 32 - 16 < size < 2 ^ 32 → (2 <= fuel)%nat →
  ∃ s', malloc empty fuel size s = Ok (b_first b + 16, s') ∧
    mcb (memory s') (b_first b) MAGIC_USED_MCB 0 NULL (b_first b + 16).
Proof.
  intros [[H0 [Hb Hs]] Hap] Hcs Hsz Hsize Hfuel. cbn [addr_of b_addr] in *.
  pose proof (span_nonneg _ (proj1 (big_rep_chunks _ _ _ _ Hb))) as Hsp.
  pose proof Hb as (_ & Hseg & Hend & Hok & Hmap & Hb0 & Hb1). unfold big_size, b_end in *.
  rewrite Hcs in *. rewrite span_cons in *. cbn [snd] in *.
  apply list.Forall_cons in Hok as [_ Hok]. pose proof (span_nonneg _ Hok).
  assert (chunk_tail (memory s) NULL (b_first b) ((true, sz) :: cs)) as Ht.
  { split; [done|]. rewrite span_cons. exact Hend. }
  apply chunk_tail_cons in Ht as [C Ht]. cbn [snd magic_of fst] in *.
  destruct (chunk_tail_head _ _ _ _ Hok Ht) as (mg & sz2 & nx2 & Hnx & _).
  unfold malloc. rewrite (proj2 (Z.eqb_neq size 0)) by lia. rewrite align_16_wraps by done.
  cbv zeta. unfold __lockHeap, firstBigBlock. rewrite bind_ret.
  destruct fuel as [|[|fuel]]; [lia..|].
  change (u32 (sizeof_MCB + 0)) with (0 + 16).
  replace (empty, empty + sizeof_MCB) with (b_addr (Big empty []), b_end (Big empty [])); cycle 1.
  { unfold b_end, b_first, sizeof_MCB. cbn [b_addr b_chunks]. change (span []) with 0. f_equal. lia. }
  rewrite (walk_end s 0 (Big empty []) NULL (b_addr b) _ H0) by (unfold NULL; lia).
  change (b_addr b + 16) with (b_first b).
  destruct (splitBlock_ok s (b_first b) MAGIC_FREE_MCB sz NULL mg sz2 nx2 0) as (m1 & Hrun & H1 & _);
    [exact C|exact Hnx| |lia|lia|unfold b_first; lia|unfold b_first; lia|].
  { eapply mapped_sub; [exact Hmap|unfold b_first; lia|unfold b_first; lia]. }
  rewrite Z.add_0_r in H1. pose proof (mcb_mapped _ _ _ _ _ _ H1) as M1.
  destruct C as (C1 & C2 & _). destruct H1 as (D1 & D2 & D3 & D4).
  exists (with_memory s (setf m1 (b_first b) f_magic MAGIC_USED_MCB)). split.
  - apply loop_done. unfold malloc_step.
    erewrite bind_ok; [|by apply get_field_ok]. rewrite Z.eqb_refl.
    erewrite bind_ok; [|by apply get_field_ok]. rewrite (proj2 (Z.leb_le 0 _)) by lia.
    rewrite (proj2 (Z.ltb_lt _ _)) by (cbn; lia). erewrite bind_ok; [|exact Hrun].
    unfields. heap_set. done.
  - rewrite memory_with. unfold mcb. unfields. split_and!; field_tac.
Qed.

Lemma malloc_huge_succeeds_witness : ∃ s',
  malloc 64 9 (2 ^ 32 - 1) (demo_heap_of (demo_one true)) = Ok (288, s') ∧
  mcb (memory s') 272 MAGIC_USED_MCB 0 NULL 288.
Proof.
  destruct (malloc_huge_succeeds (demo_heap_of (demo_one true)) 64 (Big 256 [(true, 64)]) [] 64 [] (2 ^ 32 - 1) 9)
    as (s' & H & Hm).
  - apply (demo_one_rep true).
  - done.
  - lia.
  - lia.
  - lia.
  - exists s'. exact (conj H Hm).
Defined.

(** A control block as its 16 bytes, wherever they are copied to. *)
Lemma word_bytes m p w :
  word_at m p w → ∃ bs, length bs = 4%nat ∧ Forall byte_ok bs ∧ bytes_at m p bs ∧
    ∀ m' p', bytes_at m' p' bs → word_at m' p' w.
Proof.
  intros (b0 & b1 & b2 & b3 & H & Hr & ->). exists [b0; b1; b2; b3]. split; [done|]. split; [exact Hr|].
  split; [exact H|]. intros m' p' H'. by exists b0, b1, b2, b3.
Qed.

Lemma mcb_bytes m a mg sz prev nx :
  mcb m a mg sz prev nx → ∃ bs, length bs = 16%nat ∧ Forall byte_ok bs ∧ bytes_at m a bs ∧
    ∀ m' a', bytes_at m' a' bs → mcb m' a' mg sz prev nx.
Proof.
  intros (H1 & H2 & H3 & H4). unfold field_at in *.
  apply word_bytes in H1 as (b1 & L1 & O1 & A1 & W1), H2 as (b2 & L2 & O2 & A2 & W2),
    H3 as (b3 & L3 & O3 & A3 & W3), H4 as (b4 & L4 & O4 & A4 & W4).
  unfold f_magic, f_size, f_prev, f_next in *. exists (b1 ++ b2 ++ b3 ++ b4).
  assert (∀ m' a', bytes_at m' a' (b1 ++ b2 ++ b3 ++ b4) ↔
    bytes_at m' (a' + 0) b1 ∧ bytes_at m' (a' + 4) b2 ∧ bytes_at m' (a' + 8) b3 ∧ bytes_at m' (a' + 12) b4) as Hsp.
  { intros m' a'. rewrite !bytes_at_app, L1, L2, L3. change (Z.of_nat 4) with 4.
    replace (a' + 4 + 4) with (a' + 8) by lia. replace (a' + 8 + 4) with (a' + 12) by lia. by rewrite Z.add_0_r. }
  split; [rewrite !length_app; lia|]. split; [by repeat apply Forall_app_2|]. split; [by apply Hsp|].
  intros m' a' (B1 & B2 & B3 & B4)%Hsp. split_and!; unfold field_at, f_magic, f_size, f_prev, f_next; auto.
Qed.

(** realloc growing a chunk into the free chunk behind it returns the same
    block with the new size, but leaves the [prev] of the block behind that
    chunk as it was: it points into the payload the caller now owns, so a later
    free of that block takes the caller's data for a control block. *)
Theorem realloc_leaves_stale_prev {S : Type} `{L : !Lens S mem} `{E : !Lens S errno_st} `{M : !MemMap S}
    (s : S) (empty : Z) (bs1 : list big) (b : big) (bs2 : list big) (cs1 : list chunk) (sz szn : Z)
    (cs2 : list chunk) (size : Z) (fuel : nat) :
  heap_rep (memory s) empty (bs1 ++ b :: bs2) → b_chunks b = cs1 ++ (false, sz) :: (true, szn) :: cs2 →
  0 <= size → size + 8192 <= 2 ^ 32 → sz < rounded size < sz + 2 ^ 31 - 16 → rounded size - sz + 16 < szn →
  let c := b_first b + span cs1 in
  let stale := c + 16 + sz in
  let behind := c + 16 + sz + 16 + szn in
  ∃ s', realloc empty fuel (c + 16) size s = Ok (c + 16, s') ∧
    field_at (memory s') c f_size (rounded size) ∧
    field_at (memory s') c f_next (stale + (rounded size - sz)) ∧
    field_at (memory s') behind f_prev stale ∧
    c + 16 <= stale < c + 16 + rounded size.
Proof.
  intros [Hs _] Hcs H0 H1 Hn Hszn c stale behind. destruct (rounded_ok size H0 ltac:(lia)) as [Hr Hr16].
  set (n := rounded size) in *. set (d := n - sz).
  assert (∃ prev nx, big_rep (memory s) prev nx b) as (prev & nx & Hb).
  { change (Big empty [] :: bs1 ++ b :: bs2) with ((Big empty [] :: bs1) ++ b :: bs2) in Hs.
    apply bigs_seg_app in Hs as [_ [Hb _]]. eauto. }
  pose proof Hb as (_ & Hseg & Hend & Hok & Hmap & Hb0 & Hb1). unfold big_size, b_end in *. rewrite Hcs in *.
  apply chunks_ok_app in Hok as [Hok1 Hok2]. pose proof (span_nonneg _ Hok1).
  apply list.Forall_cons in Hok2 as [[Hsz0 _] Hok2]. apply list.Forall_cons in Hok2 as [_ Hok2].
  pose proof (span_nonneg _ Hok2). rewrite span_app, !span_cons in *. cbn [snd] in *.
  assert (chunk_tail (memory s) NULL (b_first b) (cs1 ++ (false, sz) :: (true, szn) :: cs2)) as Ht.
  { split; [done|]. rewrite span_app, !span_cons. exact Hend. }
  apply chunk_tail_app in Ht as [_ Ht]. fold c in Ht. apply chunk_tail_cons in Ht as [C1 Ht].
  apply chunk_tail_cons in Ht as [C2 Ht]. cbn [snd magic_of fst] in *. fold stale behind in C1, C2, Ht.
  destruct (chunk_tail_head _ _ _ _ Hok2 Ht) as (mg & sz3 & nx3 & C3 & _).
  assert (0 < c ∧ behind + 16 <= 2 ^ 32 ∧ mapped (memory s) c (behind + 16 - c)) as (Hc & Hbound & Mc).
  { unfold behind, c, b_first in *. split; [lia|]. split; [lia|]. eapply mapped_sub; [exact Hmap|lia|lia]. }
  destruct (mcb_bytes _ _ _ _ _ _ C2) as (hd & Lh & Oh & Ah & Wh).
  assert (mapped (memory s) (stale + d) 16) as Md.
  { eapply mapped_sub; [exact Mc|unfold stale, d; lia|unfold stale, behind, d; lia]. }
  set (m1 := write_bytes (memory s) (stale + d) hd).
  assert (mcb m1 (stale + d) MAGIC_FREE_MCB szn c behind) as D2 by apply Wh, bytes_at_write.
  assert (∀ q, ¬ stale + d <= q < stale + d + 16 → m1 !! q = memory s !! q) as Hm1.
  { intros q Hq. apply lookup_write_bytes_out. rewrite Lh. lia. }
  assert (mcb m1 c MAGIC_USED_MCB sz (last_of NULL (b_first b) cs1) stale) as D1.
  { eapply mcb_ext; [|exact C1]. intros. apply Hm1. unfold stale, d. lia. }
  assert (field_at m1 behind f_prev stale) as D3.
  { eapply field_ext; [|apply C3]. intros q Hq. apply Hm1. unfold behind, stale, d, f_prev in *. lia. }
  pose proof (mapped_write (memory s) (stale + d) hd c 16 ltac:(eapply mapped_sub; [exact Mc|lia|unfold behind, stale; lia])) as M1.
  pose proof (mapped_write (memory s) (stale + d) hd _ 16 Md) as M2. fold m1 in M1, M2.
  unfold realloc. rewrite (proj2 (Z.eqb_neq _ _)) by (unfold NULL; lia).
  unfold __lockHeap. rewrite bind_ret. replace (c + 16 - sizeof_MCB) with c by (unfold sizeof_MCB; lia).
  cbv zeta. destruct C1 as (A1 & A2 & A3 & A4). destruct C2 as (B1 & B2 & _).
  destruct D1 as (E1 & E2 & E3 & E4). destruct D2 as (F1 & F2 & F3 & F4).
  erewrite bind_ok; [|by apply get_field_ok]. rewrite Z.eqb_refl. unfold assert_. rewrite bind_ret.
  erewrite bind_ok; [|by apply get_field_ok]. fold (rounded size). fold n.
  rewrite (s32_small (n - sz)) by lia. fold d. rewrite (proj2 (Z.eqb_neq d 0)) by (unfold d; lia).
  erewrite bind_ok; [|by apply get_field_ok]. erewrite bind_ok; [|by apply get_field_ok].
  rewrite Z.eqb_refl. erewrite bind_ok; [|by erewrite bind_ok; [|by apply get_field_ok]].
  rewrite (u32_small (d + sizeof_MCB)), (proj2 (Z.ltb_lt 0 d)), (proj2 (Z.ltb_lt (d + sizeof_MCB) szn))
    by (unfold d, sizeof_MCB; lia). cbn [andb orb].
  unfold changeChunkSize.
  assert (memmove (stale + d) stale 16 s = Ok (stale + d, with_memory s m1)) as Hmove.
  { change 16 with (Z.of_nat 16). rewrite <-Lh. apply memmove_ok; [done|done|]. by rewrite Lh. }
  assert (0 <= stale + d < 2 ^ 32 ∧ 0 <= n < 2 ^ 32 ∧ 0 <= szn - d < 2 ^ 32) as (R1 & R2 & R3).
  { pose proof (mcb_range _ _ _ _ _ _ C3). pose proof (word_at_range _ _ _ B2). unfold stale, d, behind in *. lia. }
  unfold stale, behind, d in *. unfields.
  eexists. split.
  - erewrite bind_ok; [|
      erewrite bind_ok; [|by apply get_field_ok]; rewrite (u32_small (c + 16 + sz + (n - sz))) by lia;
      erewrite bind_ok; [|exact Hmove];
      heap_set; heap_get; heap_set; heap_get; rewrite set_field_ok by mapped_tac; autorewrite with lens; reflexivity].
    reflexivity.
  - autorewrite with lens. split_and!; try field_tac; lia.
Qed.

(** The chunk at 288 grows from 16 to 32 bytes; the block at 384 still points to
    304, now inside it. *)
Lemma realloc_leaves_stale_prev_witness : ∃ s',
  realloc 64 9 288 32 demo_heap = Ok (288, s') ∧ field_at (memory s') 384 f_prev 304.
Proof.
  destruct (realloc_leaves_stale_prev demo_heap 64 [] (Big 256 [(false, 16); (true, 64); (false, 32)]) [] []
    16 64 [(false, 32)] 32 9) as (s' & H & _ & _ & Hp & _).
  - apply demo_heap_rep.
  - done.
  - lia.
  - lia.
  - vm_compute. done.
  - vm_compute. done.
  - exists s'. exact (conj H Hp).
Defined.
