(* ===== verification/HeapClient.v ===== *)
(** * The heap as its clients see it

    A client owns the bytes of used chunks and everything outside the heap.
    malloc keeps what the client owns and adds a fresh block to it; a client
    that writes only to what it owns leaves the heap well formed. *)
From S2P Require Import Prelude Memory CString Errno Heap HeapSpec HeapLaws.

Definition own (m : mem) (empty : Z) (bs : list big) (q : Z) : Prop :=
  is_Some (m !! q) ∧ (in_used bs q ∨ ¬ in_heap (Big empty [] :: bs) q).

Definition own_range (m : mem) (empty : Z) (bs : list big) (p n : Z) : Prop :=
  ∀ q, p <= q < p + n → own m empty bs q.

(** ** Writing to owned bytes *)
Lemma chunk_seg_headers m m' prev a cs :
  chunks_ok cs → (∀ q, a <= q < a + span cs → ¬ payload true a cs q → m' !! q = m !! q) →
  chunk_seg m prev a cs → chunk_seg m' prev a cs.
Proof.
  intros Hok. revert prev a. induction Hok as [|c cs [Hc _] Hok IH]; intros prev a Heq; cbn [chunk_seg]; [done|].
  pose proof (span_nonneg cs Hok). rewrite span_cons in Heq. intros [H1 H2]. split.
  - eapply mcb_ext; [|done]. intros q Hq. apply Heq; [lia|]. cbn [payload].
    intros [[_ Hp]|Hp]; [lia|]. apply payload_bounds in Hp; [lia|done].
  - apply IH; [|done]. intros q Hq Hp. apply Heq; [lia|]. cbn [payload]. intros [[_ Hp']|Hp']; [lia|done].
Qed.

Lemma big_rep_headers m m' prev next b :
  (∀ q, in_big b q → ¬ payload true (b_first b) (b_chunks b) q → m' !! q = m !! q) →
  (∀ q, is_Some (m !! q) → is_Some (m' !! q)) →
  big_rep m prev next b → big_rep m' prev next b.
Proof.
  unfold big_rep, in_big, big_size, b_end. intros Heq Hmap (H1 & H2 & H3 & H4 & H5 & H6).
  pose proof (span_nonneg _ H4).
  assert (∀ q, ¬ b_first b + 16 <= q < b_first b + span (b_chunks b) →
    ¬ payload true (b_first b) (b_chunks b) q) as Hout.
  { intros q Hq Hp. apply payload_bounds in Hp; [lia|done]. }
  unfold b_first in *. split; [|split; [|split; [|split; [done|split; [|done]]]]].
  - eapply mcb_ext; [|done]. intros. apply Heq; [lia|]. apply Hout. lia.
  - eapply chunk_seg_headers; [done| |done]. intros q Hq Hp. apply Heq; [lia|done].
  - eapply mcb_ext; [|done]. intros. apply Heq; [lia|]. apply Hout. lia.
  - intros q Hq. apply Hmap. by apply H5.
Qed.

Lemma bigs_seg_headers m m' prev bs nx :
  Forall (λ b, ∀ q, in_big b q → ¬ payload true (b_first b) (b_chunks b) q → m' !! q = m !! q) bs →
  (∀ q, is_Some (m !! q) → is_Some (m' !! q)) →
  bigs_seg m prev bs nx → bigs_seg m' prev bs nx.
Proof.
  intros Hall Hmap. revert prev. induction Hall as [|b bs Hb Hall IH]; intros prev; cbn; [done|].
  intros [H1 H2]. split; [by eapply big_rep_headers | by apply IH].
Qed.

Lemma heap_rep_own m m' empty bs :
  heap_rep m empty bs → (∀ q, ¬ own m empty bs q → m' !! q = m !! q) →
  (∀ q, is_Some (m !! q) → is_Some (m' !! q)) → heap_rep m' empty bs.
Proof.
  intros [Hs Hap] Heq Hmap. split; [|done]. eapply bigs_seg_headers; [|done|exact Hs].
  pose proof (bigs_seg_chunks _ _ _ _ Hs) as Hok. apply Forall_forall. intros b Hin q Hq Hp.
  apply Heq. intros [_ [Hu|Hu]].
  - apply Hp. apply list_elem_of_split in Hin as (l1 & l2 & Hl). rewrite Hl in Hok, Hap.
    eapply in_used_mid; [exact Hok|exact Hap|exact Hq|]. rewrite <-Hl. by apply Exists_cons_tl.
  - apply Hu. apply Exists_exists. by exists b.
Qed.

Lemma heap_rep_write m empty bs p ws :
  heap_rep m empty bs → own_range m empty bs p (Z.of_nat (length ws)) →
  heap_rep (write_bytes m p ws) empty bs.
Proof.
  intros Hh Hown. eapply heap_rep_own; [exact Hh| |].
  - intros q Hq. rewrite lookup_write_bytes. case_decide as Hr; [|done]. by destruct Hq, (Hown q Hr).
  - intros q Hq. rewrite lookup_write_bytes. case_decide; [|done]. apply lookup_lt_is_Some. lia.
Qed.

Lemma own_write m empty bs p ws q :
  own m empty bs q → own (write_bytes m p ws) empty bs q.
Proof.
  intros [Hm Hu]. split; [|done]. rewrite lookup_write_bytes. case_decide; [|done].
  apply lookup_lt_is_Some. lia.
Qed.

(** ** What malloc returns *)
Lemma fit_used_heap n bs p bs' q :
  fit n bs = Some (p, bs') → Forall (λ b, chunks_ok (b_chunks b) ∧ 0 < b_addr b) bs → 0 < n → n mod 16 = 0 →
  in_used bs' q → in_heap bs q.
Proof.
  intros Hfit Hok Hn Hn16. apply fit_Some in Hfit as (bs1 & b & bs2 & cs' & -> & _ & Hfc & ->).
  apply fit_chunks_Some in Hfc as (cs1 & sz & cs2 & Hcs & _ & Hsz & _ & ->).
  apply Forall_app in Hok as [Hok1 Hok2]. apply list.Forall_cons in Hok2 as [[Hb Hb0] Hok2].
  unfold in_used, in_heap. rewrite !Exists_app, !Exists_cons.
  intros [H|[H|H]].
  - left. by apply (in_used_heap bs1).
  - right; left. cbn [b_chunks] in H. rewrite Hcs in Hb. apply Forall_app in Hb as [Hb1 Hb2].
    apply list.Forall_cons in Hb2 as [[Hsz0 Hsz16] Hb2]. cbn [snd] in *.
    assert (chunks_ok (cs1 ++ split_chunk n sz cs2)) as Hok.
    { apply chunks_ok_app. split; [done|]. apply (chunks_ok_split n sz cs2); [lia|done|done|]. by constructor. }
    apply payload_bounds in H; [|done]. rewrite span_app, span_split in H.
    unfold in_big, big_size, b_first in *. cbn [b_addr] in H. rewrite Hcs, span_app, span_cons. cbn [snd]. lia.
  - right; right. by apply (in_used_heap bs2).
Qed.

Lemma fit_keeps_used n bs p bs' q :
  fit n bs = Some (p, bs') → in_used bs q → in_used bs' q.
Proof.
  intros Hfit. apply fit_Some in Hfit as (bs1 & b & bs2 & cs' & -> & _ & Hfc & ->).
  apply fit_chunks_Some in Hfc as (cs1 & sz & cs2 & Hcs & _ & Hsz & _ & ->).
  unfold in_used. rewrite !Exists_app, !Exists_cons. intros [H|[H|H]]; [tauto| |tauto].
  right; left. rewrite Hcs in H. cbn [b_chunks]. change (b_first (Big (b_addr b) _)) with (b_first b).
  apply payload_app in H as [H|H]; apply payload_app; [by left|right].
  cbn [payload fst snd negb] in H. destruct H as [[? _]|H]; [done|].
  unfold split_chunk. case_match; cbn [payload fst snd negb]; right; [right|].
  - by replace (b_first b + span cs1 + 16 + n + 16 + (sz - 16 - n)) with (b_first b + span cs1 + 16 + sz) by lia.
  - done.
Qed.

Lemma fit_pos n bs p bs' : fit n bs = Some (p, bs') → Forall (λ b, chunks_ok (b_chunks b) ∧ 0 < b_addr b) bs → 0 < p.
Proof.
  intros Hfit Hok. apply fit_Some in Hfit as (bs1 & b & bs2 & cs' & -> & _ & Hfc & _).
  apply fit_chunks_Some in Hfc as (cs1 & sz & cs2 & Hcs & _ & _ & -> & _).
  apply Forall_app in Hok as [_ Hok]. apply list.Forall_cons in Hok as [[Hb Hb0] _].
  rewrite Hcs in Hb. apply Forall_app in Hb as [Hb _]. pose proof (span_nonneg _ Hb). unfold b_first. lia.
Qed.

Section client.
Context {S : Type} `{L : !Lens S mem} `{E : !Lens S errno_st} `{M : !MemMap S}.
Implicit Types s : S.

Lemma malloc_client s empty bs (size p : Z) bs' fuel :
  heap_rep (memory s) empty bs → 0 <= size → size + 8192 <= 2 ^ 32 →
  fit (rounded size) bs = Some (p, bs') → (1 + steps bs <= fuel)%nat →
  ∃ m', malloc empty fuel size s = Ok (p, with_memory s m') ∧ heap_rep m' empty bs' ∧
    0 < p < 2 ^ 32 ∧ mapped m' p size ∧
    (∀ q, p <= q < p + size → own m' empty bs' q ∧ ¬ own (memory s) empty bs q) ∧
    ∀ q, own (memory s) empty bs q → own m' empty bs' q ∧ m' !! q = memory s !! q.
Proof.
  intros Hh H0 H1 Hfit Hfuel. pose proof Hh as [Hs Hap].
  destruct (malloc_fits s empty bs size p bs' fuel) as (m' & Hrun & Hh' & Hf & Hu); [done..|].
  pose proof (bigs_seg_chunks _ _ _ _ Hs) as Hok. apply list.Forall_cons in Hok as [_ Hok].
  destruct (rounded_ok size H0 ltac:(lia)) as [Hr Hr16].
  assert (∀ q, in_used bs' q → in_heap (Big empty [] :: bs) q) as Huh.
  { intros q Hq. apply Exists_cons_tl. eapply fit_used_heap; [exact Hfit|exact Hok|lia|done|exact Hq]. }
  assert (∀ q, in_heap (Big empty [] :: bs') q → is_Some (m' !! q)) as Hmap'.
  { intros q Hq. destruct Hh' as [Hs' _]. by eapply in_heap_mapped. }
  pose proof Hh' as [Hs' _]. pose proof (bigs_seg_chunks _ _ _ _ Hs') as Hok'. apply list.Forall_cons in Hok' as [_ Hok'].
  assert (∀ q, p <= q < p + size → is_Some (m' !! q)) as Hblk.
  { intros q Hq. apply Hmap', Exists_cons_tl. apply in_used_heap; [done|]. by apply Hf. }
  exists m'. split; [done|]. split; [done|]. split; [|split; [done|split]].
  - split; [by eapply fit_pos|]. destruct (fit_Some _ _ _ _ Hfit) as (bs1 & b & bs2 & cs' & -> & _ & Hfc & ->).
    apply fit_chunks_Some in Hfc as (cs1 & sz & cs2 & Hcs & _ & Hsz & -> & _).
    change (Big empty [] :: bs1 ++ b :: bs2) with ((Big empty [] :: bs1) ++ b :: bs2) in Hs.
    apply bigs_seg_app in Hs as [_ [(_ & _ & _ & Hc & _ & _ & Hlim) _]].
    unfold big_size in Hlim. rewrite Hcs in Hlim, Hc. rewrite span_app, span_cons in Hlim. cbn [snd] in Hlim.
    apply Forall_app in Hc as [Hc1 Hc2]. apply list.Forall_cons in Hc2 as [_ Hc2].
    pose proof (span_nonneg _ Hc2). unfold b_first. lia.
  - intros q Hq. destruct (Hf q Hq) as [Hin Hnot]. split; [split; [auto|by left]|].
    intros [_ [Hin'|Hin']]; [done|]. by apply Hin', Huh.
  - intros q [Hm Ho]. assert (m' !! q = memory s !! q) as Heq.
    { apply Hu. tauto. }
    split; [|done]. split; [by rewrite Heq|]. destruct Ho as [Ho|Ho].
    + left. by eapply fit_keeps_used.
    + right. intros Hq. apply Ho. apply Exists_cons in Hq as [Hq|Hq]; [by apply Exists_cons_hd|].
      apply Exists_cons_tl. destruct (fit_Some _ _ _ _ Hfit) as (bs1 & b & bs2 & cs' & -> & _ & Hfc & ->).
      apply fit_chunks_Some in Hfc as (cs1 & sz & cs2 & Hcs & _ & Hsz & _ & ->).
      unfold in_heap in *. rewrite Exists_app, Exists_cons in Hq |- *.
      unfold in_big, big_size in *. cbn [b_addr b_chunks] in Hq. rewrite span_app, span_split in Hq.
      rewrite Hcs, span_app, span_cons. cbn [snd]. intuition lia.
Qed.
End client.

(** Owned strings survive what keeps owned bytes. *)
Lemma bytes_at_own m m' empty bs p (ws : list Z) :
  (∀ q, own m empty bs q → m' !! q = m !! q) → own_range m empty bs p (Z.of_nat (length ws)) →
  bytes_at m p ws → bytes_at m' p ws.
Proof.
  intros Heq Hown H i b Hi. pose proof (lookup_lt_Some _ _ _ Hi).
  rewrite Heq by (apply Hown; lia). by apply H.
Qed.

Lemma cstr_own m m' empty bs p txt :
  (∀ q, own m empty bs q → m' !! q = m !! q) → own_range m empty bs p (Z.of_nat (length txt) + 1) →
  cstr m p txt → cstr m' p txt.
Proof.
  intros Heq Hown [H1 H2]. split; [done|]. eapply bytes_at_own; [done| |done].
  rewrite length_app. cbn [length]. intros q Hq. apply Hown. lia.
Qed.

Lemma word_at_own m m' empty bs p w :
  (∀ q, own m empty bs q → m' !! q = m !! q) → own_range m empty bs p 4 →
  word_at m p w → word_at m' p w.
Proof.
  intros Heq Hown (b0 & b1 & b2 & b3 & H & ?). exists b0, b1, b2, b3. split; [|done].
  by eapply bytes_at_own.
Qed.
