(* ===== verification/LibcText.v ===== *)
(** * Properties of the text routines of libc

    What the string, path, number and formatting functions promise their
    callers, each with a concrete instance. *)
From S2P Require Import Prelude Memory CString Libgen Errno Strtol Printf PrintfSpec.

(** The state of the instances: memory, errno and strtok's pointer. *)
Definition libc_mem : Type := mem * errno_st.
Definition demo_state (p : Z) (bs : list Z) : libc_mem := (write_bytes ∅ p bs, Errno 0).

(** A zero-filled range. *)
Definition zeros (n : nat) : list Z := replicate n 0.

(** ** Printing a number and reading it back *)
Definition show_u (n : Z) : list item := [Dir [] NoWidth NoPrec M_none (AInt (ch "u") [n])].
Definition show_d (n : Z) : list item := [Dir [] NoWidth NoPrec M_none (AInt (ch "d") [u32 n])].

Lemma numeral_chars_decimal n :
  0 <= n < 2 ^ 64 → numeral_chars digits_lower 10 n = decimal n.
Proof.
  intros Hn. unfold numeral_chars, decimal. apply list_fmap_ext. intros i d Hd.
  assert (0 <= d < 10) as Hr.
  { eapply (Forall_lookup_1 (λ d, 0 <= d < 10)); [|exact Hd]. apply to_digits_range. lia. }
  assert (d = 0 ∨ d = 1 ∨ d = 2 ∨ d = 3 ∨ d = 4 ∨ d = 5 ∨ d = 6 ∨ d = 7 ∨ d = 8 ∨ d = 9) as Hc by lia.
  by repeat (destruct Hc as [->|Hc]; [done|]); subst.
Qed.

(** The text of a plain conversion: the sign, then the decimal numeral. *)
Lemma plain_text spec v :
  base_of spec = 10 → digits_of spec = digits_lower → 0 <= magnitude spec v < 2 ^ 64 →
  is_hex_spec spec = false →
  int_text spec v 0 1 0 = (if is_negative spec v then str "-" else []) ++ decimal0 (magnitude spec v).
Proof.
  intros Hb Hd Hm Hx. unfold int_text. change (has 0 _) with false. cbv iota.
  assert (∀ k, Z.to_nat (0 - Z.of_nat k) = 0%nat) as Hz by lia. rewrite Hz. cbn [replicate app].
  unfold int_core. assert (prefix_text spec v 0 = []) as -> by done.
  unfold zeros_text, min_digits. change (has 0 _) with false. cbn [andb app].
  assert (sign_text spec v 0 = if is_negative spec v then str "-" else []) as ->.
  { unfold sign_text. change (has 0 _) with false. destruct (is_negative _ _); [done|].
    by destruct (is_signed_spec _). }
  f_equal. unfold int_digits. rewrite Hb, Hd, numeral_chars_decimal by done. unfold decimal0.
  destruct (magnitude spec v =? 0) eqn:E; zb; [by rewrite E|].
  destruct (decimal (magnitude spec v)) as [|c l] eqn:Ed.
  - exfalso. unfold decimal in Ed. apply fmap_nil_inv in Ed. rewrite numeral_of_step in Ed by lia.
    by destruct (numeral_of 10 _).
  - cbn [length]. by replace (Z.to_nat (1 - Z.of_nat (Datatypes.S (length l)))) with 0%nat by lia.
Qed.

Lemma show_u_text n : 0 <= n < 2 ^ 32 → format_text (show_u n) = decimal0 n.
Proof.
  intros Hn. assert (arg_value (ch "u") M_none [n] = n) as Hv by (apply u64_small; cbn; lia).
  unfold show_u, format_text. cbn [mbind list_bind app item_text arg_text field_width field_flags
    precision_of flag_set fold_left]. rewrite app_nil_r, (proj2 (Z.ltb_lt (-1) 0)), Hv by lia.
  rewrite plain_text; [done..| |done]. change (magnitude (ch "u") n) with n. lia.
Qed.

Lemma show_d_text n :
  - 2 ^ 31 <= n < 2 ^ 31 →
  format_text (show_d n) = (if n <? 0 then str "-" else []) ++ decimal0 (Z.abs n).
Proof.
  intros Hn. assert (s32 (u32 n) = n) as Hs.
  { unfold s32, u32. Z.to_euclidean_division_equations. lia. }
  assert (s64 (u64 n) = n) as Hs64.
  { unfold s64, u64. Z.to_euclidean_division_equations. lia. }
  assert (arg_value (ch "d") M_none [u32 n] = u64 n) as Hv.
  { unfold arg_value. change (is_signed_spec (ch "d")) with true. cbn [raw narrow]. by rewrite Hs. }
  assert (is_negative (ch "d") (u64 n) = (n <? 0)) as Hneg.
  { unfold is_negative. change (is_signed_spec (ch "d")) with true. by rewrite Hs64. }
  assert (magnitude (ch "d") (u64 n) = Z.abs n) as Hmag.
  { unfold magnitude. rewrite Hneg, Hs64. zcase (n <? 0); rewrite u64_small; lia. }
  unfold show_d, format_text. cbn [mbind list_bind app item_text arg_text field_width field_flags
    precision_of flag_set fold_left]. rewrite app_nil_r, (proj2 (Z.ltb_lt (-1) 0)), Hv by lia.
  rewrite plain_text; [by rewrite Hneg, Hmag | done | done | rewrite Hmag; lia | done].
Qed.

(** *** strtol's parser on a decimal numeral *)
Lemma decimal0_chars n : 0 <= n <= INT_MAX * 4 → Forall (λ c, 48 <= c <= 57) (decimal0 n).
Proof.
  intros Hn. unfold decimal0. destruct (n =? 0); [by repeat constructor|].
  unfold decimal. apply Forall_fmap. eapply list.Forall_impl; [apply (to_digits_range 64 10 n); lia|].
  cbn. lia.
Qed.

Lemma digits_decimal l :
  Forall (λ c, 48 <= c <= 57) l → digits 10 l = (λ c, c - 48) <$> l.
Proof.
  induction 1 as [|c l Hc H IH]; [done|]. cbn [digits fmap list_fmap].
  assert (digit_value c = c - 48) as ->.
  { unfold digit_value, getDigitValue. by rewrite !(proj2 (Z.leb_le _ _)) by lia. }
  rewrite (proj2 (Z.ltb_lt _ _)) by lia. by f_equal.
Qed.

Lemma decimal0_numeral n :
  0 <= n < 2 ^ 64 → numeral 10 ((λ c, c - 48) <$> decimal0 n) = n.
Proof.
  intros Hn. unfold decimal0. destruct (n =? 0) eqn:E; zb; [by subst|].
  unfold decimal. rewrite <-list_fmap_compose. rewrite (list_fmap_ext _ id).
  - rewrite list_fmap_id. apply (to_digits_value 64 10 n); lia.
  - intros i d _. cbn. lia.
Qed.

Lemma decimal0_nonempty n : 0 <= n < 2 ^ 64 → decimal0 n ≠ [].
Proof.
  intros Hn. unfold decimal0. destruct (n =? 0) eqn:E; zb; [done|].
  unfold decimal. intros H%fmap_nil_inv. rewrite numeral_of_step in H by lia.
  by destruct (numeral_of 10 _).
Qed.

Lemma decimal0_length n : 0 <= n < 2 ^ 32 → (length (decimal0 n) <= 10)%nat.
Proof.
  intros Hn. unfold decimal0. destruct (n =? 0); [cbn; lia|]. unfold decimal. rewrite length_fmap.
  assert (Z.of_nat (length (numeral_of 10 n)) <= 10); [|lia].
  apply to_digits_length_pow; lia.
Qed.

(** A decimal numeral, with or without a minus sign, is parsed whole. *)
Lemma parse_decimal_text (neg : bool) n :
  0 <= n < 2 ^ 32 →
  let txt := (if neg then str "-" else []) ++ decimal0 n in
  let P := parse_number 10 txt in
  p_minus P = neg ∧ p_base P = 10 ∧ numeral 10 (p_digits P) = n ∧ p_digits P ≠ [] ∧
  p_end P = length txt.
Proof.
  intros Hn txt P. pose proof (decimal0_chars n ltac:(unfold INT_MAX; lia)) as Hc.
  pose proof (decimal0_nonempty n ltac:(lia)) as Hne.
  assert (skip_sign (skip_space txt) = (decimal0 n, neg)) as Hs.
  { unfold txt. destruct neg; [done|]. cbn [app].
    destruct (decimal0 n) as [|c l]; [done|]. apply list.Forall_cons in Hc as [Hc _].
    cbn [skip_space]. unfold isspace. repeat rewrite (proj2 (Z.eqb_neq c _)) by lia. cbn [orb skip_sign].
    unfold PLUS, MINUS. by repeat rewrite (proj2 (Z.eqb_neq c _)) by lia. }
  unfold P, parse_number. rewrite Hs. cbn [detect_base]. change (detect_base 10 _) with 10.
  change (skip_0x 10 (decimal0 n)) with (decimal0 n). rewrite digits_decimal by done.
  cbn [p_minus p_base p_digits p_end]. split; [done|]. split; [done|].
  split; [by apply decimal0_numeral; lia|]. split; [by intros ?%fmap_nil_inv|].
  unfold txt. rewrite length_app, length_fmap.
  destruct (decimal0 n) as [|c l]; [done|]. cbn [fmap list_fmap]. lia.
Qed.

Section roundtrip.
Context {S : Type} `{L : !Lens S mem} `{E : !Lens S errno_st} `{I : !Indep L E}.
Implicit Types s : S.

(** What both round trips need of the memory: 12 bytes for the text, away from
    printInteger's locals. *)
Definition print_room (s : S) (buffer dest : Z) : Prop :=
  disjoint_range dest 12 (buffer - 1) 25 ∧ mapped (memory s) dest 12 ∧ mapped (memory s) (buffer - 1) 25.

Lemma sprintf_text s buffer dest fuel items txt :
  print_room s buffer dest → Forall char_ok txt → (length txt <= 11)%nat →
  format_text items = txt →
  Forall (item_ok (buffer := buffer) (kept := sprintf_kept dest 12) fuel s) items →
  ∃ s', sprintf buffer fuel dest (format_of items) (format_args items) s =
          Ok (Z.of_nat (length txt), s') ∧ cstr (memory s') dest txt.
Proof.
  intros (Hd & Hm & Hl) Hc Hlen Htxt Hok.
  destruct (sprintf_ok buffer dest 12 s fuel items Hd Hm Hl Hok) as (s' & Hrun & Hb & _).
  { rewrite Htxt. unfold INT_MAX. lia. }
  exists s'. rewrite Htxt in *. by split.
Qed.
End roundtrip.

Lemma decimal0_char_ok n : 0 <= n < 2 ^ 32 → Forall char_ok (decimal0 n).
Proof.
  intros Hn. eapply list.Forall_impl; [apply (decimal0_chars n); unfold INT_MAX; lia|].
  unfold char_ok. intros. lia.
Qed.

(** ** The properties *)

(** C1. vcbprintf, on any format made of literal characters and of the
    conversions d i o u x X c s p %, with all flags, widths, precisions
    (given or '*') and length modifiers: it hands exactly the text of the
    format to its callback, in order, returns its length, takes the arguments
    in order and leaves the memory of its arguments alone. *)
Theorem vcbprintf_prints {S : Type} `{L : !Lens S mem} `{E : !Lens S errno_st}
    (callback : list Z → ST S Z) (buffer : Z) (inv : S → list Z → Prop) (room : list Z → Prop)
    (kept : Z → Prop) (K : Sink callback buffer inv room kept)
    (s : S) (o : list Z) (fuel : nat) (items : list item) :
  inv s o → mapped (memory s) (buffer - 1) 25 →
  Forall (item_ok (buffer := buffer) (kept := kept) fuel s) items →
  Z.of_nat (length (format_text items)) <= INT_MAX → room (o ++ format_text items) →
  ∃ s', vcbprintf callback buffer fuel (format_of items) (format_args items) s =
          Ok (Z.of_nat (length (format_text items)), s') ∧
        inv s' (o ++ format_text items) ∧
        ∀ q, kept q → ¬ buffer - 1 <= q < buffer + 24 → memory s' !! q = memory s !! q.
Proof.
  intros Hi Hl Hok Hmax Hr. destruct (vcbprintf_ok s o fuel items Hi Hl Hok Hmax Hr) as (s' & Hrun & Hi' & _ & Hu). by exists s'.
Qed.

(** A format with every kind of conversion: "%-5d|%+.3i|%#o|%#08x|%s %c%p%%". *)
Definition demo_items : list item := [
  Dir (str "-") (Width 5) NoPrec M_none (AInt (ch "d") [u32 (-42)]);
  Lit (ch "|");
  Dir (str "+") NoWidth (Prec 3) M_none (AInt (ch "i") [7]);
  Lit (ch "|");
  Dir (str "#") NoWidth NoPrec M_l (AInt (ch "o") [8]);
  Lit (ch "|");
  Dir (str "#0") (Width 8) NoPrec M_ll (AInt (ch "x") [255; 1]);
  Lit (ch "|");
  Dir [] (StarWidth (u32 (-4))) (StarPrec 2) M_none (AStr 600 (str "abc"));
  Dir [] NoWidth NoPrec M_none (AChar 65);
  Dir [] NoWidth NoPrec M_none (APtr 4096);
  Dir [] NoWidth NoPrec M_none APercent].

Definition demo_memory : mem :=
  write_bytes (write_bytes (write_bytes ∅ 199 (zeros 25)) 600 (str "abc" ++ [0])) 1000 (zeros 64).
Definition demo : libc_mem := (demo_memory, Errno 0).

Lemma mapped_zeros m p n : mapped (write_bytes m p (zeros n)) p (Z.of_nat n).
Proof.
  eapply bytes_at_mapped; [apply bytes_at_write|]. unfold zeros. rewrite length_replicate. lia.
Qed.

Lemma demo_items_ok kept :
  (∀ q, 600 <= q <= 603 → kept q) →
  Forall (item_ok (buffer := 200) (kept := kept) 10 demo) demo_items.
Proof.
  intros Hk. unfold demo_items. repeat apply Forall_cons_2; try apply Forall_nil_2;
    cbn [item_ok arg_ok width_ok prec_ok]; split_and?; try done; try (repeat constructor; done).
  1: split; [by repeat constructor | apply bytes_at_write_other; [by right | apply bytes_at_write]].
  intros q Hq. split; [apply Hk; cbn in Hq; lia | cbn in Hq; lia].
Qed.

(** C2. sprintf writes the text of the format and a terminator at its
    destination, nothing else but its own locals, and returns the length of
    the text; every store is inside the destination of [n] bytes. *)
Theorem sprintf_writes {S : Type} `{L : !Lens S mem} `{E : !Lens S errno_st}
    (buffer dest n : Z) (s : S) (fuel : nat) (items : list item) :
  disjoint_range dest n (buffer - 1) 25 → mapped (memory s) dest n → mapped (memory s) (buffer - 1) 25 →
  Forall (item_ok (buffer := buffer) (kept := sprintf_kept dest n) fuel s) items →
  Z.of_nat (length (format_text items)) < n <= INT_MAX →
  ∃ s', sprintf buffer fuel dest (format_of items) (format_args items) s =
          Ok (Z.of_nat (length (format_text items)), s') ∧
        bytes_at (memory s') dest (format_text items ++ [0]) ∧
        ∀ q, sprintf_kept dest n q → ¬ buffer - 1 <= q < buffer + 24 → memory s' !! q = memory s !! q.
Proof. intros. by apply sprintf_ok. Qed.

Lemma demo_text :
  format_text demo_items = str "-42  |+007|010|0x1000000ff|ab  A0x1000%".
Proof. vm_compute. done. Qed.

Lemma sprintf_writes_witness : ∃ s',
  sprintf 200 10 1000 (str "%-5d|%+.3i|%#lo|%#08llx|%*.*s%c%p%%")
    [u32 (-42); 7; 8; 255; 1; u32 (-4); 2; 600; 65; 4096] demo = Ok (39, s') ∧
  bytes_at (memory s') 1000 (str "-42  |+007|010|0x1000000ff|ab  A0x1000%" ++ [0]).
Proof.
  destruct (sprintf_writes 200 1000 64 demo 10 demo_items) as (s' & Hrun & Hb & _).
  - right. lia.
  - apply (mapped_zeros _ 1000 64).
  - apply mapped_write, mapped_write, (mapped_zeros _ 199 25).
  - apply demo_items_ok. unfold sprintf_kept. lia.
  - rewrite demo_text. vm_compute. done.
  - rewrite demo_text in Hrun, Hb. exists s'. split; [exact Hrun | exact Hb].
Defined.

(** The sink of the instance of [vcbprintf_prints]: a log of what was printed. *)
Definition log_callback (bs : list Z) : ST (libc_mem * list Z) Z :=
  λ s, Ok (Z.of_nat (length bs), (s.1, s.2 ++ bs)).

#[export] Instance log_mem : Lens (libc_mem * list Z) mem := Lens_left _ _ _ _.
#[export] Instance log_errno : Lens (libc_mem * list Z) errno_st := Lens_left _ _ _ _.

Lemma log_sink : Sink log_callback 200 (λ s o, s.2 = o) (λ _, True) (λ _, True).
Proof.
  split; try done.
  intros s o bs <- _. by exists (s.1, s.2 ++ bs).
Qed.

Lemma vcbprintf_prints_witness : ∃ s',
  vcbprintf log_callback 200 10 (str "%-5d|%+.3i|%#lo|%#08llx|%*.*s%c%p%%")
    [u32 (-42); 7; 8; 255; 1; u32 (-4); 2; 600; 65; 4096] (demo, []) = Ok (39, s') ∧
  s'.2 = str "-42  |+007|010|0x1000000ff|ab  A0x1000%".
Proof.
  destruct (vcbprintf_prints log_callback 200 _ _ _ log_sink (demo, []) [] 10 demo_items)
    as (s' & Hrun & Hi & _).
  - done.
  - apply mapped_write, mapped_write, (mapped_zeros _ 199 25).
  - eapply list.Forall_impl; [apply (demo_items_ok (λ _, True)); done|].
    intros [c|fl w p m [| | | |]] H; exact H.
  - rewrite demo_text. vm_compute. done.
  - done.
  - rewrite demo_text in Hrun, Hi. exists s'. split; [exact Hrun | exact Hi].
Defined.

(** Printing an unsigned int with "%u" and reading the text back with
    strtoul in base 10 gives the number again, and leaves errno alone. *)
Theorem print_read_unsigned {S : Type} `{L : !Lens S mem} `{E : !Lens S errno_st} `{I : !Indep L E}
    (s : S) (buffer dest n : Z) (fuel : nat) :
  print_room s buffer dest → 0 <= n < 2 ^ 32 → (11 < fuel)%nat →
  ∃ len s', sprintf buffer fuel dest (str "%u") [n] s = Ok (len, s') ∧
            strtoul fuel dest NULL 10 s' = Ok (n, s').
Proof.
  intros Hr Hn Hf. pose proof (decimal0_length n Hn).
  destruct (sprintf_text s buffer dest fuel (show_u n) (decimal0 n) Hr) as (s' & Hrun & Hc);
    [by apply decimal0_char_ok | lia | by apply show_u_text | by repeat constructor; try apply Hn |].
  exists (Z.of_nat (length (decimal0 n))), s'. split; [exact Hrun|].
  destruct (parse_decimal_text false n Hn) as (Hm & Hb & Hv & _). cbn [app] in *.
  rewrite (strtoul_ok s' fuel dest NULL 10 (decimal0 n)) by (done || lia).
  cbv zeta. rewrite Hm, Hb, Hv. by rewrite (proj2 (Z.leb_le _ _)) by (unfold ULONG_MAX; lia).
Qed.

Lemma demo_print_room : print_room demo 200 1000.
Proof.
  split; [right; lia|]. split.
  - eapply mapped_sub; [apply (mapped_zeros _ 1000 64) | lia | lia].
  - apply mapped_write, mapped_write, (mapped_zeros _ 199 25).
Qed.

Lemma print_read_unsigned_witness : ∃ len s',
  sprintf 200 20 1000 (str "%u") [4294967295] demo = Ok (len, s') ∧
  strtoul 20 1000 NULL 10 s' = Ok (4294967295, s').
Proof.
  destruct (print_read_unsigned demo 200 1000 4294967295 20) as (len & s' & H & H');
    [apply demo_print_room | done | lia |].
  exists len, s'. by split.
Defined.

(** C3. The signed round trip holds for the nonnegative numbers only: what
    "%d" prints for a negative int strtol rejects as out of range, with
    LONG_MIN and ERANGE. *)
Theorem print_read_signed {S : Type} `{L : !Lens S mem} `{E : !Lens S errno_st} `{I : !Indep L E}
    (s : S) (buffer dest n : Z) (fuel : nat) :
  print_room s buffer dest → - 2 ^ 31 <= n < 2 ^ 31 → (11 < fuel)%nat →
  ∃ len s', sprintf buffer fuel dest (str "%d") [u32 n] s = Ok (len, s') ∧
    strtol fuel dest NULL 10 s' =
      if n <? 0 then Ok (LONG_MIN, set (Errno ERANGE) s') else Ok (n, s').
Proof.
  intros Hr Hn Hf. pose proof (decimal0_length (Z.abs n) ltac:(lia)).
  destruct (sprintf_text s buffer dest fuel (show_d n)
    ((if n <? 0 then str "-" else []) ++ decimal0 (Z.abs n)) Hr) as (s' & Hrun & Hc).
  - apply Forall_app_2; [destruct (n <? 0); by repeat constructor | apply decimal0_char_ok; lia].
  - rewrite length_app. destruct (n <? 0); cbn [length str]; lia.
  - by apply show_d_text.
  - repeat constructor; apply u32_range.
  - exists (Z.of_nat (length ((if n <? 0 then str "-" else []) ++ decimal0 (Z.abs n)))), s'.
    split; [exact Hrun|].
    destruct (parse_decimal_text (n <? 0) (Z.abs n) ltac:(lia)) as (Hm & Hb & Hv & Hd & _).
    set (txt := (if n <? 0 then str "-" else []) ++ decimal0 (Z.abs n)) in *.
    assert (length txt < fuel)%nat.
    { unfold txt. rewrite length_app. destruct (n <? 0); cbn [length str]; lia. }
    destruct (n <? 0) eqn:Hneg; zb.
    + by erewrite strtol_minus by (done || lia).
    + erewrite strtol_nonneg by (done || lia). rewrite Hb, Hv, (Z.abs_eq n) by lia.
      by rewrite (proj2 (Z.leb_le _ _)) by (unfold LONG_MAX; lia).
Qed.

Lemma print_read_signed_witness : ∃ len s',
  sprintf 200 20 1000 (str "%d") [u32 (-5)] demo = Ok (len, s') ∧
  strtol 20 1000 NULL 10 s' = Ok (LONG_MIN, set (Errno ERANGE) s').
Proof.
  destruct (print_read_signed demo 200 1000 (-5) 20) as (len & s' & H & H');
    [apply demo_print_room | done | lia |].
  exists len, s'. by split.
Defined.

(** convert_integer on 0 writes outside its buffer: it returns 0 digits
    and stores a '0' in the byte below [destination]; where that byte is not
    mapped the program faults. *)
Theorem convert_integer_zero_underruns {S : Type} `{L : !Lens S mem} (s : S) (dest base : Z) (digits : list Z) :
  2 <= base →
  convert_integer dest 0 base digits s =
    match memory s !! (dest - 1) with
    | Some _ => Ok (0, with_memory s (<[dest - 1 := u8 (default 0 (digits !! 0%nat))]> (memory s)))
    | None => Fault
    end.
Proof.
  intros Hb. rewrite convert_integer_zero by done. unfold mbind, ST_bind, store.
  by destruct (memory s !! (dest - 1)).
Qed.

Lemma convert_integer_zero_underruns_witness :
  convert_integer 10 0 10 digits_lower (write_bytes ∅ 9 [1; 2; 3]) =
    Ok (0, write_bytes ∅ 9 [48; 2; 3]) ∧
  convert_integer 10 0 10 digits_lower (write_bytes ∅ 10 [2; 3]) = Fault.
Proof.
  split.
  - rewrite (convert_integer_zero_underruns (write_bytes ∅ 9 [1; 2; 3]) 10 10 digits_lower ltac:(lia)).
    vm_compute. done.
  - rewrite (convert_integer_zero_underruns (write_bytes ∅ 10 [2; 3]) 10 10 digits_lower ltac:(lia)).
    vm_compute. done.
Defined.

(** C4. strtoul skips white space, a sign, picks the base (0: from the prefix),
    and returns the value of the longest run of digits, negated modulo 2^32
    after a minus; a value above ULONG_MAX gives ULONG_MAX and ERANGE.  The end
    pointer is stored where asked: behind the digits, or at the start when
    there are none. *)
Theorem strtoul_converts {S : Type} `{L : !Lens S mem} `{E : !Lens S errno_st} `{I : !Indep L E}
    (s : S) (fuel : nat) (string endp base : Z) (txt : list Z) :
  cstr (memory s) string txt → (length txt < fuel)%nat → base = 0 ∨ 2 <= base <= 36 →
  (Z_bool endp = true → mapped (memory s) endp 4) →
  let P := parse_number base txt in
  let v := numeral (p_base P) (p_digits P) in
  strtoul fuel string endp base s =
  Ok (if v <=? ULONG_MAX then (if p_minus P then u32 (- v) else v) else ULONG_MAX,
      store_end endp (string + Z.of_nat (p_end P))
        (if v <=? ULONG_MAX then s else set (Errno ERANGE) s)).
Proof. intros. by apply strtoul_ok. Qed.

Lemma strtoul_converts_witness :
  strtoul 20 100 NULL 0 (demo_state 100 (str " -0x1Fg" ++ [0])) =
  Ok (2 ^ 32 - 31, demo_state 100 (str " -0x1Fg" ++ [0])).
Proof.
  rewrite (strtoul_converts (demo_state 100 (str " -0x1Fg" ++ [0])) 20 100 NULL 0 (str " -0x1Fg")).
  - vm_compute. done.
  - apply cstr_write. by repeat constructor.
  - cbn. lia.
  - by left.
  - done.
Defined.

(** strtol in the presence of a minus sign and at least one digit: whatever
    the digits, the result is LONG_MIN and errno ERANGE. *)
Theorem strtol_negative_out_of_range {S : Type} `{L : !Lens S mem} `{E : !Lens S errno_st} `{I : !Indep L E}
    (s : S) (fuel : nat) (string endp base : Z) (txt : list Z) :
  cstr (memory s) string txt → (length txt < fuel)%nat → base = 0 ∨ 2 <= base <= 36 →
  (Z_bool endp = true → mapped (memory s) endp 4) →
  p_minus (parse_number base txt) = true → p_digits (parse_number base txt) ≠ [] →
  strtol fuel string endp base s =
  Ok (LONG_MIN, store_end endp (string + Z.of_nat (p_end (parse_number base txt))) (set (Errno ERANGE) s)).
Proof. intros. by apply strtol_minus. Qed.

Lemma strtol_negative_out_of_range_witness :
  strtol 20 100 NULL 10 (demo_state 100 (str "-1" ++ [0])) =
  Ok (LONG_MIN, set (Errno ERANGE) (demo_state 100 (str "-1" ++ [0]))).
Proof.
  apply (strtol_negative_out_of_range (demo_state 100 (str "-1" ++ [0])) 20 100 NULL 10 (str "-1")).
  - apply cstr_write. by repeat constructor.
  - cbn. lia.
  - right. lia.
  - done.
  - done.
  - done.
Defined.

(** memmove leaves at the destination the bytes the source held before the
    call, however the two ranges overlap, and changes nothing else. *)
Theorem memmove_overlap {S : Type} `{L : !Lens S mem} (s : S) (dest src : Z) (bs : list Z) :
  bytes_at (memory s) src bs → Forall byte_ok bs → mapped (memory s) dest (Z.of_nat (length bs)) →
  ∃ s', memmove dest src (Z.of_nat (length bs)) s = Ok (dest, s') ∧
    bytes_at (memory s') dest bs ∧
    ∀ q, ¬ dest <= q < dest + Z.of_nat (length bs) → memory s' !! q = memory s !! q.
Proof.
  intros Hs Hb Hd. eexists. split; [by apply memmove_ok|]. autorewrite with lens. split.
  - apply bytes_at_write.
  - intros q Hq. apply lookup_write_bytes_out. lia.
Qed.

Lemma memmove_overlap_witness : ∃ s',
  memmove 12 10 4 (write_bytes ∅ 10 [1; 2; 3; 4; 5; 6]) = Ok (12, s') ∧ bytes_at s' 12 [1; 2; 3; 4].
Proof.
  destruct (memmove_overlap (write_bytes ∅ 10 [1; 2; 3; 4; 5; 6]) 12 10 [1; 2; 3; 4]) as (s' & H & Hb & _).
  - apply (proj1 (bytes_at_app _ 10 [1; 2; 3; 4] [5; 6]) (bytes_at_write ∅ 10 _)).
  - by repeat constructor.
  - eapply (mapped_sub _ 10 6); [|done..]. by eapply bytes_at_mapped; [apply bytes_at_write|].
  - by exists s'.
Defined.

(** strcmp orders C strings: its result is 0 exactly for equal strings, and
    swapping the arguments negates it. *)
Theorem strcmp_orders {S : Type} `{L : !Lens S mem} (s : S) (fuel : nat) (pa pb : Z) (a b : list Z) :
  cstr (memory s) pa a → cstr (memory s) pb b → (length a < fuel)%nat → (length b < fuel)%nat →
  ∃ r, strcmp fuel pa pb s = Ok (r, s) ∧ strcmp fuel pb pa s = Ok (- r, s) ∧
       (r = 0 ↔ a = b) ∧ -1 <= r <= 1.
Proof.
  intros Ha Hb Hfa Hfb. exists (lex_cmp a b). rewrite <-lex_cmp_anti.
  split; [by apply strcmp_ok|]. split; [by apply strcmp_ok|]. split; [apply lex_cmp_eq|].
  clear. revert b. induction a as [|x a IH]; intros [|y b]; cbn; try lia.
  destruct (x <? y), (y <? x); lia || apply IH.
Qed.

Lemma strcmp_orders_witness : ∃ r,
  let s := write_bytes (write_bytes ∅ 10 (str "ab" ++ [0])) 20 (str "abc" ++ [0]) in
  strcmp 9 10 20 s = Ok (r, s) ∧ (r = 0 ↔ str "ab" = str "abc").
Proof.
  destruct (strcmp_orders (write_bytes (write_bytes ∅ 10 (str "ab" ++ [0])) 20 (str "abc" ++ [0]))
    9 10 20 (str "ab") (str "abc")) as (r & H & _ & Hr & _).
  - split; [by repeat constructor|]. apply bytes_at_write_other; [by right | apply bytes_at_write].
  - apply cstr_write. by repeat constructor.
  - cbn. lia.
  - cbn. lia.
  - exists r. by split.
Defined.

Lemma all_eq_false cs x : all_eq cs x = false → ∃ c, c ∈ cs ∧ c ≠ x.
Proof.
  unfold all_eq. induction cs as [|c cs IH]; cbn; [done|].
  destruct (x =? c) eqn:E; zb; cbn.
  - intros (d & ? & ?)%IH. exists d. split; [by constructor | done].
  - intros _. exists c. split; [constructor | done].
Qed.

(** strspn with a nonempty set counts the leading characters that equal
    every character of the set: with two different separators it is always 0,
    so it is the C function for sets of one character only. *)
Theorem strspn_needs_all {S : Type} `{L : !Lens S mem} (s : S) (fuel : nat) (p q : Z) (txt cs : list Z) :
  cstr (memory s) p txt → cstr (memory s) q cs → cs ≠ [] →
  (length txt < fuel)%nat → (length cs < fuel)%nat →
  ∃ n, strspn fuel p q s = Ok (Z.of_nat n, s) ∧ (n <= length txt)%nat ∧
    (∀ i x c, (i < n)%nat → txt !! i = Some x → c ∈ cs → c = x) ∧
    (∀ x, txt !! n = Some x → ∃ c, c ∈ cs ∧ c ≠ x) ∧
    (∀ c d, c ∈ cs → d ∈ cs → c ≠ d → n = 0%nat).
Proof.
  intros H Hq Hne Hf Hcf. exists (span_len (all_eq cs) txt).
  assert (∀ i x c, (i < span_len (all_eq cs) txt)%nat → txt !! i = Some x → c ∈ cs → c = x) as Hall.
  { intros i x c Hi Hx Hc. pose proof (span_len_before _ _ _ _ Hi Hx) as Ha.
    unfold all_eq in Ha. rewrite forallb_forall in Ha. apply list_elem_of_In in Hc.
    specialize (Ha c Hc). zb. done. }
  split; [by apply strspn_ok|]. split; [apply span_len_le|]. split; [exact Hall|]. split.
  - intros x Hx. apply all_eq_false. exact (span_len_at _ _ _ Hx).
  - intros c d Hc Hd Hcd. destruct txt as [|x txt]; [done|].
    destruct (span_len (all_eq cs) (x :: txt)) eqn:En; [done|]. exfalso. apply Hcd.
    rewrite (Hall 0%nat x c), (Hall 0%nat x d); done || lia.
Qed.

Lemma strspn_needs_all_witness : ∃ n,
  let s := write_bytes (write_bytes ∅ 10 (str " a" ++ [0])) 20 ([32; 9] ++ [0]) in
  strspn 9 10 20 s = Ok (Z.of_nat n, s) ∧ n = 0%nat.
Proof.
  destruct (strspn_needs_all (write_bytes (write_bytes ∅ 10 (str " a" ++ [0])) 20 ([32; 9] ++ [0]))
    9 10 20 (str " a") [32; 9]) as (n & H & _ & _ & _ & Hn).
  - split; [by repeat constructor|]. apply bytes_at_write_other; [by right | apply bytes_at_write].
  - apply cstr_write. by repeat constructor.
  - done.
  - cbn. lia.
  - cbn. lia.
  - exists n. split; [exact H|]. apply (Hn 32 9); [constructor | constructor; constructor | done].
Defined.

(** *** Paths *)
Definition all_slashes (l : list Z) : Prop := Forall (λ c, c = SLASH) l.
Definition no_slashes (l : list Z) : Prop := Forall (λ c, c ≠ SLASH) l.

Lemma take_while_Forall (P : Z → bool) l : Forall (λ c, P c = true) (take_while P l).
Proof. induction l as [|x l IH]; cbn; [constructor|]. destruct (P x) eqn:E; by constructor. Qed.

Lemma reverse_split l P : l = reverse (drop_while P (reverse l)) ++ reverse (take_while P (reverse l)).
Proof. by rewrite <-reverse_app, take_drop_while, reverse_involutive. Qed.

Lemma slashes_reverse l : all_slashes (reverse (take_while is_slash l)).
Proof.
  apply Forall_reverse. eapply list.Forall_impl; [apply (take_while_Forall is_slash)|].
  intros x. cbn. unfold is_slash. intros. by zb.
Qed.

Lemma no_slashes_reverse l : no_slashes (reverse (take_while no_slash l)).
Proof.
  apply Forall_reverse. eapply list.Forall_impl; [apply (take_while_Forall no_slash)|].
  intros x. cbn. unfold no_slash. rewrite negb_true_iff. intros. by zb.
Qed.

(** What the reference base name is: the path is a prefix that is empty or ends
    in a slash, the name, and trailing slashes. *)
Lemma base_name_split path :
  (all_slashes path ∧ base_name path = [SLASH]) ∨
  ∃ pre suf, path = pre ++ base_name path ++ suf ∧ base_name path ≠ [] ∧
    no_slashes (base_name path) ∧ all_slashes suf ∧
    (pre = [] ∨ ∃ pre', pre = pre' ++ [SLASH]).
Proof.
  unfold base_name. pose proof (reverse_split path is_slash) as Hp.
  pose proof (slashes_reverse (reverse path)) as Hs.
  destruct (drop_while is_slash (reverse path)) as [|x r] eqn:Ed.
  - left. split; [|done]. by rewrite Hp.
  - right. set (suf := reverse (take_while is_slash (reverse path))) in *.
    exists (reverse (drop_while no_slash (x :: r))), suf.
    pose proof (take_drop_while no_slash (x :: r)) as Ht.
    split; [|split; [|split; [|split]]].
    + rewrite Hp at 1. rewrite <-Ht at 1. by rewrite reverse_app, <-app_assoc.
    + cbn [take_while]. apply drop_while_head in Ed. unfold is_slash, no_slash in *. rewrite Ed. cbn [negb].
      rewrite reverse_cons. by intros [_ ?]%app_nil.
    + apply no_slashes_reverse.
    + done.
    + destruct (drop_while no_slash (x :: r)) as [|y t] eqn:Ed'; [by left|]. right.
      apply drop_while_head in Ed'. unfold no_slash in Ed'. apply negb_false_iff in Ed'. zb. subst y.
      exists (reverse t). by rewrite reverse_cons.
Qed.

(** basename returns a pointer into its argument (to a constant "." for an
    empty one) at which the last component stands as a C string: the path is
    that component with a prefix that is empty or ends in a slash and with
    trailing slashes; a path of slashes only gives "/".  No byte outside the
    path changes. *)
Theorem basename_last_component {S : Type} `{L : !Lens S mem} (dot : Z) (s : S) (fuel : nat)
    (p : Z) (path : list Z) :
  Z_bool p = true → cstr (memory s) p path → (length path < fuel)%nat →
  ∃ r s', basename dot fuel p s = Ok (r, s') ∧
    (path = [] → r = dot ∧ memory s' = memory s) ∧
    (path ≠ [] → cstr (memory s') r (base_name path) ∧ p <= r < p + Z.of_nat (length path) ∧
      ((all_slashes path ∧ base_name path = [SLASH]) ∨
       ∃ pre suf, path = pre ++ base_name path ++ suf ∧ base_name path ≠ [] ∧
         no_slashes (base_name path) ∧ all_slashes suf ∧ (pre = [] ∨ ∃ pre', pre = pre' ++ [SLASH]))) ∧
    ∀ q, q < p ∨ p + Z.of_nat (length path) <= q → memory s' !! q = memory s !! q.
Proof.
  intros Hp H Hf. destruct (basename_ok dot s fuel p path Hp H Hf) as (r & m & Hrun & He & Hn & Hout).
  exists r, (with_memory s m). rewrite memory_with. split; [exact Hrun|]. split; [exact He|].
  split; [|exact Hout]. intros Hne. destruct (Hn Hne) as [Hc Hr].
  split; [exact Hc|]. split; [exact Hr | apply base_name_split].
Qed.

Lemma basename_last_component_witness : ∃ r s',
  basename 5 20 100 (write_bytes ∅ 100 (str "/usr/lib//" ++ [0])) = Ok (r, s') ∧
  cstr s' r (str "lib").
Proof.
  destruct (basename_last_component 5 (write_bytes ∅ 100 (str "/usr/lib//" ++ [0])) 20 100 (str "/usr/lib//"))
    as (r & s' & Hrun & _ & Hn & _).
  - done.
  - apply cstr_write. by repeat constructor.
  - cbn. lia.
  - exists r, s'. split; [exact Hrun|]. by apply Hn.
Defined.

(** What the reference directory name is. *)
Definition dir_spec (path dir : list Z) : Prop :=
  (all_slashes path ∧ dir = [SLASH]) ∨
  (∃ name suf, path = name ++ suf ∧ name ≠ [] ∧ no_slashes name ∧ all_slashes suf ∧ dir = [46]) ∨
  ∃ d mid name suf, path = d ++ mid ++ name ++ suf ∧
    mid ≠ [] ∧ all_slashes mid ∧ name ≠ [] ∧ no_slashes name ∧ all_slashes suf ∧
    ((d = [] ∧ dir = [SLASH]) ∨ ∃ d' c, d = d' ++ [c] ∧ c ≠ SLASH ∧ dir = d).

Lemma take_while_nonempty (P : Z → bool) x r : P x = true → reverse (take_while P (x :: r)) ≠ [].
Proof. cbn [take_while]. intros ->. rewrite reverse_cons. by intros [_ ?]%app_nil. Qed.

Lemma drop_while_not P x l r : drop_while P l = x :: r → P x = false.
Proof. apply drop_while_head. Qed.

Lemma dir_name_split path : dir_spec path (dir_name path).
Proof.
  unfold dir_name, dir_spec. pose proof (reverse_split path is_slash) as Hp.
  pose proof (slashes_reverse (reverse path)) as Hs.
  destruct (drop_while is_slash (reverse path)) as [|x r] eqn:Ed.
  { left. split; [|done]. by rewrite Hp. }
  right. set (suf := reverse (take_while is_slash (reverse path))) in *.
  apply drop_while_not in Ed. assert (no_slash x = true) as Hx by (unfold no_slash, is_slash in *; by rewrite Ed).
  pose proof (take_drop_while no_slash (x :: r)) as Ht.
  pose proof (take_while_nonempty _ x r Hx) as Hne. pose proof (no_slashes_reverse (x :: r)) as Hns.
  set (name := take_while no_slash (x :: r)) in *.
  destruct (drop_while no_slash (x :: r)) as [|y t] eqn:Ed'.
  { left. exists (reverse name), suf. rewrite app_nil_r in Ht. rewrite <-Ht in Hp.
    split; [exact Hp|]. done. }
  right. apply drop_while_not in Ed'. assert (is_slash y = true) as Hy.
  { unfold no_slash, is_slash in *. by apply negb_false_iff. }
  pose proof (take_drop_while is_slash (y :: t)) as Ht'.
  pose proof (take_while_nonempty _ y t Hy) as Hne'. pose proof (slashes_reverse (y :: t)) as Hs'.
  set (mid := take_while is_slash (y :: t)) in *. set (d := drop_while is_slash (y :: t)) in *.
  exists (reverse d), (reverse mid), (reverse name), suf.
  split; [|do 5 (split; [done|])].
  - rewrite Hp at 1. rewrite <-Ht at 1. rewrite <-Ht' at 1. by rewrite !reverse_app, <-!app_assoc.
  - destruct d as [|z u] eqn:Edd; [by left|]. right. exists (reverse u), z.
    split; [apply reverse_cons|]. apply drop_while_not in Edd. unfold is_slash in Edd. by zb.
Qed.

(** dirname returns a pointer to the parent directory of its argument as a
    C string: the path without its last component and the slashes around it,
    "/" when only slashes are left, "." when there is no slash or no path. *)
Theorem dirname_parent {S : Type} `{L : !Lens S mem} (dot slash : Z) (s : S) (fuel : nat)
    (p : Z) (path : list Z) :
  Z_bool p = true → cstr (memory s) p path → (length path < fuel)%nat →
  cstr (memory s) dot (str ".") → cstr (memory s) slash (str "/") →
  ∃ r s', dirname dot slash fuel p s = Ok (r, s') ∧
    cstr (memory s') r (if decide (path = []) then str "." else dir_name path) ∧
    dir_spec path (dir_name path) ∧
    ∀ q, q < p ∨ p + Z.of_nat (length path) <= q → memory s' !! q = memory s !! q.
Proof.
  intros Hp H Hf Hdot Hslash.
  destruct (decide (path = [])) as [->|Hne].
  { exists dot, s. split; [|split; [done|split; [left; split; [constructor|done]|done]]].
    unfold dirname. rewrite Hp. cbn [negb]. apply cstr_nil in H. by run_load H. }
  destruct (dirname_ok dot slash s fuel p path Hp H Hf) as (r & s' & Hrun & Hcase).
  exists r, s'. split; [exact Hrun|]. split; [|split; [apply dir_name_split|]].
  - destruct Hcase as [(Hd & -> & ->)|[(Hd & -> & ->)|(-> & Hc & _)]].
    + destruct Hd as [Hd|Hd]; [done | by rewrite Hd].
    + by rewrite Hd.
    + exact Hc.
  - destruct Hcase as [(_ & _ & ->)|[(_ & _ & ->)|(_ & _ & n & -> & Hn)]]; [done..|].
    intros q Hq. rewrite memory_with. apply lookup_insert_ne. lia.
Qed.

Definition dirname_demo : mem :=
  write_bytes (write_bytes (write_bytes ∅ 1 (str "." ++ [0])) 5 (str "/" ++ [0])) 100 (str "/usr/lib//" ++ [0]).

Lemma dirname_parent_witness : ∃ r s',
  dirname 1 5 20 100 dirname_demo = Ok (r, s') ∧ cstr s' r (str "/usr").
Proof.
  destruct (dirname_parent 1 5 dirname_demo 20 100 (str "/usr/lib//")) as (r & s' & Hrun & Hc & _).
  - done.
  - apply cstr_write. by repeat constructor.
  - cbn. lia.
  - split; [by repeat constructor|]. apply bytes_at_write_other; [by right|].
    apply bytes_at_write_other; [by right | apply bytes_at_write].
  - split; [by repeat constructor|]. apply bytes_at_write_other; [by right | apply bytes_at_write].
  - by exists r, s'.
Defined.

(** strerror gives each of the 78 error numbers 0..77 a message of its own,
    and any other number "Unknown error". *)
Theorem strerror_distinct (e : Z) :
  (0 <= e <= 77 → strerror e ≠ "Unknown error"%string ∧
     ∀ e', 0 <= e' <= 77 → strerror e' = strerror e → e' = e) ∧
  (¬ 0 <= e <= 77 → strerror e = "Unknown error"%string).
Proof. apply strerror_spec. Qed.
