(* ===== verification/PrintfTests.v ===== *)
(** * The tests of the repository (tests/printf.c)

    The table of sprintf calls with their expected texts and lengths, run
    against the model of sprintf: every string argument at an address of its
    own, the destination a zeroed array of 64 bytes. *)
From S2P Require Import Prelude Memory Errno Printf.

(** An argument: a number, or a string literal. *)
Inductive arg : Type := Word (n : Z) | Text (s : string).
(** [TEST_SPRINTF(buf, ret, fmt, ...)] *)
Record test : Type := TEST { buf : string; ret : Z; fmt : string; args : list arg }.

Definition test_print_base : list test := [
   TEST "Hello INWOX" 11 "Hello INWOX" [];
   TEST EmptyString 1 "%c" [Word 0]].

Definition test_print_type : list test := [
   TEST "Hello INWOX" 11 "%s" [Text "Hello INWOX"];
   TEST "1024" 4 "%d" [Word 1024];
   TEST "-1024" 5 "%d" [Word (-1024)];
   TEST "1024" 4 "%i" [Word 1024];
   TEST "-1024" 5 "%i" [Word (-1024)];
   TEST "1024" 4 "%u" [Word 1024];
   TEST "4294966272" 10 "%u" [Word (-1024)];
   TEST "777" 3 "%o" [Word 511];
   TEST "37777777001" 11 "%o" [Word (-511)];
   TEST "1234abcd" 8 "%x" [Word 0x1234ABCD];
   TEST "edcb5433" 8 "%x" [Word (-0x1234ABCD)];
   TEST "1234ABCD" 8 "%X" [Word 0x1234ABCD];
   TEST "EDCB5433" 8 "%X" [Word (-0x1234ABCD)];
   TEST "x" 1 "%c" [Word (ch "x")];
   TEST "%" 1 "%%" []].

Definition test_print_plus : list test := [
   TEST "Hello INWOX" 11 "%+s" [Text "Hello INWOX"];
   TEST "+1024" 5 "%+d" [Word 1024];
   TEST "-1024" 5 "%+d" [Word (-1024)];
   TEST "+1024" 5 "%+i" [Word 1024];
   TEST "-1024" 5 "%+i" [Word (-1024)];
   TEST "1024" 4 "%+u" [Word 1024];
   TEST "4294966272" 10 "%+u" [Word (-1024)];
   TEST "777" 3 "%+o" [Word 511];
   TEST "37777777001" 11 "%+o" [Word (-511)];
   TEST "1234abcd" 8 "%+x" [Word 0x1234ABCD];
   TEST "edcb5433" 8 "%+x" [Word (-0x1234ABCD)];
   TEST "1234ABCD" 8 "%+X" [Word 0x1234ABCD];
   TEST "EDCB5433" 8 "%+X" [Word (-0x1234ABCD)];
   TEST "x" 1 "%+c" [Word (ch "x")]].

Definition test_print_space : list test := [
   TEST "Hello INWOX" 11 "% s" [Text "Hello INWOX"];
   TEST " 1024" 5 "% d" [Word 1024];
   TEST "-1024" 5 "% d" [Word (-1024)];
   TEST " 1024" 5 "% i" [Word 1024];
   TEST "-1024" 5 "% i" [Word (-1024)];
   TEST "1024" 4 "% u" [Word 1024];
   TEST "4294966272" 10 "% u" [Word (-1024)];
   TEST "777" 3 "% o" [Word 511];
   TEST "37777777001" 11 "% o" [Word (-511)];
   TEST "1234abcd" 8 "% x" [Word 0x1234ABCD];
   TEST "edcb5433" 8 "% x" [Word (-0x1234ABCD)];
   TEST "1234ABCD" 8 "% X" [Word 0x1234ABCD];
   TEST "EDCB5433" 8 "% X" [Word (-0x1234ABCD)];
   TEST "x" 1 "% c" [Word (ch "x")]].

Definition test_print_plus_space : list test := [
   TEST "Hello INWOX" 11 "%+ s" [Text "Hello INWOX"];
   TEST "+1024" 5 "%+ d" [Word 1024];
   TEST "-1024" 5 "%+ d" [Word (-1024)];
   TEST "+1024" 5 "%+ i" [Word 1024];
   TEST "-1024" 5 "%+ i" [Word (-1024)];
   TEST "1024" 4 "%+ u" [Word 1024];
   TEST "4294966272" 10 "%+ u" [Word (-1024)];
   TEST "777" 3 "%+ o" [Word 511];
   TEST "37777777001" 11 "%+ o" [Word (-511)];
   TEST "1234abcd" 8 "%+ x" [Word 0x1234ABCD];
   TEST "edcb5433" 8 "%+ x" [Word (-0x1234ABCD)];
   TEST "1234ABCD" 8 "%+ X" [Word 0x1234ABCD];
   TEST "EDCB5433" 8 "%+ X" [Word (-0x1234ABCD)];
   TEST "x" 1 "%+ c" [Word (ch "x")]].

Definition test_print_sharp : list test := [
   TEST "0777" 4 "%#o" [Word 511];
   TEST "037777777001" 12 "%#o" [Word (-511)];
   TEST "0x1234abcd" 10 "%#x" [Word 0x1234ABCD];
   TEST "0xedcb5433" 10 "%#x" [Word (-0x1234ABCD)];
   TEST "0X1234ABCD" 10 "%#X" [Word 0x1234ABCD];
   TEST "0XEDCB5433" 10 "%#X" [Word (-0x1234ABCD)];
   TEST "0" 1 "%#o" [Word 0];
   TEST "0" 1 "%#x" [Word 0];
   TEST "0" 1 "%#X" [Word 0]].

Definition test_print_width : list test := [
   TEST "Hello INWOX" 11 "%1s" [Text "Hello INWOX"];
   TEST "1024" 4 "%1d" [Word 1024];
   TEST "-1024" 5 "%1d" [Word (-1024)];
   TEST "1024" 4 "%1i" [Word 1024];
   TEST "-1024" 5 "%1i" [Word (-1024)];
   TEST "1024" 4 "%1u" [Word 1024];
   TEST "4294966272" 10 "%1u" [Word (-1024)];
   TEST "777" 3 "%1o" [Word 511];
   TEST "37777777001" 11 "%1o" [Word (-511)];
   TEST "1234abcd" 8 "%1x" [Word 0x1234ABCD];
   TEST "edcb5433" 8 "%1x" [Word (-0x1234ABCD)];
   TEST "1234ABCD" 8 "%1X" [Word 0x1234ABCD];
   TEST "EDCB5433" 8 "%1X" [Word (-0x1234ABCD)];
   TEST "x" 1 "%1c" [Word (ch "x")]].

Definition test_print_width_2 : list test := [
   TEST "               Hello" 20 "%20s" [Text "Hello"];
   TEST "                1024" 20 "%20d" [Word 1024];
   TEST "               -1024" 20 "%20d" [Word (-1024)];
   TEST "                1024" 20 "%20i" [Word 1024];
   TEST "               -1024" 20 "%20i" [Word (-1024)];
   TEST "                1024" 20 "%20u" [Word 1024];
   TEST "          4294966272" 20 "%20u" [Word (-1024)];
   TEST "                 777" 20 "%20o" [Word 511];
   TEST "         37777777001" 20 "%20o" [Word (-511)];
   TEST "            1234abcd" 20 "%20x" [Word 0x1234ABCD];
   TEST "            edcb5433" 20 "%20x" [Word (-0x1234ABCD)];
   TEST "            1234ABCD" 20 "%20X" [Word 0x1234ABCD];
   TEST "            EDCB5433" 20 "%20X" [Word (-0x1234ABCD)];
   TEST "                   x" 20 "%20c" [Word (ch "x")]].

Definition test_print_left_width : list test := [
   TEST "Hello               " 20 "%-20s" [Text "Hello"];
   TEST "1024                " 20 "%-20d" [Word 1024];
   TEST "-1024               " 20 "%-20d" [Word (-1024)];
   TEST "1024                " 20 "%-20i" [Word 1024];
   TEST "-1024               " 20 "%-20i" [Word (-1024)];
   TEST "1024                " 20 "%-20u" [Word 1024];
   TEST "4294966272          " 20 "%-20u" [Word (-1024)];
   TEST "777                 " 20 "%-20o" [Word 511];
   TEST "37777777001         " 20 "%-20o" [Word (-511)];
   TEST "1234abcd            " 20 "%-20x" [Word 0x1234ABCD];
   TEST "edcb5433            " 20 "%-20x" [Word (-0x1234ABCD)];
   TEST "1234ABCD            " 20 "%-20X" [Word 0x1234ABCD];
   TEST "EDCB5433            " 20 "%-20X" [Word (-0x1234ABCD)];
   TEST "x                   " 20 "%-20c" [Word (ch "x")]].

Definition test_print_zero_width : list test := [
   TEST "00000000000000001024" 20 "%020d" [Word 1024];
   TEST "-0000000000000001024" 20 "%020d" [Word (-1024)];
   TEST "00000000000000001024" 20 "%020i" [Word 1024];
   TEST "-0000000000000001024" 20 "%020i" [Word (-1024)];
   TEST "00000000000000001024" 20 "%020u" [Word 1024];
   TEST "00000000004294966272" 20 "%020u" [Word (-1024)];
   TEST "00000000000000000777" 20 "%020o" [Word 511];
   TEST "00000000037777777001" 20 "%020o" [Word (-511)];
   TEST "0000000000001234abcd" 20 "%020x" [Word 0x1234ABCD];
   TEST "000000000000edcb5433" 20 "%020x" [Word (-0x1234ABCD)];
   TEST "0000000000001234ABCD" 20 "%020X" [Word 0x1234ABCD];
   TEST "000000000000EDCB5433" 20 "%020X" [Word (-0x1234ABCD)]].

Definition test_print_sharp_width : list test := [
   TEST "                0777" 20 "%#20o" [Word 511];
   TEST "        037777777001" 20 "%#20o" [Word (-511)];
   TEST "          0x1234abcd" 20 "%#20x" [Word 0x1234ABCD];
   TEST "          0xedcb5433" 20 "%#20x" [Word (-0x1234ABCD)];
   TEST "          0X1234ABCD" 20 "%#20X" [Word 0x1234ABCD];
   TEST "          0XEDCB5433" 20 "%#20X" [Word (-0x1234ABCD)]].

Definition test_print_sharp_zero_width : list test := [
   TEST "00000000000000000777" 20 "%#020o" [Word 511];
   TEST "00000000037777777001" 20 "%#020o" [Word (-511)];
   TEST "0x00000000001234abcd" 20 "%#020x" [Word 0x1234ABCD];
   TEST "0x0000000000edcb5433" 20 "%#020x" [Word (-0x1234ABCD)];
   TEST "0X00000000001234ABCD" 20 "%#020X" [Word 0x1234ABCD];
   TEST "0X0000000000EDCB5433" 20 "%#020X" [Word (-0x1234ABCD)]].

Definition test_print_zero_left_width : list test := [
   TEST "Hello               " 20 "%0-20s" [Text "Hello"];
   TEST "1024                " 20 "%0-20d" [Word 1024];
   TEST "-1024               " 20 "%0-20d" [Word (-1024)];
   TEST "1024                " 20 "%0-20i" [Word 1024];
   TEST "-1024               " 20 "%0-20i" [Word (-1024)];
   TEST "1024                " 20 "%0-20u" [Word 1024];
   TEST "4294966272          " 20 "%0-20u" [Word (-1024)];
   TEST "777                 " 20 "%-020o" [Word 511];
   TEST "37777777001         " 20 "%-020o" [Word (-511)];
   TEST "1234abcd            " 20 "%-020x" [Word 0x1234ABCD];
   TEST "edcb5433            " 20 "%-020x" [Word (-0x1234ABCD)];
   TEST "1234ABCD            " 20 "%-020X" [Word 0x1234ABCD];
   TEST "EDCB5433            " 20 "%-020X" [Word (-0x1234ABCD)];
   TEST "x                   " 20 "%-020c" [Word (ch "x")]].

Definition test_print_start : list test := [
   TEST "               Hello" 20 "%*s" [Word 20; Text "Hello"];
   TEST "                1024" 20 "%*d" [Word 20; Word 1024];
   TEST "               -1024" 20 "%*d" [Word 20; Word (-1024)];
   TEST "                1024" 20 "%*i" [Word 20; Word 1024];
   TEST "               -1024" 20 "%*i" [Word 20; Word (-1024)];
   TEST "                1024" 20 "%*u" [Word 20; Word 1024];
   TEST "          4294966272" 20 "%*u" [Word 20; Word (-1024)];
   TEST "                 777" 20 "%*o" [Word 20; Word 511];
   TEST "         37777777001" 20 "%*o" [Word 20; Word (-511)];
   TEST "            1234abcd" 20 "%*x" [Word 20; Word 0x1234ABCD];
   TEST "            edcb5433" 20 "%*x" [Word 20; Word (-0x1234ABCD)];
   TEST "            1234ABCD" 20 "%*X" [Word 20; Word 0x1234ABCD];
   TEST "            EDCB5433" 20 "%*X" [Word 20; Word (-0x1234ABCD)];
   TEST "                   x" 20 "%*c" [Word 20; Word (ch "x")]].

Definition test_print_precision : list test := [
   TEST "Hello INWOX" 11 "%.20s" [Text "Hello INWOX"];
   TEST "00000000000000001024" 20 "%.20d" [Word 1024];
   TEST "-00000000000000001024" 21 "%.20d" [Word (-1024)];
   TEST "00000000000000001024" 20 "%.20i" [Word 1024];
   TEST "-00000000000000001024" 21 "%.20i" [Word (-1024)];
   TEST "00000000000000001024" 20 "%.20u" [Word 1024];
   TEST "00000000004294966272" 20 "%.20u" [Word (-1024)];
   TEST "00000000000000000777" 20 "%.20o" [Word 511];
   TEST "00000000037777777001" 20 "%.20o" [Word (-511)];
   TEST "0000000000001234abcd" 20 "%.20x" [Word 0x1234ABCD];
   TEST "000000000000edcb5433" 20 "%.20x" [Word (-0x1234ABCD)];
   TEST "0000000000001234ABCD" 20 "%.20X" [Word 0x1234ABCD];
   TEST "000000000000EDCB5433" 20 "%.20X" [Word (-0x1234ABCD)]].

Definition test_print_width_precision : list test := [
   TEST "               Hello" 20 "%20.5s" [Text "Hello INWOX"];
   TEST "               01024" 20 "%20.5d" [Word 1024];
   TEST "              -01024" 20 "%20.5d" [Word (-1024)];
   TEST "               01024" 20 "%20.5i" [Word 1024];
   TEST "              -01024" 20 "%20.5i" [Word (-1024)];
   TEST "               01024" 20 "%20.5u" [Word 1024];
   TEST "          4294966272" 20 "%20.5u" [Word (-1024)];
   TEST "               00777" 20 "%20.5o" [Word 511];
   TEST "         37777777001" 20 "%20.5o" [Word (-511)];
   TEST "            1234abcd" 20 "%20.5x" [Word 0x1234ABCD];
   TEST "          00edcb5433" 20 "%20.10x" [Word (-0x1234ABCD)];
   TEST "            1234ABCD" 20 "%20.5X" [Word 0x1234ABCD];
   TEST "          00EDCB5433" 20 "%20.10X" [Word (-0x1234ABCD)]].

Definition test_print_zero_width_precision : list test := [
   TEST "               Hello" 20 "%020.5s" [Text "Hello INWOX"];
   TEST "               01024" 20 "%020.5d" [Word 1024];
   TEST "              -01024" 20 "%020.5d" [Word (-1024)];
   TEST "               01024" 20 "%020.5i" [Word 1024];
   TEST "              -01024" 20 "%020.5i" [Word (-1024)];
   TEST "               01024" 20 "%020.5u" [Word 1024];
   TEST "          4294966272" 20 "%020.5u" [Word (-1024)];
   TEST "               00777" 20 "%020.5o" [Word 511];
   TEST "         37777777001" 20 "%020.5o" [Word (-511)];
   TEST "            1234abcd" 20 "%020.5x" [Word 0x1234ABCD];
   TEST "          00edcb5433" 20 "%020.10x" [Word (-0x1234ABCD)];
   TEST "            1234ABCD" 20 "%020.5X" [Word 0x1234ABCD];
   TEST "          00EDCB5433" 20 "%020.10X" [Word (-0x1234ABCD)]].

Definition test_print_width_precision_2 : list test := [
   TEST EmptyString 0 "%.0s" [Text "Hello INWOX"];
   TEST "                    " 20 "%20.0s" [Text "Hello INWOX"];
   TEST EmptyString 0 "%.s" [Text "Hello INWOX"];
   TEST "                    " 20 "%20.s" [Text "Hello INWOX"];
   TEST "                1024" 20 "%20.0d" [Word 1024];
   TEST "               -1024" 20 "%20.d" [Word (-1024)];
   TEST "                    " 20 "%20.d" [Word 0];
   TEST "                1024" 20 "%20.0i" [Word 1024];
   TEST "               -1024" 20 "%20.i" [Word (-1024)];
   TEST "                    " 20 "%20.i" [Word 0];
   TEST "                1024" 20 "%20.u" [Word 1024];
   TEST "          4294966272" 20 "%20.0u" [Word (-1024)];
   TEST "                    " 20 "%20.u" [Word 0];
   TEST "                 777" 20 "%20.o" [Word 511];
   TEST "         37777777001" 20 "%20.0o" [Word (-511)];
   TEST "                    " 20 "%20.o" [Word 0];
   TEST "            1234abcd" 20 "%20.x" [Word 0x1234ABCD];
   TEST "            edcb5433" 20 "%20.0x" [Word (-0x1234ABCD)];
   TEST "                    " 20 "%20.x" [Word 0];
   TEST "            1234ABCD" 20 "%20.X" [Word 0x1234ABCD];
   TEST "            EDCB5433" 20 "%20.0X" [Word (-0x1234ABCD)];
   TEST "                    " 20 "%20.X" [Word 0]].

Definition test_print_inwox : list test := [
   TEST "Hello               " 20 "% -0+*.*s" [Word 20; Word 5; Text "Hello INWOX"];
   TEST "+01024              " 20 "% -0+*.*d" [Word 20; Word 5; Word 1024];
   TEST "-01024              " 20 "% -0+*.*d" [Word 20; Word 5; Word (-1024)];
   TEST "+01024              " 20 "% -0+*.*i" [Word 20; Word 5; Word 1024];
   TEST "-01024              " 20 "% 0-+*.*i" [Word 20; Word 5; Word (-1024)];
   TEST "01024               " 20 "% 0-+*.*u" [Word 20; Word 5; Word 1024];
   TEST "4294966272          " 20 "% 0-+*.*u" [Word 20; Word 5; Word (-1024)];
   TEST "00777               " 20 "%+ -0*.*o" [Word 20; Word 5; Word 511];
   TEST "37777777001         " 20 "%+ -0*.*o" [Word 20; Word 5; Word (-511)];
   TEST "1234abcd            " 20 "%+ -0*.*x" [Word 20; Word 5; Word 0x1234ABCD];
   TEST "00edcb5433          " 20 "%+ -0*.*x" [Word 20; Word 10; Word (-0x1234ABCD)];
   TEST "1234ABCD            " 20 "% -+0*.*X" [Word 20; Word 5; Word 0x1234ABCD];
   TEST "00EDCB5433          " 20 "% -+0*.*X" [Word 20; Word 10; Word (-0x1234ABCD)]].

Definition test_sprintf : list test :=
  test_print_base ++ test_print_type ++ test_print_plus ++
  test_print_space ++ test_print_plus_space ++ test_print_sharp ++
  test_print_width ++ test_print_width_2 ++ test_print_left_width ++
  test_print_zero_width ++ test_print_sharp_width ++ test_print_sharp_zero_width ++
  test_print_zero_left_width ++ test_print_start ++ test_print_precision ++
  test_print_width_precision ++ test_print_zero_width_precision ++ test_print_width_precision_2 ++
  test_print_inwox.

(** ** Running a test *)
Definition lbuf : Z := 1000.
Definition frame : mem := write_bytes (write_bytes ∅ 199 (replicate 25 0)) lbuf (replicate 64 0).

(** The words on the stack, and the memory with the strings. *)
Fixpoint place_args (p : Z) (l : list arg) (m : mem) : list Z * mem :=
  match l with
  | [] => ([], m)
  | Word n :: l => let '(ws, m) := place_args p l m in (u32 n :: ws, m)
  | Text s :: l => let '(ws, m) := place_args (p + 64) l (write_bytes m p (str s ++ [0])) in (p :: ws, m)
  end.

(** The string in the array. *)
Fixpoint read_text (n : nat) (p : Z) (m : mem) : option (list Z) :=
  match n with
  | O => None
  | S n =>
      match m !! p with
      | Some c => if c =? 0 then Some [] else cons c <$> read_text n (p + 1) m
      | None => None
      end
  end.

(** The test passes: the length and the text are the expected ones. *)
Definition TEST_SPRINTF (t : test) : bool :=
  let '(ws, m) := place_args 2000 (args t) frame in
  match sprintf 200 100 lbuf (str (fmt t)) ws (m, Errno 0) with
  | Ok (len, (m, _)) => (len =? ret t) && bool_decide (read_text 64 lbuf m = Some (str (buf t)))
  | _ => false
  end.

(** Every test of the repository's table passes: sprintf writes the expected
    text and returns the expected length, 236 times. *)
Theorem printf_tests_pass : length test_sprintf = 236%nat ∧ forallb TEST_SPRINTF test_sprintf = true.
Proof. split; vm_compute; reflexivity. Qed.
