(* ===== verification/General.v ===== *)
(** * General utilities of <stdlib.h>: pseudo-random numbers and exit handlers
    (libc/src/stdlib/rand.c, rand_r.c, atexit.c, exit.c, _Exit.c) *)
From S2P Require Import Prelude Memory CString.

(** ** rand.c: the [static unsigned long long seed] *)
Record rand_st : Type := RandState { seed : Z }.

Definition RAND_MAX : Z := 0x7fffffff.
Definition initial_seed : rand_st := RandState 1.

(** One step of the generator. *)
Definition lcg (seed : Z) : Z := u64 (6364136223846793005 * seed + 73).

Section rand.
Context {S : Type} `{R : !Lens S rand_st}.

Definition rand : ST S Z := λ s,
  let x := lcg (seed (get s)) in
  Ok (s32 (Z.shiftr x 33), set (RandState x) s).

Definition srand (s : Z) : ST S unit := λ st, Ok (tt, set (RandState s) st).
End rand.

(** ** rand_r.c *)
Definition temper (x : Z) : Z :=
  let x := Z.lxor x (Z.shiftr x 11) in
  let x := Z.lxor x (Z.land (u32 (Z.shiftl x 7)) 0x9D2C5680) in
  let x := Z.lxor x (Z.land (u32 (Z.shiftl x 15)) 0xEFC60000) in
  Z.lxor x (Z.shiftr x 18).

Section rand_r.
Context {S : Type} `{L : !Lens S mem}.

Definition rand_r (seed : Z) : ST S Z :=
  x ← load32 seed;
  let x := u32 (x * 1103515245 + 12345) in
  store32 seed x;;
  mret (temper x / 2).
End rand_r.

(** ** atexit.c: a table of 32 function pointers *)
Definition ATEXIT_MAX : nat := 32.
Record exit_st : Type := ExitState { atexitHandlers : list Z }.
Definition no_handlers : exit_st := ExitState (replicate ATEXIT_MAX 0).

(** What exit hands over to: the handlers themselves, the destructors the
    linker collects in [_fini], and the system call that ends the process. *)
Class ExitEnv (S : Type) : Type := {
  call : Z → ST S unit;
  _fini : ST S unit;
  _exit : Z → ST S unit;
}.

Section exit.
Context {S : Type} `{X : !Lens S exit_st} `{V : !ExitEnv S}.

Definition handler (i : Z) : ST S Z := λ s,
  match atexitHandlers (get s) !! Z.to_nat i with Some f => Ok (f, s) | None => Fault end.

Definition set_handler (i f : Z) : ST S unit := λ s,
  Ok (tt, set (ExitState (<[Z.to_nat i := f]> (atexitHandlers (get s)))) s).

Definition atexit (func : Z) : ST S Z :=
  loop (Datatypes.S ATEXIT_MAX) (λ i,
    if i <? Z.of_nat ATEXIT_MAX then
      h ← handler i;
      if negb (Z_bool h) then set_handler i func;; mret (Done 0) else mret (Next (i + 1))
    else mret (Done (-1))) 0.

Definition __callAtexitHandlers : ST S unit :=
  loop (Datatypes.S ATEXIT_MAX) (λ i,
    if 0 <=? i then
      h ← handler i;
      (if Z_bool h then call h else mret tt);; mret (Next (i - 1))
    else mret (Done tt)) (Z.of_nat ATEXIT_MAX - 1).

Definition _Exit (status : Z) : ST S unit := _exit status.

Definition exit (status : Z) : ST S unit :=
  __callAtexitHandlers;; _fini;; _Exit status.
End exit.

(** ** The generators lose no state *)

(** The multiplier is odd, hence invertible modulo 2^64. *)
Definition lcg_inverse : Z := 13877824140714322085.

Lemma lcg_inverse_ok : (lcg_inverse * 6364136223846793005) mod 2 ^ 64 = 1.
Proof. vm_compute. done. Qed.

Lemma lcg_inj x y : 0 <= x < 2 ^ 64 → 0 <= y < 2 ^ 64 → lcg x = lcg y → x = y.
Proof.
  unfold lcg, u64. intros Hx Hy H.
  assert (∀ z, 0 <= z < 2 ^ 64 →
    (lcg_inverse * ((6364136223846793005 * z + 73) mod 2 ^ 64 - 73)) mod 2 ^ 64 = z) as Hinv.
  { intros z Hz. rewrite Zmult_mod, Zminus_mod, Zmod_mod, <-Zminus_mod, <-Zmult_mod.
    replace (lcg_inverse * (6364136223846793005 * z + 73 - 73))
      with (lcg_inverse * 6364136223846793005 * z) by lia.
    rewrite Zmult_mod, lcg_inverse_ok, Z.mul_1_l, Zmod_mod. by apply Z.mod_small. }
  rewrite <-(Hinv x Hx), <-(Hinv y Hy). by rewrite H.
Qed.

(** Numbers below 2^w, by their bits. *)
Lemma bits_above x w i : 0 <= x < 2 ^ w → w <= i → Z.testbit x i = false.
Proof.
  intros [H0 H1] Hi. destruct (Z.eq_dec x 0) as [->|]; [apply Z.testbit_0_l|].
  apply Z.bits_above_log2; [lia|]. apply Z.log2_lt_pow2; [lia|].
  eapply Z.lt_le_trans; [exact H1|]. apply Z.pow_le_mono_r; lia.
Qed.

Lemma bits_range x w : 0 <= w → 0 <= x → (∀ i, w <= i → Z.testbit x i = false) → x < 2 ^ w.
Proof.
  intros Hw H0 H. destruct (Z.eq_dec x 0) as [->|]; [apply Z.pow_pos_nonneg; lia|].
  apply Z.log2_lt_pow2; [lia|]. apply Z.nle_gt. intros Hl.
  specialize (H (Z.log2 x) Hl). rewrite Z.bit_log2 in H by lia. done.
Qed.

Lemma lxor_range w x y : 0 <= w → 0 <= x < 2 ^ w → 0 <= y < 2 ^ w → 0 <= Z.lxor x y < 2 ^ w.
Proof.
  intros Hw Hx Hy. assert (0 <= Z.lxor x y) by (apply Z.lxor_nonneg; tauto). split; [done|].
  apply bits_range; [done..|]. intros i Hi.
  by rewrite Z.lxor_spec, (bits_above x w), (bits_above y w).
Qed.

Lemma land_range w x y : 0 <= w → 0 <= x < 2 ^ w → 0 <= y → 0 <= Z.land x y < 2 ^ w.
Proof.
  intros Hw Hx Hy. assert (0 <= Z.land x y) by (apply Z.land_nonneg; tauto). split; [done|].
  apply bits_range; [done..|]. intros i Hi. by rewrite Z.land_spec, (bits_above x w).
Qed.

Lemma shiftr_range w x k : 0 <= k → 0 <= x < 2 ^ w → 0 <= Z.shiftr x k < 2 ^ w.
Proof.
  intros Hk [H0 H1]. split; [by apply Z.shiftr_nonneg|].
  rewrite Z.shiftr_div_pow2 by done. eapply Z.le_lt_trans; [|exact H1].
  apply Z.div_le_upper_bound; [apply Z.pow_pos_nonneg; lia|].
  assert (0 < 2 ^ k) by (apply Z.pow_pos_nonneg; lia). nia.
Qed.

(** A tempering step changes each bit by bits on one side of it, so the whole
    number can be recovered from that side on. *)
Lemma xor_right_inj k x y :
  0 < k → 0 <= x → 0 <= y → Z.lxor x (Z.shiftr x k) = Z.lxor y (Z.shiftr y k) → x = y.
Proof.
  intros Hk Hx Hy H. apply Z.bits_inj'. intros n Hn.
  set (w := Z.max (Z.log2 x + 1) (Z.log2 y + 1)).
  assert (∀ z, 0 <= z → Z.log2 z + 1 <= w → ∀ i, w <= i → Z.testbit z i = false) as Hab.
  { intros z Hz Hzw i Hi. destruct (Z.eq_dec z 0) as [->|]; [apply Z.testbit_0_l|].
    apply Z.bits_above_log2; lia. }
  destruct (Z_lt_le_dec n w) as [Hnw|Hnw]; [|rewrite !(Hab _) by lia; done].
  revert n Hn Hnw. assert (∀ d i, 0 <= i → w - i <= Z.of_nat d → Z.testbit x i = Z.testbit y i) as Hind.
  { induction d as [|d IH]; intros i Hi Hd; [rewrite !(Hab _) by lia; done|].
    assert (Z.testbit (Z.lxor x (Z.shiftr x k)) i = Z.testbit (Z.lxor y (Z.shiftr y k)) i) as Hb by by rewrite H.
    rewrite !Z.lxor_spec, !Z.shiftr_spec, (IH (i + k)) in Hb by lia.
    by destruct (Z.testbit x i), (Z.testbit y i), (Z.testbit y (i + k)). }
  intros n Hn _. apply (Hind (Z.to_nat w)); lia.
Qed.

Lemma xor_left_inj k m x y :
  0 < k → 0 <= x < 2 ^ 32 → 0 <= y < 2 ^ 32 →
  Z.lxor x (Z.land (u32 (Z.shiftl x k)) m) = Z.lxor y (Z.land (u32 (Z.shiftl y k)) m) → x = y.
Proof.
  intros Hk Hx Hy H. apply Z.bits_inj'. intros n Hn.
  destruct (Z_lt_le_dec n 32) as [Hn32|Hn32]; [|rewrite !(bits_above _ 32) by lia; done].
  assert (∀ d i, 0 <= i < 32 → i < Z.of_nat d → Z.testbit x i = Z.testbit y i) as Hind;
    [|apply (Hind 32%nat); lia].
  induction d as [|d IH]; intros i Hi Hd; [lia|].
  assert (Z.testbit (Z.lxor x (Z.land (u32 (Z.shiftl x k)) m)) i =
    Z.testbit (Z.lxor y (Z.land (u32 (Z.shiftl y k)) m)) i) as Hb by by rewrite H.
  unfold u32 in Hb. rewrite !Z.lxor_spec, !Z.land_spec, !Z.mod_pow2_bits_low, !Z.shiftl_spec in Hb by lia.
  assert (Z.testbit x (i - k) = Z.testbit y (i - k)) as Hlow.
  { destruct (Z_lt_le_dec (i - k) 0); [rewrite !Z.testbit_neg_r by lia; done | apply IH; lia]. }
  rewrite Hlow in Hb.
  by destruct (Z.testbit x i), (Z.testbit y i), (Z.testbit y (i - k)), (Z.testbit m i).
Qed.

Lemma xor_left_range k m x :
  0 <= x < 2 ^ 32 → 0 <= m → 0 <= Z.lxor x (Z.land (u32 (Z.shiftl x k)) m) < 2 ^ 32.
Proof. intros. apply lxor_range; [lia|done|]. apply land_range; [lia|apply u32_range|done]. Qed.

Lemma temper_range x : 0 <= x < 2 ^ 32 → 0 <= temper x < 2 ^ 32.
Proof.
  intros H. unfold temper. cbv zeta.
  assert (∀ z k, 0 <= k → 0 <= z < 2 ^ 32 → 0 <= Z.lxor z (Z.shiftr z k) < 2 ^ 32) as Hr.
  { intros. apply lxor_range; [lia|done|]. by apply shiftr_range. }
  apply Hr; [lia|]. do 2 (apply xor_left_range; [|lia]). apply Hr; [lia|done].
Qed.

Lemma temper_injective x y :
  0 <= x < 2 ^ 32 → 0 <= y < 2 ^ 32 → temper x = temper y → x = y.
Proof.
  assert (∀ z k, 0 <= k → 0 <= z < 2 ^ 32 → 0 <= Z.lxor z (Z.shiftr z k) < 2 ^ 32) as Hr.
  { intros. apply lxor_range; [lia|done|]. by apply shiftr_range. }
  intros Hx Hy H. unfold temper in H. cbv zeta in H.
  pose proof (Hr x 11 ltac:(lia) Hx) as Hx1. pose proof (Hr y 11 ltac:(lia) Hy) as Hy1.
  pose proof (xor_left_range 7 0x9D2C5680 _ Hx1 ltac:(lia)) as Hx2.
  pose proof (xor_left_range 7 0x9D2C5680 _ Hy1 ltac:(lia)) as Hy2.
  pose proof (xor_left_range 15 0xEFC60000 _ Hx2 ltac:(lia)) as Hx3.
  pose proof (xor_left_range 15 0xEFC60000 _ Hy2 ltac:(lia)) as Hy3.
  apply xor_right_inj in H; [|lia|apply Hx3|apply Hy3].
  apply xor_left_inj in H; [|lia|done..]. apply xor_left_inj in H; [|lia|done..].
  apply xor_right_inj in H; lia.
Qed.

(** rand returns a number of [0, RAND_MAX], the top 31 bits of the next
    seed; two seeds that lead to the same next seed are the same, so the
    generator never loses state. *)
Theorem rand_in_range {S : Type} `{R : !Lens S rand_st} (s : S) :
  0 <= seed (get s) < 2 ^ 64 →
  ∃ r s', rand s = Ok (r, s') ∧ 0 <= r <= RAND_MAX ∧
    0 <= seed (get s') < 2 ^ 64 ∧ r = seed (get s') / 2 ^ 33 ∧
    ∀ x, 0 <= x < 2 ^ 64 → lcg x = seed (get s') → x = seed (get s).
Proof.
  intros Hs. pose proof (u64_range (6364136223846793005 * seed (get s) + 73)) as Hr.
  fold (lcg (seed (get s))) in Hr. eexists _, _. split; [done|]. rewrite get_set. cbn [seed].
  rewrite Z.shiftr_div_pow2 by lia. set (x := lcg _) in *.
  assert (0 <= x / 2 ^ 33 < 2 ^ 31) as Hd.
  { split; [apply Z.div_pos; lia|]. apply Z.div_lt_upper_bound; lia. }
  rewrite s32_small by lia. split; [unfold RAND_MAX; lia|]. split; [done|]. split; [done|].
  intros y Hy Hxy. by apply lcg_inj.
Qed.

(** ** rand_r *)
Section rand_r_ok.
Context {S : Type} `{L : !Lens S mem}.
Implicit Types s : S.

Lemma rand_r_ok s p (x : Z) :
  word_at (memory s) p x →
  rand_r p s = Ok (temper (u32 (x * 1103515245 + 12345)) / 2,
    with_memory s (write_bytes (memory s) p (le32 (u32 (x * 1103515245 + 12345))))).
Proof.
  intros H. unfold rand_r. erewrite bind_ok by by apply load32_ok. cbv zeta.
  erewrite bind_ok by (apply store32_ok; by eapply word_at_mapped). done.
Qed.
End rand_r_ok.

Lemma lcg32_inj x y :
  0 <= x < 2 ^ 32 → 0 <= y < 2 ^ 32 →
  u32 (x * 1103515245 + 12345) = u32 (y * 1103515245 + 12345) → x = y.
Proof.
  unfold u32. intros Hx Hy H.
  assert (∀ z, 0 <= z < 2 ^ 32 →
    (4005161829 * ((z * 1103515245 + 12345) mod 2 ^ 32 - 12345)) mod 2 ^ 32 = z) as Hinv.
  { intros z Hz. rewrite Zmult_mod, Zminus_mod, Zmod_mod, <-Zminus_mod, <-Zmult_mod.
    replace (4005161829 * (z * 1103515245 + 12345 - 12345)) with (z * (4005161829 * 1103515245)) by lia.
    rewrite Zmult_mod. replace ((4005161829 * 1103515245) mod 2 ^ 32) with 1 by (vm_compute; done).
    rewrite Z.mul_1_r, Zmod_mod. by apply Z.mod_small. }
  rewrite <-(Hinv x Hx), <-(Hinv y Hy). by rewrite H.
Qed.

(** rand_r stores the next seed, returns a number of [0, RAND_MAX], and
    treats the numbers alike: of any three seeds that yield one number, two are
    equal (2^32 seeds, 2^31 numbers, so each number has exactly two seeds). *)
Theorem rand_r_equidistributed {S : Type} `{L : !Lens S mem} (s : S) (p x : Z) :
  word_at (memory s) p x →
  ∃ r s', rand_r p s = Ok (r, s') ∧ 0 <= r <= RAND_MAX ∧
    word_at (memory s') p (u32 (x * 1103515245 + 12345)) ∧
    ∀ t t' s2 s3 y z, word_at (memory t) p y → word_at (memory t') p z →
      rand_r p t = Ok (r, s2) → rand_r p t' = Ok (r, s3) → x = y ∨ x = z ∨ y = z.
Proof.
  intros H. rewrite (rand_r_ok s p x H). eexists _, _. split; [done|].
  assert (∀ x, 0 <= temper (u32 (x * 1103515245 + 12345)) < 2 ^ 32) as Ht.
  { intros. apply temper_range, u32_range. }
  split; [|split; [rewrite memory_with; apply word_at_le32, u32_range|]].
  - pose proof (Ht x). unfold RAND_MAX. Z.to_euclidean_division_equations; lia.
  - intros t t' s2 s3 y z Hy Hz. rewrite (rand_r_ok t p y Hy), (rand_r_ok t' p z Hz).
    intros Ey Ez. simplify_eq. pose proof (Ht x). pose proof (Ht y). pose proof (Ht z).
    pose proof (word_at_range _ _ _ H). pose proof (word_at_range _ _ _ Hy). pose proof (word_at_range _ _ _ Hz).
    assert (∀ u v, 0 <= u < 2 ^ 32 → 0 <= v < 2 ^ 32 →
      temper (u32 (u * 1103515245 + 12345)) = temper (u32 (v * 1103515245 + 12345)) → u = v) as Hinj.
    { intros u v Hu Hv He. apply lcg32_inj; [done..|]. apply temper_injective; [apply u32_range..|done]. }
    set (a := temper (u32 (x * _ + _))) in *. set (b := temper (u32 (y * _ + _))) in *. set (c := temper (u32 (z * _ + _))) in *.
    assert (a = b ∨ a = c ∨ b = c) as [E|[E|E]] by (Z.to_euclidean_division_equations; lia).
    + left. by apply Hinj.
    + right; left. by apply Hinj.
    + right; right. by apply Hinj.
Qed.

(** ** atexit and exit *)

(** The table with the functions [fs] registered. *)
Definition table (fs : list Z) : exit_st := ExitState (fs ++ replicate (ATEXIT_MAX - length fs) 0).

Section exit_ok.
Context {S : Type} `{X : !Lens S exit_st}.
Implicit Types s : S.

Lemma table_lookup fs i :
  (i < ATEXIT_MAX)%nat → (length fs <= ATEXIT_MAX)%nat →
  atexitHandlers (table fs) !! i = Some (default 0 (fs !! i)).
Proof.
  intros Hi Hl. cbn [table atexitHandlers]. destruct (decide (i < length fs)%nat) as [H|H].
  - rewrite lookup_app_l by done. by destruct (lookup_lt_is_Some_2 fs i H) as [f ->].
  - rewrite lookup_app_r, lookup_replicate_2 by lia. by rewrite (lookup_ge_None_2 fs) by lia.
Qed.

Lemma handler_ok s fs i :
  get s = table fs → (i < ATEXIT_MAX)%nat → (length fs <= ATEXIT_MAX)%nat →
  handler (Z.of_nat i) s = Ok (default 0 (fs !! i), s).
Proof. intros H Hi Hl. unfold handler. by rewrite H, Nat2Z.id, table_lookup. Qed.

Lemma registered fs i :
  Forall (λ f, f ≠ 0) fs → (i < length fs)%nat → ∃ f, fs !! i = Some f ∧ Z_bool f = true.
Proof.
  intros Hf Hi. destruct (lookup_lt_is_Some_2 fs i Hi) as [f Hfi]. exists f. split; [done|].
  pose proof (Forall_lookup_1 _ _ _ _ Hf Hfi). unfold Z_bool. by apply negb_true_iff, Z.eqb_neq.
Qed.

Lemma table_insert fs f :
  (length fs < ATEXIT_MAX)%nat →
  <[length fs := f]> (atexitHandlers (table fs)) = atexitHandlers (table (fs ++ [f])).
Proof.
  intros H. cbn [table atexitHandlers]. rewrite insert_app_r_alt by lia. rewrite Nat.sub_diag.
  replace (ATEXIT_MAX - length fs)%nat with (Datatypes.S (ATEXIT_MAX - length (fs ++ [f])))
    by (rewrite length_app; cbn [length]; lia).
  cbn [replicate]. by rewrite <-app_assoc.
Qed.

(** The search of atexit skips the handlers that are set. *)
Lemma atexit_scan s fs func k b s' :
  get s = table fs → Forall (λ f, f ≠ 0) fs → (length fs <= ATEXIT_MAX)%nat → k = length fs →
  (if Z.of_nat k <? Z.of_nat ATEXIT_MAX then set_handler (Z.of_nat k) func;; mret (Done 0)
   else mret (Done (-1))) s = Ok (@Done Z Z b, s') →
  atexit func s = Ok (b, s').
Proof.
  intros Hg Hf Hl -> Hend. unfold atexit.
  apply (loop_trace (λ j, 0 + Z.of_nat j) (λ _, s) _ (length fs)); [| |lia].
  - intros j Hj. cbv beta. rewrite Z.add_0_l. zcase (Z.of_nat j <? Z.of_nat ATEXIT_MAX).
    erewrite bind_ok by (apply handler_ok; [done|lia|done]).
    destruct (registered fs j Hf Hj) as (f & -> & Hz). change (default 0 (Some f)) with f. rewrite Hz. cbn [negb].
    by replace (Z.of_nat j + 1) with (0 + Z.of_nat (Datatypes.S j)) by lia.
  - cbv beta. rewrite Z.add_0_l. destruct (Z.of_nat (length fs) <? Z.of_nat ATEXIT_MAX) eqn:E; zb; [|exact Hend].
    erewrite bind_ok by (apply handler_ok; [done|lia|done]).
    rewrite lookup_ge_None_2 by lia. exact Hend.
Qed.
End exit_ok.

(** atexit appends the function to the table while fewer than 32 are
    registered, and afterwards returns -1 and changes nothing. *)
Theorem atexit_registers {S : Type} `{X : !Lens S exit_st} (s : S) (fs : list Z) (func : Z) :
  get s = table fs → Forall (λ f, f ≠ 0) fs → (length fs <= 32)%nat →
  atexit func s =
    if decide (length fs < 32)%nat then Ok (0, set (table (fs ++ [func])) s) else Ok (-1, s).
Proof.
  intros Hg Hf Hl. case_decide as Hc.
  - eapply atexit_scan; [done..|]. change ATEXIT_MAX with 32%nat. zcase (Z.of_nat (length fs) <? Z.of_nat 32).
    unfold set_handler, mbind, ST_bind. rewrite Nat2Z.id, Hg, table_insert by done. done.
  - eapply atexit_scan; [done..|]. change ATEXIT_MAX with 32%nat. by zcase (Z.of_nat (length fs) <? Z.of_nat 32).
Qed.

(** Calling the functions of a list in its order. *)
Definition call_all {S : Type} `{V : !ExitEnv S} (fs : list Z) : ST S unit :=
  foldr (λ f rest, call f;; rest) (mret tt) fs.

Section exit_order.
Context {S : Type} `{X : !Lens S exit_st} `{V : !ExitEnv S}.
Implicit Types s : S.

(** Handlers that register no further handlers. *)
Context (Hkeep : ∀ f s s', call f s = Ok (tt, s') → get s' = get s).

Lemma call_handlers_from n fs s fuel :
  get s = table fs → Forall (λ f, f ≠ 0) fs → (length fs <= ATEXIT_MAX)%nat →
  (n <= ATEXIT_MAX)%nat → (n < fuel)%nat →
  loop fuel (λ i,
    if 0 <=? i then
      h ← handler i;
      (if Z_bool h then call h else mret tt);; mret (Next (i - 1))
    else mret (Done tt)) (Z.of_nat n - 1) s = call_all (reverse (take n fs)) s.
Proof.
  revert s fuel. induction n as [|n IH]; intros s fuel Hg Hf Hl Hn Hfuel;
    (destruct fuel as [|fuel]; [lia|]); [done|].
  replace (Z.of_nat (Datatypes.S n) - 1) with (Z.of_nat n) by lia. cbn [loop].
  zcase (0 <=? Z.of_nat n). erewrite bind_ok by (apply handler_ok; [done|lia|done]).
  destruct (fs !! n) as [f|] eqn:Hfn; cbn [from_option id].
  - pose proof (lookup_lt_Some _ _ _ Hfn).
    destruct (registered fs n Hf ltac:(lia)) as (f' & ? & Hz). simplify_eq. rewrite Hz.
    erewrite take_S_r by done. rewrite reverse_app. change (reverse [f]) with [f]. cbn [app].
    unfold call_all. cbn [foldr]. fold (call_all (reverse (take n fs))). unfold mbind, ST_bind.
    destruct (call f s) as [[[] s']| |] eqn:Hcall; [|done|done]. cbn.
    apply IH; [by rewrite (Hkeep _ _ _ Hcall)|done|done|lia|lia].
  - rewrite take_ge by (apply lookup_ge_None_1 in Hfn; lia).
    rewrite <-(take_ge fs n) at 1 by (apply lookup_ge_None_1 in Hfn; lia).
    apply IH; [done|done|done|lia|lia].
Qed.
End exit_order.

(** exit calls the registered functions, the one registered last first,
    runs _fini and then ends the process with the status, whatever the handlers
    do to the rest of the state. *)
Theorem exit_runs_handlers {S : Type} `{X : !Lens S exit_st} `{V : !ExitEnv S}
    (s : S) (fs : list Z) (status : Z) :
  (∀ f s s', call f s = Ok (tt, s') → get s' = get s) →
  get s = table fs → Forall (λ f, f ≠ 0) fs → (length fs <= 32)%nat →
  exit status s = (call_all (reverse fs);; _fini;; _exit status) s.
Proof.
  intros Hkeep Hg Hf Hl. unfold exit, __callAtexitHandlers, mbind, ST_bind.
  rewrite (call_handlers_from Hkeep ATEXIT_MAX fs) by (done || (unfold ATEXIT_MAX; lia)).
  by rewrite take_ge by (unfold ATEXIT_MAX; lia).
Qed.

(** *** Instances *)
Lemma rand_in_range_witness : ∃ r s', rand initial_seed = Ok (r, s') ∧ 0 <= r <= RAND_MAX.
Proof.
  destruct (rand_in_range initial_seed) as (r & s' & H & Hr & _); [cbn; lia|].
  exists r, s'. exact (conj H Hr).
Defined.

Lemma rand_r_equidistributed_witness :
  ∃ r s', rand_r 64 (write_bytes ∅ 64 (le32 7)) = Ok (r, s') ∧ 0 <= r <= RAND_MAX.
Proof.
  destruct (rand_r_equidistributed (write_bytes ∅ 64 (le32 7)) 64 7) as (r & s' & H & Hr & _).
  - apply word_at_le32. lia.
  - exists r, s'. exact (conj H Hr).
Defined.

Lemma atexit_registers_witness : atexit 5 (table [3; 4]) = Ok (0, table [3; 4; 5]).
Proof.
  refine (eq_trans (atexit_registers (table [3; 4]) [3; 4] 5 _ _ _) _).
  - done.
  - repeat constructor; lia.
  - cbn. lia.
  - done.
Defined.

(** A process that records what exit calls: handlers as their addresses, _fini
    as 0 and the final system call as its negated status. *)
#[local] Instance exit_log : ExitEnv (exit_st * list Z) := {
  call f := λ '(t, l), Ok (tt, (t, l ++ [f]));
  _fini := λ '(t, l), Ok (tt, (t, l ++ [0]));
  _exit n := λ '(t, l), Ok (tt, (t, l ++ [- n]));
}.

Lemma exit_runs_handlers_witness :
  exit 9 (table [3; 4; 5], []) = Ok (tt, (table [3; 4; 5], [5; 4; 3; 0; -9])).
Proof.
  refine (eq_trans (exit_runs_handlers (S := exit_st * list Z) (table [3; 4; 5], []) [3; 4; 5] 9 _ _ _ _) _).
  - intros f [t l] [t' l'] H. cbn in *. by simplify_eq.
  - done.
  - repeat constructor; lia.
  - cbn. lia.
  - done.
Defined.
