(* ===== verification/Environ.v ===== *)
(** * The environment (libc/src/unistd/environ.c, libc/src/stdlib/getenv.c,
    setenv.c, unsetenv.c)

    [environ] is an array of pointers to strings [NAME=VALUE], closed by a null
    pointer; setenv moves it into memory of its own and keeps the number of
    entries and the capacity of that array. *)
From S2P Require Import Prelude Memory CString Errno Heap HeapSpec HeapLaws HeapClient.

(** The four variables of environ.c. *)
Record env_st : Type := Env {
  environ : Z;
  __mallocedEnviron : Z;
  __environLength : Z;
  __environSize : Z;
}.
Definition env_init : env_st := Env NULL NULL 0 0.

Definition equals_sign : Z := 61.

Section environ.
Context {S : Type} `{L : !Lens S mem} `{E : !Lens S errno_st} `{V : !Lens S env_st} `{M : !MemMap S}.
(** The static big block of malloc, and the address of the literal ["="]. *)
Context (emptyBigBlock equals : Z).

Definition get_env : ST S env_st := λ s, Ok (get s, s).
Definition set_env (e : env_st) : ST S unit := λ s, Ok (tt, set e s).

Definition getenv (fuel : nat) (name : Z) : ST S Z :=
  nameSize ← strlen fuel name;
  env ← get_env;
  loop fuel (λ envp,
    entry ← load32 envp;
    if Z_bool entry then
      length ← strcspn fuel entry equals;
      found ← (if length =? nameSize then r ← strncmp name entry length; mret (r =? 0)
               else mret false);
      if found : bool then mret (Done (entry + length + 1)) else mret (Next (envp + 4))
    else mret (Done NULL)) (environ env).

(** The loop of reset_environ that counts the entries of [environ]. *)
Definition count_entries (fuel : nat) (envp : Z) : ST S Z :=
  loop fuel (λ '(envp, length),
    entry ← load32 envp;
    if Z_bool entry then mret (Next (envp + 4, length + 1)) else mret (Done length)) (envp, 0).

Definition reset_environ (fuel : nat) : ST S bool :=
  env ← get_env;
  (if Z_bool (__mallocedEnviron env) then
     loop fuel (λ _,
       entry ← load32 (__mallocedEnviron env);
       if Z_bool entry then free entry;; mret (Next tt) else mret (Done tt)) tt;;
     free (__mallocedEnviron env)
   else mret tt);;
  length ← (if Z_bool (environ env) then count_entries fuel (environ env) else mret 0);
  let allocationSize := if 15 <? length then length + 1 else 16 in
  malloced ← malloc emptyBigBlock fuel (u32 (allocationSize * 4));
  set_env (Env (environ env) malloced (__environLength env) (__environSize env));;
  if negb (Z_bool malloced) then mret false else
  set_env (Env (environ env) malloced length allocationSize);;
  for_n (Z.to_nat length) 0 (λ i,
    entry ← load32 (environ env + 4 * i);
    copy ← strdup emptyBigBlock fuel entry;
    store32 (malloced + 4 * i) copy);;
  store32 (malloced + 4 * length) NULL;;
  set_env (Env malloced malloced length allocationSize);;
  mret true.

(** The guard of setenv and unsetenv. *)
Definition bad_name (fuel : nat) (name : Z) : ST S bool :=
  c ← load name;
  if negb (Z_bool c) then mret true
  else r ← strchr fuel name equals_sign; mret (Z_bool r).

(** [nameLength == strcspn(entry, "=") && strncmp(entry, name, nameLength) == 0] *)
Definition entry_has_name (fuel : nat) (entry name nameLength : Z) : ST S bool :=
  length ← strcspn fuel entry equals;
  if nameLength =? length then r ← strncmp entry name nameLength; mret (r =? 0) else mret false.

(** [stpcpy(stpcpy(stpcpy(entry, name), "="), value)] *)
Definition write_entry (fuel : nat) (entry name value : Z) : ST S unit :=
  p ← stpcpy fuel entry name; p ← stpcpy fuel p equals; stpcpy fuel p value;; mret tt.

(** The search of setenv: it returns from setenv ([inl]) when the name is
    there, and leaves the index of the closing null pointer ([inr]) if not. *)
Definition setenv_search (fuel : nat) (name value overwrite nameLength env : Z) : ST S (Z + Z) :=
  loop fuel (λ i,
    entry ← load32 (env + 4 * i);
    if Z_bool entry then
      found ← entry_has_name fuel entry name nameLength;
      if found : bool then
        if negb (Z_bool overwrite) then mret (Done (inl 0)) else
        valueLength ← strlen fuel value;
        newEntry ← malloc emptyBigBlock fuel (u32 (nameLength + valueLength + 2));
        if negb (Z_bool newEntry) then mret (Done (inl (-1))) else
        write_entry fuel newEntry name value;;
        old ← load32 (env + 4 * i);
        free old;;
        store32 (env + 4 * i) newEntry;;
        mret (Done (inl 0))
      else mret (Next (i + 1))
    else mret (Done (inr i))) 0.

(** [if (__environLength + 1 == __environSize)]: double the array; [false] when
    setenv returns -1. *)
Definition grow_environ (fuel : nat) : ST S bool :=
  e ← get_env;
  if u32 (__environLength e + 1) =? __environSize e then
    if 2 ^ 32 <=? __environSize e * 8 then set_errno ENOMEM;; mret false else
    newEnviron ← realloc emptyBigBlock fuel (environ e) (__environSize e * 8);
    if negb (Z_bool newEnviron) then mret false else
    set_env (Env newEnviron newEnviron (__environLength e) (u32 (__environSize e * 2)));;
    mret true
  else mret true.

Definition setenv (fuel : nat) (name value overwrite : Z) : ST S Z :=
  bad ← bad_name fuel name;
  if bad : bool then set_errno EINVAL;; mret (-1) else
  e ← get_env;
  ready ← (if (environ e =? NULL) || negb (environ e =? __mallocedEnviron e)
           then reset_environ fuel else mret true);
  if negb ready then mret (-1) else
  nameLength ← strlen fuel name;
  e ← get_env;
  r ← setenv_search fuel name value overwrite nameLength (environ e);
  match r with
  | inl result => mret result
  | inr i =>
      ready ← grow_environ fuel;
      if negb ready then mret (-1) else
      valueLength ← strlen fuel value;
      e ← get_env;
      entry ← malloc emptyBigBlock fuel (u32 (nameLength + valueLength + 2));
      store32 (environ e + 4 * i) entry;;
      if negb (Z_bool entry) then mret (-1) else
      write_entry fuel entry name value;;
      store32 (environ e + 4 * (i + 1)) NULL;;
      set_env (Env (environ e) (__mallocedEnviron e) (u32 (__environLength e + 1)) (__environSize e));;
      mret 0
  end.

(** Taking out entry [i]: the last entry moves into its place in an array of
    setenv's, and the entries behind it move down in any other. *)
Definition remove_entry (fuel : nat) (i : Z) : ST S unit :=
  e ← get_env;
  if environ e =? __mallocedEnviron e then
    old ← load32 (environ e + 4 * i);
    free old;;
    let length := u32 (__environLength e - 1) in
    set_env (Env (environ e) (__mallocedEnviron e) length (__environSize e));;
    last ← load32 (environ e + 4 * length);
    store32 (environ e + 4 * i) last;;
    store32 (environ e + 4 * length) NULL
  else
    loop fuel (λ j,
      entry ← load32 (environ e + 4 * j);
      if Z_bool entry then
        next ← load32 (environ e + 4 * (j + 1));
        store32 (environ e + 4 * j) next;;
        mret (Next (j + 1))
      else mret (Done tt)) i.

Definition unsetenv (fuel : nat) (name : Z) : ST S Z :=
  bad ← bad_name fuel name;
  if bad : bool then set_errno EINVAL;; mret (-1) else
  e ← get_env;
  if environ e =? NULL then mret 0 else
  name_length ← strlen fuel name;
  loop fuel (λ i,
    e ← get_env;
    entry ← load32 (environ e + 4 * i);
    if Z_bool entry then
      found ← entry_has_name fuel entry name name_length;
      (if found : bool then remove_entry fuel i else mret tt);;
      mret (Next (i + 1))
    else mret (Done 0)) 0.
End environ.

(** ** The environment in memory *)
Record entry : Type := Entry { e_addr : Z; e_name : list Z; e_value : list Z }.
Definition entry_text (e : entry) : list Z := e_name e ++ equals_sign :: e_value e.

Definition entry_ok (m : mem) (e : entry) : Prop :=
  e_addr e ≠ NULL ∧ (equals_sign ∉ e_name e) ∧ cstr m (e_addr e) (entry_text e).

Fixpoint pointers (m : mem) (p : Z) (es : list entry) : Prop :=
  match es with
  | [] => word_at m p NULL
  | e :: es => word_at m p (e_addr e) ∧ pointers m (p + 4) es
  end.

Definition env_rep (m : mem) (p : Z) (es : list entry) : Prop :=
  pointers m p es ∧ Forall (entry_ok m) es.

(** The first entry of a name. *)
Fixpoint find_entry (name : list Z) (es : list entry) : option entry :=
  match es with
  | [] => None
  | e :: es => if decide (e_name e = name) then Some e else find_entry name es
  end.

(** Fuel that covers every string and the array. *)
Definition env_size (es : list entry) : nat :=
  foldr (λ e k, length (entry_text e) + 1 + k)%nat 0%nat es.

Lemma env_size_cons e es : env_size (e :: es) = (length (entry_text e) + 1 + env_size es)%nat.
Proof. done. Qed.

(** *** Comparing the name of an entry *)
Definition not_equals (c : Z) : bool := negb (c =? equals_sign).

Lemma span_entry nm v : equals_sign ∉ nm → span_len not_equals (nm ++ equals_sign :: v) = length nm.
Proof.
  induction nm as [|c nm IH]; cbn [app span_len length]; intros H.
  - done.
  - apply not_elem_of_cons in H as [Hc H]. unfold not_equals at 1.
    assert ((c =? equals_sign) = false) as -> by (apply Z.eqb_neq; congruence). cbn [negb]. by rewrite IH.
Qed.

Lemma entry_name_prefix nm e :
  length nm = length (e_name e) →
  (lex_cmp (take (length nm) nm) (take (length nm) (entry_text e)) =? 0) = bool_decide (e_name e = nm).
Proof.
  intros Hl. unfold entry_text. rewrite Hl at 2. rewrite take_app_length, firstn_all.
  apply Bool.eq_true_iff_eq. rewrite Z.eqb_eq, lex_cmp_eq, bool_decide_eq_true. naive_solver.
Qed.

Lemma find_entry_name nm es e : find_entry nm es = Some e → e ∈ es ∧ e_name e = nm.
Proof.
  induction es as [|e' es IH]; cbn [find_entry]; [done|]. case_decide as Hd.
  - intros [= ->]. split; [by apply list_elem_of_here|done].
  - intros H. destruct (IH H). split; [by apply list_elem_of_further|done].
Qed.

Section environ_ok.
Context {S : Type} `{L : !Lens S mem} `{E : !Lens S errno_st} `{V : !Lens S env_st} `{M : !MemMap S}.
Context (emptyBigBlock equals : Z).
Implicit Types s : S.

Lemma strcspn_entry s fuel e :
  entry_ok (memory s) e → cstr (memory s) equals [equals_sign] →
  (length (entry_text e) < fuel)%nat →
  strcspn fuel (e_addr e) equals s = Ok (Z.of_nat (length (e_name e)), s).
Proof.
  intros (_ & Hn & Hc) Heq Hf. assert (1 < fuel)%nat as H1.
  { unfold entry_text in Hf. rewrite length_app in Hf. cbn [length] in Hf. lia. }
  rewrite (strcspn_ok s fuel _ _ _ _ Hc Heq Hf H1). unfold entry_text.
  rewrite (span_len_ext _ not_equals), (span_entry _ _ Hn); [done|].
  intros x. unfold not_equals. by rewrite mem_Z_single.
Qed.

(** *** getenv *)
Lemma getenv_loop s fuel name nm p es :
  env_rep (memory s) p es → cstr (memory s) name nm → cstr (memory s) equals [equals_sign] →
  (env_size es < fuel)%nat → ∀ fuel', (length es < fuel')%nat →
  loop fuel' (λ envp,
    entry ← load32 envp;
    if Z_bool entry then
      length ← strcspn fuel entry equals;
      found ← (if length =? Z.of_nat (List.length nm) then r ← strncmp name entry length; mret (r =? 0)
               else mret false);
      if found : bool then mret (Done (entry + length + 1)) else mret (Next (envp + 4))
    else mret (Done NULL)) p s =
  Ok (match find_entry nm es with
      | Some e => e_addr e + Z.of_nat (length nm) + 1
      | None => NULL
      end, s).
Proof.
  intros [Hp Hes] Hn Heq. name_loop body. revert p Hp.
  induction Hes as [|e es He Hes IH]; intros p Hp Hf fuel' Hf';
    (destruct fuel' as [|fuel']; [cbn in Hf'; lia|]); cbn [pointers find_entry] in *.
  - apply loop_done. subst body. cbv beta. by erewrite bind_ok; [|by apply load32_ok].
  - destruct Hp as [Hp Hps]. rewrite env_size_cons in Hf. cbn [length] in Hf'.
    assert (body p s = if decide (e_name e = nm)
      then Ok (Done (e_addr e + Z.of_nat (length nm) + 1), s) else Ok (Next (p + 4), s)) as Hbody.
    { subst body. cbv beta. erewrite bind_ok; [|by apply load32_ok].
      pose proof He as (Hnz & _ & Hc). unfold NULL in Hnz. unfold Z_bool. zcase (e_addr e =? 0). cbn [negb].
      erewrite bind_ok; [|apply strcspn_entry; [done..|lia]].
      destruct (Z.of_nat (length (e_name e)) =? Z.of_nat (length nm)) eqn:El; zb.
      - assert (length nm = length (e_name e)) as El' by lia. rewrite El.
        erewrite (bind_ok _ _ s).
        2: { erewrite bind_ok; [|by apply strncmp_ok]. rewrite entry_name_prefix by done. done. }
        case_decide as Hd; by rewrite ?(bool_decide_eq_true_2 _ Hd), ?(bool_decide_eq_false_2 _ Hd).
      - rewrite bind_ret, decide_False by (intros <-; done). done. }
    case_decide as Hd.
    + by apply loop_done.
    + rewrite (loop_next _ _ _ _ _ _ Hbody). apply IH; [done|lia|lia].
Qed.
End environ_ok.

(** getenv looks a name up in the environment: it returns a pointer to the
    value of the first entry of that name, and NULL when there is none. *)
Theorem getenv_finds {S : Type} `{L : !Lens S mem} `{V : !Lens S env_st}
    (s : S) (equals name : Z) (nm : list Z) (es : list entry) (fuel : nat) :
  env_rep (memory s) (environ (get s)) es → cstr (memory s) name nm →
  cstr (memory s) equals [equals_sign] → (env_size es + length nm < fuel)%nat →
  ∃ p, getenv equals fuel name s = Ok (p, s) ∧
    match find_entry nm es with
    | None => p = NULL
    | Some e => e ∈ es ∧ e_name e = nm ∧ cstr (memory s) p (e_value e)
    end.
Proof.
  intros Hr Hn Heq Hf. assert (length es <= env_size es)%nat as Hl.
  { clear. induction es as [|e es IH]; cbn [length]; [done|]. rewrite env_size_cons. lia. }
  eexists. split.
  - unfold getenv. erewrite bind_ok; [|apply strlen_ok; [done|lia]]. unfold get_env.
    erewrite bind_ok by done. apply (getenv_loop equals s fuel name nm _ es); [done..|lia|lia].
  - destruct (find_entry nm es) as [e|] eqn:Hfind; [|done].
    destruct (find_entry_name _ _ _ Hfind) as [Hin Hnm]. split; [done|]. split; [done|].
    destruct Hr as [_ Hes]. rewrite Forall_forall in Hes. destruct (Hes e Hin) as (_ & _ & Hc).
    apply (cstr_drop _ _ _ (length nm + 1)) in Hc;
      [|unfold entry_text; rewrite length_app, Hnm; cbn [length]; lia].
    replace (e_addr e + Z.of_nat (length nm) + 1) with (e_addr e + Z.of_nat (length nm + 1)) by lia.
    unfold entry_text in Hc.
    replace (drop (length nm + 1) (e_name e ++ equals_sign :: e_value e)) with (e_value e) in Hc; [done|].
    rewrite <-Hnm, <-drop_drop, drop_app_length. done.
Qed.

(** ** setenv *)

(** A string that lies in memory the caller owns, outside the array. *)
Definition held (m : mem) (empty : Z) (bs : list big) (arr size p : Z) (txt : list Z) : Prop :=
  cstr m p txt ∧ ∀ q, p <= q <= p + Z.of_nat (length txt) →
    own m empty bs q ∧ ¬ arr <= q < arr + 4 * size.

Lemma write_bytes_over m p bs x b cs :
  write_bytes (write_bytes m p (bs ++ [x])) (p + Z.of_nat (length bs)) (b :: cs) =
  write_bytes m p (bs ++ b :: cs).
Proof. rewrite !write_bytes_app. cbn [write_bytes]. by rewrite insert_insert_eq. Qed.

Lemma pointers_intro m p es :
  (∀ i e, es !! i = Some e → word_at m (p + 4 * Z.of_nat i) (e_addr e)) →
  word_at m (p + 4 * Z.of_nat (length es)) NULL → pointers m p es.
Proof.
  revert p. induction es as [|e es IH]; intros p H Hend; cbn [pointers length] in *.
  - by rewrite Z.mul_0_r, Z.add_0_r in Hend.
  - split; [specialize (H 0%nat e eq_refl); by rewrite Z.mul_0_r, Z.add_0_r in H|].
    apply IH.
    + intros i e' Hi. specialize (H (Datatypes.S i) e' Hi).
      by replace (p + 4 + 4 * Z.of_nat i) with (p + 4 * Z.of_nat (Datatypes.S i)) by lia.
    + by replace (p + 4 + 4 * Z.of_nat (length es)) with (p + 4 * Z.of_nat (Datatypes.S (length es))) by lia.
Qed.

Lemma cstr_write_other m p ws q txt :
  disjoint_range p (Z.of_nat (length ws)) q (Z.of_nat (length txt) + 1) →
  cstr m q txt → cstr (write_bytes m p ws) q txt.
Proof.
  unfold disjoint_range. intros Hd [H1 H2]. split; [done|]. apply bytes_at_write_other; [|done].
  unfold disjoint_range. rewrite length_app. cbn [length]. lia.
Qed.

Lemma ranges_apart p k q l :
  0 < k → 0 < l → (∀ x, p <= x < p + k → ¬ q <= x < q + l) → disjoint_range p k q l.
Proof.
  unfold disjoint_range. intros Hk Hl H.
  destruct (Z_le_gt_dec (p + k) q); [lia|]. destruct (Z_le_gt_dec (q + l) p); [lia|].
  exfalso. apply (H (Z.max p q)); lia.
Qed.

Lemma held_slot m empty bs arr size q txt i :
  held m empty bs arr size q txt → 0 <= i < size →
  disjoint_range (arr + 4 * i) 4 q (Z.of_nat (length txt) + 1).
Proof.
  intros [_ H] Hi. apply ranges_apart; [lia|lia|]. intros x Hx Hq. destruct (H x ltac:(lia)) as [_ Hno]. lia.
Qed.

Lemma first_pos_none c l : first_pos c l = None ↔ c ∉ l.
Proof.
  induction l as [|x l IH]; cbn [first_pos].
  - split; [intros _; apply not_elem_of_nil|done].
  - rewrite not_elem_of_cons. destruct (x =? c) eqn:E; zb.
    + split; [done|]. by intros [? _].
    + destruct (first_pos c l); cbn.
      * split; [done|]. intros [_ H]. by apply IH in H.
      * split; [|done]. intros _. split; [done|]. by apply IH.
Qed.

Definition valid_name (nm : list Z) : bool := bool_decide (nm ≠ [] ∧ equals_sign ∉ nm).

Section setenv_ok.
Context {S : Type} `{L : !Lens S mem} `{E : !Lens S errno_st} `{V : !Lens S env_st} `{M : !MemMap S}.
Context `{I : !Indep V L}.
Context (emptyBigBlock equals : Z).
Implicit Types s : S.

Lemma bad_name_ok s fuel name nm :
  cstr (memory s) name nm → 0 < name → (length nm < fuel)%nat →
  bad_name fuel name s = Ok (negb (valid_name nm), s).
Proof.
  intros Hn H0 Hf. unfold bad_name, valid_name. destruct nm as [|c nm].
  - pose proof Hn as Hc. apply cstr_nil in Hc. by run_load Hc.
  - pose proof Hn as Hc. apply cstr_cons in Hc as (Hok & Hc & _). run_load Hc. rewrite (nz_bool c Hok). cbn [negb].
    erewrite bind_ok; [|by apply strchr_ok]. change (u8 equals_sign) with equals_sign.
    destruct (first_pos equals_sign ((c :: nm) ++ [0])) as [k|] eqn:Hk.
    + cbn [ptr_of]. unfold Z_bool. zcase (name + Z.of_nat k =? 0). rewrite bool_decide_eq_false_2; [done|].
      intros [_ Hni]. assert (equals_sign ∉ (c :: nm) ++ [0]) as Hni'.
      { intros [Hin|Hin]%elem_of_app; [done|]. apply list_elem_of_singleton in Hin. by unfold equals_sign in Hin. }
      apply first_pos_none in Hni'. congruence.
    + apply first_pos_none in Hk. rewrite not_elem_of_app in Hk. cbn [ptr_of].
      rewrite bool_decide_eq_true_2; [done|]. by split; [|apply Hk].
Qed.

Lemma entry_has_name_ok s fuel e name nm :
  entry_ok (memory s) e → cstr (memory s) equals [equals_sign] → cstr (memory s) name nm →
  (length (entry_text e) < fuel)%nat →
  entry_has_name equals fuel (e_addr e) name (Z.of_nat (length nm)) s = Ok (bool_decide (e_name e = nm), s).
Proof.
  intros He Heq Hn Hf. unfold entry_has_name.
  erewrite bind_ok; [|apply strcspn_entry; [done..|lia]]. pose proof He as (_ & _ & Hc).
  destruct (Z.of_nat (length nm) =? Z.of_nat (length (e_name e))) eqn:El; zb.
  - erewrite bind_ok; [|by apply strncmp_ok]. rewrite lex_cmp_anti.
    pose proof (entry_name_prefix nm e ltac:(lia)) as Hp. rewrite <-Hp. unfold mret, ST_ret. do 2 f_equal.
    destruct (_ =? 0) eqn:H1, (lex_cmp _ _ =? 0) eqn:H2; zb; (done || lia).
  - rewrite bool_decide_eq_false_2; [done|]. intros <-. done.
Qed.

Lemma pointers_lookup m p es i e :
  pointers m p es → es !! i = Some e → word_at m (p + 4 * Z.of_nat i) (e_addr e).
Proof.
  revert p i. induction es as [|e' es IH]; intros p [|i]; cbn [pointers]; try done.
  - intros [H _] [= ->]. by rewrite Z.mul_0_r, Z.add_0_r.
  - intros [_ H] Hi. specialize (IH _ _ H Hi).
    by replace (p + 4 * Z.of_nat (Datatypes.S i)) with (p + 4 + 4 * Z.of_nat i) by lia.
Qed.

Lemma pointers_end m p es : pointers m p es → word_at m (p + 4 * Z.of_nat (length es)) NULL.
Proof.
  revert p. induction es as [|e' es IH]; intros p; cbn [pointers length].
  - by rewrite Z.mul_0_r, Z.add_0_r.
  - intros [_ H]. apply IH in H.
    by replace (p + 4 * Z.of_nat (Datatypes.S (length es))) with (p + 4 + 4 * Z.of_nat (length es)) by lia.
Qed.

Lemma env_size_lookup es i e : es !! i = Some e → (length (entry_text e) < env_size es)%nat.
Proof.
  revert i. induction es as [|e' es IH]; intros [|i]; try done; rewrite env_size_cons; cbn.
  - intros [= ->]. lia.
  - intros H. specialize (IH _ H). lia.
Qed.

Lemma env_size_length es : (length es <= env_size es)%nat.
Proof. induction es as [|e es IH]; cbn [length]; [done|]. rewrite env_size_cons. lia. Qed.

Lemma find_entry_absent nm es : find_entry nm es = None ↔ Forall (λ e, e_name e ≠ nm) es.
Proof.
  induction es as [|e es IH]; cbn [find_entry]; [by split|]. rewrite list.Forall_cons, <-IH.
  case_decide; tauto || (split; [done|by intros [? _]]).
Qed.

Lemma setenv_search_absent s fuel name value ow nm p es :
  env_rep (memory s) p es → cstr (memory s) name nm → cstr (memory s) equals [equals_sign] →
  find_entry nm es = None → (env_size es < fuel)%nat →
  setenv_search emptyBigBlock equals fuel name value ow (Z.of_nat (length nm)) p s =
  Ok (inr (Z.of_nat (length es)), s).
Proof.
  intros [Hp Hes] Hn Heq Hnone%find_entry_absent Hf. pose proof (env_size_length es).
  unfold setenv_search. apply (loop_scan _ _ _ (length es)); [| |lia].
  - intros j Hj. cbv beta. rewrite Z.add_0_l. destruct (lookup_lt_is_Some_2 es j Hj) as [e Hje].
    erewrite bind_ok; [|apply load32_ok; by eapply pointers_lookup].
    pose proof (Forall_lookup_1 _ _ _ _ Hes Hje) as He. pose proof (Forall_lookup_1 _ _ _ _ Hnone Hje) as Hne.
    pose proof (env_size_lookup _ _ _ Hje). cbv beta in Hne.
    pose proof He as (Hnz & _ & _). unfold NULL in Hnz. unfold Z_bool at 1. zcase (e_addr e =? 0). cbn [negb].
    erewrite bind_ok; [|apply (entry_has_name_ok _ _ _ _ nm); [done..|lia]].
    by rewrite bool_decide_eq_false_2.
  - cbv beta. rewrite Z.add_0_l. erewrite bind_ok; [|apply load32_ok; by apply pointers_end]. done.
Qed.

Lemma write_entry_ok s fuel p name value nm v :
  cstr (memory s) name nm → cstr (memory s) value v → cstr (memory s) equals [equals_sign] →
  mapped (memory s) p (Z.of_nat (length nm + length v) + 2) →
  disjoint_range p (Z.of_nat (length nm + length v) + 2) name (Z.of_nat (length nm) + 1) →
  disjoint_range p (Z.of_nat (length nm + length v) + 2) value (Z.of_nat (length v) + 1) →
  disjoint_range p (Z.of_nat (length nm + length v) + 2) equals 2 →
  (length nm + length v + 1 < fuel)%nat →
  write_entry equals fuel p name value s =
  Ok (tt, with_memory s (write_bytes (memory s) p (nm ++ equals_sign :: v ++ [0]))).
Proof.
  unfold disjoint_range. intros Hn Hv Heq Hm Hdn Hdv Hde Hf.
  unfold write_entry.
  erewrite bind_ok; [|apply stpcpy_ok; [exact Hn|..]; [|unfold disjoint_range; lia|lia]].
  2: { intros q Hq. apply Hm. lia. }
  erewrite bind_ok; [|apply (stpcpy_ok _ _ _ _ [equals_sign])]; autorewrite with lens; [| | | |cbn [length]; lia].
  2: { apply cstr_write_other; [|done]. unfold disjoint_range. rewrite length_app. cbn [length]. lia. }
  2: { intros q Hq. apply mapped_write with (q := p) (n := Z.of_nat (length nm + length v) + 2); [done|cbn [length] in Hq; lia]. }
  2: { unfold disjoint_range. cbn [length]. lia. }
  erewrite bind_ok; [|apply (stpcpy_ok _ _ _ _ v)]; autorewrite with lens; [| | | |lia].
  2: { apply cstr_write_other; [|apply cstr_write_other; [|done]]; unfold disjoint_range; rewrite ?length_app; cbn [length app]; lia. }
  2: { intros q Hq. apply mapped_write with (q := p) (n := Z.of_nat (length nm + length v) + 2);
       [by apply mapped_write|cbn [length] in Hq; lia]. }
  2: { unfold disjoint_range. cbn [length]. lia. }
  change ([equals_sign] ++ [0]) with (equals_sign :: [0]). rewrite write_bytes_over. unfold mret, ST_ret. do 3 f_equal.
  change (equals_sign :: [0]) with ([equals_sign] ++ [0]).
  rewrite app_assoc. replace (p + Z.of_nat (length nm) + Z.of_nat (length [equals_sign]))
    with (p + Z.of_nat (length (nm ++ [equals_sign]))) by (rewrite length_app; lia).
  destruct v as [|c v]; cbn [app].
  - rewrite write_bytes_over. by rewrite <-app_assoc.
  - rewrite write_bytes_over. by rewrite <-app_assoc.
Qed.
End setenv_ok.

(** The memory setenv leaves when it adds an entry: [m] extended by a fresh
    block, the entry in it, and two pointers of the array. *)
Lemma env_extended m m' empty bs arr size p es nm v :
  (∀ x, own m empty bs x → m' !! x = m !! x) → own_range m empty bs arr (4 * size) →
  Z.of_nat (length es) + 1 < size → 0 < p < 2 ^ 32 →
  disjoint_range p (Z.of_nat (length nm + length v) + 2) arr (4 * size) →
  (∀ q txt, held m empty bs arr size q txt →
    disjoint_range p (Z.of_nat (length nm + length v) + 2) q (Z.of_nat (length txt) + 1)) →
  env_rep m arr es → Forall (λ e, held m empty bs arr size (e_addr e) (entry_text e)) es →
  valid_name nm = true → Forall char_ok nm → Forall char_ok v →
  env_rep
    (write_bytes (write_bytes (write_bytes m' (arr + 4 * Z.of_nat (length es)) (le32 p))
       p (nm ++ equals_sign :: v ++ [0])) (arr + 4 * (Z.of_nat (length es) + 1)) (le32 NULL))
    arr (es ++ [Entry p nm v]).
Proof.
  intros Hsame Hown Hsz Hp Hda Hdis [Hps Hent] Hes Hvn Hnm Hv. unfold disjoint_range in Hda.
  set (n := length es) in *. set (slot := arr + 4 * Z.of_nat n). set (m1 := write_bytes m' slot (le32 p)).
  set (m2 := write_bytes m1 p _). set (m3 := write_bytes m2 _ _).
  assert (Z.of_nat (length (nm ++ equals_sign :: v ++ [0])) = Z.of_nat (length nm + length v) + 2) as Hlk.
  { rewrite length_app. cbn [length]. rewrite length_app. cbn [length]. lia. }
  assert (∀ q txt, held m empty bs arr size q txt → cstr m3 q txt) as Hstr3.
  { intros q txt Hq. apply cstr_write_other; [eapply held_slot; [done|lia]|].
    apply cstr_write_other; [rewrite Hlk; by apply Hdis|].
    apply cstr_write_other; [eapply held_slot; [done|lia]|].
    eapply cstr_own; [done| |apply Hq]. intros x Hx. apply Hq. lia. }
  assert (∀ i w, 0 <= i < Z.of_nat n → word_at m (arr + 4 * i) w → word_at m3 (arr + 4 * i) w) as Hw.
  { intros i w Hi Hw. apply word_at_write_other; [unfold disjoint_range; cbn [length le32]; lia|].
    apply word_at_write_other; [unfold disjoint_range; lia|].
    apply word_at_write_other; [unfold disjoint_range, slot; cbn [length le32]; lia|].
    eapply word_at_own; [done| |done]. intros x Hx. apply Hown. lia. }
  split.
  - apply pointers_intro.
    + intros i e Hi. apply lookup_snoc_Some in Hi as [[Hil Hi]|[-> <-]].
      { apply Hw; [lia|]. by eapply pointers_lookup. }
      cbn [e_addr]. fold n. fold slot. apply word_at_write_other; [unfold disjoint_range, slot; cbn [length le32]; lia|].
      apply word_at_write_other; [unfold disjoint_range, slot; lia|]. apply word_at_le32. lia.
    + rewrite length_app. cbn [length]. replace (Z.of_nat (length es + 1)) with (Z.of_nat n + 1) by lia.
      by apply word_at_le32.
  - apply Forall_app. split.
    + apply Forall_forall. intros e Hin. rewrite Forall_forall in Hent, Hes.
      destruct (Hent e Hin) as (H1 & H2 & _). split; [done|]. split; [done|]. apply Hstr3. by apply Hes.
    + apply Forall_singleton. split; [cbn; unfold NULL; lia|]. cbn [e_name e_addr entry_text e_value].
      unfold valid_name in Hvn. apply bool_decide_eq_true in Hvn as [_ Hni]. split; [done|].
      unfold entry_text. cbn [e_name e_value]. split; [apply Forall_app_2; [done|by constructor]|].
      rewrite <-app_assoc. cbn [app]. apply bytes_at_write_other; [|apply bytes_at_write].
      unfold disjoint_range. rewrite Hlk. cbn [length le32]. lia.
Qed.

(** setenv of a name that is not there, up to the allocation of the entry. *)
Lemma setenv_absent {S : Type} `{L : !Lens S mem} `{E : !Lens S errno_st} `{V : !Lens S env_st} `{M : !MemMap S}
    (s : S) (empty equals name value ow arr size : Z) (nm v : list Z) (es : list entry) (fuel : nat) :
  let n := Z.of_nat (length es) in
  get s = Env arr arr n size → 0 < arr → n + 1 < size < 2 ^ 28 → env_rep (memory s) arr es →
  cstr (memory s) name nm → cstr (memory s) value v → cstr (memory s) equals [equals_sign] → 0 < name →
  valid_name nm = true → find_entry nm es = None → Z.of_nat (length nm + length v) < 2 ^ 31 →
  (env_size es + length nm + length v + 2 < fuel)%nat →
  setenv empty equals fuel name value ow s =
  (entry ← malloc empty fuel (Z.of_nat (length nm + length v) + 2);
   store32 (arr + 4 * n) entry;;
   if negb (Z_bool entry) then mret (-1) else
   write_entry equals fuel entry name value;;
   store32 (arr + 4 * (n + 1)) NULL;;
   set_env (Env arr arr (n + 1) size);;
   mret 0) s.
Proof.
  cbv zeta. intros He Ha Hsz Hr Hcn Hcv Hce Hn0 Hvn Hfind Hlen Hf.
  unfold setenv. erewrite bind_ok; [|apply (bad_name_ok _ _ _ nm); [done|done|lia]]. rewrite Hvn. cbn [negb].
  unfold get_env. erewrite bind_ok by done. rewrite He. cbn [environ __mallocedEnviron].
  rewrite Z.eqb_refl. unfold NULL. zcase (arr =? 0). cbn [orb negb]. rewrite bind_ret. cbn [negb].
  erewrite bind_ok; [|apply strlen_ok; [exact Hcn|lia]]. erewrite bind_ok by done. rewrite He. cbn [environ].
  erewrite bind_ok; [|apply setenv_search_absent with (es := es); [done..|lia]]. cbv beta iota.
  erewrite bind_ok.
  2: { unfold grow_environ, get_env. erewrite bind_ok by done. rewrite He. cbn [__environLength __environSize].
       rewrite u32_small by lia. zcase (Z.of_nat (length es) + 1 =? size). done. }
  cbn [negb]. erewrite bind_ok; [|apply strlen_ok; [exact Hcv|lia]]. erewrite bind_ok by done. rewrite He.
  cbn [environ __mallocedEnviron __environLength __environSize].
  rewrite (u32_small (Z.of_nat (length es) + 1)), (u32_small (_ + _ + 2)) by lia.
  by replace (Z.of_nat (length nm) + Z.of_nat (length v) + 2) with (Z.of_nat (length nm + length v) + 2) by lia.
Qed.

(** C8. setenv adds a variable that is not in the environment: in an array of
    its own with room for one more pointer it returns 0, and the environment is
    the old one followed by NAME=VALUE; the heap stays well formed.  (getenv
    then finds the value.) *)
Theorem setenv_adds {S : Type} `{L : !Lens S mem} `{E : !Lens S errno_st} `{V : !Lens S env_st} `{M : !MemMap S}
    `{I : !Indep V L} (s : S) (empty equals name value ow arr size : Z) (nm v : list Z) (es : list entry)
    (bs bs' : list big) (p : Z) (fuel : nat) :
  let m := memory s in let n := Z.of_nat (length es) in
  heap_rep m empty bs → get s = Env arr arr n size → 0 < arr → n + 1 < size < 2 ^ 28 →
  own_range m empty bs arr (4 * size) → env_rep m arr es →
  Forall (λ e, held m empty bs arr size (e_addr e) (entry_text e)) es →
  held m empty bs arr size name nm → held m empty bs arr size value v →
  held m empty bs arr size equals [equals_sign] → 0 < name →
  valid_name nm = true → find_entry nm es = None →
  Z.of_nat (length nm + length v) < 2 ^ 31 →
  fit (rounded (Z.of_nat (length nm + length v) + 2)) bs = Some (p, bs') →
  (env_size es + length nm + length v + 2 + steps bs < fuel)%nat →
  ∃ s', setenv empty equals fuel name value ow s = Ok (0, s') ∧
    get s' = Env arr arr (n + 1) size ∧ heap_rep (memory s') empty bs' ∧
    env_rep (memory s') arr (es ++ [Entry p nm v]).
Proof.
  cbv zeta. intros Hh He Ha Hsz Hown Hr Hes Hname Hvalue Heq Hn0 Hvn Hfind Hlen Hfit Hf.
  pose proof (proj1 Hname) as Hcn. pose proof (proj1 Hvalue) as Hcv. pose proof (proj1 Heq) as Hce.
  set (n := length es) in *. remember (Z.of_nat (length nm + length v) + 2) as k eqn:Hk.
  destruct (malloc_client s empty bs k p bs' fuel) as (m' & Hrun & Hh' & Hp & Hmap & Hblk & Hkeep); [done|lia|lia|done|lia|].
  assert (∀ q txt, held (memory s) empty bs arr size q txt →
    disjoint_range p k q (Z.of_nat (length txt) + 1)) as Hdis.
  { intros q txt [_ Hq]. apply ranges_apart; [lia|lia|]. intros x Hx Hx'.
    destruct (Hblk x Hx) as [_ Hno]. destruct Hno. apply Hq. lia. }
  assert (∀ x, own (memory s) empty bs x → m' !! x = memory s !! x) as Hsame by (intros; by apply Hkeep).
  assert (disjoint_range p k arr (4 * size)) as Hda.
  { apply ranges_apart; [lia|lia|]. intros x Hx Hx'. destruct (Hblk x Hx) as [_ Hno]. destruct Hno. by apply Hown. }
  set (slot := arr + 4 * Z.of_nat n). set (m1 := write_bytes m' slot (le32 p)).
  assert (∀ q txt, held (memory s) empty bs arr size q txt → cstr m1 q txt) as Hstr1.
  { intros q txt Hq. apply cstr_write_other; [eapply held_slot; [done|lia]|].
    eapply cstr_own; [done| |apply Hq]. intros x Hx. apply Hq. lia. }
  assert (own_range m' empty bs' arr (4 * size)) as Hown' by (intros x Hx; by apply Hkeep, Hown).
  rewrite (setenv_absent s empty equals name value ow arr size nm v es) by (done || lia). fold n. rewrite <-Hk.
  erewrite bind_ok; [|exact Hrun].
  fold slot. erewrite bind_ok.
  2: { apply store32_ok. autorewrite with lens. intros x Hx. apply Hown'. unfold slot in Hx. lia. }
  autorewrite with lens. fold m1. unfold Z_bool. zcase (p =? 0). cbn [negb].
  erewrite bind_ok.
  2: { apply (write_entry_ok equals _ _ _ _ _ nm v); autorewrite with lens; rewrite <-?Hk.
       - by apply Hstr1.
       - by apply Hstr1.
       - by apply Hstr1.
       - by apply mapped_write.
       - by apply Hdis.
       - by apply Hdis.
       - by apply (Hdis equals [equals_sign]).
       - lia. }
  autorewrite with lens. set (m2 := write_bytes m1 p _).
  assert (Z.of_nat (length (nm ++ equals_sign :: v ++ [0])) = k) as Hlk.
  { rewrite length_app. cbn [length]. rewrite length_app. cbn [length]. lia. }
  erewrite bind_ok.
  2: { apply store32_ok. autorewrite with lens. intros x Hx.
       apply (mapped_write _ _ _ arr (4 * size)); [|lia]. apply mapped_write. intros y Hy. by apply Hown'. }
  autorewrite with lens. set (m3 := write_bytes m2 _ _). unfold set_env. rewrite bind_ok with (a := tt) (s' := set (Env arr arr (Z.of_nat n + 1) size) (with_memory s m3)) by done.
  eexists. split; [done|]. split; [by rewrite get_set|].
  replace (memory (set (Env arr arr (Z.of_nat n + 1) size) (with_memory s m3))) with m3.
  2: { unfold memory, with_memory. by rewrite set_get_indep, get_set. }
  split.
  - apply heap_rep_write; [apply heap_rep_write; [apply heap_rep_write; [done|]|]|];
      intros x Hx; rewrite ?length_le32 in Hx; repeat apply own_write.
    + apply Hown'. unfold slot in Hx. cbn [length le32] in Hx. lia.
    + apply Hblk. lia.
    + apply Hown'. cbn [length le32] in Hx. lia.
  - subst m3 m2 m1 slot. apply (env_extended (memory s) m' empty bs arr size p es nm v); rewrite <-?Hk; try done.
    + fold n. lia.
    + apply Hcn.
    + apply Hcv.
Qed.

(** *** unsetenv *)

(** The memory after the entries behind index [i] have moved down by one. *)
Fixpoint shift_down (m : mem) (p : Z) (ps : list Z) : mem :=
  match ps with [] => m | a :: ps => shift_down (write_bytes m p (le32 a)) (p + 4) ps end.

Lemma shift_down_out m p ps q :
  q < p ∨ p + 4 * Z.of_nat (length ps) <= q → shift_down m p ps !! q = m !! q.
Proof.
  revert m p. induction ps as [|a ps IH]; intros m p Hq; cbn [shift_down length] in *; [done|].
  rewrite IH, lookup_write_bytes_out by (cbn [length le32]; lia). done.
Qed.

Lemma shift_down_mapped m p ps q n : mapped m q n → mapped (shift_down m p ps) q n.
Proof.
  revert m p. induction ps as [|a ps IH]; intros m p H; cbn [shift_down]; [done|].
  apply IH. by apply mapped_write.
Qed.

Lemma shift_down_word m p ps i a :
  Forall (λ a, 0 <= a < 2 ^ 32) ps → ps !! i = Some a → word_at (shift_down m p ps) (p + 4 * Z.of_nat i) a.
Proof.
  intros H. revert m p i. induction H as [|b ps Hb H IH]; intros m p [|i]; cbn [shift_down]; try done.
  - intros [= <-]. rewrite Z.mul_0_r, Z.add_0_r.
    assert (word_at (write_bytes m p (le32 b)) p b) as (b0 & b1 & b2 & b3 & Hbs & Hr & ->) by by apply word_at_le32.
    exists b0, b1, b2, b3. split; [|done]. intros k c Hk. pose proof (lookup_lt_Some _ _ _ Hk).
    cbn [length] in *. rewrite shift_down_out by lia. by apply Hbs.
  - intros Hi. specialize (IH (write_bytes m p (le32 b)) (p + 4) i Hi).
    by replace (p + 4 * Z.of_nat (Datatypes.S i)) with (p + 4 + 4 * Z.of_nat i) by lia.
Qed.

(** A string outside the array of [n] entries. *)
Definition outside (m : mem) (arr : Z) (n : nat) (p : Z) (txt : list Z) : Prop :=
  cstr m p txt ∧ disjoint_range arr (4 * (Z.of_nat n + 1)) p (Z.of_nat (length txt) + 1).

Section unsetenv_ok.
Context {S : Type} `{L : !Lens S mem} `{E : !Lens S errno_st} `{V : !Lens S env_st} `{M : !MemMap S}.
Context `{I : !Indep V L}.
Context (equals : Z).
Implicit Types s : S.

Lemma shift_loop arr (rest : list Z) s (i a : Z) fuel :
  word_at (memory s) (arr + 4 * i) a → a ≠ 0 → Forall (λ b, b ≠ 0) rest →
  (∀ k b, (rest ++ [0]) !! k = Some b → word_at (memory s) (arr + 4 * (i + 1 + Z.of_nat k)) b) →
  (length rest + 1 < fuel)%nat →
  loop fuel (λ j,
    entry ← load32 (arr + 4 * j);
    if Z_bool entry then
      next ← load32 (arr + 4 * (j + 1));
      store32 (arr + 4 * j) next;;
      mret (Next (j + 1))
    else mret (Done tt)) i s =
  Ok (tt, with_memory s (shift_down (memory s) (arr + 4 * i) (rest ++ [0]))).
Proof.
  name_loop body. revert s i a fuel. induction rest as [|b rest IH]; intros s i a fuel Ha Hnz Hrest Hk Hf;
    (destruct fuel as [|fuel]; [lia|]); cbn [length] in Hf.
  - assert (body i s = Ok (Next (i + 1), with_memory s (write_bytes (memory s) (arr + 4 * i) (le32 0)))) as Hb.
    { subst body. cbv beta. erewrite bind_ok; [|by apply load32_ok]. unfold Z_bool. zcase (a =? 0). cbn [negb].
      specialize (Hk 0%nat 0 eq_refl). rewrite Z.add_0_r in Hk. erewrite bind_ok; [|by apply load32_ok].
      erewrite bind_ok; [|apply store32_ok; by eapply word_at_mapped]. done. }
    rewrite (loop_next _ _ _ _ _ _ Hb). destruct fuel as [|fuel]; [lia|].
    erewrite loop_done; [done|]. subst body. cbv beta. specialize (Hk 0%nat 0 eq_refl). rewrite Z.add_0_r in Hk.
    erewrite bind_ok; [|apply load32_ok; autorewrite with lens; apply word_at_write_other; [unfold disjoint_range; cbn [length le32]; lia|exact Hk]].
    done.
  - apply list.Forall_cons in Hrest as [Hbz Hrest].
    assert (body i s = Ok (Next (i + 1), with_memory s (write_bytes (memory s) (arr + 4 * i) (le32 b)))) as Hb.
    { subst body. cbv beta. erewrite bind_ok; [|by apply load32_ok]. unfold Z_bool. zcase (a =? 0). cbn [negb].
      specialize (Hk 0%nat b eq_refl). rewrite Z.add_0_r in Hk. erewrite bind_ok; [|by apply load32_ok].
      erewrite bind_ok; [|apply store32_ok; by eapply word_at_mapped]. done. }
    rewrite (loop_next _ _ _ _ _ _ Hb). rewrite (IH _ _ b); [| |done|done| |lia].
    + autorewrite with lens. cbn [app shift_down]. by replace (arr + 4 * (i + 1)) with (arr + 4 * i + 4) by lia.
    + autorewrite with lens. apply word_at_write_other; [unfold disjoint_range; cbn [length le32]; lia|].
      specialize (Hk 0%nat b eq_refl). by rewrite Z.add_0_r in Hk.
    + intros k c Hc. autorewrite with lens. apply word_at_write_other; [unfold disjoint_range; cbn [length le32]; lia|].
      specialize (Hk (Datatypes.S k) c Hc). by replace (i + 1 + 1 + Z.of_nat k) with (i + 1 + Z.of_nat (Datatypes.S k)) by lia.
Qed.

(** The search of unsetenv passes over entries of other names. *)
Lemma unsetenv_scan s fuel0 fuel name nm arr malloced len size (es : list entry) (i k : nat) :
  get s = Env arr malloced len size →
  (∀ j, (j < k)%nat → ∃ e, e ∈ es ∧ e_name e ≠ nm ∧ word_at (memory s) (arr + 4 * Z.of_nat (i + j)) (e_addr e)) →
  Forall (entry_ok (memory s)) es → word_at (memory s) (arr + 4 * Z.of_nat (i + k)) NULL →
  cstr (memory s) name nm → cstr (memory s) equals [equals_sign] →
  (env_size es < fuel0)%nat → (k < fuel)%nat →
  loop fuel (λ i,
    e ← get_env;
    entry ← load32 (environ e + 4 * i);
    if Z_bool entry then
      found ← entry_has_name equals fuel0 entry name (Z.of_nat (length nm));
      (if found : bool then remove_entry fuel0 i else mret tt);;
      mret (Next (i + 1))
    else mret (Done 0)) (Z.of_nat i) s = Ok (0, s).
Proof.
  intros He Hj Hes Hend Hn Heq Hf0 Hf. apply (loop_scan _ _ _ k); [| |done].
  - intros j Hjk. destruct (Hj j Hjk) as (e & Hin & Hne & Hw).
    apply list_elem_of_lookup_1 in Hin as [j' Hje]. cbv beta. unfold get_env.
    erewrite bind_ok by done. rewrite He. cbn [environ].
    replace (Z.of_nat i + Z.of_nat j) with (Z.of_nat (i + j)) by lia. erewrite bind_ok; [|by apply load32_ok].
    pose proof (Forall_lookup_1 _ _ _ _ Hes Hje) as Hok. pose proof (env_size_lookup _ _ _ Hje).
    pose proof Hok as (Hnz & _ & _). unfold NULL in Hnz. unfold Z_bool at 1. zcase (e_addr e =? 0). cbn [negb].
    erewrite bind_ok; [|apply (entry_has_name_ok equals _ _ _ _ nm); [done..|lia]].
    by rewrite bool_decide_eq_false_2.
  - cbv beta. unfold get_env. erewrite bind_ok by done. rewrite He. cbn [environ].
    replace (Z.of_nat i + Z.of_nat k) with (Z.of_nat (i + k)) by lia. by erewrite bind_ok; [|by apply load32_ok].
Qed.
End unsetenv_ok.

(** The pointers of the array and the null pointer behind them. *)
Lemma pointers_all m p es k a :
  pointers m p es → ((e_addr <$> es) ++ [NULL]) !! k = Some a → word_at m (p + 4 * Z.of_nat k) a.
Proof.
  intros Hp Hk. apply lookup_snoc_Some in Hk as [[Hl Hk]|[-> <-]].
  - apply list_lookup_fmap_Some in Hk as (e & -> & Hk). by eapply pointers_lookup.
  - rewrite length_fmap. by apply pointers_end.
Qed.

(** The array after entry [length es1] is taken out of it. *)
Lemma env_removed m arr es1 e es2 :
  env_rep m arr (es1 ++ e :: es2) →
  Forall (λ e', outside m arr (length (es1 ++ e :: es2)) (e_addr e') (entry_text e')) (es1 ++ es2) →
  let m' := shift_down m (arr + 4 * Z.of_nat (length es1)) ((e_addr <$> es2) ++ [NULL]) in
  env_rep m' arr (es1 ++ es2) ∧ same_outside arr (4 * (Z.of_nat (length (es1 ++ e :: es2)) + 1)) m m' ∧
  word_at m' (arr + 4 * Z.of_nat (length (es1 ++ e :: es2))) NULL.
Proof.
  intros [Hp Hes] Hout m'.
  assert (length (es1 ++ e :: es2) = length es1 + 1 + length es2)%nat as Hlen by (rewrite length_app; cbn [length]; lia).
  assert (∀ q, q < arr + 4 * Z.of_nat (length es1) ∨ arr + 4 * Z.of_nat (length (es1 ++ e :: es2)) <= q →
    m' !! q = m !! q) as Hm'.
  { intros q Hq. apply shift_down_out. rewrite length_app, length_fmap. cbn [length]. lia. }
  assert (∀ k w, (k < length es1)%nat ∨ k = length (es1 ++ e :: es2) →
    word_at m (arr + 4 * Z.of_nat k) w → word_at m' (arr + 4 * Z.of_nat k) w) as Hw.
  { intros k w Hk (b0 & b1 & b2 & b3 & Hb & Hr). exists b0, b1, b2, b3. split; [|done].
    intros j c Hc. pose proof (lookup_lt_Some _ _ _ Hc). cbn [length] in *. rewrite Hm' by lia. by apply Hb. }
  assert (Forall (λ a, 0 <= a < 2 ^ 32) ((e_addr <$> es2) ++ [NULL])) as Hrng.
  { apply Forall_forall. intros a Ha. apply list_elem_of_lookup_1 in Ha as [k Hk].
    assert (word_at m (arr + 4 * Z.of_nat (length es1 + 1 + k)) a) as Hwa.
    { apply (pointers_all _ _ _ _ _ Hp). rewrite fmap_app, <-app_assoc, lookup_app_r by (rewrite length_fmap; lia).
      rewrite length_fmap. cbn [fmap list_fmap app].
      by replace (length es1 + 1 + k - length es1)%nat with (Datatypes.S k) by lia. }
    by eapply word_at_range. }
  assert (∀ k a, ((e_addr <$> es2) ++ [NULL]) !! k = Some a →
    word_at m' (arr + 4 * Z.of_nat (length es1 + k)) a) as Hw2.
  { intros k a Hk. replace (arr + 4 * Z.of_nat (length es1 + k)) with (arr + 4 * Z.of_nat (length es1) + 4 * Z.of_nat k) by lia.
    by apply shift_down_word. }
  assert (same_outside arr (4 * (Z.of_nat (length (es1 ++ e :: es2)) + 1)) m m') as Hso by (intros q Hq; apply Hm'; lia).
  split; [|split; [done|]].
  - split.
    + apply pointers_intro.
      * intros i e' Hi. apply lookup_app_Some in Hi as [Hi|[Hi1 Hi]].
        { pose proof (lookup_lt_Some _ _ _ Hi). apply Hw; [lia|]. apply (pointers_lookup _ _ _ _ _ Hp).
          by rewrite lookup_app_l. }
        replace i with (length es1 + (i - length es1))%nat by lia. apply Hw2.
        rewrite lookup_app_l by (rewrite length_fmap; by apply lookup_lt_Some in Hi).
        by rewrite list_lookup_fmap, Hi.
      * rewrite length_app. apply Hw2. rewrite lookup_app_r, length_fmap, Nat.sub_diag by (rewrite length_fmap; lia). done.
    + apply Forall_app in Hes as [Hes1 Hes2]. apply list.Forall_cons in Hes2 as [_ Hes2].
      assert (Forall (entry_ok m) (es1 ++ es2)) as Hes by by apply Forall_app.
      apply Forall_forall. intros e' Hin. rewrite Forall_forall in Hes, Hout.
      destruct (Hes e' Hin) as (H1 & H2 & H3). destruct (Hout e' Hin) as [_ Hd]. split; [done|]. split; [done|].
      by eapply cstr_same_outside.
  - apply Hw; [by right|]. by apply pointers_end.
Qed.

(** unsetenv takes a variable out of an environment that setenv has not
    copied yet: it returns 0, the entries behind the variable move down, the
    order of the others is kept, and nothing but the array changes. *)
Theorem unsetenv_removes {S : Type} `{L : !Lens S mem} `{E : !Lens S errno_st} `{V : !Lens S env_st} `{M : !MemMap S}
    `{I : !Indep V L} (s : S) (equals name arr malloced len size : Z) (nm : list Z)
    (es1 es2 : list entry) (e : entry) (fuel : nat) :
  let m := memory s in let es := es1 ++ e :: es2 in
  get s = Env arr malloced len size → arr ≠ NULL → arr ≠ malloced → env_rep m arr es →
  Forall (λ e, outside m arr (length es) (e_addr e) (entry_text e)) es →
  outside m arr (length es) name nm → outside m arr (length es) equals [equals_sign] →
  0 < name → valid_name nm = true →
  e_name e = nm → find_entry nm es1 = None → find_entry nm es2 = None →
  (env_size es + length nm + 1 < fuel)%nat →
  ∃ m', unsetenv equals fuel name s = Ok (0, with_memory s m') ∧
    env_rep m' arr (es1 ++ es2) ∧ same_outside arr (4 * (Z.of_nat (length es) + 1)) m m'.
Proof.
  cbv zeta. intros He Ha Hmal Hr Hout Hname Heq Hn0 Hvn Hen Hf1%find_entry_absent Hf2%find_entry_absent Hf.
  set (es := es1 ++ e :: es2) in *. pose proof Hr as [Hp Hes]. pose proof (proj1 Hname) as Hcn.
  assert (length es = length es1 + 1 + length es2)%nat as Hlen by (subst es; rewrite length_app; cbn [length]; lia).
  pose proof (env_size_length es) as Hsl.
  assert (Forall (λ e', outside (memory s) arr (length es) (e_addr e') (entry_text e')) (es1 ++ es2)) as Hout'.
  { subst es. apply Forall_app in Hout as [? H2]. apply list.Forall_cons in H2 as [_ ?]. by apply Forall_app. }
  destruct (env_removed _ _ _ _ _ Hr Hout') as (Hr' & Hso & Hend). fold es in Hso, Hend.
  set (m' := shift_down _ _ _) in *. exists m'. split; [|done].
  assert (es !! length es1 = Some e) as Hi by by subst es; apply list_lookup_middle.
  pose proof (Forall_lookup_1 _ _ _ _ Hes Hi) as Hok. pose proof Hok as (Hnz & _ & _). unfold NULL in Hnz, Ha.
  pose proof (env_size_lookup _ _ _ Hi) as Hsz.
  unfold unsetenv. erewrite bind_ok; [|apply (bad_name_ok _ _ _ nm); [done|done|lia]]. rewrite Hvn. cbn [negb].
  rewrite (bind_ok get_env _ _ (get s) s) by done. rewrite He. cbn [environ]. unfold NULL. zcase (arr =? 0).
  erewrite bind_ok; [|apply strlen_ok; [exact Hcn|lia]].
  rewrite (loop_skip _ _ _ (length es1)); [|lia|].
  2: { intros j Hj. rewrite Z.add_0_l. destruct (lookup_lt_is_Some_2 es1 j Hj) as [e' Hje].
       assert (es !! j = Some e') as Hje' by by subst es; rewrite lookup_app_l.
       rewrite (bind_ok get_env _ _ (get s) s) by done. rewrite He. cbn [environ].
       erewrite bind_ok; [|apply load32_ok; by eapply pointers_lookup].
       pose proof (Forall_lookup_1 _ _ _ _ Hes Hje') as Hok'. pose proof Hok' as (Hnz' & _ & _). unfold NULL in Hnz'.
       pose proof (env_size_lookup _ _ _ Hje'). unfold Z_bool at 1. zcase (e_addr e' =? 0). cbn [negb].
       erewrite bind_ok; [|apply (entry_has_name_ok equals _ _ _ _ nm); [done|apply Heq|done|lia]].
       pose proof (Forall_lookup_1 _ _ _ _ Hf1 Hje) as Hne. cbv beta in Hne. by rewrite bool_decide_eq_false_2. }
  rewrite Z.add_0_l. replace (fuel - length es1)%nat with (Datatypes.S (fuel - length es1 - 1)) by lia. erewrite loop_next.
  2: { cbv beta. rewrite (bind_ok get_env _ _ (get s) s) by done. rewrite He. cbn [environ].
       erewrite bind_ok; [|apply load32_ok; by eapply pointers_lookup]. unfold Z_bool at 1. zcase (e_addr e =? 0). cbn [negb].
       erewrite bind_ok; [|apply (entry_has_name_ok equals _ _ _ _ nm); [done|apply Heq|done|lia]].
       rewrite bool_decide_eq_true_2 by done. cbv iota.
       erewrite bind_ok; [reflexivity|]. unfold remove_entry. rewrite (bind_ok get_env _ _ (get s) s) by done. rewrite He. cbn [environ __mallocedEnviron].
       zcase (arr =? malloced). apply (shift_loop arr (e_addr <$> es2)) with (a := e_addr e).
       - by eapply pointers_lookup.
       - done.
       - apply Forall_fmap. subst es. apply Forall_app in Hes as [_ Hes]. apply list.Forall_cons in Hes as [_ Hes].
         eapply list.Forall_impl; [exact Hes|]. by intros x (? & _).
       - intros k a Hk. replace (Z.of_nat (length es1) + 1 + Z.of_nat k) with (Z.of_nat (length es1 + 1 + k)) by lia.
         apply (pointers_all _ _ _ _ _ Hp). subst es. rewrite fmap_app, <-app_assoc, lookup_app_r by (rewrite length_fmap; lia).
         rewrite length_fmap. cbn [fmap list_fmap app].
         by replace (length es1 + 1 + k - length es1)%nat with (Datatypes.S k) by lia.
       - rewrite length_fmap. lia. }
  replace (Z.of_nat (length es1) + 1) with (Z.of_nat (length es1 + 1)) by lia. fold NULL. fold m'.
  apply (unsetenv_scan equals _ fuel _ name nm arr malloced len size (es1 ++ es2) _ (length es2 - 1)).
  - unfold with_memory. by rewrite get_set_indep.
  - intros j Hj. destruct (lookup_lt_is_Some_2 es2 (Datatypes.S j) ltac:(lia)) as [e' Hje].
    assert ((es1 ++ es2) !! (length es1 + 1 + j)%nat = Some e') as Hje'.
    { rewrite lookup_app_r by lia. by replace (length es1 + 1 + j - length es1)%nat with (Datatypes.S j) by lia. }
    exists e'. split; [by eapply list_elem_of_lookup_2|]. split.
    + by apply (Forall_lookup_1 _ _ _ _ Hf2 Hje).
    + rewrite memory_with. by apply (pointers_lookup _ _ (es1 ++ es2)); [apply Hr'|].
  - rewrite memory_with. apply Hr'.
  - rewrite memory_with. destruct es2 as [|e2 es2].
    + cbn [length] in Hlen |- *. by replace (length es1 + 1 + (0 - 1))%nat with (length es) by lia.
    + replace (length es1 + 1 + (length (e2 :: es2) - 1))%nat with (length (es1 ++ e2 :: es2)); [by apply pointers_end, Hr'|].
      rewrite length_app. cbn [length]. lia.
  - rewrite memory_with. destruct Hname as [Hc Hd]. by eapply cstr_same_outside.
  - rewrite memory_with. destruct Heq as [Hc Hd]. by eapply cstr_same_outside.
  - subst es. clear - Hf. assert (∀ l1 l2, env_size (l1 ++ l2) = env_size l1 + env_size l2)%nat as Happ.
    { intros l1 l2. induction l1 as [|x l1 IH]; cbn [app]; [done|]. rewrite !env_size_cons, IH. lia. }
    rewrite Happ, env_size_cons in Hf. rewrite Happ. lia.
  - lia.
Qed.

(** *** Instances *)
Definition demo : Type := mem * (errno_st * env_st).

(** No pages are asked for in these instances. *)
#[local] Instance demo_map : MemMap demo := { mapMemory _ := fault; unmapMemory _ _ := fault }.

(** Strings at 1000, 1020, 1040 and 1060, and an array at [arr]. *)
Definition demo_strings (m : mem) : mem :=
  write_bytes (write_bytes (write_bytes (write_bytes m
    1000 (str "HOME=/" ++ [0])) 1020 (str "A=b" ++ [0])) 1040 (str "A" ++ [0])) 1060 (str "=" ++ [0]).
Definition home_entry : entry := Entry 1000 (str "HOME") (str "/").
Definition a_entry : entry := Entry 1020 (str "A") (str "b").
Definition demo_env : demo :=
  (write_bytes (demo_strings ∅) 64 (words [1000; 1020; 0]), (Errno 0, Env 64 0 0 0)).

Lemma demo_env_rep : env_rep (memory demo_env) 64 [home_entry; a_entry].
Proof.
  split; [repeat split; apply word_check; vm_compute; done|].
  repeat constructor; try done; try (apply cstr_check; vm_compute; done); by apply (bool_decide_eq_true_1 _).
Qed.

Lemma getenv_finds_witness : ∃ p,
  getenv 1060 100 1040 demo_env = Ok (p, demo_env) ∧ cstr (memory demo_env) p (str "b").
Proof.
  destruct (getenv_finds demo_env 1060 1040 (str "A") [home_entry; a_entry] 100) as (p & H & Hp).
  - apply demo_env_rep.
  - apply cstr_check. vm_compute. done.
  - apply cstr_check. vm_compute. done.
  - cbn. lia.
  - destruct Hp as (_ & _ & Hp). exists p. exact (conj H Hp).
Defined.

Lemma unsetenv_removes_witness : ∃ m',
  unsetenv 1060 100 1040 demo_env = Ok (0, (m', (Errno 0, Env 64 0 0 0))) ∧ env_rep m' 64 [home_entry].
Proof.
  destruct (unsetenv_removes demo_env 1060 1040 64 0 0 0 (str "A") [home_entry] [] a_entry 100) as (m' & H & Hm & _).
  - done.
  - done.
  - done.
  - apply demo_env_rep.
  - repeat constructor; try (apply cstr_check; vm_compute; done); unfold disjoint_range; cbn; lia.
  - split; [apply cstr_check; vm_compute; done|unfold disjoint_range; cbn; lia].
  - split; [apply cstr_check; vm_compute; done|unfold disjoint_range; cbn; lia].
  - lia.
  - vm_compute. done.
  - done.
  - done.
  - done.
  - cbn. lia.
  - exists m'. exact (conj H Hm).
Defined.

(** The heap of [demo_bigs] with an array of four pointers in its first chunk,
    the strings above it. *)
Definition env_big : list Z :=
  [MAGIC_BIG_MCB; 192; 64; 0; MAGIC_USED_MCB; 16; 0; 304; 1000; 0; 0; 0] ++
  [MAGIC_FREE_MCB; 64; 272; 384] ++ replicate 16 0 ++
  [MAGIC_USED_MCB; 32; 304; 432] ++ replicate 8 9 ++ [MAGIC_END_MCB; 0; 384; 0].
Definition env_mem : mem := demo_strings (memory (demo_heap_of env_big)).
Definition demo_setenv : demo := (env_mem, (Errno 0, Env 288 288 1 4)).

Lemma env_heap : heap_rep env_mem 64 demo_bigs.
Proof.
  assert (Forall (λ w, 0 <= w < 2 ^ 32) env_big) as Hr by by repeat constructor.
  assert (bytes_at (memory (demo_heap_of env_big)) 256 (words env_big)) as Hb by apply bytes_at_write.
  assert (heap_rep (memory (demo_heap_of env_big)) 64 demo_bigs) as [Hs Hap].
  { apply demo_heap_of_rep; [exact Hr|].
    split; [|split; [|split; [|split; [by repeat constructor|split; [|done]]]]].
    - apply (words_mcb _ _ _ 0 Hb Hr). cbn. lia.
    - split; [apply (words_mcb _ _ _ 4 Hb Hr); cbn; lia|].
      split; [apply (words_mcb _ _ _ 12 Hb Hr); cbn; lia|].
      split; [apply (words_mcb _ _ _ 32 Hb Hr); cbn; lia|done].
    - apply (words_mcb _ _ _ 44 Hb Hr). cbn. lia.
    - eapply bytes_at_mapped; [exact Hb|done]. }
  split; [|exact Hap]. eapply bigs_seg_ext; [|exact Hs]. intros q Hq.
  assert (q < 1000).
  { unfold in_heap, demo_bigs in Hq. rewrite !Exists_cons, Exists_nil in Hq. unfold in_big, big_size in Hq.
    cbn in Hq. lia. }
  unfold env_mem, demo_strings. by rewrite !lookup_write_bytes_out by lia.
Qed.

Lemma env_own_string q : 1000 <= q < 1007 ∨ 1020 <= q < 1024 ∨ 1040 <= q < 1042 ∨ 1060 <= q < 1062 →
  own env_mem 64 demo_bigs q.
Proof.
  intros Hq. split.
  - unfold env_mem, demo_strings. rewrite !lookup_write_bytes. repeat case_decide; try (cbn in *; lia);
      apply lookup_lt_is_Some; cbn in *; lia.
  - right. unfold in_heap, demo_bigs. rewrite !Exists_cons, Exists_nil. unfold in_big, big_size. cbn. lia.
Qed.

Lemma held_demo p txt :
  forallb (λ b, bool_decide (char_ok b)) txt && bytes_b env_mem p (txt ++ [0]) = true →
  (p = 1000 ∧ length txt = 6%nat ∨ p = 1020 ∧ length txt = 3%nat ∨
   (p = 1040 ∨ p = 1060) ∧ length txt = 1%nat) →
  held env_mem 64 demo_bigs 288 4 p txt.
Proof.
  intros Hc Hp. split; [by apply cstr_check|]. intros q Hq. split; [apply env_own_string|]; lia.
Qed.

Lemma setenv_adds_witness : ∃ s',
  setenv 64 1060 100 1040 1040 0 demo_setenv = Ok (0, s') ∧
  env_rep (memory s') 288 [home_entry; Entry 320 (str "A") (str "A")].
Proof.
  destruct (setenv_adds demo_setenv 64 1060 1040 1040 0 288 4 (str "A") (str "A") [home_entry]
    demo_bigs [Big 256 [(false, 16); (false, 16); (true, 32); (false, 32)]] 320 100) as (s' & H & _ & _ & He).
  - apply env_heap.
  - done.
  - lia.
  - cbn. lia.
  - intros q Hq. split.
    + apply (in_heap_mapped _ _ _ _ q (proj1 env_heap)). apply Exists_cons_tl, Exists_cons_hd.
      unfold in_big, big_size. cbn. lia.
    + left. apply Exists_cons_hd. unfold b_first. cbn. left. split; [done|lia].
  - split; [repeat split; apply word_check; vm_compute; done|].
    repeat constructor; try done; try (apply cstr_check; vm_compute; done); by apply (bool_decide_eq_true_1 _).
  - constructor; [|constructor]. apply held_demo; [vm_compute; done|cbn; lia].
  - apply held_demo; [vm_compute; done|cbn; lia].
  - apply held_demo; [vm_compute; done|cbn; lia].
  - apply held_demo; [vm_compute; done|cbn; lia].
  - lia.
  - vm_compute. done.
  - done.
  - cbn. lia.
  - vm_compute. done.
  - cbn. lia.
  - exists s'. exact (conj H He).
Defined.
