(* ===== verification/Unistd.v ===== *)
(** * System calls seen from programs (libc/src/fcntl, unistd, dirent, sys)

    The class [Sys] is what the C library asks of the kernel, one field per
    system call; the wrappers above it are the library's.  Objects whose
    address is passed to a call and that live on the stack of the caller are at
    addresses given to the section. *)
From S2P Require Import Prelude Memory CString Errno Heap General Environ.

(** ** fcntl.h, stat.h, dirent.h, unistd.h, wait.h *)
Definition AT_FDCWD : Z := -1.
Definition O_EXEC : Z := Z.shiftl 1 0.
Definition O_RDONLY : Z := Z.shiftl 1 1.
Definition O_WRONLY : Z := Z.shiftl 1 2.
Definition O_RDWR : Z := Z.lor O_RDONLY O_WRONLY.
Definition O_SEARCH : Z := O_EXEC.
Definition O_APPEND : Z := Z.shiftl 1 3.
Definition O_CREAT : Z := Z.shiftl 1 5.
Definition O_DIRECTORY : Z := Z.shiftl 1 6.
Definition O_TRUNC : Z := Z.shiftl 1 12.

Definition S_IFMT : Z := 0xF000.
Definition S_IFDIR : Z := 0x4000.
Definition S_IRUSR : Z := 0x100.
Definition S_IWUSR : Z := 0x80.
Definition S_IXUSR : Z := 0x40.
Definition S_IRGRP : Z := 0x20.
Definition S_IWGRP : Z := 0x10.
Definition S_IXGRP : Z := 0x8.
Definition S_IROTH : Z := 0x4.
Definition S_IWOTH : Z := 0x2.
Definition S_IXOTH : Z := 0x1.
Definition S_ISDIR (mode : Z) : bool := Z.land mode S_IFMT =? S_IFDIR.

Definition st_dev : Z := 0.
Definition st_ino : Z := 4.
Definition st_mode : Z := 12.
Definition sizeof_stat : Z := 16.
Definition d_dev : Z := 0.
Definition d_ino : Z := 4.
Definition d_reclen : Z := 12.
Definition d_name : Z := 16.
Definition sizeof_dirent : Z := 16.

Definition R_OK : Z := Z.shiftl 1 0.
Definition W_OK : Z := Z.shiftl 1 1.
Definition X_OK : Z := Z.shiftl 1 2.
Definition WEXITSTATUS (status : Z) : Z := Z.land status 0xFF.
Definition RFPROC : Z := Z.shiftl 1 0.
Definition RFFDG : Z := Z.shiftl 1 1.
Definition _RFFORK : Z := Z.lor RFPROC RFFDG.

(** ** The calls *)
Class Sys (S : Type) : Type := {
  sys_read : Z → Z → Z → ST S Z;
  sys_write : Z → Z → Z → ST S Z;
  sys_openat : Z → Z → Z → Z → ST S Z;
  sys_close : Z → ST S Z;
  sys_fstat : Z → Z → ST S Z;
  sys_fstatat : Z → Z → Z → Z → ST S Z;
  sys_readdir : Z → Z → Z → Z → ST S Z;
  sys_fchdirat : Z → Z → ST S Z;
  sys_rfork : Z → ST S Z;
  sys_execve : Z → Z → Z → ST S (option Z);   (* [None]: the program is replaced *)
  sys_waitpid : Z → Z → Z → ST S Z;
  sys_nanosleep : Z → Z → ST S Z;
  sys_uname : Z → ST S Z;
}.

Section unistd.
Context {S : Type} `{L : !Lens S mem} `{E : !Lens S errno_st} `{V : !Lens S env_st} `{M : !MemMap S} `{K : !Sys S}.
(** The static big block of malloc, and room for a local object. *)
Context (emptyBigBlock local : Z).

(** *** fcntl: the variadic [mode] is an argument *)
Definition openat (fd path flags vararg : Z) : ST S Z :=
  let mode := if Z_bool (Z.land flags O_CREAT) then vararg else 0 in
  sys_openat fd path flags mode.

Definition open (path flags vararg : Z) : ST S Z :=
  let mode := if flags =? O_CREAT then vararg else 0 in
  openat AT_FDCWD path flags mode.

(** *** sys/stat *)
Definition stat (path result : Z) : ST S Z := sys_fstatat AT_FDCWD path result 0.
Definition fstat (fd result : Z) : ST S Z := sys_fstat fd result.

(** *** unistd *)
(** [accessible &= (st.st_mode & bits)]: the bits are and-ed with 1. *)
Definition access (path mode : Z) : ST S Z :=
  r ← stat path local;
  if s32 r <? 0 then mret (-1) else
  st ← load32 (local + st_mode);
  let check accessible bit bits :=
    if Z_bool (Z.land mode bit) then accessible && Z_bool (Z.land (Z.land st bits) 1) else accessible in
  let accessible := check true R_OK (Z.lor (Z.lor S_IRUSR S_IRGRP) S_IROTH) in
  let accessible := check accessible W_OK (Z.lor (Z.lor S_IWUSR S_IWGRP) S_IWOTH) in
  let accessible := check accessible X_OK (Z.lor (Z.lor S_IXUSR S_IXGRP) S_IXOTH) in
  mret (if accessible then 0 else -1).

Definition chdir (path : Z) : ST S Z := sys_fchdirat AT_FDCWD path.
Definition fork : ST S Z := sys_rfork _RFFORK.
Definition execv (path argv : Z) : ST S (option Z) :=
  e ← get_env; sys_execve path argv (environ e).

(** The variadic arguments are the list behind [argv0], without the null
    pointer that closes it. *)
Definition execl (fuel : nat) (path argv0 : Z) (ap : list Z) : ST S (option Z) :=
  let argc := Z.of_nat (Datatypes.S (length ap)) in
  argv ← malloc emptyBigBlock fuel (u32 (4 * (argc + 1)));
  (fix fill (i : Z) (args : list Z) : ST S unit :=
     match args with
     | [] => mret tt
     | a :: args => store32 (argv + 4 * i) a;; fill (i + 1) args
     end) 0 (argv0 :: ap);;
  store32 (argv + 4 * argc) NULL;;
  r ← execv path argv;
  match r with
  | None => mret None
  | Some _ => free argv;; mret (Some (-1))
  end.

(** [struct timespec]: two objects at [local]. *)
Definition sleep (seconds : Z) : ST S Z :=
  let requested := local in
  let remaining := local + 12 in
  store32 requested (u32 seconds);; store32 (requested + 4) 0;;
  store32 (requested + 8) 0;;
  result ← sys_nanosleep requested remaining;
  if s32 result <? 0 then load32 remaining else mret 0.

(** *** dirent: DIR is fd, dirent, offset *)
Definition dir_fd : Z := 0.
Definition dir_dirent : Z := 4.
Definition dir_offset : Z := 8.
Definition sizeof_DIR : Z := 12.

Definition fdopendir (fuel : nat) (fd : Z) : ST S Z :=
  dir ← malloc emptyBigBlock fuel sizeof_DIR;
  store32 (dir + dir_fd) (u32 fd);;
  store32 (dir + dir_offset) 0;;
  store32 (dir + dir_dirent) NULL;;
  mret dir.

Definition opendir (fuel : nat) (path : Z) : ST S Z :=
  fd ← open path (Z.lor O_DIRECTORY O_SEARCH) 0;
  if s32 fd <? 0 then mret NULL else fdopendir fuel fd.

Definition closedir (dir : Z) : ST S Z :=
  fd ← load32 (dir + dir_fd);
  r ← sys_close (s32 fd);
  if r =? -1 then mret (-1) else
  dirent ← load32 (dir + dir_dirent);
  (if Z_bool dirent then free dirent else mret tt);;
  free dir;;
  mret 0.

Definition readdir (fuel : nat) (dir : Z) : ST S Z :=
  dirent ← load32 (dir + dir_dirent);
  (if negb (Z_bool dirent) then
     dirent ← malloc emptyBigBlock fuel sizeof_dirent;
     store32 (dir + dir_dirent) dirent;;
     store32 (dirent + d_reclen) sizeof_dirent
   else mret tt);;
  dirent ← load32 (dir + dir_dirent);
  entrySize ← load32 (dirent + d_reclen);
  fd ← load32 (dir + dir_fd);
  offset ← load32 (dir + dir_offset);
  size ← sys_readdir (s32 fd) offset dirent entrySize;
  if s32 size <? 0 then mret NULL
  else if size =? 0 then mret NULL
  else if u32 size <=? entrySize then
    store32 (dir + dir_offset) (u32 (offset + 1));;
    mret dirent
  else
    free dirent;;
    dirent ← malloc emptyBigBlock fuel (u32 size);
    store32 (dir + dir_dirent) dirent;;
    sys_readdir (s32 fd) offset dirent (u32 size);;
    store32 (dir + dir_offset) (u32 (offset + 1));;
    mret dirent.

(** ** What access answers *)
Lemma low_bit x : Z_bool (Z.land x 1) = Z.testbit x 0.
Proof. change 1 with (Z.ones 1). rewrite Z.land_ones by done. rewrite Z.bit0_odd, Zmod_odd. by destruct (Z.odd x). Qed.

Lemma mode_bit mode n : 0 <= n → Z_bool (Z.land mode (Z.shiftl 1 n)) = Z.testbit mode n.
Proof.
  intros Hn. rewrite Z.shiftl_1_l. unfold Z_bool. destruct (Z.testbit mode n) eqn:Hb.
  - apply negb_true_iff, Z.eqb_neq. intros Hz. apply (f_equal (λ z, Z.testbit z n)) in Hz.
    rewrite Z.land_spec, Hb, Z.pow2_bits_true, Z.bits_0 in Hz by done. done.
  - apply negb_false_iff, Z.eqb_eq, Z.bits_inj'. intros k Hk. rewrite Z.land_spec, Z.bits_0, Z.pow2_bits_eqb by done.
    destruct (Z.eqb_spec n k); [subst; by rewrite Hb|by rewrite andb_false_r].
Qed.

(** access of a file that exists: asked for read or write permission it always
    answers no, whatever the permissions are, since the bits it selects are
    and-ed with a 1; asked for execute permission it looks at the permission of
    others alone; asked for nothing it answers yes. *)
Theorem access_answers path mode (s s1 : S) st :
  stat path local s = Ok (0, s1) → load32 (local + st_mode) s1 = Ok (st, s1) →
  access path mode s =
  Ok (if Z.testbit mode 0 || Z.testbit mode 1 || (Z.testbit mode 2 && negb (Z.testbit st 0)) then -1 else 0, s1).
Proof.
  intros Hs Hl. unfold access. rewrite (bind_ok _ _ _ _ _ Hs). change (s32 0 <? 0) with false. cbv iota.
  rewrite (bind_ok _ _ _ _ _ Hl). unfold R_OK, W_OK, X_OK. rewrite !mode_bit, !low_bit, !Z.land_spec by done.
  change (Z.testbit (Z.lor (Z.lor S_IRUSR S_IRGRP) S_IROTH) 0) with false.
  change (Z.testbit (Z.lor (Z.lor S_IWUSR S_IWGRP) S_IWOTH) 0) with false.
  change (Z.testbit (Z.lor (Z.lor S_IXUSR S_IXGRP) S_IXOTH) 0) with true. rewrite !andb_false_r, andb_true_r.
  unfold mret, ST_ret. by destruct (Z.testbit mode 0), (Z.testbit mode 1), (Z.testbit mode 2), (Z.testbit st 0).
Qed.
End unistd.

(** A kernel whose one file has the permissions rw-rw-rw-. *)
Definition demo_user : Type := mem * (errno_st * env_st).
Definition demo_sys : Sys demo_user := {|
  sys_read _ _ _ := mret 0; sys_write _ _ n := mret n; sys_openat _ _ _ _ := mret 3; sys_close _ := mret 0;
  sys_fstat _ _ := mret (-1); sys_fstatat _ _ p _ := (store32 (p + st_mode) 0x81B6;; mret 0);
  sys_readdir _ _ _ _ := mret 0; sys_fchdirat _ _ := mret 0; sys_rfork _ := mret 1; sys_execve _ _ _ := mret (Some (-1));
  sys_waitpid _ _ _ := mret 1; sys_nanosleep _ _ := mret 0; sys_uname _ := mret 0 |}.
Definition demo_user_state : demo_user := (write_bytes ∅ 500 (replicate 64 0), (Errno 0, env_init)).

Lemma access_answers_witness :
  ∃ s', access (K := demo_sys) 500 700 R_OK demo_user_state = Ok (-1, s').
Proof.
  exists (match stat (K := demo_sys) 700 500 demo_user_state with Ok (_, s') => s' | _ => demo_user_state end).
  apply (access_answers (K := demo_sys) 500 700 R_OK demo_user_state _ 0x81B6); vm_compute; reflexivity.
Defined.
