(* ===== verification/Streams.v ===== *)
(** * What a program relies on when it reads and writes

    The class [Streams] is the promise read and write make about two
    descriptors: the bytes still to come on one of them, those written so far
    on the other and the room left there.  The output may not take every byte
    as it is, and writing may change memory that belongs to the device, such as
    the screen.  The programs are verified
    against the class; files and the terminal keep it (Userland.v, Screen.v). *)
From S2P Require Import Prelude Memory Unistd.

Class Streams {S : Type} `{L : !Lens S mem} `{K : !Sys S} (input output : Z) : Type := {
  streams : list Z → list Z → nat → S → Prop;
  device_memory : Z → Prop;
  takes : Z → Prop;
  read_next c rest out room s p :
    streams (c :: rest) out room s → is_Some (memory s !! p) → ¬ device_memory p →
    ∃ s', sys_read input p 1 s = Ok (1, s') ∧ memory s' = <[p := c]> (memory s) ∧ streams rest out room s';
  read_end out room s p :
    streams [] out room s → is_Some (memory s !! p) →
    ∃ s', sys_read input p 1 s = Ok (0, s') ∧ memory s' = memory s ∧ streams [] out room s';
  write_next c rest out room s p :
    streams rest out (Datatypes.S room) s → memory s !! p = Some c → ¬ device_memory p → takes c →
    ∃ s', sys_write output p 1 s = Ok (1, s') ∧
      (∀ q, ¬ device_memory q → memory s' !! q = memory s !! q) ∧ streams rest (out ++ [c]) room s';
  streams_memory rest out room s m :
    streams rest out room s → (∀ q, device_memory q → m !! q = memory s !! q) →
    streams rest out room (with_memory s m);
  streams_bytes rest out room s : streams rest out room s → Forall byte_ok rest;
}.

(** The output alone, for programs that do not read. *)
Class Writer {S : Type} `{L : !Lens S mem} `{K : !Sys S} (output : Z) : Type := {
  wrote : list Z → nat → S → Prop;
  writer_memory : Z → Prop;
  writer_takes : Z → Prop;
  write_one c out room s p :
    wrote out (Datatypes.S room) s → memory s !! p = Some c → ¬ writer_memory p → writer_takes c →
    ∃ s', sys_write output p 1 s = Ok (1, s') ∧
      (∀ q, ¬ writer_memory q → memory s' !! q = memory s !! q) ∧ wrote (out ++ [c]) room s';
  wrote_memory out room s m :
    wrote out room s → (∀ q, writer_memory q → m !! q = memory s !! q) → wrote out room (with_memory s m);
}.

#[refine] Definition streams_writer {S : Type} `{L : !Lens S mem} `{K : !Sys S} (input output : Z) `{R : !Streams input output}
    (rest : list Z) : Writer output :=
  {| wrote := streams rest; writer_memory := device_memory; writer_takes := takes |}.
Proof.
  - intros c out room s p. apply write_next.
  - intros out room s m. apply streams_memory.
Defined.

(** ** An instance for examples: the two streams are lists in the state *)
Record stdio_st : Type := StdioSt { to_read : list Z; written : list Z }.

Section lists.
Context {S : Type} `{L : !Lens S mem} `{O : !Lens S stdio_st} `{HO : !Indep L O}.

Definition list_read (fd p n : Z) : ST S Z := λ s,
  match to_read (get s) with
  | [] => Ok (0, s)
  | c :: rest => (store p c ≫= λ _, (λ s, Ok (1, set (StdioSt rest (written (get s))) s)) : ST S Z) s
  end.
Definition list_write (fd p n : Z) : ST S Z := λ s,
  match memory s !! p with
  | Some c => Ok (1, set (StdioSt (to_read (get s)) (written (get s) ++ [c])) s)
  | None => Ok (-1, s)
  end.
Definition list_sys : Sys S := {|
  sys_read := list_read; sys_write := list_write; sys_openat _ _ _ _ := mret (-1);
  sys_close _ := mret 0; sys_fstat _ _ := mret (-1); sys_fstatat _ _ _ _ := mret (-1);
  sys_readdir _ _ _ _ := mret 0; sys_fchdirat _ _ := mret 0; sys_rfork _ := mret 1;
  sys_execve _ _ _ := mret (Some (-1)); sys_waitpid _ _ _ := mret 1; sys_nanosleep _ _ := mret 0;
  sys_uname _ := mret 0 |}.

#[refine] Definition list_streams (input output : Z) : Streams (K := list_sys) input output := {|
  streams rest out _ s := get s = StdioSt rest out ∧ Forall byte_ok rest;
  device_memory _ := False;
  takes := byte_ok |}.
Proof using HO.
  - intros c rest out room s p [Hg Hb] Hp _. apply Forall_cons in Hb as [Hc Hb]. cbn. unfold list_read. rewrite Hg. cbn [to_read].
    rewrite (bind_ok _ _ _ tt (with_memory s (<[p := c]> (memory s)))).
    2: { unfold store. destruct Hp as [b ->]. by rewrite u8_small by done. }
    eexists. split; [done|]. split; [|rewrite get_set].
    + unfold memory at 1. rewrite get_set_indep. apply memory_with.
    + unfold with_memory. rewrite set_get_indep, Hg. done.
  - intros out room s p [Hg Hb] Hp. exists s. cbn. unfold list_read. by rewrite Hg.
  - intros c rest out room s p [Hg Hb] Hp _ Hc. cbn. unfold list_write. rewrite Hp, Hg. eexists. split; [done|].
    split; [intros q _; unfold memory; by rewrite get_set_indep|]. by rewrite get_set.
  - intros rest out room s m [Hg Hb] _. unfold with_memory. by rewrite set_get_indep.
  - by intros rest out room s [Hg Hb].
Defined.
End lists.
