(* ===== verification/Stdio.v ===== *)
(** * Streams (libc/src/stdio, libc/include/stdio.h)

    A stream is a file descriptor and two flags; nothing is buffered.  Every
    character is one system call. *)
From S2P Require Import Prelude Memory CString Errno Printf Heap General Environ Unistd.

(** ** stdio.h *)
Definition file_fd : Z := 0.
Definition file_flags : Z := 4.
Definition sizeof_FILE : Z := 8.
Definition FILE_FLAG_EOF : Z := Z.shiftl 1 0.
Definition FILE_FLAG_ERROR : Z := Z.shiftl 1 1.
Definition EOF : Z := -1.

(** The chain of comparisons of fopen: the spellings of a mode, and its flags. *)
Definition fopen_modes : list (list string * Z) :=
  [ (["r"; "rb"], O_RDONLY);
    (["w"; "wb"], Z.lor (Z.lor O_WRONLY O_CREAT) O_TRUNC);
    (["a"; "ab"], Z.lor (Z.lor O_WRONLY O_CREAT) O_APPEND);
    (["r+"; "rb+"; "r+b"], O_RDWR);
    (["w+"; "wb+"; "w+b"], Z.lor (Z.lor O_RDWR O_CREAT) O_TRUNC);
    (["a+"; "ab+"; "a+b"], Z.lor (Z.lor O_RDWR O_CREAT) O_APPEND) ]%string.
Definition fopen_permissions : Z :=
  Z.lor (Z.lor (Z.lor (Z.lor (Z.lor S_IRUSR S_IWUSR) S_IRGRP) S_IWGRP) S_IROTH) S_IWOTH.

(** stdin.c, stdout.c, stderr.c: the three static objects. *)
Definition __stdin : list Z := le32 0 ++ le32 0.
Definition __stdout : list Z := le32 1 ++ le32 0.
Definition __stderr : list Z := le32 2 ++ le32 0.

Section stdio.
Context {S : Type} `{L : !Lens S mem} `{E : !Lens S errno_st} `{V : !Lens S env_st} `{M : !MemMap S} `{K : !Sys S}.
Context (emptyBigBlock local : Z) (fuel : nat).
(** The standard streams, and the addresses of string literals. *)
Context (stdin stdout stderr : Z) (literal : string → Z).

Definition get_fd (file : Z) : ST S Z := fd ← load32 (file + file_fd); mret (s32 fd).
Definition get_flags (file : Z) : ST S Z := load32 (file + file_flags).
Definition set_flag (file flag : Z) : ST S unit :=
  flags ← get_flags file; store32 (file + file_flags) (u32 (Z.lor flags flag)).

Definition fdopen (fd mode : Z) : ST S Z :=
  file ← malloc emptyBigBlock fuel sizeof_FILE;
  store32 (file + file_fd) (u32 fd);;
  store32 (file + file_flags) 0;;
  mret file.

(** [strcmp(mode, "r") == 0 || strcmp(mode, "rb") == 0] *)
Fixpoint mode_in (mode : Z) (names : list string) : ST S bool :=
  match names with
  | [] => mret false
  | name :: names =>
      r ← strcmp fuel mode (literal name);
      if r =? 0 then mret true else mode_in mode names
  end.

Fixpoint fopen_flags (mode : Z) (modes : list (list string * Z)) : ST S (option Z) :=
  match modes with
  | [] => mret None
  | (names, flags) :: modes =>
      found ← mode_in mode names;
      if found : bool then mret (Some flags) else fopen_flags mode modes
  end.

Definition fopen (path mode : Z) : ST S Z :=
  flags ← fopen_flags mode fopen_modes;
  match flags with
  | None => set_errno EINVAL;; mret NULL
  | Some flags =>
      fd ← open path flags fopen_permissions;
      if fd =? -1 then mret NULL else fdopen fd mode
  end.

Definition fflush (file : Z) : ST S Z := mret 0.
Definition fclose (file : Z) : ST S Z :=
  r ← fflush file;
  if r =? EOF then mret EOF else
  fd ← get_fd file;
  r ← sys_close fd;
  if r =? -1 then mret EOF else free file;; mret 0.

Definition feof (file : Z) : ST S Z := flags ← get_flags file; mret (Z.land flags FILE_FLAG_EOF).
Definition ferror (file : Z) : ST S Z := flags ← get_flags file; mret (Z.land flags FILE_FLAG_ERROR).
Definition clearerr (file : Z) : ST S unit :=
  flags ← get_flags file;
  store32 (file + file_flags) (u32 (Z.land flags (Z.lnot (Z.lor FILE_FLAG_EOF FILE_FLAG_ERROR)))).

(** *** Input; the byte is read into [local] *)
Definition fgetc (file : Z) : ST S Z :=
  flags ← get_flags file;
  if Z_bool (Z.land flags FILE_FLAG_EOF) then mret EOF else
  fd ← get_fd file;
  bytesRead ← sys_read fd local 1;
  if bytesRead =? 0 then set_flag file FILE_FLAG_EOF;; mret EOF
  else if bytesRead <? 0 then set_flag file FILE_FLAG_ERROR;; mret EOF
  else load local.

Definition getc (file : Z) : ST S Z := fgetc file.
Definition getchar : ST S Z := getc stdin.

(** One turn of the loop of fgets; [i] is the number of bytes stored. *)
Definition fgets_turn (buffer size file i : Z) : ST S (step Z Z) :=
  if i <? size - 1 then
    c ← fgetc file;
    if c =? EOF then mret (Done i) else
    store (buffer + i) c;;
    if c =? 10 then mret (Done (i + 1)) else mret (Next (i + 1))
  else mret (Done i).

Definition fgets (buffer size file : Z) : ST S Z :=
  i ← loop (Datatypes.S (Z.to_nat size)) (fgets_turn buffer size file) 0;
  if i =? 0 then mret NULL else
  store (buffer + i) 0;;
  mret buffer.

(** *** Output *)
Definition fputc (c file : Z) : ST S Z :=
  store32 local (u32 c);;
  fd ← get_fd file;
  r ← sys_write fd local 1;
  if r <? 0 then set_flag file FILE_FLAG_ERROR;; mret EOF else mret c.
Definition putc (c file : Z) : ST S Z := fputc c file.
Definition putchar (c : Z) : ST S Z := putc c stdout.

Definition fputs (s file : Z) : ST S Z :=
  loop fuel (λ s : Z,
    c ← load s;
    if Z_bool c then
      fd ← get_fd file;
      r ← sys_write fd s 1;
      if r <? 0 then mret (Done EOF) else mret (Next (s + 1))
    else mret (Done 1)) s.

Definition puts (s : Z) : ST S Z :=
  loop fuel (λ s : Z,
    c ← load s;
    if Z_bool c then putchar (s8 c);; mret (Next (s + 1)) else mret (Done tt)) s;;
  putchar 10;;
  mret 1.

(** The inner loop of fwrite; [false] when a byte was not written. *)
Definition fwrite_element (p i size file : Z) : ST S bool :=
  loop (Datatypes.S (Z.to_nat size)) (λ j : Z,
    if j <? size then
      c ← load (p + u32 (i * size + j));
      r ← fputc c file;
      if r =? EOF then mret (Done false) else mret (Next (j + 1))
    else mret (Done true)) 0.

Definition fwrite (ptr size count file : Z) : ST S Z :=
  if (size =? 0) || (count =? 0) then mret 0 else
  loop (Datatypes.S (Z.to_nat count)) (λ i : Z,
    if i <? count then
      all ← fwrite_element ptr i size file;
      if all : bool then mret (Next (i + 1)) else mret (Done i)
    else mret (Done i)) 0.

(** The front ends of vcbprintf.  The callback is given the bytes of a piece by
    value, so the call of fwrite with elements of one byte is written out on them. *)
Fixpoint fwrite_bytes (bytes : list Z) (n file : Z) : ST S Z :=
  match bytes with
  | [] => mret n
  | c :: bytes => r ← fputc c file; if r =? EOF then mret n else fwrite_bytes bytes (n + 1) file
  end.
Definition vfprintf_callback (file : Z) (bytes : list Z) : ST S Z := fwrite_bytes bytes 0 file.
Definition vfprintf (buffer fp : Z) (format vl : list Z) : ST S Z :=
  vcbprintf (vfprintf_callback fp) buffer fuel format vl.
Definition fprintf (buffer stream : Z) (format vl : list Z) : ST S Z := vfprintf buffer stream format vl.
Definition vprintf (buffer : Z) (format vl : list Z) : ST S Z := vfprintf buffer stdout format vl.
Definition printf (buffer : Z) (format vl : list Z) : ST S Z := vprintf buffer format vl.

Definition strerror_address (e : Z) : Z := literal (strerror e).

Definition perror (s : Z) : ST S unit :=
  prefixed ← (if Z_bool s then c ← load s; mret (Z_bool c) else mret false);
  (if prefixed : bool then fputs s stderr;; fputs (literal ": ") stderr;; mret tt else mret tt);;
  e ← (λ st, Ok (errno_val (get st), st));
  fputs (strerror_address e) stderr;;
  fputc 10 stderr;;
  mret tt.

(** assert.c: the message on stderr, and the end of the program. *)
Definition __assert `{X : !ExitEnv S} (buffer e file line function : Z) : ST S unit :=
  fprintf buffer stderr (str "Assertion failed: '%s' at function %s (%s:%u)" ++ [10]) [e; function; file; line];;
  _exit 1.
End stdio.
