(* ===== verification/Uname.v ===== *)
(** * The name of the system (kernel/src/uname.cpp)

    uname fills the five arrays of struct utsname from literals of the kernel,
    whose addresses are the argument [literal]; the version is what the
    compiler put for the date and time of the build. *)
From S2P Require Import Prelude Memory CString.

Definition _UNAME_LENGTH : Z := 65.
Definition _UNAME_SYSNAME : Z := 1.
Definition _UNAME_RELEASE : Z := 2.
Definition _UNAME_VERSION : Z := 3.
Definition _UNAME_MACHINE : Z := 4.
(** Offsets in struct utsname. *)
Definition sysname : Z := 0.
Definition nodename : Z := 65.
Definition release : Z := 130.
Definition version : Z := 195.
Definition machine : Z := 260.
Definition sizeof_utsname : Z := 325.

Section uname.
Context {S : Type} `{L : !Lens S mem}.
(** The macros of the build, and the addresses of the literals. *)
Context (INWOX_VERSION build_time : string) (literal : string → Z).

Definition getConfStr (name : Z) : string :=
  if name =? _UNAME_SYSNAME then "INWOX"
  else if name =? _UNAME_RELEASE then INWOX_VERSION
  else if name =? _UNAME_VERSION then build_time
  else if name =? _UNAME_MACHINE then "i686"
  else "".

Definition uname (u : Z) : ST S Z :=
  memset (u + sysname) 0 _UNAME_LENGTH;;
  memset (u + release) 0 _UNAME_LENGTH;;
  memset (u + version) 0 _UNAME_LENGTH;;
  memset (u + nodename) 0 _UNAME_LENGTH;;
  memset (u + machine) 0 _UNAME_LENGTH;;
  memcpy (u + sysname) (literal (getConfStr _UNAME_SYSNAME)) _UNAME_LENGTH;;
  memcpy (u + release) (literal (getConfStr _UNAME_RELEASE)) _UNAME_LENGTH;;
  memcpy (u + version) (literal (getConfStr _UNAME_VERSION)) _UNAME_LENGTH;;
  memcpy (u + machine) (literal (getConfStr _UNAME_MACHINE)) _UNAME_LENGTH;;
  mret 0.

(** ** The fields *)
Definition names : list Z := [_UNAME_SYSNAME; _UNAME_RELEASE; _UNAME_VERSION; _UNAME_MACHINE].
(** The 65 bytes memcpy reads: the literal, its terminator and what follows. *)
Context (behind : Z → list Z).
Definition block (name : Z) : list Z := str (getConfStr name) ++ 0 :: behind name.

(** A place for the structure, and the literals with 65 readable bytes each. *)
Definition uname_ready (u : Z) (m : mem) : Prop :=
  mapped m u sizeof_utsname ∧
  Forall (λ name, bytes_at m (literal (getConfStr name)) (block name) ∧ length (block name) = 65%nat ∧
    Forall byte_ok (block name) ∧ disjoint_range u sizeof_utsname (literal (getConfStr name)) 65) names.

Lemma ready_write u m p bs :
  u <= p → p + Z.of_nat (length bs) <= u + sizeof_utsname → uname_ready u m → uname_ready u (write_bytes m p bs).
Proof.
  intros H1 H2 [Hm Hn]. split; [by apply mapped_write|]. eapply list.Forall_impl; [exact Hn|].
  intros name (Hb & Hl & Ho & Hd). split; [|done]. apply bytes_at_write_other; [|done].
  unfold disjoint_range in *. rewrite Hl. lia.
Qed.

Lemma clear_field u s field :
  uname_ready u (memory s) → 0 <= field → field + 65 <= sizeof_utsname →
  ∃ s', memset (u + field) 0 _UNAME_LENGTH s = Ok (u + field, s') ∧ uname_ready u (memory s') ∧
    memory s' = write_bytes (memory s) (u + field) (replicate 65 0).
Proof.
  intros Hr H1 H2. eexists. split; [apply (memset_ok s (u + field) 0 65)|].
  - eapply mapped_sub; [apply Hr|lia..].
  - rewrite memory_with. split; [|done]. apply ready_write; [lia| |done]. rewrite length_replicate. lia.
Qed.

Lemma copy_field u s field name :
  uname_ready u (memory s) → name ∈ names → 0 <= field → field + 65 <= sizeof_utsname →
  ∃ s', memcpy (u + field) (literal (getConfStr name)) _UNAME_LENGTH s = Ok (u + field, s') ∧
    uname_ready u (memory s') ∧ memory s' = write_bytes (memory s) (u + field) (block name).
Proof.
  intros Hr Hin H1 H2. pose proof Hr as [Hm Hn]. rewrite Forall_forall in Hn. destruct (Hn name Hin) as (Hb & Hl & Ho & Hd).
  unfold disjoint_range in Hd. eexists. split.
  - unfold _UNAME_LENGTH. change 65 with (Z.of_nat 65). rewrite <-Hl. apply memcpy_ok; [done|done| |].
    + rewrite Hl. eapply mapped_sub; [exact Hm|lia..].
    + unfold disjoint_range. rewrite Hl. lia.
  - rewrite memory_with. split; [|done]. apply ready_write; [lia|rewrite Hl; lia|done].
Qed.

Lemma block_cstr m u field name :
  Forall char_ok (str (getConfStr name)) →
  cstr (write_bytes m (u + field) (block name)) (u + field) (str (getConfStr name)).
Proof.
  intros Hc. split; [done|]. unfold block.
  change (0 :: behind name) with ([0] ++ behind name). rewrite app_assoc.
  exact (proj1 (proj1 (bytes_at_app _ _ _ _) (bytes_at_write m _ (_ ++ _)))).
Qed.

Lemma clear_cstr m u field : cstr (write_bytes m (u + field) (replicate 65 0)) (u + field) [].
Proof. apply cstr_nil. rewrite lookup_write_bytes, decide_True, Z.sub_diag; [done|rewrite length_replicate; lia]. Qed.

Lemma field_other m u field field' bs txt :
  length bs = 65%nat → (length txt < 65)%nat → field' + 65 <= field ∨ field + 65 <= field' →
  cstr m (u + field') txt → cstr (write_bytes m (u + field) bs) (u + field') txt.
Proof.
  intros Hl Ht Hd [H1 H2]. split; [done|]. apply bytes_at_write_other; [|done].
  unfold disjoint_range. rewrite Hl, length_app. cbn [length]. lia.
Qed.

(** uname fills every array of the structure with a string: the name of the
    system, its release, the version and the machine, and an empty node name.
    It copies the full 65 bytes of each array from a literal that is shorter,
    so the bytes behind the literals must be readable too. *)
Theorem uname_fills u s :
  uname_ready u (memory s) → Forall (λ name, Forall char_ok (str (getConfStr name))) names →
  ∃ s', uname u s = Ok (0, s') ∧
    cstr (memory s') (u + sysname) (str "INWOX") ∧ cstr (memory s') (u + nodename) [] ∧
    cstr (memory s') (u + release) (str INWOX_VERSION) ∧ cstr (memory s') (u + version) (str build_time) ∧
    cstr (memory s') (u + machine) (str "i686").
Proof.
  intros Hr Hc.
  destruct (clear_field u s sysname Hr) as (s1 & H1 & Hr1 & _); [done..|].
  destruct (clear_field u s1 release Hr1) as (s2 & H2 & Hr2 & _); [done..|].
  destruct (clear_field u s2 version Hr2) as (s3 & H3 & Hr3 & _); [done..|].
  destruct (clear_field u s3 nodename Hr3) as (s4 & H4 & Hr4 & Hm4); [done..|].
  destruct (clear_field u s4 machine Hr4) as (s5 & H5 & Hr5 & Hm5); [done..|].
  destruct (copy_field u s5 sysname _UNAME_SYSNAME Hr5) as (s6 & H6 & Hr6 & Hm6); [repeat constructor|done..|].
  destruct (copy_field u s6 release _UNAME_RELEASE Hr6) as (s7 & H7 & Hr7 & Hm7); [repeat constructor|done..|].
  destruct (copy_field u s7 version _UNAME_VERSION Hr7) as (s8 & H8 & Hr8 & Hm8); [repeat constructor|done..|].
  destruct (copy_field u s8 machine _UNAME_MACHINE Hr8) as (s9 & H9 & Hr9 & Hm9); [repeat constructor|done..|].
  exists s9. split.
  { unfold uname. by rewrite (bind_ok _ _ _ _ _ H1), (bind_ok _ _ _ _ _ H2), (bind_ok _ _ _ _ _ H3), (bind_ok _ _ _ _ _ H4),
      (bind_ok _ _ _ _ _ H5), (bind_ok _ _ _ _ _ H6), (bind_ok _ _ _ _ _ H7), (bind_ok _ _ _ _ _ H8), (bind_ok _ _ _ _ _ H9). }
  change (str "INWOX") with (str (getConfStr _UNAME_SYSNAME)). change (str "i686") with (str (getConfStr _UNAME_MACHINE)).
  change (str INWOX_VERSION) with (str (getConfStr _UNAME_RELEASE)). change (str build_time) with (str (getConfStr _UNAME_VERSION)).
  assert (∀ name, name ∈ names →
    Forall char_ok (str (getConfStr name)) ∧ (length (str (getConfStr name)) < 65)%nat ∧ length (block name) = 65%nat) as Hb.
  { intros name Hin. rewrite Forall_forall in Hc. destruct Hr as [_ Hn]. rewrite Forall_forall in Hn.
    destruct (Hn name Hin) as (_ & Hl & _). split; [by apply Hc|]. split; [|done].
    unfold block in Hl. rewrite length_app in Hl. cbn [length] in Hl. lia. }
  destruct (Hb _UNAME_SYSNAME ltac:(repeat constructor)) as (Hc1 & Ht1 & Hl1).
  destruct (Hb _UNAME_RELEASE ltac:(repeat constructor)) as (Hc2 & Ht2 & Hl2).
  destruct (Hb _UNAME_VERSION ltac:(repeat constructor)) as (Hc3 & Ht3 & Hl3).
  destruct (Hb _UNAME_MACHINE ltac:(repeat constructor)) as (Hc4 & Ht4 & Hl4).
  rewrite Hm9, Hm8, Hm7, Hm6, Hm5, Hm4. clear -Hc1 Ht1 Hl1 Hc2 Ht2 Hl2 Hc3 Ht3 Hl3 Hc4 Ht4 Hl4.
  split; [|split; [|split; [|split]]];
    repeat first [by apply block_cstr | apply clear_cstr
                 | apply field_other; [by rewrite ?length_replicate|first [lia|cbn; lia]|
                     unfold sysname, nodename, release, version, machine; lia|]].
Qed.
End uname.

(** ** Instance: a kernel of version 0.1 *)
Definition demo_build : string := "Jan 01 2021 12:00:00".
Definition demo_literal_at (t : string) : Z :=
  if String.eqb t "INWOX" then 1000 else if String.eqb t "0.1" then 1100 else if String.eqb t demo_build then 1200 else 1300.
Definition demo_behind (name : Z) : list Z := replicate (64 - length (str (getConfStr "0.1" demo_build name))) 7.
Definition demo_uname : mem :=
  foldr (λ name m, write_bytes m (demo_literal_at (getConfStr "0.1" demo_build name)) (block "0.1" demo_build demo_behind name))
    (write_bytes ∅ 500 (replicate 325 7)) names.

Lemma uname_fills_witness : ∃ s', uname "0.1" demo_build demo_literal_at 500 demo_uname = Ok (0, s') ∧
  cstr (memory s') 500 (str "INWOX") ∧ cstr (memory s') 630 (str "0.1") ∧ cstr (memory s') 760 (str "i686").
Proof.
  destruct (uname_fills "0.1" demo_build demo_literal_at demo_behind 500 demo_uname) as (s' & Hrun & H1 & _ & H2 & _ & H3).
  - split; [apply (bytes_at_mapped _ _ (replicate 325 7)); [apply bytes_check; vm_compute; reflexivity|vm_compute; discriminate]|].
    repeat (apply Forall_cons; split;
      [split; [apply bytes_check; vm_compute; reflexivity|
        split; [reflexivity|split; [apply (bool_decide_eq_true_1 _); vm_compute; reflexivity|left; vm_compute; discriminate]]]|]).
    apply Forall_nil_2.
  - apply (bool_decide_eq_true_1 _). vm_compute. reflexivity.
  - exists s'. split; [exact Hrun|]. split; [exact H1|]. split; [exact H2|exact H3].
Defined.
