(* ===== verification/StdioLaws.v ===== *)
(** * What the streams guarantee

    fgets on a descriptor that keeps the promise of the class Streams, and the
    modes of fopen against their grammar in the C standard. *)
From S2P Require Import Prelude Memory CString Errno Heap General Environ Unistd Streams Stdio.

(** ** The line at the head of an input: at most [n] bytes, up to a newline *)
Fixpoint line (n : nat) (input : list Z) : list Z :=
  match n, input with
  | Datatypes.S n, c :: input => if c =? 10 then [c] else c :: line n input
  | _, _ => []
  end.

(** The input is exhausted before the line is complete. *)
Fixpoint line_at_end (n : nat) (input : list Z) : bool :=
  match n, input with
  | O, _ => false
  | _, [] => true
  | Datatypes.S n, c :: input => if c =? 10 then false else line_at_end n input
  end.

Lemma line_length n input : (length (line n input) <= n)%nat.
Proof.
  revert input. induction n as [|n IH]; intros [|c input]; cbn [line length]; [lia..|].
  destruct (c =? 10); cbn [length]; [lia|]. specialize (IH input). lia.
Qed.

Section reading.
Context {S : Type} `{L : !Lens S mem} `{K : !Sys S} (fd output : Z) `{R : !Streams fd output}.
Context (local file : Z).

(** A FILE object with its two fields. *)
Definition stream_at (m : mem) (flags : Z) : Prop :=
  word_at m (file + file_fd) (u32 fd) ∧ word_at m (file + file_flags) flags.

Hypothesis Hfd : 0 <= fd < 2 ^ 31.
Hypothesis Hlocal : disjoint_range local 1 file 8.
(** The objects of the library are not in the memory of the device. *)
Hypothesis Hdevice : ∀ q, device_memory q → q ≠ local ∧ ¬ file <= q < file + 8.

Lemma stream_insert m flags p v :
  disjoint_range p 1 file 8 → stream_at m flags → stream_at (<[p := v]> m) flags.
Proof.
  unfold disjoint_range, file_fd, file_flags. intros Hd [H1 H2].
  change (<[p := v]> m) with (write_bytes m p [v]).
  split; (apply word_at_write_other; [unfold disjoint_range, file_fd, file_flags; cbn [length]; lia|done]).
Qed.

Lemma stream_flags s flags : stream_at (memory s) flags → get_flags file s = Ok (flags, s).
Proof. intros [_ H]. by apply load32_ok. Qed.

Lemma stream_fd s flags : stream_at (memory s) flags → get_fd file s = Ok (fd, s).
Proof.
  intros [H _]. unfold get_fd. rewrite (bind_ok _ _ _ _ _ (load32_ok _ _ _ H)).
  unfold mret, ST_ret. rewrite u32_small, s32_small by lia. done.
Qed.

(** One more byte. *)
Lemma fgetc_next s flags c rest out room :
  stream_at (memory s) flags → Z.testbit flags 0 = false → streams (c :: rest) out room s →
  is_Some (memory s !! local) →
  ∃ s', fgetc local file s = Ok (c, s') ∧ memory s' = <[local := c]> (memory s) ∧ streams rest out room s'.
Proof using Hfd Hdevice.
  intros Hs Hf Hin Hl.
  assert (¬ device_memory local) as Hd by (intros Hd; by apply Hdevice in Hd as [? _]).
  destruct (read_next c rest out room s local Hin Hl Hd) as (s' & Hr & Hm & Hin').
  exists s'. split; [|done]. unfold fgetc. rewrite (bind_ok _ _ _ _ _ (stream_flags _ _ Hs)).
  change FILE_FLAG_EOF with (Z.shiftl 1 0). rewrite mode_bit, Hf by done.
  rewrite (bind_ok _ _ _ _ _ (stream_fd _ _ Hs)), (bind_ok _ _ _ _ _ Hr).
  change (1 =? 0) with false. change (1 <? 0) with false. cbv iota. apply load_ok.
  rewrite Hm. apply lookup_insert_eq.
Qed.

(** The end of the input. *)
Lemma fgetc_end s flags out room :
  stream_at (memory s) flags → Z.testbit flags 0 = false → streams [] out room s → 0 <= flags < 2 ^ 32 →
  is_Some (memory s !! local) →
  ∃ s', fgetc local file s = Ok (EOF, s') ∧ stream_at (memory s') (Z.lor flags FILE_FLAG_EOF) ∧
    same_outside file 8 (memory s) (memory s') ∧ streams [] out room s'.
Proof using Hfd Hdevice.
  intros Hs Hf Hin Hr Hl. destruct (read_end out room s local Hin Hl) as (s1 & Hrun & Hm & Hin1).
  unfold fgetc. rewrite (bind_ok _ _ _ _ _ (stream_flags _ _ Hs)).
  change FILE_FLAG_EOF with (Z.shiftl 1 0) at 1. rewrite mode_bit, Hf by done.
  rewrite (bind_ok _ _ _ _ _ (stream_fd _ _ Hs)), (bind_ok _ _ _ _ _ Hrun).
  change (0 =? 0) with true. cbv iota. unfold set_flag. rewrite <-Hm in Hs |- *.
  assert (0 <= Z.lor flags FILE_FLAG_EOF < 2 ^ 32) as Hr'.
  { assert (0 <= Z.lor flags FILE_FLAG_EOF) by (apply Z.lor_nonneg; split; [lia|done]).
    split; [done|]. apply bits_range; [done..|]. intros i Hi. rewrite Z.lor_spec, (bits_above flags 32) by done.
    change FILE_FLAG_EOF with (2 ^ 0). apply Z.pow2_bits_false. lia. }
  erewrite bind_ok; [|rewrite (bind_ok _ _ _ _ _ (stream_flags _ _ Hs)), store32_ok; [done|by eapply word_at_mapped, Hs]].
  rewrite (u32_small (Z.lor _ _)) by done. eexists. split; [done|]. rewrite memory_with. destruct Hs as [H1 H2].
  split; [|split].
  - split; [|by apply word_at_le32]. apply word_at_write_other; [|done].
    unfold disjoint_range, file_fd, file_flags. cbn [length le32]. lia.
  - apply same_outside_write; unfold file_flags; cbn [length le32]; lia.
  - apply streams_memory; [done|]. intros q [_ Hq]%Hdevice.
    apply lookup_write_bytes_out. unfold file_flags. cbn [length le32]. lia.
Qed.

(** What a run that reads [n] bytes at most leaves behind: the bytes of the
    line from [p] on, the rest of the input, and the flags. *)
Definition line_read (s s' : S) (p : Z) (n : nat) (input out : list Z) (room : nat) (flags : Z) : Prop :=
  streams (drop (length (line n input)) input) out room s' ∧
  bytes_at (memory s') p (line n input) ∧
  stream_at (memory s') (if line_at_end n input then Z.lor flags FILE_FLAG_EOF else flags) ∧
  ∀ q, q ≠ local → ¬ file <= q < file + 8 → ¬ p <= q < p + Z.of_nat (length (line n input)) → memory s' !! q = memory s !! q.

(** The byte just read, put away at [p]. *)
Lemma fgets_store s s1 flags p c rest out room :
  stream_at (memory s) flags → memory s1 = <[local := c]> (memory s) → streams rest out room s1 →
  is_Some (memory s !! p) → byte_ok c → disjoint_range p 1 file 8 → ¬ device_memory p →
  ∃ s2, store p c s1 = Ok (tt, s2) ∧ streams rest out room s2 ∧
    memory s2 = <[p := c]> (<[local := c]> (memory s)) ∧ stream_at (memory s2) flags.
Proof using Hlocal.
  intros Hs Hm1 Hin Hp Hc Hd Hdev. exists (with_memory s1 (<[p := c]> (memory s1))). rewrite memory_with, Hm1. split.
  - rewrite <-Hm1. apply store_byte; [|done]. rewrite Hm1. by apply lookup_insert_is_Some'; right.
  - split; [|split; [done|]; apply stream_insert; [done|]; by apply stream_insert].
    apply streams_memory; [done|]. intros q Hq. rewrite Hm1. apply lookup_insert_ne. by intros ->.
Qed.

Lemma fgets_loop buffer size flags out room n : ∀ i s fuel input,
  stream_at (memory s) flags → Z.testbit flags 0 = false → 0 <= flags < 2 ^ 32 → streams input out room s →
  mapped (memory s) local 1 → mapped (memory s) (buffer + i) (Z.of_nat n) →
  disjoint_range (buffer + i) (Z.of_nat n) file 8 → disjoint_range (buffer + i) (Z.of_nat n) local 1 →
  (∀ q, device_memory q → ¬ buffer + i <= q < buffer + i + Z.of_nat n) →
  size - 1 - i = Z.of_nat n → (n < fuel)%nat →
  ∃ s', loop fuel (fgets_turn local buffer size file) i s = Ok (i + Z.of_nat (length (line n input)), s') ∧
    line_read s s' (buffer + i) n input out room flags.
Proof using Hfd Hlocal Hdevice.
  induction n as [|n IH]; intros i s fuel input Hs Hf Hr Hin Hl Hm Hd1 Hd2 Hdev Hsz Hfuel;
    (destruct fuel as [|fuel]; [lia|]).
  { exists s. cbn [line length]. rewrite Z.add_0_r. split.
    - apply loop_done. unfold fgets_turn. by zcase (i <? size - 1).
    - split; [done|]. split; [apply bytes_at_nil|]. by split. }
  unfold disjoint_range in Hd1, Hd2. destruct input as [|c input].
  - destruct (fgetc_end s flags out room Hs Hf Hin Hr (Hl local ltac:(lia))) as (s' & Hrun & Hs' & Hsame & Hin').
    exists s'. cbn [line length]. rewrite Z.add_0_r. split.
    + apply loop_done. unfold fgets_turn. zcase (i <? size - 1). by rewrite (bind_ok _ _ _ _ _ Hrun).
    + split; [done|]. split; [apply bytes_at_nil|]. split; [done|]. intros q _ Hq _. by apply Hsame.
  - pose proof (streams_bytes _ _ _ _ Hin) as Hb. apply Forall_cons in Hb as [Hc _].
    destruct (fgetc_next s flags c input out room Hs Hf Hin (Hl local ltac:(lia))) as (s1 & Hrun & Hm1 & Hin1).
    destruct (fgets_store s s1 flags (buffer + i) c input out room) as (s2 & Hst & Hin2 & Hm2 & Hs2);
      try done; try (unfold disjoint_range; lia).
    { apply Hm. lia. }
    { intros Hq. apply Hdev in Hq. lia. }
    assert (fgets_turn local buffer size file i s =
      Ok (if c =? 10 then Done (i + 1) else Next (i + 1), s2)) as Hturn.
    { unfold fgets_turn. zcase (i <? size - 1). rewrite (bind_ok _ _ _ _ _ Hrun).
      destruct (c =? EOF) eqn:He; zb; [unfold byte_ok, EOF in *; lia|].
      rewrite (bind_ok _ _ _ _ _ Hst). by destruct (c =? 10). }
    assert (∀ q k, mapped (memory s) q k → mapped (memory s2) q k) as Hmap2.
    { intros q k ?. rewrite Hm2. by do 2 apply mapped_insert. }
    unfold line_read. cbn [line line_at_end]. destruct (c =? 10) eqn:Hnl; zb.
    + exists s2. split; [by rewrite (loop_done _ _ _ _ _ _ Hturn)|]. split; [done|]. split.
      * apply bytes_at_cons. rewrite Hm2, lookup_insert_eq. split; [done|apply bytes_at_nil].
      * split; [done|]. intros q H1 H2 H3. rewrite Hm2, !lookup_insert_ne by (cbn [length] in H3; lia). done.
    + rewrite (loop_next _ _ _ _ _ _ Hturn).
      destruct (IH (i + 1) s2 fuel input) as (s' & Hrun2 & Hp1 & Hp2 & Hp3 & Hp4); try done; try (unfold disjoint_range; lia).
      { by apply Hmap2. }
      { apply Hmap2. eapply mapped_sub; [exact Hm|lia..]. }
      { intros q Hq. apply Hdev in Hq. lia. }
      exists s'. cbn [length drop]. split; [rewrite Hrun2; f_equal; f_equal; lia|]. split; [done|].
      replace (buffer + (i + 1)) with (buffer + i + 1) in Hp2, Hp4 by lia. split.
      * apply bytes_at_cons. split; [|done]. rewrite Hp4 by lia. by rewrite Hm2, lookup_insert_eq.
      * split; [done|]. intros q H1 H2 H3. rewrite Hp4 by lia. rewrite Hm2, !lookup_insert_ne by lia. done.
Qed.

(** C35. fgets reads a line: the bytes of the input up to and including the
    first newline, at most one less than the size, go to the buffer with a
    terminator behind them, and the buffer is returned; the bytes behind the
    line stay in the input.  When not a single byte can be read the result is
    NULL and the buffer is as it was.  The end-of-file flag is set exactly when
    the input ended within the line, and no memory outside the buffer and the
    stream changes but the local byte. *)
Theorem fgets_reads_line s flags buffer size input out room :
  stream_at (memory s) flags → Z.testbit flags 0 = false → 0 <= flags < 2 ^ 32 →
  streams input out room s → 0 < size < 2 ^ 31 →
  mapped (memory s) local 1 → mapped (memory s) buffer size →
  disjoint_range buffer size file 8 → disjoint_range buffer size local 1 →
  (∀ q, device_memory q → ¬ buffer <= q < buffer + size) →
  let l := line (Z.to_nat (size - 1)) input in
  ∃ s', fgets local buffer size file s = Ok (if bool_decide (l = []) then NULL else buffer, s') ∧
    (if bool_decide (l = []) then ∀ q, buffer <= q < buffer + size → memory s' !! q = memory s !! q
     else bytes_at (memory s') buffer (l ++ [0])) ∧
    streams (drop (length l) input) out room s' ∧
    stream_at (memory s')
      (if line_at_end (Z.to_nat (size - 1)) input then Z.lor flags FILE_FLAG_EOF else flags) ∧
    ∀ q, q ≠ local → ¬ file <= q < file + 8 → ¬ buffer <= q < buffer + size → memory s' !! q = memory s !! q.
Proof using Hfd Hlocal Hdevice.
  intros Hs Hf Hr Hin Hsz Hl Hm Hd1 Hd2 Hdev.
  assert (size = Z.of_nat (Z.to_nat (size - 1)) + 1) as Hsize by lia.
  revert Hsize. generalize (Z.to_nat (size - 1)). intros n -> l. unfold disjoint_range in *.
  destruct (fgets_loop buffer (Z.of_nat n + 1) flags out room n 0 s (Datatypes.S (Z.to_nat (Z.of_nat n + 1))) input)
    as (s1 & Hrun & Hp1 & Hp2 & Hp3 & Hp4); try done; try (unfold disjoint_range; lia).
  { rewrite Z.add_0_r. eapply mapped_sub; [exact Hm|lia..]. }
  { intros q Hq. apply Hdev in Hq. lia. }
  unfold fgets. rewrite (bind_ok _ _ _ _ _ Hrun). clear Hrun. rewrite Z.add_0_r in Hp2, Hp4.
  fold l. fold l in Hp1, Hp2, Hp4. pose proof (line_length n input) as Hlen. fold l in Hlen.
  rewrite Z.add_0_l. case_bool_decide as Hnil.
  { rewrite Hnil in *. cbn [length] in Hp4. exists s1. split; [done|]. split; [|split; [done|split; [done|]]].
    - intros q Hq. apply Hp4; lia.
    - intros q H1 H2 H3. apply Hp4; lia. }
  assert (0 < length l)%nat by (destruct l; [done|cbn; lia]).
  zcase (Z.of_nat (length l) =? 0).
  assert (is_Some (memory s1 !! (buffer + Z.of_nat (length l)))) as Hmap.
  { rewrite Hp4 by lia. apply Hm. lia. }
  rewrite (bind_ok _ _ _ _ _ (store_byte _ _ 0 Hmap ltac:(unfold byte_ok; lia))).
  eexists. split; [done|]. rewrite memory_with.
  change (<[buffer + Z.of_nat (length l) := 0]> (memory s1))
    with (write_bytes (memory s1) (buffer + Z.of_nat (length l)) [0]).
  split; [|split; [|split]].
  - apply bytes_at_app. split; [|apply bytes_at_write]. apply bytes_at_write_other; [|done].
    unfold disjoint_range. cbn [length]. lia.
  - apply streams_memory; [done|]. intros q Hq%Hdev. apply lookup_write_bytes_out. cbn [length]. lia.
  - apply stream_insert; [unfold disjoint_range; lia|done].
  - intros q H1 H2 H3. rewrite lookup_write_bytes_out by (cbn [length]; lia). apply Hp4; lia.
Qed.
End reading.

(** ** The modes of fopen *)

(** The grammar of the C standard: a letter, then any of the two spellings
    without a plus or the three with one. *)
Definition mode_grammar (mode : list Z) : option Z :=
  match mode with
  | [] => None
  | c :: rest =>
      update ← (if bool_decide (rest = []) || bool_decide (rest = str "b") then Some false
              else if bool_decide (rest = str "+") || bool_decide (rest = str "b+") || bool_decide (rest = str "+b")
              then Some true else None);
      extra ← (if c =? ch "r" then Some 0
               else if c =? ch "w" then Some (Z.lor O_CREAT O_TRUNC)
               else if c =? ch "a" then Some (Z.lor O_CREAT O_APPEND) else None);
      Some (Z.lor (if update : bool then O_RDWR else if c =? ch "r" then O_RDONLY else O_WRONLY) extra)
  end.

(** The table of fopen searched with equality of strings. *)
Fixpoint mode_lookup (mode : list Z) (modes : list (list string * Z)) : option Z :=
  match modes with
  | [] => None
  | (names, flags) :: modes =>
      if existsb (λ name, bool_decide (mode = str name)) names then Some flags else mode_lookup mode modes
  end.

Lemma mode_lookup_grammar mode : mode_lookup mode fopen_modes = mode_grammar mode.
Proof.
  destruct (decide (mode ∈ str <$> (fopen_modes ≫= fst))) as [Hin|Hout].
  - revert Hin. cbn. rewrite !elem_of_cons, elem_of_nil. intros Hin.
    repeat (destruct Hin as [->|Hin]; [vm_compute; reflexivity|]). done.
  - transitivity (@None Z).
    + revert Hout. cbn [fopen_modes mbind list_bind fmap list_fmap fst app]. rewrite !not_elem_of_cons. intros Hout.
      unfold fopen_modes. cbn [mode_lookup existsb].
      repeat (destruct Hout as [Hne Hout]; rewrite (bool_decide_eq_false_2 _ Hne); cbn [orb]; clear Hne). done.
    + symmetry. destruct (mode_grammar mode) as [f|] eqn:Hg; [|done]. exfalso. apply Hout.
      destruct mode as [|c rest]; [done|].
      assert (c = ch "r" ∨ c = ch "w" ∨ c = ch "a") as Hc.
      { destruct (decide (c = ch "r")) as [|Hr]; [tauto|]. destruct (decide (c = ch "w")) as [|Hw]; [tauto|].
        destruct (decide (c = ch "a")) as [|Ha]; [tauto|]. exfalso. revert Hg. unfold mode_grammar.
        apply Z.eqb_neq in Hr, Hw, Ha. rewrite Hr, Hw, Ha. by repeat case_bool_decide. }
      assert (rest ∈ [[]; str "b"; str "+"; str "b+"; str "+b"]) as Hrest.
      { revert Hg. unfold mode_grammar. rewrite !elem_of_cons. repeat case_bool_decide; tauto || done. }
      revert Hrest. rewrite !elem_of_cons, elem_of_nil.
      destruct Hc as [->|[->| ->]]; intros [->|[->|[->|[->|[->|[]]]]]]; apply (bool_decide_eq_true_1 _); vm_compute; reflexivity.
Qed.

Section modes.
Context {S : Type} `{L : !Lens S mem} `{E : !Lens S errno_st} `{V : !Lens S env_st} `{M : !MemMap S} `{K : !Sys S}.
Context (emptyBigBlock : Z) (fuel : nat) (literal : string → Z).

(** The strings fopen compares with are where the compiler put them. *)
Definition literals_at (m : mem) : Prop :=
  Forall (λ name, cstr m (literal name) (str name)) (fopen_modes ≫= fst).

Lemma mode_in_ok s mode m names :
  cstr (memory s) mode m → (length m < fuel)%nat →
  Forall (λ name, cstr (memory s) (literal name) (str name)) names →
  mode_in fuel literal mode names s = Ok (existsb (λ name, bool_decide (m = str name)) names, s).
Proof.
  intros Hm Hf. induction names as [|name names IH]; intros Hl; [done|].
  apply Forall_cons in Hl as [Hn Hl]. cbn [mode_in existsb].
  rewrite (bind_ok _ _ _ _ _ (strcmp_ok _ _ _ _ _ _ Hm Hn Hf)). case_bool_decide as He.
  - by rewrite (proj2 (lex_cmp_eq _ _) He).
  - destruct (lex_cmp m (str name) =? 0) eqn:Hz; zb; [by apply lex_cmp_eq in Hz|]. by apply IH.
Qed.

Lemma fopen_flags_ok s mode m modes :
  cstr (memory s) mode m → (length m < fuel)%nat →
  Forall (λ name, cstr (memory s) (literal name) (str name)) (modes ≫= fst) →
  fopen_flags fuel literal mode modes s = Ok (mode_lookup m modes, s).
Proof.
  intros Hm Hf. induction modes as [|[names flags] modes IH]; intros Hl; [done|].
  cbn [mbind list_bind fst] in Hl. apply Forall_app in Hl as [Hn Hl]. cbn [fopen_flags mode_lookup].
  rewrite (bind_ok _ _ _ _ _ (mode_in_ok _ _ _ _ Hm Hf Hn)).
  destruct (existsb _ names); [done|]. by apply IH.
Qed.

End modes.

(** ** Instances: a program that reads "ab", a newline and "c" from standard
    input, and fopen with the modes "w+" and "rw" *)
Definition demo_world : Type := stdio_st * (mem * (errno_st * env_st)).
Definition demo_world_sys : Sys demo_world := list_sys (L := Lens_snd _ _ _ (Lens_fst _ _)) (O := Lens_fst _ _).
Definition demo_world_streams : Streams (S := demo_world) (K := demo_world_sys) 0 1 :=
  list_streams (L := Lens_snd _ _ _ (Lens_fst _ _)) (O := Lens_fst _ _) 0 1.

(** The object stdin at 600, a buffer of 16 bytes at 700, the local byte at 500. *)
Definition demo_reader : demo_world :=
  (StdioSt [97; 98; 10; 99] [],
   (write_bytes (write_bytes (write_bytes ∅ 500 [7]) 600 __stdin) 700 (replicate 16 7), (Errno 0, env_init))).

Lemma fgets_reads_line_witness : ∃ s',
  fgets (K := demo_world_sys) 500 700 16 600 demo_reader = Ok (700, s') ∧
  bytes_at (memory s') 700 [97; 98; 10; 0] ∧ to_read s'.1 = [99].
Proof.
  destruct (fgets_reads_line (K := demo_world_sys) 0 1 (R := demo_world_streams) 500 600) with
    (s := demo_reader) (flags := 0) (buffer := 700) (size := 16) (input := [97; 98; 10; 99]) (out := @nil Z) (room := 0%nat)
    as (s' & Hrun & Hb & [Hin _] & _).
  all: try (unfold disjoint_range; lia); try done.
  - split; apply word_check; vm_compute; reflexivity.
  - split; [reflexivity|]. repeat constructor; lia.
  - apply (bytes_at_mapped _ _ [7]); [apply bytes_check; vm_compute; reflexivity|done].
  - apply (bytes_at_mapped _ _ (replicate 16 7)); [apply bytes_check; vm_compute; reflexivity|done].
  - exists s'. split; [exact Hrun|]. split; [exact Hb|]. exact (f_equal to_read Hin).
Defined.

(** The literals one behind the other from 1000 on, the modes "w+" and "rw" at
    2000 and 2008. *)
Definition demo_literal (name : string) : Z :=
  1000 + 8 * Z.of_nat (from_option fst 0%nat (list_find (λ n, n = name) (fopen_modes ≫= fst))).
Definition demo_literals : mem :=
  foldr (λ name m, write_bytes m (demo_literal name) (str name ++ [0])) ∅ (fopen_modes ≫= fst).
Definition demo_fopen : demo_world :=
  (StdioSt [] [], (write_bytes (write_bytes demo_literals 2000 (str "w+" ++ [0])) 2008 (str "rw" ++ [0]), (Errno 0, env_init))).
Definition demo_world_map : MemMap demo_world := {| mapMemory _ := fault; unmapMemory _ _ := fault |}.

Lemma demo_literals_at : literals_at demo_literal (memory demo_fopen).
Proof.
  unfold literals_at. apply Forall_forall. intros name Hin.
  apply cstr_check. revert name Hin. apply Forall_forall. apply (bool_decide_eq_true_1 _). vm_compute. reflexivity.
Qed.

