(* ===== verification/Canonical.v ===== *)
(** * The path of the working directory (libc/src/stdlib/canonicalize_file_name.c,
    libc/src/unistd/getcwd.c)

    canonicalize_file_name climbs from a file to the root, each time looking
    for the directory it came from among the entries of the parent.  The
    [struct stat] on its stack is at [local]. *)
From S2P Require Import Prelude Memory CString Errno Heap General Environ Unistd.

Section canonical.
Context {S : Type} `{L : !Lens S mem} `{E : !Lens S errno_st} `{V : !Lens S env_st} `{M : !MemMap S} `{K : !Sys S}.
Context (emptyBigBlock local : Z) (fuel : nat).
(** The addresses of string literals. *)
Context (literal : string → Z).

(** 64-bit inode numbers: two words. *)
Definition load64 (p : Z) : ST S Z := low ← load32 p; high ← load32 (p + 4); mret (low + 2 ^ 32 * high).

Definition get_entry_name (dir dev ino : Z) : ST S Z :=
  dirent ← readdir emptyBigBlock fuel dir;
  loop fuel (λ dirent : Z,
    if Z_bool dirent then
      ddev ← load32 (dirent + d_dev);
      dino ← load64 (dirent + d_ino);
      if (ddev =? dev) && (dino =? ino) then mret (Done (dirent + d_name)) else
      dirent ← readdir emptyBigBlock fuel dir;
      mret (Next dirent)
    else mret (Done NULL)) dirent.

(** Taking off slashes at the end: the last slash that has something behind it. *)
Definition trim_slashes (pathCopy : Z) : ST S Z :=
  slash ← strrchr fuel pathCopy 47;
  loop fuel (λ slash : Z,
    trailing ← (if Z_bool slash then c ← load (slash + 1); mret (negb (Z_bool c)) else mret false);
    if trailing : bool then
      store slash 0;;
      slash ← strrchr fuel pathCopy 47;
      mret (Next slash)
    else mret (Done slash)) slash.

(** The directory that contains the file: [None] when canonicalize_file_name
    returns NULL at once. *)
Definition parent_fd (path mode : Z) : ST S (option Z) :=
  if S_ISDIR mode then
    currentFd ← open path (Z.lor O_DIRECTORY O_SEARCH) 0;
    if s32 currentFd <? 0 then mret None else
    fd ← openat currentFd (literal "..") (Z.lor O_DIRECTORY O_SEARCH) 0;
    sys_close currentFd;;
    mret (Some fd)
  else
    pathCopy ← strdup emptyBigBlock fuel path;
    if negb (Z_bool pathCopy) then mret None else
    slash ← trim_slashes pathCopy;
    fd ← (if Z_bool slash then
            store (slash + 1) 0;;
            open pathCopy (Z.lor O_DIRECTORY O_SEARCH) 0
          else open (literal ".") (Z.lor O_DIRECTORY O_SEARCH) 0);
    free pathCopy;;
    mret (Some fd).

(** One level up: [fd] is the directory to search, [name] the path so far and
    [length] its length. *)
Definition climb (state : Z * Z * Z) : ST S (step (Z * Z * Z) Z) :=
  let '(fd, name, length) := state in
  dir ← fdopendir emptyBigBlock fuel fd;
  if negb (Z_bool dir) then sys_close fd;; free name;; mret (Done NULL) else
  dev ← load32 (local + st_dev);
  ino ← load64 (local + st_ino);
  filename ← get_entry_name dir dev ino;
  if negb (Z_bool filename) then closedir dir;; free name;; mret (Done NULL) else
  dot ← strcmp fuel filename (literal ".");
  root ← (if dot =? 0 then mret true else r ← strcmp fuel filename (literal ".."); mret (r =? 0));
  if root : bool then
    closedir dir;;
    c ← load name;
    if negb (Z_bool c) then free name;; p ← strdup emptyBigBlock fuel (literal "/"); mret (Done p)
    else mret (Done name)
  else
  n ← strlen fuel filename;
  let length := u32 (length + n + 1) in
  newName ← malloc emptyBigBlock fuel (u32 (length + 1));
  if negb (Z_bool newName) then closedir dir;; free name;; mret (Done NULL) else
  p ← stpcpy fuel newName (literal "/");
  p ← stpcpy fuel p filename;
  stpcpy fuel p name;;
  free name;;
  r ← fstat fd local;
  if s32 r <? 0 then closedir dir;; free newName;; mret (Done NULL) else
  fd ← openat fd (literal "..") (Z.lor O_DIRECTORY O_SEARCH) 0;
  closedir dir;;
  if s32 fd <? 0 then free newName;; mret (Done NULL) else mret (Next (fd, newName, length)).

Definition canonicalize_file_name (path : Z) : ST S Z :=
  if negb (Z_bool path) then set_errno EINVAL;; mret NULL else
  r ← stat path local;
  if s32 r <? 0 then mret NULL else
  mode ← load32 (local + st_mode);
  fd ← parent_fd path mode;
  match fd with
  | None => mret NULL
  | Some fd =>
      if s32 fd <? 0 then mret NULL else
      name ← malloc emptyBigBlock fuel 1;
      if negb (Z_bool name) then mret NULL else
      store name 0;;
      loop fuel climb (fd, name, 0)
  end.

(** [strcpy(buffer, result) >= size] compares the address strcpy returns with
    the size. *)
Definition getcwd (buffer size : Z) : ST S Z :=
  if Z_bool buffer && (size =? 0) then set_errno EINVAL;; mret NULL else
  result ← canonicalize_file_name (literal ".");
  if negb (Z_bool result) then mret NULL
  else if negb (Z_bool buffer) then mret result else
  copied ← strcpy fuel buffer result;
  if size <=? copied then free result;; set_errno ERANGE;; mret NULL
  else free result;; mret buffer.
End canonical.

(** getcwd with a buffer of the caller's at an address above the size always
    fails with ERANGE, after it has copied the path into the buffer without
    regard to the size. *)
Theorem getcwd_refuses {S : Type} `{L : !Lens S mem} `{E : !Lens S errno_st} `{M : !MemMap S} `{K : !Sys S}
    (emptyBigBlock local : Z) (fuel : nat) (literal : string → Z) (s s1 s2 : S) (buffer size result : Z) (path : list Z) :
  0 < size <= buffer → 0 < result →
  canonicalize_file_name emptyBigBlock local fuel literal (literal ".") s = Ok (result, s1) →
  cstr (memory s1) result path → mapped (memory s1) buffer (Z.of_nat (length path) + 1) →
  disjoint_range buffer (Z.of_nat (length path) + 1) result (Z.of_nat (length path) + 1) →
  (length path < fuel)%nat →
  free result (with_memory s1 (write_bytes (memory s1) buffer (path ++ [0]))) = Ok (tt, s2) →
  getcwd emptyBigBlock local fuel literal buffer size s = Ok (NULL, set (Errno ERANGE) s2).
Proof.
  intros Hs Hr0 Hrun Hc Hm Hd Hf Hfree. unfold getcwd.
  rewrite (proj2 (Z.eqb_neq size 0)), andb_false_r by lia. rewrite (bind_ok _ _ _ _ _ Hrun).
  assert (Z_bool result = true) as -> by (apply negb_true_iff, Z.eqb_neq; lia).
  assert (Z_bool buffer = true) as -> by (apply negb_true_iff, Z.eqb_neq; lia).
  cbn [negb]. rewrite (bind_ok _ _ _ _ _ (strcpy_ok s1 fuel buffer result path Hc Hm Hd Hf)).
  rewrite (proj2 (Z.leb_le size buffer)) by lia. by rewrite (bind_ok _ _ _ _ _ Hfree).
Qed.
