(* ===== verification/Programs.v ===== *)
(** * The programs of the system (programs/*/src)

    cat, ls, pwd, uname, echo, sleep, clear, true and false over the C library.
    The arguments of [main] are the addresses of the strings in [argv]; what
    [main] returns is the status exit is called with. *)
From S2P Require Import Prelude Memory CString Errno Strtol Printf Heap General Environ Unistd Stdio Canonical.

Definition EXIT_SUCCESS : Z := 0.
Definition EXIT_FAILURE : Z := 1.
(** A literal that ends in a newline. *)
Definition text_line (s : string) : string := s +:+ String (Ascii.ascii_of_nat 10) EmptyString.

(** struct utsname: five arrays of 65 bytes. *)
Definition UTSNAME_LENGTH : Z := 65.
Definition uts_sysname : Z := 0.
Definition uts_nodename : Z := 65.
Definition uts_release : Z := 130.
Definition uts_version : Z := 195.
Definition uts_machine : Z := 260.

Section programs.
Context {S : Type} `{L : !Lens S mem} `{E : !Lens S errno_st} `{V : !Lens S env_st} `{M : !MemMap S} `{K : !Sys S}.
(** [local] and [object] are a byte and a larger object on the stack, [digits]
    the buffer of vcbprintf. *)
Context (emptyBigBlock local object digits : Z) (fuel : nat).
Context (stdin stdout stderr : Z) (literal : string → Z).

Definition perror_literal (s : string) : ST S unit := perror local fuel stderr literal (literal s).

(** *** cat *)
(** One turn of the loop that copies the descriptor byte by byte to standard
    output; it ends with whether it failed. *)
Definition cat_turn (fd : Z) (_ : unit) : ST S (step unit bool) :=
  readSize ← sys_read fd object 1;
  if readSize <? 0 then perror_literal "read";; mret (Done true)
  else if readSize =? 0 then mret (Done false)
  else
    writtenSize ← sys_write 1 object readSize;
    (if writtenSize <? 0 then perror_literal "write" else mret tt);;
    mret (Next tt).
Definition cat_copy (fd : Z) : ST S bool := loop fuel (cat_turn fd) tt.

(** The new value of [failed]. *)
Definition cat (failed : bool) (path : Z) : ST S bool :=
  r ← strcmp fuel path (literal "-");
  fd ← (if r =? 0 then mret (Some 0)
        else fd ← open path O_RDONLY 0; mret (if fd <? 0 then None else Some fd));
  match fd with
  | None => perror_literal "open";; mret true
  | Some fd =>
      now ← cat_copy fd;
      (if fd =? 0 then mret tt else sys_close fd;; mret tt);;
      mret (failed || now)
  end.

Fixpoint cat_all (failed : bool) (paths : list Z) : ST S bool :=
  match paths with
  | [] => mret failed
  | path :: paths => failed ← cat failed path; cat_all failed paths
  end.

Definition cat_main (argv : list Z) : ST S Z :=
  failed ← (if 2 <=? Z.of_nat (length argv) then cat_all false (drop 1 argv) else cat false (literal "-"));
  mret (if failed : bool then 1 else 0).

(** *** ls *)
Definition listDirectory (path : Z) : ST S unit :=
  dir ← opendir emptyBigBlock fuel path;
  if negb (Z_bool dir) then perror_literal "open directory" else
  entry ← readdir emptyBigBlock fuel dir;
  loop fuel (λ entry : Z,
    if Z_bool entry then
      dot ← strcmp fuel (entry + d_name) (literal ".");
      dotdot ← (if dot =? 0 then mret 0 else strcmp fuel (entry + d_name) (literal ".."));
      (if negb (dot =? 0) && negb (dotdot =? 0) then puts local fuel stdout (entry + d_name);; mret tt else mret tt);;
      entry ← readdir emptyBigBlock fuel dir;
      mret (Next entry)
    else mret (Done tt)) entry;;
  closedir dir;;
  mret tt.

Definition ls_one (path : Z) : ST S unit :=
  r ← stat path object;
  if s32 r <? 0 then perror_literal "stat" else
  mode ← load32 (object + st_mode);
  if S_ISDIR mode then listDirectory path else puts local fuel stdout path;; mret tt.

Fixpoint ls_all (paths : list Z) : ST S unit :=
  match paths with
  | [] => mret tt
  | path :: paths => ls_one path;; ls_all paths
  end.

Definition ls_main (argv : list Z) : ST S Z :=
  (if Z.of_nat (length argv) <=? 1 then listDirectory (literal ".") else mret tt);;
  ls_all (drop 1 argv);;
  mret 0.

(** *** pwd *)
(** The component at [path] is [.] or [..]. *)
Definition dot_component (path : Z) : ST S bool :=
  c0 ← load path;
  if negb (c0 =? 46) then mret false else
  c1 ← load (path + 1);
  if (c1 =? 47) || (c1 =? 0) then mret true
  else if negb (c1 =? 46) then mret false
  else c2 ← load (path + 2); mret ((c2 =? 47) || (c2 =? 0)).

(** [while ( *path && *path++ != '/');] *)
Definition next_component (path : Z) : ST S Z :=
  loop fuel (λ path : Z,
    c ← load path;
    if c =? 0 then mret (Done path)
    else if c =? 47 then mret (Done (path + 1)) else mret (Next (path + 1))) path.

Definition isAbsolutePath (path : Z) : ST S bool :=
  c ← load path;
  if negb (c =? 47) then mret false else
  loop fuel (λ path : Z,
    c ← load path;
    if Z_bool c then
      dots ← dot_component path;
      if dots : bool then mret (Done false) else path ← next_component path; mret (Next path)
    else mret (Done true)) path.

Definition pwd_main (equals : Z) : ST S Z :=
  pwd ← getenv equals fuel (literal "PWD");
  absolute ← (if Z_bool pwd then isAbsolutePath pwd else mret false);
  (if absolute : bool then puts local fuel stdout pwd
   else
     pwd ← getcwd emptyBigBlock object fuel literal NULL 0;
     (if negb (Z_bool pwd) then perror_literal "getcwd" else mret tt);;
     puts local fuel stdout pwd);;
  mret 0.

(** *** uname *)
Definition putInfo (needSpace : bool) (s : Z) : ST S unit :=
  (if needSpace then fputc local 32 stdout;; mret tt else mret tt);;
  fputs fuel s stdout;;
  mret tt.

Definition uname_main : ST S Z :=
  sys_uname object;;
  putInfo false (object + uts_sysname);;
  putInfo true (object + uts_nodename);;
  putInfo true (object + uts_release);;
  putInfo true (object + uts_version);;
  putInfo true (object + uts_machine);;
  fputc local 10 stdout;;
  mret 0.

(** *** echo, sleep, clear, true, false *)
(** [i < argc] in the loop holds for the last argument too. *)
Fixpoint echo_all (args : list Z) : ST S unit :=
  match args with
  | [] => mret tt
  | a :: args =>
      printf local fuel stdout digits (str "%s") [a];;
      printf local fuel stdout digits (str " ") [];;
      echo_all args
  end.
Definition echo_main (argv : list Z) : ST S Z := echo_all (drop 1 argv);; mret 0.

Definition sleep_main (argv : list Z) : ST S Z :=
  match argv !! 1%nat with
  | None => fputs fuel (literal (text_line "Missing operand.")) stderr;; mret 1
  | Some operand =>
      time ← strtoul fuel operand NULL 10;
      sleep object time;;
      mret 0
  end.

Definition clear_main : ST S Z := printf local fuel stdout digits (27 :: str "[2J" ++ 27 :: str "[H") [];; mret 0.
Definition true_main : ST S Z := mret EXIT_SUCCESS.
Definition false_main : ST S Z := mret EXIT_FAILURE.
End programs.
