(* ===== verification/ProgramsLaws.v ===== *)
(** * What the programs guarantee

    cat without operands copies its standard input to its standard output,
    whatever the two descriptors are, as long as they keep the promise of the
    class Streams. *)
From S2P Require Import Prelude Memory CString Errno Heap General Environ Unistd Streams Stdio Canonical Programs.

Section cat.
Context {S : Type} `{L : !Lens S mem} `{E : !Lens S errno_st} `{K : !Sys S} `{R : !Streams 0 1}.
Context (local object : Z) (fuel : nat) (stderr : Z) (literal : string → Z).
(** The byte cat reads into is not in the memory of the device. *)
Hypothesis Hobject : ¬ device_memory object.
Notation turn := (cat_turn local object fuel stderr literal 0).

(** One byte read and written. *)
Lemma cat_step s c rest out room :
  streams (c :: rest) out (Datatypes.S room) s → takes c → is_Some (memory s !! object) →
  ∃ s', turn tt s = Ok (Next tt, s') ∧ streams rest (out ++ [c]) room s' ∧
    ∀ q, ¬ device_memory q → memory s' !! q = <[object := c]> (memory s) !! q.
Proof using Hobject.
  intros Hin Hc Hm.
  destruct (read_next _ _ _ _ _ object Hin Hm Hobject) as (s1 & Hr & Hm1 & Hin1).
  assert (memory s1 !! object = Some c) as Hc1 by (rewrite Hm1; apply lookup_insert_eq).
  destruct (write_next c _ _ _ _ object Hin1 Hc1 Hobject Hc) as (s2 & Hw & Hm2 & Hin2).
  exists s2. split; [|split; [done|intros q Hq; by rewrite Hm2, Hm1]]. unfold cat_turn. rewrite (bind_ok _ _ _ _ _ Hr).
  change (1 <? 0) with false. change (1 =? 0) with false. cbv iota.
  rewrite (bind_ok _ _ _ _ _ Hw). change (1 <? 0) with false. cbv iota. by rewrite bind_ret.
Qed.

Lemma cat_loop input : ∀ s n out room,
  streams input out (length input + room) s → Forall takes input → is_Some (memory s !! object) →
  (length input < n)%nat →
  ∃ s', loop n turn tt s = Ok (false, s') ∧ streams [] (out ++ input) room s' ∧
    ∀ q, q ≠ object → ¬ device_memory q → memory s' !! q = memory s !! q.
Proof using Hobject.
  induction input as [|c input IH]; intros s n out room Hin Ht Hm Hn; (destruct n as [|n]; [cbn in Hn; lia|]).
  - destruct (read_end _ _ _ object Hin Hm) as (s' & Hr & Hm' & Hin'). exists s'. rewrite app_nil_r.
    split; [|split; [done|by intros q _ _; rewrite Hm']].
    apply loop_done. unfold cat_turn. by rewrite (bind_ok _ _ _ _ _ Hr).
  - apply Forall_cons in Ht as [Hc Ht].
    destruct (cat_step s c input out (length input + room) Hin Hc Hm) as (s1 & Hrun & Hin1 & Hm1).
    destruct (IH s1 n (out ++ [c]) room Hin1 Ht) as (s' & Hrun' & Hin' & Hsame).
    { rewrite Hm1, lookup_insert_eq by done. eauto. }
    { cbn in Hn. lia. }
    exists s'. rewrite <-app_assoc in Hin'. split; [by rewrite (loop_next _ _ _ _ _ _ Hrun)|]. split; [done|].
    intros q Hq Hd. rewrite Hsame, Hm1 by done. by apply lookup_insert_ne.
Qed.

(** cat without operands copies its input to its output, byte by byte and in
    order, until the input ends, and its status is then 0; of its memory only
    the byte of its buffer changes, and what belongs to the device. *)
Lemma cat_copies s argv0 input out room :
  cstr (memory s) (literal "-") (str "-") → streams input out (length input + room) s → Forall takes input →
  is_Some (memory s !! object) → (length input + 1 < fuel)%nat →
  ∃ s', cat_main local object fuel stderr literal [argv0] s = Ok (0, s') ∧ streams [] (out ++ input) room s' ∧
    ∀ q, q ≠ object → ¬ device_memory q → memory s' !! q = memory s !! q.
Proof using Hobject.
  intros Hdash Hin Ht Hm Hf. destruct (cat_loop input s fuel out room Hin Ht Hm ltac:(lia)) as (s' & Hrun & Hpost).
  exists s'. split; [|done]. unfold cat_main, cat. cbn [length]. change (2 <=? Z.of_nat 1) with false. cbv iota.
  assert (strcmp fuel (literal "-") (literal "-") s = Ok (0, s)) as Hcmp
    by (rewrite (strcmp_ok s fuel _ _ _ _ Hdash Hdash ltac:(cbn; lia)); done).
  erewrite bind_ok; [|rewrite (bind_ok _ _ _ _ _ Hcmp); change (0 =? 0) with true; cbv iota; rewrite bind_ret;
    unfold cat_copy; rewrite (bind_ok _ _ _ _ _ Hrun); reflexivity]. done.
Qed.
End cat.
