(* ===== verification/Shell.v ===== *)
(** * The shell (programs/shell/src/shell.c)

    The two static variables of the shell are a record; [buffer] is the line of
    81 bytes on the stack of [main], [status] an int there.  The program that
    ends is [None]: exit, _Exit and an execv that succeeds do not return. *)
From S2P Require Import Prelude Memory CString Errno Printf Heap General Environ Unistd Stdio Canonical Programs.

(** The static variables. *)
Record shell_st : Type := ShellState { pwd : Z; pwdSize : Z }.
Definition shell_init : shell_st := ShellState NULL 0.
Definition BUFFER_SIZE : Z := 81.

Section shell.
Context {S : Type} `{L : !Lens S mem} `{E : !Lens S errno_st} `{V : !Lens S env_st} `{M : !MemMap S} `{K : !Sys S}.
Context `{T : !Lens S strtok_state} `{W : !Lens S shell_st} `{X : !Lens S exit_st} `{XE : !ExitEnv S}.
Context (emptyBigBlock local object status buffer : Z) (fuel : nat).
Context (stdin stdout stderr : Z) (literal : string → Z).

Definition get_shell : ST S shell_st := λ s, Ok (get s, s).
Definition set_pwd (p : Z) : ST S unit := λ s, Ok (tt, set (ShellState p (pwdSize (get s))) s).
Definition set_pwdSize (n : Z) : ST S unit := λ s, Ok (tt, set (ShellState (pwd (get s)) n) s).

(** *** The logical working directory *)
(** The component of length [n] at [component] put behind [pwdEnd]; the new end. *)
Definition pwd_component (component n pwdEnd : Z) : ST S Z :=
  sh ← get_shell;
  dot ← (if n =? 0 then mret true
         else if n =? 1 then r ← strncmp component (literal ".") 1; mret (r =? 0) else mret false);
  if dot : bool then mret pwdEnd else
  dotdot ← (if n =? 2 then r ← strncmp component (literal "..") 2; mret (r =? 0) else mret false);
  if dotdot : bool then
    lastSlash ← strrchr fuel (pwd sh) 47;
    if lastSlash =? pwd sh then mret (pwd sh + 1)
    else if Z_bool lastSlash then mret lastSlash else mret pwdEnd
  else
    pwdEnd ← (if negb (pwdEnd =? pwd sh + 1) then store pwdEnd 47;; mret (pwdEnd + 1) else mret pwdEnd);
    memcpy pwdEnd component n;;
    mret (pwdEnd + n).

(** The loop over the components: it leaves the end of the path. *)
Definition pwd_components (path pwdEnd : Z) : ST S Z :=
  n ← strcspn fuel path (literal "/");
  loop fuel (λ '(component, n, pwdEnd),
    c ← load component;
    if Z_bool c then
      pwdEnd ← pwd_component component n pwdEnd;
      let component := component + (n + 1) in
      n ← strcspn fuel component (literal "/");
      mret (Next (component, n, pwdEnd))
    else mret (Done pwdEnd)) (path, n, pwdEnd).

Definition updateLogicalPwd (path : Z) : ST S unit :=
  sh ← get_shell;
  if negb (Z_bool (pwd sh)) then p ← getcwd emptyBigBlock object fuel literal NULL 0; set_pwd p else
  c ← load path;
  (if c =? 47 then strcpy fuel (pwd sh) (literal "/");; mret tt else mret tt);;
  pwdLength ← strlen fuel (pwd sh);
  pathLength ← strlen fuel path;
  let newSize := u32 (pwdLength + pathLength + 1) in
  ready ← (if pwdSize sh <? newSize then
             newPwd ← realloc emptyBigBlock fuel (pwd sh) newSize;
             if negb (Z_bool newPwd) then free (pwd sh);; set_pwd NULL;; mret false
             else set_pwd newPwd;; mret true
           else mret true);
  if negb ready then mret tt else
  sh ← get_shell;
  n ← strlen fuel (pwd sh);
  pwdEnd ← pwd_components path (pwd sh + n);
  store pwdEnd 0.

(** *** The built-in command cd; its arguments are the addresses in [argv] *)
Definition cd (equals : Z) (argv : list Z) : ST S Z :=
  newCwd ← (match argv !! 1%nat with Some p => mret p | None => getenv equals fuel (literal "HOME") end);
  if (Z.of_nat (length argv) <? 2) && negb (Z_bool newCwd)
  then fputs fuel (literal (text_line "HOME not set")) stderr;; mret 1 else
  r ← chdir newCwd;
  if r =? -1 then perror local fuel stderr literal (literal "chdir");; mret 1 else
  updateLogicalPwd newCwd;;
  sh ← get_shell;
  kept ← (if negb (Z_bool (pwd sh)) then mret false
          else r ← setenv emptyBigBlock equals fuel (literal "PWD") (pwd sh) 1; mret (0 <=? r));
  (if kept : bool then mret tt else unsetenv equals fuel (literal "PWD");; mret tt);;
  mret 0.

(** *** Running programs *)
(** The loop tests the character at [path], which has gone one past the
    terminator when the last directory had no colon behind it. *)
Definition getExecutablePath (equals command : Z) : ST S Z :=
  commandLength ← strlen fuel command;
  path ← getenv equals fuel (literal "PATH");
  loop fuel (λ path : Z,
    c ← load path;
    if Z_bool c then
      n ← strcspn fuel path (literal ":");
      buffer ← malloc emptyBigBlock fuel (u32 (commandLength + n + 2));
      memcpy buffer path n;;
      store (buffer + n) 47;;
      memcpy (buffer + n + 1) command commandLength;;
      store (buffer + commandLength + n + 1) 0;;
      r ← access object buffer X_OK;
      if r =? 0 then mret (Done buffer) else
      free buffer;;
      mret (Next (path + (n + 1)))
    else mret (Done NULL)) path.

(** The child of fork, which ends whatever happens. *)
Definition run_child (equals command : Z) (argv : Z) : ST S unit :=
  slash ← strchr fuel command 47;
  command ← (if negb (Z_bool slash) then getExecutablePath equals command else mret command);
  replaced ← (if Z_bool command then
                r ← execv command argv;
                match r with
                | None => mret true
                | Some r => (if r =? -1 then perror local fuel stderr literal (literal "execv") else mret tt);; mret false
                end
              else fputs fuel (literal (text_line "Bad command")) stderr;; mret false);
  if replaced : bool then mret tt else _Exit 127.

Definition executeCommand (equals argv : Z) (arguments : list Z) : ST S (option Z) :=
  command ← (match arguments with p :: _ => mret p | [] => mret NULL end);
  r ← strcmp fuel command (literal "exit");
  if r =? 0 then exit 0;; mret None else
  r ← strcmp fuel command (literal "cd");
  if r =? 0 then r ← cd equals arguments; mret (Some r) else
  pid ← fork;
  if pid <? 0 then perror local fuel stderr literal (literal "fork");; mret (Some (-1))
  else if pid =? 0 then run_child equals command argv;; mret None
  else
    r ← sys_waitpid pid status 0;
    (if r =? -1 then perror local fuel stderr literal (literal "waitpid") else mret tt);;
    st ← load32 status;
    mret (Some (WEXITSTATUS st)).

(** *** The command line *)
Definition count_arguments (buffer : Z) : ST S Z :=
  loop fuel (λ '(i, argumentCount),
    c ← load (buffer + i);
    if Z_bool c then mret (Next (i + 1, if c =? 32 then argumentCount + 1 else argumentCount))
    else mret (Done argumentCount)) (0, 1).

(** The tokens of the line put into the array at [arguments], with the null
    pointer behind them; the tokens. *)
Definition split_arguments (arguments buffer : Z) : ST S (list Z) :=
  token ← strtok fuel buffer (literal " ");
  tokens ← loop fuel (λ '(token, tokens),
    if Z_bool token then
      store32 (arguments + 4 * Z.of_nat (length tokens)) token;;
      next ← strtok fuel NULL (literal " ");
      mret (Next (next, tokens ++ [token]))
    else mret (Done tokens)) (token, []);
  store32 (arguments + 4 * Z.of_nat (length tokens)) NULL;;
  mret tokens.

(** [None] for a line that is only a newline. *)
Definition parse_line : ST S (option (Z * list Z)) :=
  length ← strlen fuel buffer;
  first ← load buffer;
  if (length =? 1) && (first =? 10) then mret None else
  last ← load (buffer + (length - 1));
  (if last =? 10 then store (buffer + (length - 1)) 0 else mret tt);;
  argumentCount ← count_arguments buffer;
  arguments ← malloc emptyBigBlock fuel (u32 ((argumentCount + 1) * 4));
  tokens ← split_arguments arguments buffer;
  mret (Some (arguments, tokens)).

(** One turn of the loop of main; [Done] when the process ends.  Of the result
    of fgets nothing is made: at the end of the input the line read last is
    run again. *)
Definition prompt (equals : Z) (_ : unit) : ST S (step unit unit) :=
  at_end ← feof stdin;
  if Z_bool at_end then exit 0;; mret (Done tt) else
  fputs fuel (literal "$ ") stdout;;
  fgets local buffer BUFFER_SIZE stdin;;
  parsed ← parse_line;
  match parsed with
  | None => mret (Next tt)
  | Some (argv, arguments) =>
      r ← executeCommand equals argv arguments;
      match r with None => mret (Done tt) | Some _ => free argv;; mret (Next tt) end
  end.

Definition main (turns : nat) (equals : Z) : ST S unit :=
  p ← getenv equals fuel (literal "PWD");
  set_pwd p;;
  (if negb (Z_bool p) then
     p ← getcwd emptyBigBlock object fuel literal NULL 0;
     set_pwd p;;
     if Z_bool p then setenv emptyBigBlock equals fuel (literal "PWD") p 1;; mret tt else mret tt
   else mret tt);;
  sh ← get_shell;
  n ← (if Z_bool (pwd sh) then strlen fuel (pwd sh) else mret 0);
  set_pwdSize n;;
  loop turns (prompt equals) tt.
End shell.
