(* ===== verification/ShellLaws.v ===== *)
(** * What the shell guarantees

    The words of a command line, against a reference that splits the text, and
    the logical working directory of [cd ../..]. *)
From S2P Require Import Prelude Memory CString Errno Heap General Environ Unistd Stdio Canonical Programs Shell.

(** ** The words of a text, each with its address

    [split p txt]: the word that starts at [p], empty when a space is there,
    and the words behind it. *)
Definition SPACE : Z := 32.
Definition add_word (p : Z) (w : list Z) (ws : list (Z * list Z)) : list (Z * list Z) :=
  match w with [] => ws | _ => (p, w) :: ws end.

Fixpoint split_text (p : Z) (txt : list Z) : list Z * list (Z * list Z) :=
  match txt with
  | [] => ([], [])
  | c :: txt =>
      let '(w, ws) := split_text (p + 1) txt in
      if c =? SPACE then ([], add_word (p + 1) w ws) else (c :: w, ws)
  end.
Definition words (p : Z) (txt : list Z) : list (Z * list Z) :=
  let '(w, ws) := split_text p txt in add_word p w ws.

Definition spaces (txt : list Z) : nat := length (List.filter (λ c, c =? SPACE) txt).

Lemma words_space p txt : words p (SPACE :: txt) = words (p + 1) txt.
Proof. unfold words. cbn. by destruct (split_text (p + 1) txt). Qed.

Lemma words_skip p txt :
  words p txt = words (p + Z.of_nat (tok_skip SPACE txt)) (drop (tok_skip SPACE txt) txt).
Proof.
  revert p. induction txt as [|c txt IH]; intros p; [done|]. unfold tok_skip in *. cbn [span_len].
  destruct (c =? SPACE) eqn:Hc; zb; [|by rewrite Z.add_0_r].
  rewrite Hc, words_space, IH. cbn [drop]. f_equal. lia.
Qed.

Definition word_length (txt : list Z) : nat := span_len (λ x, negb (x =? SPACE)) txt.

Lemma split_text_word p txt :
  split_text p txt =
  (take (word_length txt) txt,
   words (p + Z.of_nat (word_length txt) + 1) (drop (Datatypes.S (word_length txt)) txt)).
Proof.
  revert p. induction txt as [|c txt IH]; intros p; [done|]. unfold word_length in *. cbn [span_len split_text].
  destruct (c =? SPACE) eqn:Hc; cbn [negb].
  - change (drop 1 (c :: txt)) with txt. replace (p + Z.of_nat 0 + 1) with (p + 1) by lia. unfold words. by destruct (split_text (p + 1) txt).
  - rewrite IH. f_equal. f_equal. lia.
Qed.

Lemma words_word p txt :
  (0 < word_length txt)%nat →
  words p txt = (p, take (word_length txt) txt) ::
    words (p + Z.of_nat (word_length txt) + 1) (drop (Datatypes.S (word_length txt)) txt).
Proof.
  intros H. unfold words at 1. rewrite split_text_word. destruct txt as [|c txt]; [cbn in H; lia|].
  destruct (word_length (c :: txt)); [lia|]. done.
Qed.

(** There are at most as many words as spaces and one more. *)
Lemma words_spaces p txt : (length (words p txt) <= Datatypes.S (spaces txt))%nat.
Proof.
  enough (∀ p, length (split_text p txt).2 <= spaces txt)%nat as H.
  { specialize (H p). unfold words. destruct (split_text p txt) as [[|c w] ws]; cbn in *; lia. }
  clear p. induction txt as [|c txt IH]; intros p; [done|]. unfold spaces in *. cbn [split_text List.filter].
  specialize (IH (p + 1)). destruct (split_text (p + 1) txt) as [w ws]. destruct (c =? SPACE); cbn in *; [|lia].
  destruct w; cbn; lia.
Qed.

(** A word lies inside its text. *)
Lemma words_range p txt b w :
  (b, w) ∈ words p txt → p <= b ∧ b + Z.of_nat (length w) <= p + Z.of_nat (length txt).
Proof.
  enough (∀ p, (length (split_text p txt).1 <= length txt)%nat ∧
    ∀ b w, (b, w) ∈ (split_text p txt).2 → p <= b ∧ b + Z.of_nat (length w) <= p + Z.of_nat (length txt)) as H.
  { specialize (H p) as [H1 H2]. unfold words. destruct (split_text p txt) as [[|c w'] ws]; cbn [fst snd] in *; [by apply H2|].
    cbn [add_word]. rewrite elem_of_cons. intros [[= -> ->]|Hin]; [lia|by apply H2]. }
  clear p b w. induction txt as [|c txt IH]; intros p; [split; [done|]; intros b w Hin; by apply elem_of_nil in Hin|].
  cbn [split_text]. destruct (IH (p + 1)) as [H1 H2]. destruct (split_text (p + 1) txt) as [w ws].
  cbn [fst snd] in *. destruct (c =? SPACE); cbn [fst snd length]; (split; [lia|]); intros b w' Hin.
  - destruct w as [|d w]; cbn [add_word] in Hin; [destruct (H2 _ _ Hin); lia|].
    apply elem_of_cons in Hin as [[= -> ->]|Hin]; [lia|]. destruct (H2 _ _ Hin). lia.
  - destruct (H2 _ _ Hin). lia.
Qed.

(** A piece of a string becomes a string when a terminator is put behind it. *)
Lemma word_cut_cstr m p txt k n :
  cstr m p txt → (k + n <= length txt)%nat →
  cstr (<[p + Z.of_nat k + Z.of_nat n := 0]> m) (p + Z.of_nat k) (take n (drop k txt)).
Proof.
  intros H Hk. assert (k <= length txt)%nat as Hk' by lia. pose proof (cstr_drop _ _ _ k Hk' H) as [Hc Hb].
  split; [by apply Forall_take|]. rewrite <-(take_drop n (drop k txt)) in Hb.
  rewrite <-app_assoc, bytes_at_app in Hb. destruct Hb as [Hb _].
  change (<[?a := 0]> m) with (write_bytes m a [0]).
  assert (length (take n (drop k txt)) = n) as Hl by (rewrite length_take, length_drop; lia).
  apply bytes_at_app. rewrite Hl. split; [|apply bytes_at_write].
  apply bytes_at_write_other; [|done]. unfold disjoint_range. rewrite Hl. cbn [length]. lia.
Qed.

Section splitting.
Context {S : Type} `{L : !Lens S mem} `{T : !Lens S strtok_state} `{HT : !Indep L T}.
Context (fuel : nat) (literal : string → Z).

(** The loop of [split_arguments]. *)
Definition token_loop (arguments : Z) (n : nat) (token : Z) (tokens : list Z) : ST S (list Z) :=
  loop n (λ '(token, tokens),
    if Z_bool token then
      store32 (arguments + 4 * Z.of_nat (length tokens)) token;;
      next ← strtok fuel NULL (literal " ");
      mret (Next (next, tokens ++ [token]))
    else mret (Done tokens)) (token, tokens).

Lemma memory_strtok q s : memory (set_strtok q s) = memory s.
Proof using HT. apply get_set_indep. Qed.
Lemma strtok_memory m s : strtok_next (get (with_memory s m)) = strtok_next (get s).
Proof using HT. unfold with_memory. by rewrite set_get_indep. Qed.
Lemma get_strtok q s : strtok_next (get (set_strtok q s)) = q.
Proof. unfold set_strtok. by rewrite get_set. Qed.

(** strtok on a text with a word: the word ends in a terminator and strtok goes
    on behind it, or has nothing left. *)
Lemma strtok_word q s p txt :
  strtok_start q s = p → 0 < p → cstr (memory s) p txt → cstr (memory s) (literal " ") [SPACE] →
  (length txt < fuel)%nat → (1 < fuel)%nat → drop (tok_skip SPACE txt) txt ≠ [] →
  let b := p + Z.of_nat (tok_skip SPACE txt) in
  let e := b + Z.of_nat (tok_len SPACE txt) in
  ∃ s', strtok fuel q (literal " ") s = Ok (b, s') ∧ memory s' = <[e := 0]> (memory s) ∧
    strtok_next (get s') =
      if decide (tok_skip SPACE txt + tok_len SPACE txt = length txt)%nat then NULL else e + 1.
Proof using HT.
  intros Hst Hp Hc Hlit Hf Hf1 Hne b e. subst p.
  assert (Z_bool (strtok_start q s) = true) as Hz by (apply negb_true_iff, Z.eqb_neq; lia).
  rewrite (strtok_some s fuel q (literal " ") SPACE txt Hz Hc Hlit Hf Hf1 Hne). fold b e.
  eexists. split; [done|]. case_decide as Hd; rewrite get_strtok, memory_strtok.
  - split; [|done]. rewrite insert_id; [done|]. destruct Hc as [_ Hb].
    rewrite <-(Hb (length txt) 0); [unfold e, b; f_equal; lia|]. by rewrite lookup_app_r, Nat.sub_diag by lia.
  - by rewrite memory_with.
Qed.

(** The words of a text are in memory: each a string of its own, and its
    address in the array at [a]. *)
Definition words_in (m : mem) (a : Z) (ws : list (Z * list Z)) : Prop :=
  ∀ i b w, ws !! i = Some (b, w) → cstr m b w ∧ word_at m (a + 4 * Z.of_nat i) b.

Lemma words_in_cons m a b w ws :
  cstr m b w → word_at m a b → words_in m (a + 4) ws → words_in m a ((b, w) :: ws).
Proof.
  intros Hc Hw Hws [|i] b' w' Hi; cbn in Hi.
  - injection Hi as <- <-. by rewrite Z.add_0_r.
  - destruct (Hws i b' w' Hi) as [H1 H2]. split; [done|].
    by replace (a + 4 * Z.of_nat (Datatypes.S i)) with (a + 4 + 4 * Z.of_nat i) by lia.
Qed.

(** What the rest of the splitting may change: the text from [p] on and the
    array from [a] on, [n] entries. *)
Definition split_frame (m m' : mem) (p k a n : Z) : Prop :=
  ∀ q, ¬ p <= q < p + k → ¬ a <= q < a + 4 * n → m' !! q = m !! q.

Lemma split_frame_bytes m m' p k a n q bs :
  split_frame m m' p k a n → disjoint_range p k q (Z.of_nat (length bs)) →
  disjoint_range a (4 * n) q (Z.of_nat (length bs)) → bytes_at m q bs → bytes_at m' q bs.
Proof.
  unfold disjoint_range. intros Hf H1 H2 Hb i b Hi. pose proof (lookup_lt_Some _ _ _ Hi).
  rewrite Hf by lia. by apply Hb.
Qed.

Lemma split_frame_cstr m m' p k a n q txt :
  split_frame m m' p k a n → disjoint_range p k q (Z.of_nat (length txt) + 1) →
  disjoint_range a (4 * n) q (Z.of_nat (length txt) + 1) → cstr m q txt → cstr m' q txt.
Proof.
  intros Hf H1 H2 [H3 H4]. split; [done|].
  apply (split_frame_bytes _ _ _ _ _ _ _ _ Hf); [rewrite length_app, Nat2Z.inj_add; done..|done].
Qed.

Lemma token_loop_step a n b tokens s s2 :
  Z_bool b = true → store32 (a + 4 * Z.of_nat (length tokens)) b s = Ok (tt, s2) →
  token_loop a (Datatypes.S n) b tokens s =
  (token ← strtok fuel NULL (literal " "); token_loop a n token (tokens ++ [b])) s2.
Proof.
  intros Hb Hst. unfold token_loop. cbn [loop]. rewrite Hb. unfold mbind, ST_bind. rewrite Hst.
  by destruct (strtok fuel NULL (literal " ") s2) as [[]| |].
Qed.

Lemma token_loop_null a n tokens s : (0 < n)%nat → token_loop a n NULL tokens s = Ok (tokens, s).
Proof. by destruct n as [|n]; [lia|]. Qed.

(** The head of a text behind its spaces starts a word. *)
Lemma word_starts txt :
  drop (tok_skip SPACE txt) txt ≠ [] → (0 < word_length (drop (tok_skip SPACE txt) txt))%nat.
Proof.
  intros Hne. unfold word_length, tok_skip in *. set (k := span_len _ txt) in *.
  destruct (drop k txt) as [|c rest] eqn:Hd; [done|].
  assert (txt !! k = Some c) as Hc by (rewrite <-(Nat.add_0_r k), <-lookup_drop, Hd; done).
  pose proof (span_len_at (λ x, x =? SPACE) txt c Hc) as Hc'. cbv beta in Hc'. cbn. rewrite Hc'. cbn. lia.
Qed.

(** The goal of the recursion: the text [txt] at [p], the tokens found so far. *)
Definition splits (a p : Z) (txt : list Z) (tokens : list Z) (run : ST S (list Z)) (s : S) : Prop :=
  let base := a + 4 * Z.of_nat (length tokens) in
  ∃ s', run s = Ok (tokens ++ (words p txt).*1, s') ∧
    words_in (memory s') base (words p txt) ∧
    split_frame (memory s) (memory s') p (Z.of_nat (length txt) + 1) base (Z.of_nat (length (words p txt))).

(** The memory in which the splitting goes on, with the word at [b] cut off. *)
Lemma cut_word p txt m base (b := p + Z.of_nat (tok_skip SPACE txt)) (n := tok_len SPACE txt)
    (m2 := write_bytes (<[b + Z.of_nat n := 0]> m) base (le32 b)) :
  cstr m p txt → 0 < p → p + Z.of_nat (length txt) < 2 ^ 32 →
  disjoint_range base 4 p (Z.of_nat (length txt) + 1) →
  cstr m2 b (take n (drop (tok_skip SPACE txt) txt)) ∧ word_at m2 base b ∧
  ((tok_skip SPACE txt + n < length txt)%nat →
   cstr m2 (b + Z.of_nat n + 1) (drop (Datatypes.S n) (drop (tok_skip SPACE txt) txt))) ∧
  split_frame m m2 p (Z.of_nat (length txt) + 1) base 1.
Proof.
  intros Hc Hp H32 Hd. unfold disjoint_range in Hd.
  pose proof (span_len_le (λ x, x =? SPACE) txt) as Hk. fold (tok_skip SPACE txt) in Hk.
  pose proof (span_len_le (λ x, negb (x =? SPACE)) (drop (tok_skip SPACE txt) txt)) as Hn.
  fold (tok_len SPACE txt) in Hn. fold n in Hn. rewrite length_drop in Hn.
  assert (∀ q t, p <= q → q + Z.of_nat (length t) <= p + Z.of_nat (length txt) →
    cstr (<[b + Z.of_nat n := 0]> m) q t → cstr m2 q t) as Hstr.
  { intros q t H1 H2 [H3 H4]. split; [done|]. apply bytes_at_write_other; [|done].
    unfold disjoint_range. rewrite length_app. cbn [length le32]. lia. }
  split; [|split; [|split]].
  - apply Hstr; [unfold b; lia|rewrite length_take, length_drop; unfold b; lia|]. apply word_cut_cstr; [done|lia].
  - apply word_at_le32. unfold b. lia.
  - intros Hlast. rewrite drop_drop. apply Hstr; [unfold b; lia|rewrite length_drop; unfold b; lia|].
    replace (b + Z.of_nat n + 1) with (p + Z.of_nat (tok_skip SPACE txt + Datatypes.S n)) by (unfold b; lia).
    assert (tok_skip SPACE txt + Datatypes.S n <= length txt)%nat as Hle by lia.
    destruct (cstr_drop _ _ _ _ Hle Hc) as [H1 H2]. split; [done|].
    change (<[?a := 0]> m) with (write_bytes m a [0]). apply bytes_at_write_other; [|done].
    unfold disjoint_range, b. cbn [length]. lia.
  - intros q H1 H2. unfold m2. rewrite lookup_write_bytes_out by (cbn [length le32]; lia).
    apply lookup_insert_ne. unfold b. lia.
Qed.

Lemma split_rest a txt : ∀ p q s tokens n,
  strtok_start q s = p → 0 < p → p + Z.of_nat (length txt) < 2 ^ 32 →
  cstr (memory s) p txt → cstr (memory s) (literal " ") [SPACE] →
  (length txt < fuel)%nat → (1 < fuel)%nat → (length (words p txt) < n)%nat →
  let base := a + 4 * Z.of_nat (length tokens) in
  let k := 4 * Z.of_nat (length (words p txt)) in
  mapped (memory s) base k → disjoint_range base k p (Z.of_nat (length txt) + 1) →
  disjoint_range (literal " ") 2 base k → disjoint_range (literal " ") 2 p (Z.of_nat (length txt) + 1) →
  splits a p txt tokens (token ← strtok fuel q (literal " "); token_loop a n token tokens) s.
Proof using HT.
  induction txt as [txt IH] using (induction_ltof1 _ length). unfold ltof in IH.
  intros p q s tokens n Hst Hp H32 Hc Hlit Hf Hf1 Hn base k Hmap Hd1 Hd2 Hd3. unfold disjoint_range in Hd1, Hd2, Hd3.
  pose proof (words_skip p txt) as Hws. destruct (decide (drop (tok_skip SPACE txt) txt = [])) as [Hnil|Hne].
  { rewrite Hnil in Hws. change (words _ []) with (@nil (Z * list Z)) in Hws. exists s. rewrite Hws.
    rewrite bind_ok with (a := NULL) (s' := s), token_loop_null, app_nil_r; [|lia|].
    - split; [done|]. split; [by intros i|by intros r].
    - apply (strtok_none s fuel q _ SPACE txt); rewrite ?Hst; try done. by apply negb_true_iff, Z.eqb_neq; lia. }
  destruct (strtok_word q s p txt) as (s1 & Hrun & Hm1 & Hnext); try done.
  pose proof (word_starts txt Hne) as Hw. rewrite (words_word _ _ Hw) in Hws.
  change (word_length (drop (tok_skip SPACE txt) txt)) with (tok_len SPACE txt) in *.
  set (b := p + Z.of_nat (tok_skip SPACE txt)) in *. set (tl := tok_len SPACE txt) in *.
  set (r := drop (tok_skip SPACE txt) txt) in *. set (rest := drop (Datatypes.S tl) r) in *.
  assert (k = 4 + 4 * Z.of_nat (length (words (b + Z.of_nat tl + 1) rest))) as Hk
    by (unfold k; rewrite Hws; cbn [length]; lia).
  clearbody k. unfold splits. rewrite Hws in *. cbn [length] in Hn. destruct n as [|n]; [lia|].
  assert (length r = length txt - tok_skip SPACE txt)%nat as Hlr by apply length_drop.
  assert (length rest = length r - Datatypes.S tl)%nat as Hlrest by apply length_drop.
  assert (tl <= length r)%nat as Htl by apply (span_len_le (λ x, negb (x =? SPACE))).
  assert (tok_skip SPACE txt <= length txt)%nat as Hsk by apply (span_len_le (λ x, x =? SPACE)).
  assert (mapped (memory s1) base 4) as Hmap1 by (rewrite Hm1; apply mapped_insert; eapply mapped_sub; [exact Hmap|lia..]).
  destruct (cut_word p txt (memory s) base Hc Hp H32) as (Hword & Haddr & Hnextc & Hframe).
  { unfold disjoint_range. lia. }
  fold b tl r in Hword, Haddr, Hnextc, Hframe. set (m2 := write_bytes _ base (le32 b)) in *.
  set (s2 := with_memory s1 m2).
  assert (memory s2 = m2) as Hm2 by apply memory_with.
  assert (a + 4 * Z.of_nat (length (tokens ++ [b])) = base + 4) as Hbase.
  { rewrite length_app. cbn [length]. unfold base. lia. }
  set (ws := words (b + Z.of_nat tl + 1) rest) in *.
  assert (∃ s', (token ← strtok fuel NULL (literal " "); token_loop a n token (tokens ++ [b])) s2 =
      Ok ((tokens ++ [b]) ++ ws.*1, s') ∧ words_in (memory s') (a + 4 * Z.of_nat (length (tokens ++ [b]))) ws ∧
    split_frame (memory s2) (memory s') (b + Z.of_nat tl + 1) (p + Z.of_nat (length txt) - b - Z.of_nat tl)
      (a + 4 * Z.of_nat (length (tokens ++ [b]))) (Z.of_nat (length ws))) as (s' & Hrun' & Hin' & Hf').
  { destruct (decide (tok_skip SPACE txt + tl = length txt)%nat) as [Hlast|Hmore].
    - assert (rest = []) as Hrest by (apply length_zero_iff_nil; lia). subst ws. rewrite Hrest. exists s2.
      rewrite bind_ok with (a := NULL) (s' := s2), token_loop_null by (lia || (apply strtok_null; unfold s2; by rewrite strtok_memory)).
      cbn. rewrite app_nil_r. split; [done|]. split; [by intros i|by intros x].
    - subst ws. replace (p + Z.of_nat (length txt) - b - Z.of_nat tl) with (Z.of_nat (length rest) + 1) by lia.
      change (splits a (b + Z.of_nat tl + 1) rest (tokens ++ [b])
        (token ← strtok fuel NULL (literal " "); token_loop a n token (tokens ++ [b])) s2).
      apply IH; rewrite ?Hm2, ?Hbase; try lia; try (unfold disjoint_range; lia).
      + unfold strtok_start, s2. by rewrite strtok_memory, Hnext.
      + apply Hnextc. lia.
      + apply (split_frame_cstr _ _ _ _ _ _ _ _ Hframe); [unfold disjoint_range; cbn [length]; lia..|done].
      + apply mapped_write, mapped_insert. eapply mapped_sub; [exact Hmap|lia..]. }
  exists s'. assert (Z_bool b = true) as Hb by (apply negb_true_iff, Z.eqb_neq; lia).
  rewrite (bind_ok _ _ _ _ _ Hrun), (token_loop_step a n b tokens s1 s2 Hb).
  2: { rewrite store32_ok by done. unfold s2, m2. by rewrite Hm1. }
  rewrite Hm2, Hbase in *. rewrite Hrun'. split; [by rewrite <-app_assoc|]. split.
  - assert (length (take tl r) = tl) as Hlt by (rewrite length_take; lia). apply words_in_cons; [| |done].
    + apply (split_frame_cstr _ _ _ _ _ _ _ _ Hf'); [unfold disjoint_range; rewrite ?Hlt; lia..|done].
    + destruct Haddr as (b0 & b1 & b2 & b3 & H1 & H2). exists b0, b1, b2, b3. split; [|done].
      apply (split_frame_bytes _ _ _ _ _ _ _ _ Hf'); [unfold disjoint_range; cbn [length]; lia..|done].
  - cbn [length]. intros x H1 H2. rewrite Hf' by lia. apply Hframe; lia.
Qed.

Lemma count_arguments_ok s p txt :
  cstr (memory s) p txt → (length txt < fuel)%nat →
  count_arguments fuel p s = Ok (Z.of_nat (Datatypes.S (spaces txt)), s).
Proof.
  intros Hc Hf. unfold count_arguments.
  apply (loop_trace (λ j, (Z.of_nat j, Z.of_nat (Datatypes.S (spaces (take j txt))))) (λ _, s) _ (length txt)); [| |done].
  - intros j Hj. destruct (char_at txt j (proj1 Hc) Hj) as (c & Hc' & Hok).
    rewrite (bind_ok _ _ _ _ _ (load_char s p txt j Hc ltac:(lia))), Hc'. cbn [default from_option id].
    rewrite nz_bool by done. unfold mret, ST_ret, spaces. rewrite (take_S_r _ _ _ Hc'), List.filter_app, length_app.
    replace (Z.of_nat j + 1) with (Z.of_nat (Datatypes.S j)) by lia. cbn [List.filter]. unfold SPACE.
    destruct (c =? 32); cbn [length]; do 4 f_equal; lia.
  - rewrite (bind_ok _ _ _ _ _ (load_char s p txt (length txt) Hc ltac:(lia))).
    rewrite lookup_ge_None_2, firstn_all by lia. done.
Qed.

(** C37. The shell splits a command line into its words: the array of arguments
    gets the address of every maximal run of characters without a space, in
    order, with a null pointer behind the last, and at each of these addresses
    there is then the word as a string of its own.  The array main allocates,
    one entry more than one plus the number of spaces, is never too short. *)
Theorem command_words s a p txt :
  0 < p → p + Z.of_nat (length txt) < 2 ^ 32 → cstr (memory s) p txt →
  cstr (memory s) (literal " ") [SPACE] → (Datatypes.S (length txt) < fuel)%nat →
  let argumentCount := Z.of_nat (Datatypes.S (spaces txt)) in
  mapped (memory s) a ((argumentCount + 1) * 4) →
  disjoint_range a ((argumentCount + 1) * 4) p (Z.of_nat (length txt) + 1) →
  disjoint_range (literal " ") 2 a ((argumentCount + 1) * 4) →
  disjoint_range (literal " ") 2 p (Z.of_nat (length txt) + 1) →
  count_arguments fuel p s = Ok (argumentCount, s) ∧
  ∃ s', split_arguments fuel literal a p s = Ok ((words p txt).*1, s') ∧
    words_in (memory s') a (words p txt) ∧
    word_at (memory s') (a + 4 * Z.of_nat (length (words p txt))) NULL ∧
    ∀ q, ¬ p <= q < p + Z.of_nat (length txt) + 1 → ¬ a <= q < a + (argumentCount + 1) * 4 →
      memory s' !! q = memory s !! q.
Proof using HT.
  intros Hp H32 Hc Hlit Hf n Hmap Hd1 Hd2 Hd3. split; [apply count_arguments_ok; [done|lia]|].
  pose proof (words_spaces p txt) as Hws. unfold disjoint_range in Hd1, Hd2, Hd3.
  assert (Z_bool p = true) as Hz by (apply negb_true_iff, Z.eqb_neq; lia).
  assert (spaces txt <= length txt)%nat as Hsp by apply List.filter_length_le.
  destruct (split_rest a txt p p s [] fuel) as (s1 & Hrun & Hin & Hfr);
    try done; try lia; try (unfold disjoint_range; cbn [length]; lia).
  { unfold strtok_start. by rewrite Hz. }
  { cbn [length]. eapply mapped_sub; [exact Hmap|lia..]. }
  set (ws := words p txt) in *. cbn [length app] in *. rewrite Z.mul_0_r, Z.add_0_r in *.
  assert (mapped (memory s1) (a + 4 * Z.of_nat (length ws)) 4) as Hlast.
  { intros q Hq. rewrite Hfr by lia. apply Hmap. lia. }
  set (s2 := with_memory s1 (write_bytes (memory s1) (a + 4 * Z.of_nat (length ws)) (le32 NULL))).
  exists s2. split; [|split; [|split]].
  - transitivity ((tokens ← (token ← strtok fuel p (literal " "); token_loop a fuel token []);
      store32 (a + 4 * Z.of_nat (length tokens)) NULL;; mret tokens) s).
    { unfold split_arguments, token_loop, mbind, ST_bind. by destruct (strtok fuel p (literal " ") s) as [[]| |]. }
    rewrite (bind_ok _ _ _ _ _ Hrun), length_fmap, (bind_ok _ _ _ _ _ (store32_ok _ _ _ Hlast)). done.
  - intros i b w Hi. destruct (Hin i b w Hi) as [[Hw1 Hw2] Hw3]. unfold s2. rewrite memory_with.
    assert ((b, w) ∈ ws) as Hmem by (by eapply list_elem_of_lookup_2). apply words_range in Hmem as [Hb1 Hb2].
    pose proof (lookup_lt_Some _ _ _ Hi). split.
    + split; [done|]. apply bytes_at_write_other; [|done].
      unfold disjoint_range. rewrite length_app. cbn [length le32]. lia.
    + apply word_at_write_other; [|done]. unfold disjoint_range. cbn [length le32]. lia.
  - unfold s2. rewrite memory_with. by apply word_at_le32.
  - intros q H1 H2. unfold s2. rewrite memory_with, lookup_write_bytes_out by (cbn [length le32]; lia).
    apply Hfr; lia.
Qed.
End splitting.

Section pwd.
Context {S : Type} `{L : !Lens S mem} `{E : !Lens S errno_st} `{V : !Lens S env_st} `{M : !MemMap S} `{K : !Sys S}.
Context `{W : !Lens S shell_st}.
Context (emptyBigBlock object : Z) (fuel : nat) (literal : string → Z).

(** The literals of [updateLogicalPwd]. *)
Definition pwd_literals (m : mem) : Prop :=
  cstr m (literal ".") (str ".") ∧ cstr m (literal "..") (str "..") ∧ cstr m (literal "/") (str "/").

Lemma last_pos_end (txt : list Z) : last_pos 47 (txt ++ [0]) = last_pos 47 txt.
Proof. induction txt as [|c txt IH]; cbn; [done|]. by rewrite IH. Qed.

Lemma last_pos_lt c (txt : list Z) k : last_pos c txt = Some k → (k < length txt)%nat.
Proof.
  revert k. induction txt as [|x txt IH]; intros k; cbn; [done|]. destruct (last_pos c txt) as [n|]; cbn.
  - intros [= <-]. specialize (IH n eq_refl). lia.
  - destruct (x =? c); [|done]. intros [= <-]. lia.
Qed.

(** A component [..]: the end goes back to the last slash of the string at
    [pwd], wherever the end was before. *)
Lemma component_up s component rest dir pwdEnd k :
  pwd_literals (memory s) → cstr (memory s) component (str ".." ++ rest) →
  cstr (memory s) (pwd (get s)) dir → last_pos 47 dir = Some k →
  (Datatypes.S (length dir) < fuel)%nat → 0 < pwd (get s) →
  pwd_component fuel literal component 2 pwdEnd s =
  Ok (pwd (get s) + (if decide (k = 0%nat) then 1 else Z.of_nat k), s).
Proof.
  intros (Hdot & Hdd & _) Hc Hd Hk Hf Hp. unfold pwd_component. rewrite (bind_ok _ _ s (get s) s) by done.
  change (2 =? 0) with false. change (2 =? 1) with false. change (2 =? 2) with true. cbv iota.
  rewrite bind_ret. cbv iota.
  erewrite bind_ok; [|erewrite bind_ok; [|exact (strncmp_ok s component (literal "..") _ _ 2 Hc Hdd)]; reflexivity].
  change (take 2 (str ".." ++ rest)) with (take 2 (str "..")). rewrite lex_cmp_refl. cbv iota.
  change (0 =? 0) with true. cbv iota.
  rewrite (bind_ok _ _ _ _ _ (strrchr_ok s fuel _ dir 47 Hd ltac:(lia))).
  change (u8 47) with 47. rewrite last_pos_end, Hk. cbn [ptr_of].
  destruct (decide (k = 0%nat)) as [->|Hk0].
  - rewrite Z.add_0_r, Z.eqb_refl. done.
  - destruct (pwd (get s) + Z.of_nat k =? pwd (get s)) eqn:Heq; zb; [lia|].
    assert (Z_bool (pwd (get s) + Z.of_nat k) = true) as ->; [|done].
    apply negb_true_iff, Z.eqb_neq. lia.
Qed.

(** The loop on [../..]: it reads the byte behind the terminator last. *)
Lemma components_up_twice s path dir k pwdEnd :
  pwd_literals (memory s) → cstr (memory s) (pwd (get s)) dir → last_pos 47 dir = Some k →
  0 < pwd (get s) → cstr (memory s) path (str "../..") → memory s !! (path + 6) = Some 0 →
  (length dir + 6 < fuel)%nat →
  pwd_components fuel literal path pwdEnd s =
  Ok (pwd (get s) + Z.of_nat (if decide (k = 0%nat) then 1 else k), s).
Proof.
  intros Hlit Hd Hk Hp Hpath Hend Hf. pose proof Hlit as (_ & _ & Hslash). unfold pwd_components.
  set (up := pwd (get s) + Z.of_nat (if decide (k = 0%nat) then 1 else k)).
  assert (∀ q rest e, cstr (memory s) q (str ".." ++ rest) → pwd_component fuel literal q 2 e s = Ok (up, s)) as Hup.
  { intros q rest e Hq. rewrite (component_up s q rest dir e k) by (done || lia).
    unfold up. by case_decide. }
  assert (∀ q rest, cstr (memory s) q rest → (length rest < 6)%nat → strcspn fuel q (literal "/") s =
    Ok (Z.of_nat (span_len (λ c, negb (mem_Z (str "/") c)) rest), s)) as Hspan.
  { intros q rest Hq Hl. apply strcspn_ok; [done..|lia|cbn; lia]. }
  assert (cstr (memory s) (path + 3) (str "..")) as Hpath3 by (apply (cstr_drop _ _ (str "../..") 3); [cbn; lia|done]).
  assert (cstr (memory s) (path + 6) []) as Hpath6 by by apply cstr_nil.
  assert (strcspn fuel path (literal "/") s = Ok (2, s)) as Hs1 by exact (Hspan _ _ Hpath ltac:(cbn; lia)).
  assert (strcspn fuel (path + 3) (literal "/") s = Ok (2, s)) as Hs2 by exact (Hspan _ _ Hpath3 ltac:(cbn; lia)).
  assert (strcspn fuel (path + 6) (literal "/") s = Ok (0, s)) as Hs3 by exact (Hspan _ _ Hpath6 ltac:(cbn; lia)).
  rewrite (bind_ok _ _ _ _ _ Hs1). replace path with (path + 3 * Z.of_nat 0) at 1 by lia.
  apply (loop_trace (λ j, (path + 3 * Z.of_nat j, match j with 0%nat | 1%nat => 2 | _ => 0 end,
    match j with 0%nat => pwdEnd | _ => up end)) (λ _, s) _ 2); [| |lia].
  - intros [|[|j]] Hj; [| |lia]; cbv beta iota zeta.
    + replace (path + 3 * Z.of_nat 0) with path by lia.
      rewrite (bind_ok _ _ s 46 s) by (apply load_ok; by apply cstr_cons in Hpath as (_ & ? & _)).
      change (Z_bool 46) with true. cbv iota.
      rewrite (bind_ok _ _ _ _ _ (Hup path (str "/..") _ Hpath)). change (path + (2 + 1)) with (path + 3).
      by rewrite (bind_ok _ _ _ _ _ Hs2).
    + change (path + 3 * Z.of_nat 1) with (path + 3).
      rewrite (bind_ok _ _ s 46 s) by (apply load_ok; by apply cstr_cons in Hpath3 as (_ & ? & _)).
      change (Z_bool 46) with true. cbv iota.
      rewrite (bind_ok _ _ _ _ _ (Hup (path + 3) [] _ Hpath3)). replace (path + 3 + (2 + 1)) with (path + 6) by lia.
      by rewrite (bind_ok _ _ _ _ _ Hs3).
  - change (path + 3 * Z.of_nat 2) with (path + 6). by rewrite (bind_ok _ _ s 0 s) by by apply load_ok.
Qed.

(** [cd ../..] goes up one directory only in the shell's own record of the
    working directory, whatever directory chdir has made current: both dots
    cut the path at the last slash of the string as it was, since the string is
    not shortened before the end of the loop.  The terminator behind the
    argument must be followed by another: the loop goes on with the byte behind
    the terminator. *)
Theorem cd_up_twice s path dir k :
  pwd_literals (memory s) → cstr (memory s) (pwd (get s)) dir → last_pos 47 dir = Some k →
  0 < pwd (get s) → cstr (memory s) path (str "../..") → memory s !! (path + 6) = Some 0 →
  Z.of_nat (length dir) + 6 <= pwdSize (get s) < 2 ^ 32 → (length dir + 6 < fuel)%nat →
  ∃ s', updateLogicalPwd emptyBigBlock object fuel literal path s = Ok (tt, s') ∧
    cstr (memory s') (pwd (get s)) (take (if decide (k = 0%nat) then 1 else k) dir).
Proof.
  intros Hlit Hd Hk Hp Hpath Hend Hsize Hf. unfold updateLogicalPwd.
  rewrite (bind_ok _ _ s (get s) s) by done.
  assert (Z_bool (pwd (get s)) = true) as -> by (apply negb_true_iff, Z.eqb_neq; lia).
  assert (load path s = Ok (46, s)) as Hload by (apply load_ok; by apply cstr_cons in Hpath as (_ & ? & _)).
  cbn [negb]. rewrite (bind_ok _ _ _ _ _ Hload). change (46 =? 47) with false. cbv iota. rewrite bind_ret.
  rewrite (bind_ok _ _ _ _ _ (strlen_ok s fuel _ dir Hd ltac:(lia))).
  rewrite (bind_ok _ _ _ _ _ (strlen_ok s fuel _ _ Hpath ltac:(cbn; lia))).
  change (Z.of_nat (length (str "../.."))) with 5. cbv zeta. rewrite u32_small by lia.
  destruct (pwdSize (get s) <? _) eqn:Hlt; zb; [lia|]. rewrite bind_ret. cbn [negb].
  rewrite (bind_ok _ _ s (get s) s) by done.
  rewrite (bind_ok _ _ _ _ _ (strlen_ok s fuel _ dir Hd ltac:(lia))).
  pose proof (last_pos_lt _ _ _ Hk) as Hkl. set (d := Z.of_nat (if decide (k = 0%nat) then 1 else k)).
  assert (is_Some (memory s !! (pwd (get s) + d))) as Hm.
  { destruct Hd as [_ Hb]. apply (bytes_at_mapped _ _ _ (Z.of_nat (length dir) + 1) Hb).
    - rewrite length_app. cbn [length]. lia.
    - unfold d. case_decide; lia. }
  rewrite (bind_ok _ _ s (pwd (get s) + d) s); [|by eapply components_up_twice].
  rewrite store_byte by (done || (unfold byte_ok; lia)). eexists. split; [done|]. rewrite memory_with.
  pose proof (word_cut_cstr (memory s) (pwd (get s)) dir 0 (if decide (k = 0%nat) then 1 else k) Hd) as Hcut.
  rewrite Z.add_0_r, drop_0 in Hcut. apply Hcut. case_decide; lia.
Qed.
End pwd.

(** ** Instances: the line [ls  -l a] and [cd ../..] in /a/b *)
Definition demo_line_state : mem * strtok_state :=
  (write_bytes (write_bytes (write_bytes ∅ 100 (str "ls  -l a" ++ [0])) 200 (str " " ++ [0])) 300 (replicate 20 7),
   StrtokState NULL).

Lemma command_words_witness : ∃ s',
  split_arguments 20 (λ _, 200) 300 100 demo_line_state = Ok ([100; 104; 107], s') ∧
  words_in (memory s') 300 [(100, str "ls"); (104, str "-l"); (107, str "a")].
Proof.
  destruct (command_words 20 (λ _, 200) demo_line_state 300 100 (str "ls  -l a")) as (_ & s' & Hrun & Hin & _).
  - lia.
  - vm_compute. reflexivity.
  - apply cstr_check. vm_compute. reflexivity.
  - apply cstr_check. vm_compute. reflexivity.
  - cbn. lia.
  - apply (bytes_at_mapped _ _ (replicate 20 7)); [apply bytes_check; vm_compute; reflexivity|vm_compute; discriminate].
  - right. vm_compute. discriminate.
  - left. vm_compute. discriminate.
  - right. vm_compute. discriminate.
  - exists s'. split; [exact Hrun|exact Hin].
Defined.

Definition demo_cd : (mem * (errno_st * env_st)) * shell_st :=
  ((write_bytes (write_bytes (write_bytes (write_bytes (write_bytes ∅ 100 (str "." ++ [0])) 110 (str ".." ++ [0]))
      120 (str "/" ++ [0])) 200 (str "/a/b" ++ [0])) 300 (str "../.." ++ [0; 0]), (Errno 0, env_init)),
   ShellState 200 16).
Definition demo_cd_literal (l : string) : Z :=
  if String.eqb l "." then 100 else if String.eqb l ".." then 110 else 120.
Definition demo_cd_mem : Lens ((mem * (errno_st * env_st)) * shell_st) mem := Lens_left _ _ _ (Lens_fst _ _).

Definition demo_cd_errno : Lens ((mem * (errno_st * env_st)) * shell_st) errno_st :=
  Lens_left _ _ _ (Lens_snd _ _ _ (Lens_fst _ _)).
Definition no_map : MemMap ((mem * (errno_st * env_st)) * shell_st) :=
  {| mapMemory _ := fault; unmapMemory _ _ := fault |}.
Definition no_sys : Sys ((mem * (errno_st * env_st)) * shell_st) :=
  {| sys_read _ _ _ := fault; sys_write _ _ _ := fault; sys_openat _ _ _ _ := fault; sys_close _ := fault;
     sys_fstat _ _ := fault; sys_fstatat _ _ _ _ := fault; sys_readdir _ _ _ _ := fault;
     sys_fchdirat _ _ := fault; sys_rfork _ := fault; sys_execve _ _ _ := fault;
     sys_waitpid _ _ _ := fault; sys_nanosleep _ _ := fault; sys_uname _ := fault |}.

Lemma cd_up_twice_witness : ∃ s',
  updateLogicalPwd (L := demo_cd_mem) (E := demo_cd_errno) (M := no_map) (K := no_sys) (W := Lens_snd _ _ _ (Lens_id _))
    0 0 20 demo_cd_literal 300 demo_cd = Ok (tt, s') ∧
  cstr (memory (L := demo_cd_mem) s') 200 (str "/a").
Proof.
  apply (cd_up_twice (L := demo_cd_mem) (E := demo_cd_errno) (M := no_map) (K := no_sys) (W := Lens_snd _ _ _ (Lens_id _))
    0 0 20 demo_cd_literal demo_cd 300 (str "/a/b") 2).
  - split; [|split]; apply cstr_check; vm_compute; reflexivity.
  - apply cstr_check. vm_compute. reflexivity.
  - reflexivity.
  - reflexivity.
  - apply cstr_check. vm_compute. reflexivity.
  - vm_compute. reflexivity.
  - vm_compute. split; [discriminate|reflexivity].
  - vm_compute. lia.
Defined.
