(* ===== verification/Vga.v ===== *)
(** * The VGA text terminal (kernel/src/vgaterminal.cpp)

    The screen is 25 rows of 80 cells of two bytes, a character and a colour, at
    0xC0000000 in byte memory; the state machine of escape sequences keeps up to
    16 numeric parameters.  Stores outside mapped memory fault, so a theorem
    that ends in [Ok] also says that the video page is not overrun. *)
From S2P Require Import Prelude Memory CString.

(** Hardwarecommunication of port.h: the I/O ports. *)
Class Ports (S : Type) : Type := {
  inportb : Z → ST S Z;
  outportb : Z → Z → ST S unit;
}.

Definition HEIGHT : Z := 25.
Definition WIDTH : Z := 80.
Definition VIDEO_SIZE : Z := 2 * WIDTH * HEIGHT.
Definition MAX_PARAMS : Z := 16.
Definition DEFAULT_BACKGROUND_COLOR : Z := 0x8.
Definition DEFAULT_FOREGROUND_COLOR : Z := 0x3.
Definition DEFAULT_COLOR : Z :=
  Z.lor (Z.shiftl DEFAULT_BACKGROUND_COLOR 4) DEFAULT_FOREGROUND_COLOR.
Definition video : Z := 0xC0000000.

Inductive TerminalStatus : Type := NORMAL | ESCAPED | CSI.
#[export] Instance TerminalStatus_eq_dec : EqDecision TerminalStatus.
Proof. solve_decision. Defined.

(** The static variables of vgaterminal.cpp. *)
Record vga_st : Type := Vga {
  fontColor : Z;
  cursorPosX : Z;
  cursorPosY : Z;
  savedX : Z;
  savedY : Z;
  params : list Z;
  paramSpecified : list bool;
  paramIndex : Z;
  status : TerminalStatus;
}.

Definition vga_initial : vga_st :=
  Vga DEFAULT_COLOR 0 0 0 0 (replicate 16 0) (replicate 16 false) 0 NORMAL.

(** Assignments to single variables. *)
Definition v_color (f : Z → Z) (v : vga_st) : vga_st :=
  Vga (f (fontColor v)) (cursorPosX v) (cursorPosY v) (savedX v) (savedY v)
    (params v) (paramSpecified v) (paramIndex v) (status v).
Definition v_cursor (x y : Z) (v : vga_st) : vga_st :=
  Vga (fontColor v) x y (savedX v) (savedY v) (params v) (paramSpecified v) (paramIndex v) (status v).
Definition v_saved (x y : Z) (v : vga_st) : vga_st :=
  Vga (fontColor v) (cursorPosX v) (cursorPosY v) x y (params v) (paramSpecified v) (paramIndex v) (status v).
Definition v_params (ps : list Z) (specified : list bool) (index : Z) (v : vga_st) : vga_st :=
  Vga (fontColor v) (cursorPosX v) (cursorPosY v) (savedX v) (savedY v) ps specified index (status v).
Definition v_status (st : TerminalStatus) (v : vga_st) : vga_st :=
  Vga (fontColor v) (cursorPosX v) (cursorPosY v) (savedX v) (savedY v)
    (params v) (paramSpecified v) (paramIndex v) st.

(** [video + 2 * line * WIDTH + 2 * column] in unsigned int and pointer
    arithmetic. *)
Definition videoOffset (line column : Z) : Z :=
  u32 (u32 (video + u32 (2 * line * WIDTH)) + u32 (2 * column)).

(** One parameter of setGraphicsRendition: its effect on the colour. *)
Definition sgr (p color : Z) : Z :=
  let fg c := Z.lor (Z.land color 0xF8) c in
  let bg c := Z.lor (Z.land color 0x0F) c in
  if p =? 0 then DEFAULT_COLOR
  else if p =? 1 then Z.lor color 0x08
  else if p =? 22 then u8 (Z.land color (Z.lnot 0x08))
  else if p =? 30 then fg 0x00
  else if p =? 31 then fg 0x04
  else if p =? 32 then fg 0x02
  else if p =? 33 then fg 0x06
  else if p =? 34 then fg 0x01
  else if p =? 35 then fg 0x05
  else if p =? 36 then fg 0x03
  else if p =? 37 then fg 0x07
  else if p =? 39 then fg DEFAULT_FOREGROUND_COLOR
  else if p =? 40 then bg 0x00
  else if p =? 41 then bg 0x40
  else if p =? 42 then bg 0x20
  else if p =? 43 then bg 0x60
  else if p =? 44 then bg 0x10
  else if p =? 45 then bg 0x50
  else if p =? 46 then bg 0x30
  else if p =? 47 then bg 0x70
  else if p =? 49 then bg DEFAULT_COLOR
  else color.

Fixpoint sgr_all (ps : list Z) (specified : list bool) (color : Z) : Z :=
  match ps, specified with
  | p :: ps, b :: specified => sgr_all ps specified (if b then sgr p color else color)
  | _, _ => color
  end.

Definition chr_LF : Z := 10.
Definition chr_ESC : Z := 27.
Section vga.
Context {S : Type} `{L : !Lens S mem} `{V : !Lens S vga_st}.

Definition get_vga : ST S vga_st := λ s, Ok (get s, s).
Definition modify (f : vga_st → vga_st) : ST S unit := λ s, Ok (tt, set (f (get s)) s).

(** [*videoOffset(line, column) = ch; *(videoOffset(line, column) + 1) = color] *)
Definition put_cell (line column ch color : Z) : ST S unit :=
  store (videoOffset line column) ch;;
  store (u32 (videoOffset line column + 1)) color.

Definition fillRect (x1 x2 y1 y2 ch color : Z) : ST S unit :=
  if (WIDTH <? x2) || (HEIGHT <? y2) then mret tt else
  let x2 := if x1 =? x2 then u32 (x2 + 1) else x2 in
  let y2 := if y1 =? y2 then u32 (y2 + 1) else y2 in
  for_n (Z.to_nat (y2 - y1)) y1 (λ i,
    for_n (Z.to_nat (x2 - x1)) x1 (λ j, put_cell i j ch color)).

Definition backspace : ST S unit :=
  v ← get_vga;
  modify (if (cursorPosX v =? 0) && (0 <? cursorPosY v)
          then v_cursor (WIDTH - 1) (u32 (cursorPosY v - 1))
          else v_cursor (u32 (cursorPosX v - 1)) (cursorPosY v));;
  v ← get_vga;
  put_cell (cursorPosY v) (cursorPosX v) 0 (fontColor v).

Definition setGraphicsRendition : ST S unit :=
  modify (λ v, v_color (sgr_all (params v) (paramSpecified v)) v).

(** [paramSpecified[i] ? params[i] : d] *)
Definition param_or (v : vga_st) (i : nat) (d : Z) : Z :=
  if default false (paramSpecified v !! i) then default 0 (params v !! i) else d.

(** The cursor movements. *)
Definition csi_move (c : Z) (v : vga_st) : option (vga_st → vga_st) :=
  let param := param_or v 0 1 in
  let x := cursorPosX v in let y := cursorPosY v in
  let up := if y <? param then 0 else y - param in
  let down := if HEIGHT <=? u32 (y + param) then HEIGHT - 1 else u32 (y + param) in
  if c =? ch "A" then Some (v_cursor x up)
  else if c =? ch "B" then Some (v_cursor x down)
  else if c =? ch "C" then Some (v_cursor (if WIDTH <=? u32 (x + param) then 0 else u32 (x + param)) y)
  else if c =? ch "D" then Some (v_cursor (if x <? param then 0 else x - param) y)
  else if c =? ch "E" then Some (v_cursor 0 down)
  else if c =? ch "F" then Some (v_cursor 0 up)
  else if c =? ch "G" then
    Some (if (0 <? param) && (param <? WIDTH) then v_cursor (param - 1) y else id)
  else if (c =? ch "H") || (c =? ch "f") then
    let px := param_or v 1 1 in
    Some (if (0 <? px) && (px <? WIDTH) && ((0 <? param) && (param <? HEIGHT))
          then v_cursor (px - 1) (param - 1) else id)
  else if c =? ch "d" then
    Some (if (0 <? param) && (param <? HEIGHT) then v_cursor x (param - 1) else id)
  else if c =? ch "s" then Some (v_saved x y)
  else if c =? ch "u" then Some (v_cursor (savedX v) (savedY v))
  else None.

(** The erasing and scrolling sequences. *)
Definition csi_screen (c : Z) (v : vga_st) : ST S unit :=
  let x := cursorPosX v in let y := cursorPosY v in let color := fontColor v in
  if c =? ch "J" then
    let param := param_or v 0 0 in
    if param =? 0 then
      let from := videoOffset y x in memset from 0 (u32 (VIDEO_SIZE - (from - video)));; mret tt
    else if param =? 1 then
      let to := videoOffset y x in memset video 0 (u32 (to - video));; mret tt
    else if param =? 2 then memset video 0 VIDEO_SIZE;; mret tt
    else mret tt
  else if c =? ch "K" then
    let param := param_or v 0 0 in
    if param =? 0 then fillRect x WIDTH y y 0 color
    else if param =? 1 then fillRect 0 x y y 0 color
    else if param =? 2 then fillRect 0 WIDTH y y 0 color
    else mret tt
  else if c =? ch "S" then
    let param := param_or v 0 1 in
    memmove video (videoOffset param 0) (u32 (2 * u32 (HEIGHT - param) * WIDTH));;
    fillRect 0 WIDTH (u32 (HEIGHT - param)) HEIGHT 0 color
  else if c =? ch "T" then
    let param := param_or v 0 1 in
    memmove (videoOffset param 0) video (u32 (2 * u32 (HEIGHT - param) * WIDTH));;
    fillRect 0 WIDTH 0 param 0 color
  else if c =? ch "m" then setGraphicsRendition
  else mret tt.

Definition printEscapeCode (c : Z) : ST S unit :=
  v ← get_vga;
  match status v with
  | NORMAL => modify (v_status ESCAPED)
  | ESCAPED =>
      if c =? ch "[" then
        modify (λ v, v_params (replicate 16 0) (replicate 16 false) 0 (v_status CSI v))
      else if c =? ch "c" then
        memset video 0 VIDEO_SIZE;;
        modify (λ v, v_status NORMAL (v_color (λ _, DEFAULT_COLOR) (v_saved 0 0 (v_cursor 0 0 v))))
      else modify (v_status NORMAL)
  | CSI =>
      if (ch "0" <=? c) && (c <=? ch "9") then
        match params v !! Z.to_nat (paramIndex v) with
        | Some p =>
            modify (v_params (<[Z.to_nat (paramIndex v) := u32 (p * 10 + c - ch "0")]> (params v))
                             (<[Z.to_nat (paramIndex v) := true]> (paramSpecified v)) (paramIndex v))
        | None => fault
        end
      else if c =? ch ";" then
        let index := paramIndex v + 1 in
        modify (v_params (params v) (paramSpecified v) index);;
        if MAX_PARAMS <=? index then modify (v_status NORMAL) else mret tt
      else
        match csi_move c v with
        | Some f => modify f
        | None => csi_screen c v
        end;;
        modify (v_status NORMAL)
  end.

(** The new line of printCharacterRaw, scrolling at the bottom. *)
Definition new_line : ST S unit :=
  modify (λ v, v_cursor 0 (u32 (cursorPosY v + 1)) v);;
  v ← get_vga;
  if HEIGHT - 1 <? cursorPosY v then
    memmove video (videoOffset 1 0) (2 * (HEIGHT - 1) * WIDTH);;
    fillRect 0 WIDTH (HEIGHT - 1) (HEIGHT - 1) 0 (fontColor v);;
    modify (λ v, v_cursor (cursorPosX v) (HEIGHT - 1) v)
  else mret tt.

Definition printCharacterRaw (c : Z) : ST S unit :=
  v ← get_vga;
  (if (c =? chr_LF) || (WIDTH - 1 <? cursorPosX v) then new_line else mret tt);;
  if c =? chr_LF then mret tt else
  v ← get_vga;
  put_cell (cursorPosY v) (cursorPosX v) c (fontColor v);;
  modify (λ v, v_cursor (u32 (cursorPosX v + 1)) (cursorPosY v) v).

Definition printCharacter (c : Z) : ST S unit :=
  v ← get_vga;
  if bool_decide (status v = NORMAL) && negb (c =? chr_ESC) then printCharacterRaw c
  else printEscapeCode c.

(** The loop of Terminal::write over these characters. *)
Fixpoint print_all (cs : list Z) : ST S unit :=
  match cs with [] => mret tt | c :: cs => printCharacter c;; print_all cs end.

Definition warnTerminal : ST S unit :=
  modify (v_color (λ _, 0xCF));;
  for_n (Z.to_nat HEIGHT) 0 (λ i, for_n (Z.to_nat WIDTH) 0 (λ j,
    store (u32 (videoOffset i j + 1)) 0xCF)).

Context `{P : !Ports S}.

Definition setCursorVisibility (v : bool) : ST S unit :=
  outportb 0x3D4 0x0A;;
  outportb 0x3D5 (if v then 0x0E else 0x20).

Definition updateCursorPosition : ST S unit :=
  v ← get_vga;
  let position := u16 (cursorPosX v + cursorPosY v * WIDTH) in
  outportb 0x3D4 0x0E;;
  outportb 0x3D5 (Z.land (Z.shiftr position 8) 0xFF);;
  outportb 0x3D4 0x0F;;
  outportb 0x3D5 (Z.land position 0xFF).

Definition init : ST S unit :=
  setCursorVisibility true;;
  fillRect 0 WIDTH 0 HEIGHT 0 DEFAULT_COLOR;;
  modify (v_cursor 0 0).
End vga.
