(* ===== verification/VgaLaws.v ===== *)
(** * Properties of the VGA terminal

    The screen as a list of 2000 cells, the effect of the drawing routines on
    it, and the properties: printing plain text refines a reference screen,
    every byte but three kinds of scroll sequence keeps the cursor and the video
    page in bounds, and CUP sequences move the cursor. *)
From S2P Require Import Prelude Memory CString PrintfSpec Vga.

(** ** The screen as cells *)
Definition cell : Type := Z * Z.
Definition cell_bytes (cs : list cell) : list Z := cs ≫= λ c, [c.1; c.2].

Lemma cell_bytes_app cs cs' : cell_bytes (cs ++ cs') = cell_bytes cs ++ cell_bytes cs'.
Proof. apply bind_app. Qed.

Lemma cell_bytes_cons c cs : cell_bytes (c :: cs) = c.1 :: c.2 :: cell_bytes cs.
Proof. done. Qed.

Lemma length_cell_bytes cs : length (cell_bytes cs) = (2 * length cs)%nat.
Proof. induction cs as [|c cs IH]; [done|]. rewrite cell_bytes_cons. cbn [length]. lia. Qed.

Definition cell_ok (c : cell) : Prop := byte_ok c.1 ∧ byte_ok c.2.

Definition CELLS : nat := 2000.

Definition screen_rep (m : mem) (cs : list cell) : Prop :=
  length cs = CELLS ∧ Forall cell_ok cs ∧ bytes_at m video (cell_bytes cs).

Lemma cells_bytes_ok cs : Forall cell_ok cs → Forall byte_ok (cell_bytes cs).
Proof.
  induction 1 as [|c cs [H1 H2] H IH]; [constructor|]. rewrite cell_bytes_cons. by do 2 (apply Forall_cons_2; [done|]).
Qed.

Lemma screen_mapped m cs : screen_rep m cs → mapped m video 4000.
Proof.
  intros (Hl & _ & Hb). eapply bytes_at_mapped; [exact Hb|]. rewrite length_cell_bytes, Hl. unfold CELLS. lia.
Qed.

(** Writing cells from index [i] on. *)
Lemma bytes_at_overwrite m p bs k ws :
  bytes_at m p bs → (k + length ws <= length bs)%nat →
  bytes_at (write_bytes m (p + Z.of_nat k) ws) p (take k bs ++ ws ++ drop (k + length ws) bs).
Proof.
  intros Hb Hk. apply bytes_at_app. rewrite length_take_le by lia. split.
  - apply bytes_at_write_other; [unfold disjoint_range; rewrite length_take_le by lia; lia|].
    rewrite <-(take_drop k bs) in Hb. by apply bytes_at_app in Hb as [Hb _].
  - apply bytes_at_app. split; [apply bytes_at_write|].
    apply bytes_at_write_other; [unfold disjoint_range; lia|].
    rewrite <-(take_drop (k + length ws) bs) in Hb. apply bytes_at_app in Hb as [_ Hb].
    rewrite length_take_le in Hb by lia.
    by replace (p + Z.of_nat k + Z.of_nat (length ws)) with (p + Z.of_nat (k + length ws)) by lia.
Qed.

Lemma cell_bytes_take k cs : take (2 * k) (cell_bytes cs) = cell_bytes (take k cs).
Proof.
  revert k. induction cs as [|c cs IH]; intros [|k]; try done.
  rewrite cell_bytes_cons. replace (2 * Datatypes.S k)%nat with (Datatypes.S (Datatypes.S (2 * k))) by lia.
  cbn [take]. by rewrite IH.
Qed.

Lemma cell_bytes_drop k cs : drop (2 * k) (cell_bytes cs) = cell_bytes (drop k cs).
Proof.
  revert k. induction cs as [|c cs IH]; intros [|k]; try done.
  rewrite cell_bytes_cons. replace (2 * Datatypes.S k)%nat with (Datatypes.S (Datatypes.S (2 * k))) by lia.
  cbn [drop]. by rewrite IH.
Qed.

Lemma screen_write m cs k ws :
  screen_rep m cs → Forall cell_ok ws → (k + length ws <= CELLS)%nat →
  screen_rep (write_bytes m (video + 2 * Z.of_nat k) (cell_bytes ws))
    (take k cs ++ ws ++ drop (k + length ws) cs).
Proof.
  intros (Hl & Hok & Hb) Hws Hk. split; [|split].
  - rewrite !length_app, length_take_le, length_drop by lia. lia.
  - repeat apply Forall_app_2; [by apply Forall_take|done|by apply Forall_drop].
  - pose proof (bytes_at_overwrite m video (cell_bytes cs) (2 * k) (cell_bytes ws) Hb) as H.
    rewrite !length_cell_bytes in H. specialize (H ltac:(lia)).
    rewrite cell_bytes_take in H. replace (2 * k + 2 * length ws)%nat with (2 * (k + length ws))%nat in H by lia.
    rewrite cell_bytes_drop, <-!cell_bytes_app in H.
    by replace (video + Z.of_nat (2 * k)) with (video + 2 * Z.of_nat k) in H by lia.
Qed.

Lemma take_drop_insert {A} k (x : A) l :
  (k < length l)%nat → take k l ++ [x] ++ drop (k + 1) l = <[k := x]> l.
Proof. intros H. rewrite Nat.add_1_r. cbn [app]. by rewrite insert_take_drop. Qed.

Lemma videoOffset_ok line column :
  0 <= line <= 25 → 0 <= column <= 160 → videoOffset line column = video + 160 * line + 2 * column.
Proof.
  intros Hl Hc. unfold videoOffset, video, WIDTH. rewrite (u32_small (2 * line * 80)), (u32_small (2 * column)) by lia.
  rewrite (u32_small (_ + 2 * line * 80)) by lia. rewrite u32_small by lia. lia.
Qed.

(** ** The drawing routines *)
Section draw.
Context {S : Type} `{L : !Lens S mem} `{V : !Lens S vga_st}.
Implicit Types s : S.

Lemma put_cell_ok s line column c color :
  0 <= line <= 25 → 0 <= column <= 160 → mapped (memory s) (video + 160 * line + 2 * column) 2 →
  put_cell line column c color s =
  Ok (tt, with_memory s (write_bytes (memory s) (video + 160 * line + 2 * column) (cell_bytes [(u8 c, u8 color)]))).
Proof.
  intros Hl Hc Hm. unfold put_cell. rewrite videoOffset_ok by done.
  erewrite bind_ok; [|apply store_ok; apply Hm; lia]. autorewrite with lens.
  rewrite (u32_small (_ + 1)) by (unfold video; lia).
  rewrite store_ok by (autorewrite with lens; apply lookup_insert_is_Some'; right; apply Hm; lia).
  by autorewrite with lens.
Qed.

Lemma fill_row s line x n c color :
  0 <= line <= 25 → 0 <= x → x + Z.of_nat n <= 160 →
  mapped (memory s) (video + 160 * line + 2 * x) (2 * Z.of_nat n) →
  for_n n x (λ j, put_cell line j c color) s =
  Ok (tt, with_memory s (write_bytes (memory s) (video + 160 * line + 2 * x)
    (cell_bytes (replicate n (u8 c, u8 color))))).
Proof.
  intros Hl. revert s x. induction n as [|n IH]; intros s x Hx Hn Hm.
  - cbn. by rewrite with_memory_id.
  - erewrite for_n_succ; [|apply put_cell_ok; [done|lia|intros q Hq; apply Hm; lia]].
    rewrite IH; [|lia|lia|autorewrite with lens; apply mapped_write; intros q Hq; apply Hm; lia].
    autorewrite with lens. cbn [replicate]. rewrite (cell_bytes_cons _ (replicate _ _)).
    cbn [write_bytes cell_bytes mbind list_bind app fst snd].
    by replace (video + 160 * line + 2 * (x + 1)) with (video + 160 * line + 2 * x + 1 + 1) by lia.
Qed.

Lemma fill_rows s y k c color :
  0 <= y → y + Z.of_nat k <= 25 → mapped (memory s) (video + 160 * y) (160 * Z.of_nat k) →
  for_n k y (λ i, for_n (Z.to_nat 80) 0 (λ j, put_cell i j c color)) s =
  Ok (tt, with_memory s (write_bytes (memory s) (video + 160 * y)
    (cell_bytes (replicate (80 * k) (u8 c, u8 color))))).
Proof.
  revert s y. induction k as [|k IH]; intros s y Hy Hk Hm.
  - cbn. by rewrite with_memory_id.
  - erewrite for_n_succ; [|apply (fill_row s y 0 80); [lia|lia|lia|intros q Hq; apply Hm; lia]].
    rewrite IH; [|lia|lia|autorewrite with lens; apply mapped_write; intros q Hq; apply Hm; lia].
    autorewrite with lens. replace (80 * Datatypes.S k)%nat with (80 + 80 * k)%nat by lia.
    rewrite replicate_add, cell_bytes_app, write_bytes_app, length_cell_bytes, length_replicate.
    replace (video + 160 * y + 2 * 0) with (video + 160 * y) by lia.
    by replace (video + 160 * y + Z.of_nat (2 * 80)) with (video + 160 * (y + 1)) by lia.
Qed.

(** fillRect on one row, and on whole rows; an empty range is widened to one. *)
Lemma fillRect_row s x1 x2 y c color :
  0 <= x1 <= x2 → x2 <= 80 → 0 <= y < 25 →
  mapped (memory s) (video + 160 * y + 2 * x1) (2 * Z.max 1 (x2 - x1)) →
  fillRect x1 x2 y y c color s =
  Ok (tt, with_memory s (write_bytes (memory s) (video + 160 * y + 2 * x1)
    (cell_bytes (replicate (Z.to_nat (Z.max 1 (x2 - x1))) (u8 c, u8 color))))).
Proof.
  intros Hx Hx2 Hy Hm. unfold fillRect, WIDTH, HEIGHT. zcase (80 <? x2). zcase (25 <? y).
  cbn [orb]. rewrite Z.eqb_refl, (u32_small (y + 1)) by lia. replace (y + 1 - y) with 1 by lia.
  change (Z.to_nat 1) with 1%nat.
  assert ((if x1 =? x2 then u32 (x2 + 1) else x2) - x1 = Z.max 1 (x2 - x1)) as ->.
  { zcase (x1 =? x2). rewrite u32_small; lia. }
  erewrite for_n_succ; [reflexivity|]. apply fill_row; [lia|lia|lia|]. by rewrite Z2Nat.id by lia.
Qed.

Lemma fillRect_rows s y1 y2 c color :
  0 <= y1 <= y2 → y2 <= 25 → y1 < 25 →
  mapped (memory s) (video + 160 * y1) (160 * Z.max 1 (y2 - y1)) →
  fillRect 0 80 y1 y2 c color s =
  Ok (tt, with_memory s (write_bytes (memory s) (video + 160 * y1)
    (cell_bytes (replicate (80 * Z.to_nat (Z.max 1 (y2 - y1))) (u8 c, u8 color))))).
Proof.
  intros Hy Hy2 Hy1 Hm. unfold fillRect, WIDTH, HEIGHT. cbn [Z.ltb Z.compare]. zcase (25 <? y2).
  change (80 <? 80) with false. cbn [orb]. change (0 =? 80) with false. cbv iota. change (80 - 0) with 80.
  assert ((if y1 =? y2 then u32 (y2 + 1) else y2) - y1 = Z.max 1 (y2 - y1)) as ->.
  { zcase (y1 =? y2). rewrite u32_small; lia. }
  apply fill_rows; [lia|lia|]. by rewrite Z2Nat.id by lia.
Qed.
End draw.

(** ** The reference screen *)

(** The cells, and the cursor's column and row. *)
Definition text : Type := list cell * Z * Z.

Definition ref_newline (color : Z) (t : text) : text :=
  let '(cs, x, y) := t in
  if 24 <? y + 1 then (drop 80 cs ++ replicate 80 (0, color), 0, 24) else (cs, 0, y + 1).

(** A character goes to the cursor, after a new line when the row is full. *)
Definition ref_raw (color c : Z) (t : text) : text :=
  let '(cs, x, y) := t in
  let '(cs, x, y) := if (c =? 10) || (79 <? x) then ref_newline color (cs, x, y) else (cs, x, y) in
  if c =? 10 then (cs, x, y) else (<[Z.to_nat (80 * y + x) := (u8 c, color)]> cs, x + 1, y).

Definition cursor_ok (x y : Z) : Prop := 0 <= x <= 80 ∧ 0 <= y <= 24.

Section print.
Context {S : Type} `{L : !Lens S mem} `{V : !Lens S vga_st}.
Context `{I : !Indep L V} `{J : !Indep V L}.
Implicit Types s : S.

Lemma memory_set_vga s v : memory (set (Lens := V) v s) = memory s.
Proof. apply get_set_indep. Qed.

Lemma vga_with_memory s m : get (Lens := V) (with_memory s m) = get (Lens := V) s.
Proof. apply get_set_indep. Qed.

Definition vga_rep (s : S) (t : text) : Prop :=
  let '(cs, x, y) := t in
  screen_rep (memory s) cs ∧ cursorPosX (get s) = x ∧ cursorPosY (get s) = y ∧
  cursor_ok x y ∧ byte_ok (fontColor (get s)).

Lemma run_get_vga {A} (k : vga_st → ST S A) s : (get_vga ≫= k) s = k (get s) s.
Proof. done. Qed.

Lemma run_modify {A} f (k : unit → ST S A) s : (modify f ≫= k) s = k tt (set (f (get s)) s).
Proof. done. Qed.

(** A state that differs in the memory and the terminal's variables only. *)
Definition vga_only (s s' : S) : Prop := ∃ m v, s' = set (Lens := V) v (with_memory s m).

Lemma vga_only_refl s : vga_only s s.
Proof. exists (memory s), (get s). rewrite with_memory_id. by rewrite set_get. Qed.

Lemma vga_only_set s s' v : vga_only s s' → vga_only s (set (Lens := V) v s').
Proof. intros (m & v' & ->). exists m, v. apply set_set. Qed.

Lemma vga_only_mem s s' m : vga_only s s' → vga_only s (with_memory s' m).
Proof.
  intros (m' & v & ->). exists m, v. unfold with_memory. by rewrite (set_comm (Indep := I)), set_set.
Qed.

(** Moving the rows up by one. *)
Lemma scroll_up s cs color :
  screen_rep (memory s) cs → byte_ok color →
  ∃ m', (memmove video (videoOffset 1 0) (2 * (HEIGHT - 1) * WIDTH);;
         fillRect 0 WIDTH (HEIGHT - 1) (HEIGHT - 1) 0 color) s = Ok (tt, with_memory s m') ∧
    screen_rep m' (drop 80 cs ++ replicate 80 (0, color)) ∧ same_outside video 4000 (memory s) m'.
Proof.
  intros Hs Hc. pose proof (screen_mapped _ _ Hs) as Hm. pose proof Hs as (Hl & Hok & Hb).
  rewrite videoOffset_ok by lia. unfold HEIGHT, WIDTH. change (2 * (25 - 1) * 80) with 3840. change (25 - 1) with 24.
  assert (length (cell_bytes (drop 80 cs)) = 3840%nat) as Hlen.
  { rewrite length_cell_bytes, length_drop, Hl. done. }
  assert (bytes_at (memory s) (video + 160 * 1 + 2 * 0) (cell_bytes (drop 80 cs))) as Hsrc.
  { rewrite <-(take_drop 80 cs), cell_bytes_app in Hb. apply bytes_at_app in Hb as [_ Hb].
    rewrite length_cell_bytes, length_take_le in Hb by (rewrite Hl; unfold CELLS; lia). exact Hb. }
  pose proof (memmove_ok s video (video + 160 * 1 + 2 * 0) (cell_bytes (drop 80 cs)) Hsrc) as Hmove.
  rewrite Hlen in Hmove. change (Z.of_nat 3840) with 3840 in Hmove. eexists. split; [|split].
  - erewrite bind_ok; [|apply Hmove].
    + rewrite (fillRect_row _ 0 80 24);
        [by autorewrite with lens|lia|lia|lia|autorewrite with lens; apply mapped_write; intros q Hq; apply Hm; lia].
    + apply cells_bytes_ok. by apply Forall_drop.
    + intros q Hq. apply Hm. lia.
  - autorewrite with lens. change (Z.to_nat (Z.max 1 (80 - 0))) with 80%nat.
    change (video + 160 * 24 + 2 * 0) with (video + 2 * Z.of_nat 1920). change (u8 0) with 0. rewrite (u8_small color) by done.
    pose proof (screen_write (memory s) cs 0 (drop 80 cs) Hs) as H1.
    specialize (H1 ltac:(by apply Forall_drop)). rewrite length_drop, Hl in H1. specialize (H1 ltac:(unfold CELLS; lia)).
    change (video + 2 * Z.of_nat 0) with video in H1.
    pose proof (screen_write _ _ 1920 (replicate 80 (0, color)) H1) as H2. rewrite length_replicate in H2.
    specialize (H2 ltac:(apply Forall_replicate; split; [unfold byte_ok; cbn; lia|done]) ltac:(unfold CELLS; lia)).
    rewrite firstn_O, app_nil_l in H2. rewrite take_app_length' in H2 by (rewrite length_drop, Hl; done).
    rewrite (drop_ge (_ ++ _)) in H2; [by rewrite app_nil_r in H2|].
    rewrite length_app, !length_drop, Hl. unfold CELLS. lia.
  - autorewrite with lens. eapply same_outside_trans; apply same_outside_write; [lia|rewrite Hlen; lia|lia|].
    rewrite length_cell_bytes, length_replicate. lia.
Qed.

Lemma new_line_ok s cs x y :
  vga_rep s (cs, x, y) →
  ∃ s', new_line s = Ok (tt, s') ∧ vga_rep s' (ref_newline (fontColor (get s)) (cs, x, y)) ∧
    get s' = v_cursor 0 (Z.min (y + 1) 24) (get s) ∧ same_outside video 4000 (memory s) (memory s') ∧
    vga_only s s'.
Proof.
  intros (Hs & Hx & Hy & [_ Hyr] & Hc). unfold new_line. rewrite run_modify, run_get_vga, get_set, Hy.
  rewrite (u32_small (y + 1)) by lia. cbn [cursorPosY fontColor v_cursor]. unfold HEIGHT at 1. change (25 - 1) with 24.
  unfold ref_newline. destruct (24 <? y + 1) eqn:E; zb.
  - set (s1 := set _ s). assert (memory s1 = memory s) as Hm1 by apply memory_set_vga.
    destruct (scroll_up s1 cs (fontColor (get s))) as (m' & Hrun & Hrep & Hso); [by rewrite Hm1|done|].
    unfold mbind, ST_bind in Hrun. unfold mbind, ST_bind.
    destruct (memmove _ _ _ s1) as [[d s2]| |]; [|done|done]. rewrite Hrun. unfold modify. eexists. split; [reflexivity|].
    assert (get (Lens := V) (with_memory s1 m') = v_cursor 0 (y + 1) (get s)) as Hv.
    { rewrite vga_with_memory. apply get_set. }
    rewrite Hv. cbn [cursorPosX v_cursor]. unfold vga_rep. rewrite memory_set_vga, memory_with, get_set.
    rewrite Z.min_r by lia.
    split; [|split; [done|split; [by rewrite <-Hm1|apply vga_only_set, vga_only_mem, vga_only_set, vga_only_refl]]].
    split; [done|]. split; [done|]. split; [done|]. split; [unfold cursor_ok; lia|done].
  - eexists. split; [reflexivity|]. unfold vga_rep. rewrite memory_set_vga, get_set. rewrite Z.min_l by lia.
    split; [|split; [done|split; [apply same_outside_refl|apply vga_only_set, vga_only_refl]]].
    split; [done|]. split; [done|]. split; [done|]. split; [unfold cursor_ok; lia|done].
Qed.

Lemma put_at_cursor s cs x y c :
  vga_rep s (cs, x, y) → x < 80 →
  ∃ s', (v ← get_vga; put_cell (cursorPosY v) (cursorPosX v) c (fontColor v);;
         modify (λ v, v_cursor (u32 (cursorPosX v + 1)) (cursorPosY v) v)) s = Ok (tt, s') ∧
    vga_rep s' (<[Z.to_nat (80 * y + x) := (u8 c, fontColor (get s))]> cs, x + 1, y) ∧
    get s' = v_cursor (x + 1) y (get s) ∧ same_outside video 4000 (memory s) (memory s') ∧ vga_only s s'.
Proof.
  intros (Hs & Hx & Hy & [Hxr Hyr] & Hc) Hx80. pose proof (screen_mapped _ _ Hs) as Hm. pose proof Hs as (Hl & _ & _).
  rewrite run_get_vga, Hx, Hy. erewrite bind_ok; [|apply put_cell_ok; [lia|lia|]].
  2: { intros q Hq. apply Hm. lia. }
  unfold modify. eexists. split; [reflexivity|]. rewrite vga_with_memory, Hx, Hy. unfold vga_rep.
  rewrite memory_set_vga, memory_with, get_set, (u32_small (x + 1)) by lia. rewrite (u8_small (fontColor _)) by done.
  split; [|split; [done|split; [|apply vga_only_set, vga_only_mem, vga_only_refl]]].
  - split; [|split; [done|split; [done|split; [unfold cursor_ok; lia|done]]]].
    pose proof (screen_write (memory s) cs (Z.to_nat (80 * y + x)) [(u8 c, fontColor (get s))] Hs) as H.
    cbn [length] in H. rewrite take_drop_insert in H by (rewrite Hl; unfold CELLS; lia).
    replace (video + 160 * y + 2 * x) with (video + 2 * Z.of_nat (Z.to_nat (80 * y + x))) by lia.
    apply H; [|unfold CELLS; lia]. apply Forall_singleton. split; [apply u8_range|done].
  - apply same_outside_write; [lia|]. rewrite length_cell_bytes. cbn [length]. lia.
Qed.

Lemma ref_newline_shape color cs x y :
  ∃ cs', ref_newline color (cs, x, y) = (cs', 0, Z.min (y + 1) 24).
Proof.
  unfold ref_newline. destruct (24 <? y + 1) eqn:E; zb; eexists.
  - by rewrite Z.min_r by lia.
  - by rewrite Z.min_l by lia.
Qed.

Lemma print_raw_ok s t c :
  vga_rep s t → - 128 <= c < 128 →
  ∃ s', printCharacterRaw c s = Ok (tt, s') ∧ vga_rep s' (ref_raw (fontColor (get s)) c t) ∧
    (∃ x y, get s' = v_cursor x y (get s)) ∧ same_outside video 4000 (memory s) (memory s') ∧ vga_only s s'.
Proof.
  destruct t as [[cs x] y]. intros Hr Hc. pose proof Hr as (Hs & Hx & Hy & [Hxr Hyr] & Hcol).
  unfold printCharacterRaw. rewrite run_get_vga, Hx. unfold chr_LF, WIDTH. change (80 - 1) with 79.
  unfold ref_raw. destruct ((c =? 10) || (79 <? x)) eqn:E.
  - destruct (new_line_ok s cs x y Hr) as (s1 & Hrun & Hr1 & Hg1 & Hso1 & Ho1). erewrite bind_ok; [|exact Hrun].
    destruct (ref_newline_shape (fontColor (get s)) cs x y) as (cs1 & Heq). rewrite Heq in Hr1 |- *.
    destruct (c =? 10) eqn:Ec.
    + exists s1. split; [done|]. split; [done|]. split; [by eexists _, _|done].
    + destruct (put_at_cursor s1 cs1 0 (Z.min (y + 1) 24) c Hr1) as (s2 & Hrun2 & Hr2 & Hg2 & Hso2 & Ho2); [lia|].
      exists s2. split; [exact Hrun2|]. rewrite Hg1 in Hr2, Hg2. split; [exact Hr2|].
      split; [rewrite Hg2; by eexists _, _|]. split; [by eapply same_outside_trans|].
      destruct Ho2 as (m2 & v2 & ->). by apply vga_only_set, vga_only_mem.
  - apply orb_false_iff in E as [Ec Ex]. zb. rewrite bind_ret, (proj2 (Z.eqb_neq c 10)) by done.
    destruct (put_at_cursor s cs x y c Hr) as (s2 & Hrun2 & Hr2 & Hg2 & Hso2 & Ho2); [lia|].
    exists s2. split; [exact Hrun2|]. split; [exact Hr2|]. split; [by eexists _, _|done].
Qed.

(** The same for printCharacter, outside escape sequences. *)
Lemma print_plain_ok s t c :
  vga_rep s t → status (get s) = NORMAL → - 128 <= c < 128 → c ≠ chr_ESC →
  ∃ s', printCharacter c s = Ok (tt, s') ∧ vga_rep s' (ref_raw (fontColor (get s)) c t) ∧
    status (get s') = NORMAL ∧ fontColor (get s') = fontColor (get s) ∧
    same_outside video 4000 (memory s) (memory s') ∧ vga_only s s'.
Proof.
  intros Hr Hn Hc He. destruct (print_raw_ok s t c Hr Hc) as (s' & Hrun & Hr' & (x & y & Hg) & Hso & Ho).
  exists s'. rewrite Hg. split; [|by split].
  unfold printCharacter. rewrite run_get_vga, bool_decide_eq_true_2 by done.
  unfold chr_ESC in *. by rewrite (proj2 (Z.eqb_neq c 27)) by done.
Qed.
End print.

(** C9. Printing plain text refines a reference screen: from any cursor position
    on the screen, terminal output without escape characters puts each
    character at the cursor, starts a new row when the row is full or at '\n',
    scrolls at the bottom, and writes to the 4000 bytes of the screen only. *)
Theorem text_refines {S : Type} `{L : !Lens S mem} `{V : !Lens S vga_st} `{I : !Indep L V} `{J : !Indep V L}
    (s : S) (t : text) (cs : list Z) :
  vga_rep s t → status (get s) = NORMAL → Forall (λ c, - 128 <= c < 128 ∧ c ≠ chr_ESC) cs →
  ∃ s', print_all cs s = Ok (tt, s') ∧
    vga_rep s' (fold_left (λ t c, ref_raw (fontColor (get s)) c t) cs t) ∧
    status (get s') = NORMAL ∧ same_outside video 4000 (memory s) (memory s').
Proof.
  intros Hr Hn Hcs. revert s t Hr Hn. induction Hcs as [|c cs [Hc He] Hcs IH]; intros s t Hr Hn.
  - exists s. split; [done|]. split; [done|]. split; [done|]. apply same_outside_refl.
  - cbn [print_all fold_left].
    destruct (print_plain_ok s t c Hr Hn Hc He) as (s1 & Hrun & Hr1 & Hn1 & Hf & Hso & _).
    destruct (IH s1 _ Hr1 Hn1) as (s2 & Hrun2 & Hr2 & Hn2 & Hso2).
    exists s2. rewrite (bind_ok _ _ _ _ _ Hrun). rewrite Hf in Hr2. split; [exact Hrun2|].
    split; [exact Hr2|]. split; [done|]. by eapply same_outside_trans.
Qed.

(** ** Safety *)

(** Memory that holds a byte at every address of a range. *)
Definition bytes_range (m : mem) (p n : Z) : Prop :=
  ∀ q, p <= q < p + n → ∃ b, m !! q = Some b ∧ byte_ok b.

(** The video page, of which the screen is the first 4000 bytes. *)
Definition page (m : mem) : Prop := bytes_range m video 4096.

Lemma bytes_range_mapped m p n : bytes_range m p n → mapped m p n.
Proof. intros H q Hq. destruct (H q Hq) as (b & Hb & _). by exists b. Qed.

Lemma bytes_range_sub m p n q k : bytes_range m p n → p <= q → q + k <= p + n → bytes_range m q k.
Proof. intros H Hq Hk r Hr. apply H. lia. Qed.

Lemma bytes_range_list m p n :
  bytes_range m p (Z.of_nat n) → ∃ bs, length bs = n ∧ Forall byte_ok bs ∧ bytes_at m p bs.
Proof.
  revert p. induction n as [|n IH]; intros p H; [exists []; split; [done|split; [constructor|apply bytes_at_nil]]|].
  destruct (H p ltac:(lia)) as (b & Hb & Hok).
  destruct (IH (p + 1)) as (bs & Hl & Hbs & Hat); [intros q Hq; apply H; lia|].
  exists (b :: bs). split; [cbn; by rewrite Hl|]. split; [by constructor|]. by apply bytes_at_cons.
Qed.

Lemma bytes_range_write m p n q ws :
  bytes_range m p n → Forall byte_ok ws → bytes_range (write_bytes m q ws) p n.
Proof.
  intros H Hws r Hr. rewrite lookup_write_bytes. case_decide as Hd; [|by apply H].
  destruct (lookup_lt_is_Some_2 ws (Z.to_nat (r - q))) as [b Hb]; [lia|]. exists b. split; [done|].
  by eapply Forall_lookup_1.
Qed.

Lemma bytes_cells bs n :
  length bs = (2 * n)%nat → Forall byte_ok bs →
  ∃ cs, length cs = n ∧ cell_bytes cs = bs ∧ Forall cell_ok cs.
Proof.
  revert bs. induction n as [|n IH]; intros bs Hl Hok.
  - destruct bs; [|done]. exists []. split; [done|]. split; [done|constructor].
  - destruct bs as [|b [|c bs]]; cbn [length] in Hl; [lia|lia|].
    apply list.Forall_cons in Hok as [Hb Hok]. apply list.Forall_cons in Hok as [Hc Hok].
    destruct (IH bs ltac:(lia) Hok) as (cs & Hl' & <- & Hcs). exists ((b, c) :: cs).
    split; [cbn; by rewrite Hl'|]. split; [done|]. by constructor.
Qed.

Lemma page_screen m : page m → ∃ cs, screen_rep m cs.
Proof.
  intros H. destruct (bytes_range_list m video 4000) as (bs & Hl & Hok & Hb).
  { eapply bytes_range_sub; [exact H|lia|]. lia. }
  destruct (bytes_cells bs 2000 Hl Hok) as (cs & Hlc & <- & Hcs). by exists cs.
Qed.

Lemma screen_page m m' cs : page m → screen_rep m' cs → same_outside video 4000 m m' → page m'.
Proof.
  intros Hp (Hl & Hok & Hb) Hso q Hq. destruct (Z_lt_le_dec q (video + 4000)) as [Hlt|Hge].
  - destruct (lookup_lt_is_Some_2 (cell_bytes cs) (Z.to_nat (q - video))) as [b Hbq].
    { rewrite length_cell_bytes, Hl. unfold CELLS. lia. }
    exists b. split; [|by eapply Forall_lookup_1; [apply cells_bytes_ok|]].
    rewrite <-(Hb _ _ Hbq). f_equal. lia.
  - rewrite Hso by lia. by apply Hp.
Qed.

Record vga_ok (v : vga_st) : Prop := {
  ok_cursor : cursor_ok (cursorPosX v) (cursorPosY v);
  ok_saved : cursor_ok (savedX v) (savedY v);
  ok_params : length (params v) = 16%nat ∧ Forall (λ p, 0 <= p < 2 ^ 32) (params v);
  ok_specified : length (paramSpecified v) = 16%nat;
  ok_index : status v = CSI → 0 <= paramIndex v < 16;
  ok_color : byte_ok (fontColor v);
}.

(** The bytes that may not come next: the final byte of a scroll sequence whose
    parameter is above 25, or is 0 when scrolling up. *)
Definition overruns (v : vga_st) (c : Z) : bool :=
  bool_decide (status v = CSI) &&
  (((c =? ch "S") && ((param_or v 0 1 =? 0) || (25 <? param_or v 0 1))) ||
   ((c =? ch "T") && (25 <? param_or v 0 1))).

Lemma param_or_range v i d :
  vga_ok v → 0 <= d < 2 ^ 32 → 0 <= param_or v i d < 2 ^ 32.
Proof.
  intros H Hd. unfold param_or. destruct (default false _); [|done].
  destruct (params v !! i) as [p|] eqn:E; cbn; [|lia]. destruct (ok_params v H) as [_ Hp].
  by apply (Forall_lookup_1 _ _ _ _ Hp) in E.
Qed.

Lemma sgr_byte p color : byte_ok color → byte_ok (sgr p color).
Proof.
  intros Hc. unfold sgr. unfold byte_ok in *.
  assert (∀ m k, 0 <= m < 2 ^ 8 → 0 <= k < 2 ^ 8 → 0 <= Z.lor (Z.land color m) k < 256) as Hlor.
  { intros m k Hm Hk. assert (0 <= Z.land color m) by (apply Z.land_nonneg; lia).
    split; [apply Z.lor_nonneg; lia|].
    destruct (Z.eq_dec (Z.lor (Z.land color m) k) 0) as [->|Hnz]; [lia|].
    apply (Z.log2_lt_pow2 _ 8); [assert (0 <= Z.lor (Z.land color m) k) by (apply Z.lor_nonneg; lia); lia|].
    rewrite Z.log2_lor by lia. apply Z.max_lub_lt.
    - eapply Z.le_lt_trans; [apply Z.log2_land; lia|]. apply Z.min_lt_iff. right.
      destruct (Z.eq_dec m 0) as [->|]; [cbn; lia|]. apply Z.log2_lt_pow2; lia.
    - destruct (Z.eq_dec k 0) as [->|]; [cbn; lia|]. apply Z.log2_lt_pow2; lia. }
  repeat (match goal with |- context [if ?b then _ else _] => destruct b end);
    try done; try (apply Hlor; (split; [by apply Z.leb_le | by apply Z.ltb_lt])).
  - replace color with (Z.land color 255); [apply Hlor; lia|]. change 255 with (Z.ones 8).
    rewrite Z.land_ones by lia. apply Z.mod_small. lia.
  - apply u8_range.
Qed.

Lemma vga_ok_cursor x y v : vga_ok v → cursor_ok x y → vga_ok (v_cursor x y v).
Proof. intros [] H. by constructor. Qed.

Lemma vga_ok_saved x y v : vga_ok v → cursor_ok x y → vga_ok (v_saved x y v).
Proof. intros [] H. by constructor. Qed.

Lemma vga_ok_status st v : vga_ok v → st ≠ CSI → vga_ok (v_status st v).
Proof. intros [] H. by constructor. Qed.

Lemma vga_ok_color f v : vga_ok v → byte_ok (f (fontColor v)) → vga_ok (v_color f v).
Proof. intros [] H. by constructor. Qed.

Lemma csi_move_ok c v f : vga_ok v → csi_move c v = Some f → vga_ok (f v).
Proof.
  intros Hv. pose proof Hv as [[Hx Hy] Hsaved _ _ _ _].
  pose proof (param_or_range v 0 1 Hv ltac:(lia)) as Hp. pose proof (param_or_range v 1 1 Hv ltac:(lia)) as Hp1.
  pose proof (u32_range (cursorPosX v + param_or v 0 1)). pose proof (u32_range (cursorPosY v + param_or v 0 1)).
  unfold csi_move, HEIGHT, WIDTH. cbv zeta. set (p := param_or v 0 1) in *. set (p1 := param_or v 1 1) in *.
  repeat (match goal with |- (if ?b then _ else _) = _ → _ => destruct b end; [intros [= <-]|]); try done.
  all: repeat match goal with |- context [if ?b then _ else _] => destruct b eqn:? end; zb;
    repeat match goal with H : _ && _ = true |- _ => apply andb_true_iff in H as [? ?] end; zb;
    try done; try (by apply vga_ok_saved);
    (apply vga_ok_cursor; [done|]; (done || (unfold cursor_ok; lia))).
Qed.

Section safe.
Context {S : Type} `{L : !Lens S mem} `{V : !Lens S vga_st}.
Context `{I : !Indep L V} `{J : !Indep V L}.
Implicit Types s : S.

(** A run that keeps the terminal's invariant and stays inside the page. *)
Definition safe_run (c : ST S unit) (s : S) : Prop :=
  ∃ s', c s = Ok (tt, s') ∧ vga_ok (get s') ∧ page (memory s') ∧
    same_outside video 4096 (memory s) (memory s').

Lemma safe_modify f s : page (memory s) → vga_ok (f (get s)) → safe_run (modify f) s.
Proof.
  intros Hp Hv. eexists. split; [reflexivity|]. rewrite get_set, memory_set_vga.
  split; [done|]. split; [done|]. apply same_outside_refl.
Qed.

Lemma safe_ret s : page (memory s) → vga_ok (get s) → safe_run (mret tt) s.
Proof. intros. exists s. split; [done|]. split; [done|]. split; [done|]. apply same_outside_refl. Qed.

Lemma safe_write c s p ws :
  page (memory s) → vga_ok (get s) → Forall byte_ok ws → video <= p → p + Z.of_nat (length ws) <= video + 4096 →
  c s = Ok (tt, with_memory s (write_bytes (memory s) p ws)) → safe_run c s.
Proof.
  intros Hp Hv Hws H1 H2 Hrun. eexists. split; [exact Hrun|]. rewrite vga_with_memory, memory_with.
  split; [done|]. split; [by apply bytes_range_write|]. by apply same_outside_write.
Qed.

Lemma safe_bind c k s :
  safe_run c s → (∀ s', page (memory s') → vga_ok (get s') → safe_run k s') →
  safe_run (c;; k) s.
Proof.
  intros (s1 & Hrun & Hv & Hp & Hso) Hk. destruct (Hk s1 Hp Hv) as (s2 & Hrun2 & Hv2 & Hp2 & Hso2).
  exists s2. split; [by erewrite bind_ok|]. split; [done|]. split; [done|]. by eapply same_outside_trans.
Qed.

Lemma cells_byte_ok n c color : Forall byte_ok (cell_bytes (replicate n (u8 c, u8 color))).
Proof. apply cells_bytes_ok, Forall_replicate. split; apply u8_range. Qed.

Lemma page_mapped m q n : page m → video <= q → q + n <= video + 4096 → mapped m q n.
Proof. intros H H1 H2. apply bytes_range_mapped. by eapply bytes_range_sub. Qed.

Lemma safe_memset s q n :
  page (memory s) → vga_ok (get s) → video <= q → 0 <= n → q + n <= video + 4096 →
  safe_run (memset q 0 n;; mret tt) s.
Proof.
  intros Hp Hv Hq Hn Hlim. pose proof (memset_ok s q 0 (Z.to_nat n)) as Hrun. rewrite Z2Nat.id in Hrun by done.
  eapply (safe_write _ s q (replicate (Z.to_nat n) (u8 0))); [done|done|apply Forall_replicate; apply u8_range|done| |].
  - rewrite length_replicate. lia.
  - erewrite bind_ok; [reflexivity|]. apply Hrun. by apply page_mapped.
Qed.

Lemma safe_row s x1 x2 y c color :
  page (memory s) → vga_ok (get s) → 0 <= x1 <= x2 → x2 <= 80 → 0 <= y < 25 →
  safe_run (fillRect x1 x2 y y c color) s.
Proof.
  intros Hp Hv Hx Hx2 Hy. eapply safe_write; [done|done| | | |apply fillRect_row; [done|done|done|]].
  - apply cells_byte_ok.
  - lia.
  - rewrite length_cell_bytes, length_replicate. lia.
  - apply page_mapped; [done|lia|lia].
Qed.

Lemma safe_rows s y1 y2 c color :
  page (memory s) → vga_ok (get s) → 0 <= y1 <= y2 → y2 <= 25 → y1 < 25 →
  safe_run (fillRect 0 80 y1 y2 c color) s.
Proof.
  intros Hp Hv Hy Hy2 Hy1. eapply safe_write; [done|done| | | |apply fillRect_rows; [done|done|done|]].
  - apply cells_byte_ok.
  - lia.
  - rewrite length_cell_bytes, length_replicate. lia.
  - apply page_mapped; [done|lia|lia].
Qed.

Lemma safe_memmove s dest src n :
  page (memory s) → vga_ok (get s) → 0 <= n → video <= dest → dest + n <= video + 4096 →
  video <= src → src + n <= video + 4096 →
  ∃ s', memmove dest src n s = Ok (dest, s') ∧ get s' = get s ∧ page (memory s') ∧
    same_outside video 4096 (memory s) (memory s').
Proof.
  intros Hp Hv Hn Hd1 Hd2 Hs1 Hs2.
  destruct (bytes_range_list (memory s) src (Z.to_nat n)) as (bs & Hl & Hok & Hb).
  { eapply bytes_range_sub; [exact Hp|lia|lia]. }
  pose proof (memmove_ok s dest src bs Hb Hok) as Hrun. rewrite Hl, Z2Nat.id in Hrun by done.
  eexists. split; [apply Hrun; by apply page_mapped|]. rewrite vga_with_memory, memory_with.
  split; [done|]. split; [by apply bytes_range_write|]. apply same_outside_write; lia.
Qed.

Lemma safe_scroll s dest src n (y1 y2 : Z) c color :
  page (memory s) → vga_ok (get s) → 0 <= n → video <= dest → dest + n <= video + 4096 →
  video <= src → src + n <= video + 4096 → 0 <= y1 <= y2 → y2 <= 25 → y1 < 25 →
  safe_run (memmove dest src n;; fillRect 0 80 y1 y2 c color) s.
Proof.
  intros Hp Hv Hn Hd1 Hd2 Hs1 Hs2 Hy Hy2 Hy1.
  destruct (safe_memmove s dest src n) as (s1 & Hrun & Hg & Hp1 & Hso); [done..|].
  destruct (safe_rows s1 y1 y2 c color) as (s2 & Hrun2 & Hv2 & Hp2 & Hso2); [done|by rewrite Hg|done..|].
  exists s2. split; [by erewrite bind_ok|]. split; [done|]. split; [done|]. by eapply same_outside_trans.
Qed.

Lemma csi_screen_safe s c :
  page (memory s) → vga_ok (get s) → status (get s) = CSI → overruns (get s) c = false →
  safe_run (csi_screen c (get s)) s.
Proof.
  intros Hp Hv Hst Hover. pose proof Hv as [[Hx Hy] _ _ _ _ Hcol].
  pose proof (param_or_range (get s) 0 1 Hv ltac:(lia)) as Hp1.
  unfold overruns in Hover. rewrite bool_decide_eq_true_2 in Hover by done. cbn [andb] in Hover.
  apply orb_false_iff in Hover as [HS HT].
  unfold csi_screen. cbv zeta. set (x := cursorPosX (get s)) in *. set (y := cursorPosY (get s)) in *.
  set (v := get s) in *. unfold VIDEO_SIZE, WIDTH, HEIGHT.
  rewrite (videoOffset_ok y x) by lia. set (p1 := param_or v 0 1) in *.
  destruct (c =? ch "J").
  { destruct (param_or v 0 0 =? 0); [|destruct (param_or v 0 0 =? 1); [|destruct (param_or v 0 0 =? 2)]].
    - rewrite u32_small by lia. apply safe_memset; [done|done|lia|lia|lia].
    - rewrite u32_small by lia. apply safe_memset; [done|done|lia|lia|lia].
    - apply safe_memset; [done|done|lia|lia|lia].
    - by apply safe_ret. }
  destruct (c =? ch "K").
  { destruct (param_or v 0 0 =? 0); [|destruct (param_or v 0 0 =? 1); [|destruct (param_or v 0 0 =? 2)]].
    - apply safe_row; [done|done|lia|lia|lia].
    - apply safe_row; [done|done|lia|lia|lia].
    - apply safe_row; [done|done|lia|lia|lia].
    - by apply safe_ret. }
  destruct (c =? ch "S").
  { cbn [andb] in HS. apply orb_false_iff in HS as [H0 H25]. zb.
    rewrite videoOffset_ok, (u32_small (25 - p1)), u32_small by lia.
    apply safe_scroll; [done|done|lia..]. }
  destruct (c =? ch "T").
  { cbn [andb] in HT. zb. rewrite videoOffset_ok, (u32_small (25 - p1)), u32_small by lia.
    apply safe_scroll; [done|done|lia..]. }
  destruct (c =? ch "m"); [|by apply safe_ret].
  unfold setGraphicsRendition. apply safe_modify; [done|]. fold v. apply vga_ok_color; [done|].
  generalize (params v) (paramSpecified v). intros ps sp. revert sp Hcol. generalize (fontColor v).
  induction ps as [|p ps IH]; intros color [|b sp] Hc; cbn [sgr_all]; try done.
  destruct b; [apply IH; by apply sgr_byte | by apply IH].
Qed.
Lemma escape_safe s c :
  vga_ok (get s) → page (memory s) → overruns (get s) c = false → safe_run (printEscapeCode c) s.
Proof.
  intros Hv Hp Hover.
  unfold safe_run, printEscapeCode. setoid_rewrite run_get_vga.
  destruct (status (get s)) eqn:Hst.
  - apply (safe_modify _ s Hp). by apply vga_ok_status.
  - destruct (c =? ch "["); [|destruct (c =? ch "c")].
    + apply (safe_modify _ s Hp). destruct Hv. constructor; try done.
      cbn [params v_params]. split; [done|]. by apply Forall_replicate.
    + destruct (safe_memset s video 4000 Hp Hv ltac:(lia) ltac:(lia) ltac:(lia)) as (s1 & Hrun & Hv1 & Hp1 & Hso).
      change VIDEO_SIZE with 4000. unfold mbind, ST_bind in Hrun |- *.
      destruct (memset video 0 4000 s) as [[d s2]| |]; [|done|done]. injection Hrun as ->.
      destruct (safe_modify (λ v, v_status NORMAL (v_color (λ _, DEFAULT_COLOR) (v_saved 0 0 (v_cursor 0 0 v)))) s1)
        as (s3 & Hrun3 & Hv3 & Hp3 & Hso3); [done| |].
      { destruct Hv1. by constructor. }
      exists s3. split; [exact Hrun3|]. split; [done|]. split; [done|]. by eapply same_outside_trans.
    + apply (safe_modify _ s Hp). by apply vga_ok_status.
  - pose proof (ok_index _ Hv Hst) as Hi. destruct (ok_params _ Hv) as [Hlp Hps].
    destruct ((ch "0" <=? c) && (c <=? ch "9")); [|destruct (c =? ch ";")].
    + destruct (lookup_lt_is_Some_2 (params (get s)) (Z.to_nat (paramIndex (get s)))) as [p Hpl]; [lia|].
      rewrite Hpl. apply (safe_modify _ s Hp). destruct Hv. constructor; cbn; try done.
      * rewrite length_insert. split; [done|]. apply Forall_insert; [done|]. apply u32_range.
      * by rewrite length_insert.
    + cbv zeta. rewrite run_modify. destruct (MAX_PARAMS <=? paramIndex (get s) + 1) eqn:Em; zb; unfold MAX_PARAMS in *.
      * set (s1 := set _ s). assert (safe_run (modify (v_status NORMAL)) s1) as (s2 & Hrun & Hv2 & Hp2 & Hso2).
         { apply safe_modify; [by subst s1; rewrite memory_set_vga|]. subst s1. rewrite get_set.
           destruct Hv. by constructor. }
         exists s2. split; [exact Hrun|]. split; [done|]. split; [done|]. subst s1. by rewrite memory_set_vga in Hso2.
      * apply (safe_modify (v_params (params (get s)) (paramSpecified (get s)) (paramIndex (get s) + 1)) s Hp).
         destruct Hv. constructor; cbn; try done. intros _. lia.
    + change (safe_run (match csi_move c (get s) with Some f => modify f | None => csi_screen c (get s) end;;
                        modify (v_status NORMAL)) s).
      apply safe_bind.
      * destruct (csi_move c (get s)) as [f|] eqn:Hm.
         -- apply (safe_modify f s Hp). by eapply csi_move_ok.
         -- by apply csi_screen_safe.
      * intros s' Hp' Hv'. apply (safe_modify _ s' Hp'). by apply vga_ok_status.
Qed.
End safe.

(** C10. The terminal survives its input: from a consistent state with the
    cursor on the screen, any byte (text, control or part of an escape
    sequence, complete or not) that is not the final byte of an overrunning
    scroll leaves a consistent state with the cursor on the screen, and every
    access stays inside the 4096 bytes of the video page. *)
Theorem terminal_safe {S : Type} `{L : !Lens S mem} `{V : !Lens S vga_st} `{I : !Indep L V} `{J : !Indep V L}
    (s : S) (c : Z) :
  vga_ok (get s) → page (memory s) → - 128 <= c < 128 → overruns (get s) c = false →
  ∃ s', printCharacter c s = Ok (tt, s') ∧ vga_ok (get s') ∧ page (memory s') ∧
    same_outside video 4096 (memory s) (memory s').
Proof.
  intros Hv Hp Hc Hover. change (safe_run (printCharacter c) s).
  unfold safe_run, printCharacter. setoid_rewrite run_get_vga.
  destruct (bool_decide (status (get s) = NORMAL) && negb (c =? chr_ESC)) eqn:E.
  - destruct (page_screen _ Hp) as (cs & Hs).
    destruct (print_raw_ok s (cs, cursorPosX (get s), cursorPosY (get s)) c) as (s' & Hrun & Hr & (x & y & Hg) & Hso & _).
    { split; [done|]. split; [done|]. split; [done|]. split; apply Hv. }
    { done. }
    exists s'. split; [done|]. destruct (ref_raw _ _ _) as [[cs' x'] y']. destruct Hr as (Hs' & Hx & Hy & Hcur & _).
    rewrite Hg in Hx, Hy. cbn in Hx, Hy. subst x' y'. split; [|split].
    + rewrite Hg. by apply vga_ok_cursor.
    + by eapply screen_page.
    + intros q Hq. apply Hso. lia.
  - by apply escape_safe.
Qed.

Lemma for_n_fault {S} k n i (body : Z → ST S unit) s s' :
  for_n k i body s = Ok (tt, s') → body (i + Z.of_nat k) s' = Fault →
  for_n (k + Datatypes.S n) i body s = Fault.
Proof.
  revert i s. induction k as [|k IH]; intros i s; cbn [Nat.add for_n].
  - intros [= <-] Hf. rewrite Z.add_0_r in Hf. by rewrite (bind_fault _ _ _ Hf).
  - unfold mbind, ST_bind. destruct (body i s) as [[[] s1]| |]; try done. intros H1 H2.
    apply (IH _ _ H1). by replace (i + 1 + Z.of_nat k) with (i + Z.of_nat (Datatypes.S k)) by lia.
Qed.

(** The final byte of "scroll up by 0", or by more rows than the screen has,
    runs off the video page: with nothing mapped behind the page it faults. *)
Theorem scroll_overruns {S : Type} `{L : !Lens S mem} `{V : !Lens S vga_st} `{I : !Indep L V} `{J : !Indep V L}
    (s : S) :
  vga_ok (get s) → page (memory s) → (∀ q, video + 4096 <= q → memory s !! q = None) →
  status (get s) = CSI → param_or (get s) 0 1 = 0 ∨ 26 <= param_or (get s) 0 1 <= 1000 →
  printCharacter (ch "S") s = Fault.
Proof.
  intros Hv Hp Hnone Hst Hparam. unfold printCharacter. rewrite run_get_vga, bool_decide_eq_false_2 by by rewrite Hst.
  cbn [andb]. unfold printEscapeCode. rewrite run_get_vga, Hst.
  change ((ch "0" <=? ch "S") && (ch "S" <=? ch "9")) with false. change (ch "S" =? ch ";") with false. cbv iota.
  apply bind_fault. unfold csi_move. cbv zeta.
  repeat match goal with |- context [ch "S" =? ?x] => change (ch "S" =? x) with false end. cbn [orb].
  unfold csi_screen. cbv zeta. change (ch "S" =? ch "J") with false. change (ch "S" =? ch "K") with false.
  change (ch "S" =? ch "S") with true. cbv iota. set (p := param_or (get s) 0 1) in *. unfold HEIGHT, WIDTH.
  destruct Hparam as [->|Hrange].
  - rewrite (videoOffset_ok 0 0) by lia. change (u32 (2 * u32 (25 - 0) * 80)) with 4000. change (u32 (25 - 0)) with 25.
    destruct (safe_memmove s video (video + 160 * 0 + 2 * 0) 4000) as (s1 & Hrun & Hg & Hp1 & Hso); [done|done|lia..|].
    erewrite bind_ok; [|exact Hrun].
    unfold fillRect, WIDTH, HEIGHT. change ((80 <? 80) || (25 <? 25)) with false. cbv iota zeta.
    change (25 =? 25) with true. change (0 =? 80) with false. cbv iota.
    change (Z.to_nat (u32 (25 + 1) - 25)) with 1%nat. change (Z.to_nat (80 - 0)) with (48 + Datatypes.S 31)%nat.
    cbn [for_n]. apply bind_fault. eapply for_n_fault.
    + apply fill_row; [lia|lia|lia|]. apply page_mapped; [done|lia|lia].
    + change (0 + Z.of_nat 48) with 48. unfold put_cell. apply bind_fault. rewrite videoOffset_ok by lia.
      apply store_fault. rewrite memory_with, lookup_write_bytes_out, Hso by (rewrite ?length_cell_bytes, ?length_replicate; lia).
      apply Hnone. lia.
  - apply bind_fault. unfold videoOffset, WIDTH. rewrite (u32_small (2 * p * 80)) by lia. change (u32 (2 * 0)) with 0.
    rewrite Z.add_0_r. unfold video in *. rewrite (u32_small (u32 _)) by apply u32_range.
    rewrite (u32_small (_ + 2 * p * 80)) by lia.
    assert (0 < u32 (2 * u32 (25 - p) * 80)) as Hpos.
    { unfold u32. Z.to_euclidean_division_equations. lia. }
    unfold memmove. zcase (0xC0000000 <? 0xC0000000 + 2 * p * 80). cbn [loop].
    zcase (0 <? u32 (2 * u32 (25 - p) * 80)). erewrite bind_fault; [done|]. apply load_fault, Hnone. lia.
Qed.

(** ** Escape sequences *)
Definition digit_chars (ds : list Z) : list Z := (λ d, ch "0" + d) <$> ds.

Lemma value_grows ds p : Forall (λ d, 0 <= d < 10) ds → 0 <= p →
  p <= fold_left (λ v d, v * 10 + d) ds p.
Proof.
  intros H. revert p. induction H as [|d ds Hd H IH]; intros p Hp; cbn [fold_left]; [lia|].
  specialize (IH (p * 10 + d) ltac:(lia)). lia.
Qed.

Section escape.
Context {S : Type} `{L : !Lens S mem} `{V : !Lens S vga_st}.
Implicit Types s : S.

Lemma print_all_app cs ds s : print_all (cs ++ ds) s = (print_all cs;; print_all ds) s.
Proof.
  revert s. induction cs as [|c cs IH]; intros s; [done|]. cbn [app print_all]. unfold mbind, ST_bind in *.
  destruct (printCharacter c s) as [[[] s1]| |]; [|done|done]. apply IH.
Qed.

Lemma parse_digits s (v : vga_st) i ds p :
  get s = v → status v = CSI → paramIndex v = Z.of_nat i → params v !! i = Some p → 0 <= p →
  (i < length (paramSpecified v))%nat → Forall (λ d, 0 <= d < 10) ds → ds ≠ [] →
  fold_left (λ v d, v * 10 + d) ds p < 2 ^ 32 →
  print_all (digit_chars ds) s =
  Ok (tt, set (v_params (<[i := fold_left (λ v d, v * 10 + d) ds p]> (params v))
                        (<[i := true]> (paramSpecified v)) (paramIndex v) v) s).
Proof.
  intros Hg Hst Hi Hp Hp0 Hsp Hds Hne Hlim. revert s v p Hg Hst Hi Hp Hp0 Hsp Hne Hlim.
  induction Hds as [|d ds Hd Hds IH]; intros s v p Hg Hst Hi Hp Hp0 Hsp Hne Hlim; [done|].
  cbn [digit_chars fmap list_fmap print_all fold_left] in *. fold (digit_chars ds).
  pose proof (value_grows ds (p * 10 + d) Hds ltac:(lia)) as Hgrow.
  set (v1 := v_params (<[i := p * 10 + d]> (params v)) (<[i := true]> (paramSpecified v)) (paramIndex v) v).
  erewrite (bind_ok _ _ s tt (set v1 s)).
  2: { unfold printCharacter. rewrite run_get_vga, Hg, Hst. rewrite bool_decide_eq_false_2 by done. cbn [andb].
       unfold printEscapeCode. rewrite run_get_vga, Hg, Hst. change (ch "0") with 48. change (ch "9") with 57.
       zcase (48 <=? 48 + d). zcase (48 + d <=? 57). cbn [andb]. rewrite Hi, Nat2Z.id, Hp.
       unfold modify. rewrite Hg. subst v1. rewrite Hi. do 3 f_equal.
       replace (p * 10 + (48 + d) - 48) with (p * 10 + d) by lia. rewrite u32_small by lia. done. }
  destruct ds as [|d' ds].
  - done.
  - rewrite (IH (set v1 s) v1 (p * 10 + d)).
    + rewrite set_set. subst v1. cbn [params paramSpecified paramIndex v_params].
      unfold v_params. cbn [fontColor cursorPosX cursorPosY savedX savedY params paramSpecified paramIndex status].
      by rewrite !list_insert_insert_eq.
    + apply get_set.
    + done.
    + done.
    + cbn. apply list_lookup_insert_eq. by apply lookup_lt_Some in Hp.
    + lia.
    + cbn. by rewrite length_insert.
    + done.
    + done.
Qed.

Lemma escape_step s c v' :
  status (get s) ≠ NORMAL ∨ c = chr_ESC → printEscapeCode c s = Ok (tt, set v' s) →
  printCharacter c s = Ok (tt, set v' s).
Proof.
  intros Hc H. unfold printCharacter. rewrite run_get_vga.
  destruct (bool_decide (status (get s) = NORMAL) && negb (c =? chr_ESC)) eqn:E; [|done].
  apply andb_true_iff in E as [E1 E2]. apply bool_decide_eq_true in E1. apply negb_true_iff in E2. zb. tauto.
Qed.
End escape.

(** A cursor position sequence, ESC [ row ; column H with both numbers in
    decimal, moves the cursor to that position, counted from 1, and touches
    nothing on the screen, when the row is in 1..24 and the column in 1..79; any
    other position, the last row and the last column among them, leaves the
    cursor alone. *)
Theorem cursor_position_sequence {S : Type} `{L : !Lens S mem} `{V : !Lens S vga_st} `{I : !Indep L V} `{J : !Indep V L}
    (s : S) (row column : Z) (dr dc : list Z) :
  status (get s) = NORMAL → Forall (λ d, 0 <= d < 10) dr → Forall (λ d, 0 <= d < 10) dc → dr ≠ [] → dc ≠ [] →
  value_of 10 dr = row → value_of 10 dc = column → row < 2 ^ 32 → column < 2 ^ 32 →
  ∃ s', print_all ([chr_ESC; ch "["] ++ digit_chars dr ++ [ch ";"] ++ digit_chars dc ++ [ch "H"]) s = Ok (tt, s') ∧
    memory s' = memory s ∧ status (get s') = NORMAL ∧
    (cursorPosX (get s'), cursorPosY (get s')) =
      if bool_decide (1 <= row <= 24 ∧ 1 <= column <= 79) then (column - 1, row - 1)
      else (cursorPosX (get s), cursorPosY (get s)).
Proof.
  intros Hn Hdr Hdc Hdr0 Hdc0 Hrow Hcol Hr32 Hc32. unfold value_of in *.
  pose proof (value_grows dr 0 Hdr ltac:(lia)) as Hr0. pose proof (value_grows dc 0 Hdc ltac:(lia)) as Hc0.
  set (v0 := get s) in *. cbn [app print_all].
  rewrite (bind_ok _ _ s tt (set (v_status ESCAPED v0) s)).
  2: { apply escape_step; [by right|]. unfold printEscapeCode. rewrite run_get_vga. fold v0. by rewrite Hn. }
  set (v1 := v_params (replicate 16 0) (replicate 16 false) 0 (v_status CSI v0)).
  rewrite (bind_ok _ _ _ tt (set v1 s)).
  2: { rewrite <-(set_set v1 (v_status ESCAPED v0) s). apply escape_step; [left; by rewrite get_set|].
       unfold printEscapeCode. rewrite run_get_vga, get_set. cbn [status v_status].
       change (ch "[" =? ch "[") with true. cbv iota. unfold modify. by rewrite get_set. }
  rewrite print_all_app.
  set (v2 := v_params (<[0%nat := row]> (replicate 16 0)) (<[0%nat := true]> (replicate 16 false)) 0 v1).
  rewrite (bind_ok _ _ _ tt (set v2 s)).
  2: { rewrite (parse_digits _ v1 0 dr 0); [|apply get_set|done|done|done|lia|cbn; lia|done|done|lia].
       by rewrite set_set, Hrow. }
  cbn [print_all].
  set (v3 := v_params (params v2) (paramSpecified v2) 1 v2).
  rewrite (bind_ok _ _ _ tt (set v3 s)).
  2: { rewrite <-(set_set v3 v2 s). apply escape_step; [left; by rewrite get_set|].
       unfold printEscapeCode. rewrite run_get_vga, get_set. cbn [status v2 v1 v_params v_status].
       change ((ch "0" <=? ch ";") && (ch ";" <=? ch "9")) with false. change (ch ";" =? ch ";") with true. cbv iota zeta.
       rewrite run_modify, get_set. done. }
  rewrite print_all_app.
  set (v4 := v_params (<[1%nat := column]> (params v3)) (<[1%nat := true]> (paramSpecified v3)) 1 v3).
  rewrite (bind_ok _ _ _ tt (set v4 s)).
  2: { rewrite (parse_digits _ v3 1 dc 0); [|apply get_set|done|done|done|lia|cbn; lia|done|done|lia].
       by rewrite set_set, Hcol. }
  cbn [print_all].
  assert (param_or v4 0 1 = row ∧ param_or v4 1 1 = column) as [Hp0 Hp1] by done.
  set (x' := if bool_decide (1 <= row <= 24 ∧ 1 <= column <= 79) then column - 1 else cursorPosX v0).
  set (y' := if bool_decide (1 <= row <= 24 ∧ 1 <= column <= 79) then row - 1 else cursorPosY v0).
  rewrite (bind_ok _ _ _ tt (set (v_status NORMAL (v_cursor x' y' v4)) s)).
  2: { rewrite <-(set_set (v_status NORMAL (v_cursor x' y' v4)) v4 s). apply escape_step; [left; by rewrite get_set|].
       unfold printEscapeCode. rewrite run_get_vga, get_set. change (status v4) with CSI. cbv iota.
       change ((ch "0" <=? ch "H") && (ch "H" <=? ch "9")) with false. change (ch "H" =? ch ";") with false. cbv iota.
       unfold csi_move. cbv zeta. rewrite Hp0, Hp1.
       repeat match goal with |- context [ch "H" =? ?x] => first [change (ch "H" =? x) with false | change (ch "H" =? x) with true] end.
       cbn [orb]. rewrite run_modify. unfold modify. rewrite !get_set, set_set. do 3 f_equal.
       subst x' y'. unfold WIDTH, HEIGHT. case_bool_decide as Hb.
       - zcase (0 <? column). zcase (column <? 80). zcase (0 <? row). zcase (row <? 25). done.
       - destruct ((0 <? column) && (column <? 80) && ((0 <? row) && (row <? 25))) eqn:E; [|done].
         rewrite !andb_true_iff in E. destruct E as [[? ?] [? ?]]. zb. lia. }
  eexists. split; [reflexivity|]. 
  split; [apply memory_set_vga|]. rewrite get_set. split; [done|]. subst x' y'. cbn. by case_bool_decide.
Qed.

(** *** Instances: a black screen and nothing else *)
Definition demo_screen : mem := write_bytes ∅ video (replicate 4096 0).
Definition blank : list cell := replicate 2000 (0, 0).
Definition console (v : vga_st) : mem * vga_st := (demo_screen, v).
(** The state after ESC [ 0. *)
Definition vga_zero_param : vga_st :=
  Vga DEFAULT_COLOR 3 4 0 0 (replicate 16 0) (true :: replicate 15 false) 0 CSI.

Lemma demo_page : page demo_screen.
Proof.
  intros q Hq. exists 0. unfold demo_screen. rewrite lookup_write_bytes, decide_True by (rewrite length_replicate; lia).
  rewrite lookup_replicate_2 by lia. split; [done|unfold byte_ok; lia].
Qed.

Lemma demo_screen_rep : screen_rep demo_screen blank.
Proof.
  split; [done|]. split; [apply Forall_replicate; split; cbn; unfold byte_ok; lia|].
  unfold demo_screen. change 4096%nat with (4000 + 96)%nat. rewrite replicate_add, write_bytes_app, length_replicate.
  apply bytes_at_write_other; [right; rewrite length_cell_bytes; unfold blank; rewrite length_replicate; lia|].
  replace (cell_bytes blank) with (replicate 4000 0); [apply bytes_at_write|]. unfold blank.
  change 4000%nat with (2 * 2000)%nat. generalize 2000%nat. intros n.
  induction n as [|n IH]; [done|]. replace (2 * Datatypes.S n)%nat with (Datatypes.S (Datatypes.S (2 * n))) by lia.
  cbn [replicate]. rewrite cell_bytes_cons. cbn [fst snd]. by rewrite IH.
Qed.

Lemma demo_vga_ok v :
  bool_decide (0 <= cursorPosX v <= 80 ∧ 0 <= cursorPosY v <= 24 ∧ 0 <= savedX v <= 80 ∧ 0 <= savedY v <= 24 ∧
    length (params v) = 16%nat ∧ Forall (λ p, 0 <= p < 2 ^ 32) (params v) ∧ length (paramSpecified v) = 16%nat ∧
    0 <= paramIndex v < 16 ∧ byte_ok (fontColor v)) = true → vga_ok v.
Proof. intros H%bool_decide_eq_true_1. constructor; unfold cursor_ok; tauto. Qed.

Lemma text_refines_witness : ∃ s',
  print_all (str "Hi") (console vga_initial) = Ok (tt, s') ∧
  vga_rep s' (<[1%nat := (105, DEFAULT_COLOR)]> (<[0%nat := (72, DEFAULT_COLOR)]> blank), 2, 0).
Proof.
  destruct (text_refines (console vga_initial) (blank, 0, 0) (str "Hi")) as (s' & H & Hr & _).
  - split; [apply demo_screen_rep|]. split; [done|]. split; [done|]. split; [done|].
    by apply (bool_decide_eq_true_1 (byte_ok _)).
  - done.
  - repeat constructor; done.
  - exists s'. exact (conj H Hr).
Defined.

Lemma terminal_safe_witness : ∃ s', printCharacter (ch "J") (console vga_zero_param) = Ok (tt, s') ∧ vga_ok (get s').
Proof.
  destruct (terminal_safe (console vga_zero_param) (ch "J")) as (s' & H & Hv & _).
  - apply demo_vga_ok. vm_compute. done.
  - apply demo_page.
  - vm_compute. done.
  - vm_compute. done.
  - exists s'. exact (conj H Hv).
Defined.

Lemma scroll_overruns_witness : printCharacter (ch "S") (console vga_zero_param) = Fault.
Proof.
  apply (scroll_overruns (console vga_zero_param)).
  - apply demo_vga_ok. vm_compute. done.
  - apply demo_page.
  - intros q Hq. change (demo_screen !! q = None). unfold demo_screen.
    rewrite lookup_write_bytes_out by (rewrite length_replicate; lia). done.
  - done.
  - left. done.
Defined.

Lemma cursor_position_sequence_witness : ∃ s',
  print_all ([chr_ESC; ch "["] ++ digit_chars [1; 2] ++ [ch ";"] ++ digit_chars [7; 9] ++ [ch "H"])
    (console vga_initial) = Ok (tt, s') ∧ (cursorPosX (get s'), cursorPosY (get s')) = (78, 11).
Proof.
  destruct (cursor_position_sequence (console vga_initial) 12 79 [1; 2] [7; 9]) as (s' & H & _ & _ & Hc).
  - done.
  - repeat constructor; lia.
  - repeat constructor; lia.
  - done.
  - done.
  - done.
  - done.
  - lia.
  - lia.
  - exists s'. exact (conj H Hc).
Defined.
