(* ===== verification/Keyboard.v ===== *)
(** * The keyboard (kernel/src/keyboard.cpp, ps2keyboard.cpp, kernel/include/inwox/keyboardkeys.h)

    The PS/2 driver turns scan codes into key events, positive for a key pressed
    and negative for one released; Keyboard turns key events into characters
    and escape sequences. *)
From S2P Require Import Prelude Vga.

(** ** Scan code set 1 *)
Definition S1_KB_ESC : Z := 0x01.
Definition S1_KB_1 : Z := 0x02.
Definition S1_KB_2 : Z := 0x03.
Definition S1_KB_3 : Z := 0x04.
Definition S1_KB_4 : Z := 0x05.
Definition S1_KB_5 : Z := 0x06.
Definition S1_KB_6 : Z := 0x07.
Definition S1_KB_7 : Z := 0x08.
Definition S1_KB_8 : Z := 0x09.
Definition S1_KB_9 : Z := 0x0A.
Definition S1_KB_0 : Z := 0x0B.
Definition S1_KB_SYMBOL1 : Z := 0x0C.
Definition S1_KB_SYMBOL2 : Z := 0x0D.
Definition S1_KB_BACKSPACE : Z := 0x0E.
Definition S1_KB_TAB : Z := 0x0F.
Definition S1_KB_Q : Z := 0x10.
Definition S1_KB_W : Z := 0x11.
Definition S1_KB_E : Z := 0x12.
Definition S1_KB_R : Z := 0x13.
Definition S1_KB_T : Z := 0x14.
Definition S1_KB_Y : Z := 0x15.
Definition S1_KB_U : Z := 0x16.
Definition S1_KB_I : Z := 0x17.
Definition S1_KB_O : Z := 0x18.
Definition S1_KB_P : Z := 0x19.
Definition S1_KB_SYMBOL3 : Z := 0x1A.
Definition S1_KB_SYMBOL4 : Z := 0x1B.
Definition S1_KB_ENTER : Z := 0x1C.
Definition S1_KB_LCONTROL : Z := 0x1D.
Definition S1_KB_A : Z := 0x1E.
Definition S1_KB_S : Z := 0x1F.
Definition S1_KB_D : Z := 0x20.
Definition S1_KB_F : Z := 0x21.
Definition S1_KB_G : Z := 0x22.
Definition S1_KB_H : Z := 0x23.
Definition S1_KB_J : Z := 0x24.
Definition S1_KB_K : Z := 0x25.
Definition S1_KB_L : Z := 0x26.
Definition S1_KB_SYMBOL5 : Z := 0x27.
Definition S1_KB_SYMBOL6 : Z := 0x28.
Definition S1_KB_SYMBOL7 : Z := 0x29.
Definition S1_KB_LSHIFT : Z := 0x2A.
Definition S1_KB_SYMBOL8 : Z := 0x2B.
Definition S1_KB_Z : Z := 0x2C.
Definition S1_KB_X : Z := 0x2D.
Definition S1_KB_C : Z := 0x2E.
Definition S1_KB_V : Z := 0x2F.
Definition S1_KB_B : Z := 0x30.
Definition S1_KB_N : Z := 0x31.
Definition S1_KB_M : Z := 0x32.
Definition S1_KB_SYMBOL9 : Z := 0x33.
Definition S1_KB_SYMBOL10 : Z := 0x34.
Definition S1_KB_DEV : Z := 0x35.
Definition S1_KB_RSHIFT : Z := 0x36.
Definition S1_KB_NUMPAD_MULT : Z := 0x37.
Definition S1_KB_LALT : Z := 0x38.
Definition S1_KB_SPACE : Z := 0x39.
Definition S1_KB_CAPSLOCK : Z := 0x3A.
Definition S1_KB_F1 : Z := 0x3B.
Definition S1_KB_F2 : Z := 0x3C.
Definition S1_KB_F3 : Z := 0x3D.
Definition S1_KB_F4 : Z := 0x3E.
Definition S1_KB_F5 : Z := 0x3F.
Definition S1_KB_F6 : Z := 0x40.
Definition S1_KB_F7 : Z := 0x41.
Definition S1_KB_F8 : Z := 0x42.
Definition S1_KB_F9 : Z := 0x43.
Definition S1_KB_F10 : Z := 0x44.
Definition S1_KB_NUMLOCK : Z := 0x45.
Definition S1_KB_SCROLLLOCK : Z := 0x46.
Definition S1_KB_NUMPAD7 : Z := 0x47.
Definition S1_KB_NUMPAD8 : Z := 0x48.
Definition S1_KB_NUMPAD9 : Z := 0x49.
Definition S1_KB_NUMPAD_MINUS : Z := 0x4A.
Definition S1_KB_NUMPAD4 : Z := 0x4B.
Definition S1_KB_NUMPAD5 : Z := 0x4C.
Definition S1_KB_NUMPAD6 : Z := 0x4D.
Definition S1_KB_NUMPAD_PLUS : Z := 0x4E.
Definition S1_KB_NUMPAD1 : Z := 0x4F.
Definition S1_KB_NUMPAD2 : Z := 0x50.
Definition S1_KB_NUMPAD3 : Z := 0x51.
Definition S1_KB_NUMPAD0 : Z := 0x52.
Definition S1_KB_NUMPAD_DOT : Z := 0x53.
Definition S1_KB_SYMBOL11 : Z := 0x56.
Definition S1_KB_F11 : Z := 0x57.
Definition S1_KB_F12 : Z := 0x58.
Definition S1_KB_NUMPAD_ENTER : Z := 0x9C.
Definition S1_KB_RCONTROL : Z := 0x9D.
Definition S1_KB_NUMPAD_DIV : Z := 0xB5.
Definition S1_KB_ALTGR : Z := 0xB8.
Definition S1_KB_HOME : Z := 0xC7.
Definition S1_KB_UP : Z := 0xC8.
Definition S1_KB_PAGEUP : Z := 0xC9.
Definition S1_KB_LEFT : Z := 0xCB.
Definition S1_KB_RIGHT : Z := 0xCD.
Definition S1_KB_END : Z := 0xCF.
Definition S1_KB_DOWN : Z := 0xD0.
Definition S1_KB_PAGEDOWN : Z := 0xD1.
Definition S1_KB_INSERT : Z := 0xD2.
Definition S1_KB_DELETE : Z := 0xD3.

(** ** keyboard.cpp *)

(** KBLAYOUT_US: two characters per key, plain and shifted. *)
Definition KBLAYOUT_US : list Z := [
   96; 126; 0; 0; 49; 33; 50; 64; 51; 35; 52; 36; 53; 37; 54; 94;
   55; 38; 56; 42; 57; 40; 48; 41; 45; 95; 61; 43; 8; 8; 32; 32;
   113; 81; 119; 87; 101; 69; 114; 82; 116; 84; 121; 89; 117; 85; 105; 73;
   111; 79; 112; 80; 91; 123; 93; 125; 10; 10; 0; 0; 97; 65; 115; 83;
   100; 68; 102; 70; 103; 71; 104; 72; 106; 74; 107; 75; 108; 76; 59; 58;
   39; 34; 96; 126; 0; 0; 92; 124; 122; 90; 120; 88; 99; 67; 118; 86;
   98; 66; 110; 78; 109; 77; 44; 60; 46; 62; 47; 63; 0; 0; 0; 0;
   0; 0; 32; 32; 0; 0; 0; 0; 0; 0; 0; 0; 0; 0; 0; 0].

Definition CSI_prefix : list Z := [27; ch "["].
Definition sequences : list (Z * list Z) := [
  (S1_KB_UP, CSI_prefix ++ str "A");
  (S1_KB_DOWN, CSI_prefix ++ str "B");
  (S1_KB_RIGHT, CSI_prefix ++ str "C");
  (S1_KB_LEFT, CSI_prefix ++ str "D");
  (S1_KB_HOME, CSI_prefix ++ str "1~");
  (S1_KB_INSERT, CSI_prefix ++ str "2~");
  (S1_KB_DELETE, CSI_prefix ++ str "3~");
  (S1_KB_END, CSI_prefix ++ str "4~");
  (S1_KB_PAGEUP, CSI_prefix ++ str "5~");
  (S1_KB_PAGEDOWN, CSI_prefix ++ str "6~");
  (S1_KB_F1, CSI_prefix ++ str "OP");
  (S1_KB_F2, CSI_prefix ++ str "OQ");
  (S1_KB_F3, CSI_prefix ++ str "OR");
  (S1_KB_F4, CSI_prefix ++ str "OS");
  (S1_KB_F5, CSI_prefix ++ str "15~");
  (S1_KB_F6, CSI_prefix ++ str "17~");
  (S1_KB_F7, CSI_prefix ++ str "18~");
  (S1_KB_F8, CSI_prefix ++ str "19~");
  (S1_KB_F9, CSI_prefix ++ str "20~");
  (S1_KB_F10, CSI_prefix ++ str "21~");
  (S1_KB_F11, CSI_prefix ++ str "23~");
  (S1_KB_F12, CSI_prefix ++ str "24~")].

(** The static variables of getCharFromKey. *)
Record kb_st : Type := Kb {
  leftShift : bool;
  rightShift : bool;
  capsLock : bool;
  leftControl : bool;
  rightControl : bool;
}.
Definition kb_initial : kb_st := Kb false false false false false.

Definition kb_update (key : Z) (k : kb_st) : kb_st :=
  if key =? S1_KB_LSHIFT then Kb true (rightShift k) (capsLock k) (leftControl k) (rightControl k)
  else if key =? S1_KB_RSHIFT then Kb (leftShift k) true (capsLock k) (leftControl k) (rightControl k)
  else if key =? S1_KB_CAPSLOCK then Kb (leftShift k) (rightShift k) (negb (capsLock k)) (leftControl k) (rightControl k)
  else if key =? S1_KB_LCONTROL then Kb (leftShift k) (rightShift k) (capsLock k) true (rightControl k)
  else if key =? S1_KB_RCONTROL then Kb (leftShift k) (rightShift k) (capsLock k) (leftControl k) true
  else if key =? - S1_KB_LSHIFT then Kb false (rightShift k) (capsLock k) (leftControl k) (rightControl k)
  else if key =? - S1_KB_RSHIFT then Kb (leftShift k) false (capsLock k) (leftControl k) (rightControl k)
  else if key =? - S1_KB_LCONTROL then Kb (leftShift k) (rightShift k) (capsLock k) false (rightControl k)
  else if key =? - S1_KB_RCONTROL then Kb (leftShift k) (rightShift k) (capsLock k) (leftControl k) false
  else k.

(** The character of a key under the modifiers. *)
Definition kb_char (key : Z) (k : kb_st) : Z :=
  if key <? 0 then 0 else
  let shifted := xorb (leftShift k || rightShift k) (capsLock k) in
  let index := Z.lor (Z.shiftl key 1) (bool_Z shifted) in
  let result :=
    if index <? Z.of_nat (length KBLAYOUT_US) then default 0 (KBLAYOUT_US !! Z.to_nat index)
    else if key =? S1_KB_NUMPAD_ENTER then 10
    else if key =? S1_KB_NUMPAD_DIV then ch "/"
    else 0 in
  if leftControl k || rightControl k then Z.land result 0x1F else result.

Section keyboard.
Context {S : Type} `{K : !Lens S kb_st}.

Definition getCharFromKey (key : Z) : ST S Z := λ s,
  let k := kb_update key (get s) in
  Ok (kb_char key k, set k s).
End keyboard.

(** The sequence of a key; [None] is the null pointer. *)
Fixpoint find_sequence (key : Z) (table : list (Z * list Z)) : option (list Z) :=
  match table with
  | [] => None
  | (k, sequence) :: table => if k =? key then Some sequence else find_sequence key table
  end.
Definition getSequenceFromkey (key : Z) : option (list Z) := find_sequence key sequences.

(** ** ps2keyboard.cpp *)
Definition KEYBOARD_ACK : Z := 0xFA.
Definition KEYBOARD_RESEND : Z := 0xFE.
Definition ESCAPED_FLAG : Z := 0xE0.
Definition KEYBOARD_SET_LED : Z := 0xED.
Definition KEYBOARD_ENABLE_SCANNING : Z := 0xF4.
Definition LED_SCROLLLOCK : Z := 1.
Definition LED_NUMBERLOCK_MASK : Z := 2.
Definition LED_CAPSLOCK : Z := 4.

(** The static variables [state] and [ledState], and the listener. *)
Inductive ps2_state : Type := STATE_NORMAL | STATE_ESCAPED.
Record ps2_st : Type := Ps2 { ps2_escaped : ps2_state; ledState : Z; has_listener : bool }.
Definition ps2_initial : ps2_st := Ps2 STATE_NORMAL 0 false.

(** KeyboardListener of keyboard.h. *)
Class Listener (S : Type) : Type := { onKeyboardEvent : Z → ST S unit }.

Section ps2.
Context {S : Type} `{K : !Lens S ps2_st} `{P : !Ports S} `{KL : !Listener S}.

Definition get_ps2 : ST S ps2_st := λ s, Ok (get s, s).
Definition set_ps2 (p : ps2_st) : ST S unit := λ s, Ok (tt, set p s).

(** [while (inportb(0x64) & 2) {}]: the controller takes no data yet. *)
Definition wait_write (fuel : nat) : ST S unit :=
  loop fuel (λ _,
    st ← inportb 0x64;
    if Z_bool (Z.land st 2) then mret (Next tt) else mret (Done tt)) tt.

Definition readDataPort (fuel : nat) : ST S Z :=
  loop fuel (λ _,
    st ← inportb 0x64;
    if negb (Z_bool (Z.land st 1)) then mret (Next tt) else mret (Done tt)) tt;;
  inportb 0x60.

Definition sendKeyboardCommand (fuel : nat) (command : Z) : ST S unit :=
  wait_write fuel;; outportb 0x60 command;; readDataPort fuel;; mret tt.

Definition sendKeyboardCommand_data (fuel : nat) (command data : Z) : ST S unit :=
  wait_write fuel;; outportb 0x60 command;; wait_write fuel;; outportb 0x60 data.

(** The constructor; its message on the screen is left out. *)
Definition PS2Keyboard (fuel : nat) : ST S unit :=
  p ← get_ps2; set_ps2 (Ps2 (ps2_escaped p) (ledState p) false);;
  sendKeyboardCommand fuel KEYBOARD_ENABLE_SCANNING.

Definition handleKey (fuel : nat) (keycode : Z) : ST S unit :=
  p ← get_ps2;
  let newLed :=
    if keycode =? 0x45 then Z.lxor (ledState p) LED_NUMBERLOCK_MASK
    else if keycode =? 0x3A then Z.lxor (ledState p) LED_CAPSLOCK
    else if keycode =? 0x46 then Z.lxor (ledState p) LED_SCROLLLOCK
    else ledState p in
  (if negb (newLed =? ledState p) then
     set_ps2 (Ps2 (ps2_escaped p) newLed (has_listener p));;
     sendKeyboardCommand_data fuel KEYBOARD_SET_LED newLed
   else mret tt);;
  p ← get_ps2;
  if has_listener p then onKeyboardEvent keycode else mret tt.

Definition irqHandler (fuel : nat) : ST S unit :=
  data ← inportb 0x60;
  if (data =? KEYBOARD_ACK) || (data =? KEYBOARD_RESEND) then mret tt
  else
    p ← get_ps2;
    if data =? ESCAPED_FLAG then set_ps2 (Ps2 STATE_ESCAPED (ledState p) (has_listener p))
    else
      keycode ← match ps2_escaped p with
                | STATE_NORMAL => mret (Z.land data 0x7F)
                | STATE_ESCAPED =>
                    set_ps2 (Ps2 STATE_NORMAL (ledState p) (has_listener p));;
                    mret (Z.lor data 0x80)
                end;
      let released := Z_bool (Z.land data 0x80) in
      handleKey fuel (if released then - keycode else keycode).
End ps2.

(** ** Properties *)

(** The key that types a character, and whether Shift is held: searched in the
    table. *)
Definition types (c : Z) : bool :=
  existsb (λ key, existsb (λ shift, kb_char key (kb_update key (Kb shift false false false false)) =? c)
    [false; true]) (seqZ 1 127).

(** The keyboard types all of ASCII: every printable character is what some
    key yields, alone or with the left Shift key held, and holding Shift and
    letting go of it again leaves the modifiers as they were. *)
Theorem keyboard_complete {S : Type} `{K : !Lens S kb_st} (c : Z) (s : S) :
  32 <= c <= 126 → get s = kb_initial →
  ∃ key, 0 < key < 128 ∧
    (getCharFromKey key s = Ok (c, s) ∨
     (getCharFromKey S1_KB_LSHIFT;; c ← getCharFromKey key; getCharFromKey (- S1_KB_LSHIFT);; mret c) s = Ok (c, s)).
Proof.
  intros Hc Hs. assert (forallb types (seqZ 32 95) = true) as Hall by (vm_compute; done).
  rewrite forallb_forall in Hall. assert (types c = true) as Ht.
  { apply Hall, list_elem_of_In, elem_of_seqZ. lia. }
  unfold types in Ht. apply existsb_exists in Ht as (key & Hkey & Ht).
  apply list_elem_of_In, elem_of_seqZ in Hkey. apply existsb_exists in Ht as (shift & _ & Ht). zb.
  exists key. split; [lia|].
  assert (∀ b, kb_update key (Kb b false false false false) = Kb b false false false false ∨
    key = S1_KB_LSHIFT ∨ key = S1_KB_RSHIFT ∨ key = S1_KB_CAPSLOCK ∨ key = S1_KB_LCONTROL ∨ key = S1_KB_RCONTROL) as Hup.
  { intros b. unfold kb_update.
    destruct (key =? S1_KB_LSHIFT) eqn:E1; zb; [by right; left|].
    destruct (key =? S1_KB_RSHIFT) eqn:E2; zb; [by right; right; left|].
    destruct (key =? S1_KB_CAPSLOCK) eqn:E3; zb; [by do 3 right; left|].
    destruct (key =? S1_KB_LCONTROL) eqn:E4; zb; [by do 4 right; left|].
    destruct (key =? S1_KB_RCONTROL) eqn:E5; zb; [by do 5 right|].
    left. unfold S1_KB_LSHIFT, S1_KB_RSHIFT, S1_KB_LCONTROL, S1_KB_RCONTROL.
    repeat match goal with |- context [if key =? ?x then _ else _] => zcase (key =? x) end. done. }
  destruct (Hup shift) as [Hk|Hmod].
  - rewrite Hk in Ht. destruct shift.
    + right. unfold getCharFromKey, mbind, ST_bind, mret, ST_ret. rewrite Hs, !get_set, !set_set.
      change (kb_update S1_KB_LSHIFT kb_initial) with (Kb true false false false false). rewrite Hk, Ht.
      change (kb_update (- S1_KB_LSHIFT) (Kb true false false false false)) with kb_initial.
      by rewrite <-Hs, set_get.
    + left. unfold getCharFromKey. rewrite Hs. unfold kb_initial at 1 2. rewrite Hk, Ht.
      change (Kb false false false false false) with kb_initial. by rewrite <-Hs, set_get.
  - exfalso. destruct shift; destruct Hmod as [->|[->|[->|[->| ->]]]]; vm_compute in Ht; subst c; lia.
Qed.

(** The bytes the keyboard sends for a key event. *)
Definition scancode (key : Z) : list Z :=
  let k := Z.abs key in
  if k <? 0x80 then [if key <? 0 then k + 0x80 else k]
  else [ESCAPED_FLAG; if key <? 0 then k else k - 0x80].

(** Key events whose code is not confused with a reply of the keyboard. *)
Definition sendable (key : Z) : Prop :=
  let k := Z.abs key in
  1 <= k < 0x100 ∧ k ≠ 0x60 ∧ k ≠ 0x7A ∧ k ≠ 0x7E ∧ k ≠ 0xE0 ∧ k ≠ 0xFA ∧ k ≠ 0xFE.

(** Reading a port does not touch the driver's variables. *)
Class PortLaws (S : Type) `{K : !Lens S ps2_st} `{P : !Ports S} : Prop := {
  inportb_keeps : ∀ port s b s', inportb port s = Ok (b, s') → get s' = get s;
}.

Lemma land_low x : 0 <= x < 256 → Z.land x 0x7F = if x <? 0x80 then x else x - 0x80.
Proof.
  intros Hx. change 0x7F with (Z.ones 7). rewrite Z.land_ones by lia. change (2 ^ 7) with 128.
  destruct (x <? 0x80) eqn:E; zb; Z.to_euclidean_division_equations; lia.
Qed.

Lemma land_high x : 0 <= x < 256 → Z_bool (Z.land x 0x80) = (0x80 <=? x).
Proof.
  intros Hx. assert (forallb (λ x, bool_decide (Z_bool (Z.land x 0x80) = (0x80 <=? x))) (seqZ 0 256) = true) as H
    by (vm_compute; done).
  rewrite forallb_forall in H. specialize (H x). rewrite bool_decide_eq_true in H. apply H, list_elem_of_In, elem_of_seqZ. lia.
Qed.

Lemma lor_high x : 0 <= x < 256 → Z.lor x 0x80 = if x <? 0x80 then x + 0x80 else x.
Proof.
  intros Hx. assert (forallb (λ x, bool_decide (Z.lor x 0x80 = if x <? 0x80 then x + 0x80 else x)) (seqZ 0 256) = true) as H
    by (vm_compute; done).
  rewrite forallb_forall in H. specialize (H x). rewrite bool_decide_eq_true in H. apply H, list_elem_of_In, elem_of_seqZ. lia.
Qed.

Section decode.
Context {S : Type} `{K : !Lens S ps2_st} `{P : !Ports S} `{KL : !Listener S} `{W : !PortLaws S}.

Lemma irq_plain fuel s data s1 led ls :
  inportb 0x60 s = Ok (data, s1) → get s = Ps2 STATE_NORMAL led ls → 0 <= data < 256 →
  data ≠ KEYBOARD_ACK → data ≠ KEYBOARD_RESEND → data ≠ ESCAPED_FLAG →
  irqHandler fuel s = handleKey fuel (if 0x80 <=? data then - (data - 0x80) else data) s1.
Proof.
  intros Hin Hs Hd H1 H2 H3. unfold irqHandler. erewrite bind_ok; [|exact Hin].
  rewrite (proj2 (Z.eqb_neq data _) H1), (proj2 (Z.eqb_neq data _) H2). cbn [orb].
  unfold get_ps2. erewrite bind_ok by done. rewrite (proj2 (Z.eqb_neq data _) H3).
  rewrite (inportb_keeps _ _ _ _ Hin), Hs. cbn [ps2_escaped]. rewrite bind_ret, land_low, land_high by done.
  zcase (0x80 <=? data); zcase (data <? 0x80); done.
Qed.

Lemma irq_escaped fuel s data s1 led ls :
  inportb 0x60 s = Ok (data, s1) → get s = Ps2 STATE_ESCAPED led ls → 0 <= data < 256 →
  data ≠ KEYBOARD_ACK → data ≠ KEYBOARD_RESEND → data ≠ ESCAPED_FLAG →
  irqHandler fuel s =
  handleKey fuel (if 0x80 <=? data then - data else data + 0x80) (set (Ps2 STATE_NORMAL led ls) s1).
Proof.
  intros Hin Hs Hd H1 H2 H3. unfold irqHandler. erewrite bind_ok; [|exact Hin].
  rewrite (proj2 (Z.eqb_neq data _) H1), (proj2 (Z.eqb_neq data _) H2). cbn [orb].
  unfold get_ps2. erewrite bind_ok by done. rewrite (proj2 (Z.eqb_neq data _) H3).
  rewrite (inportb_keeps _ _ _ _ Hin), Hs. cbn [ps2_escaped ledState has_listener].
  erewrite bind_ok by done. rewrite lor_high, land_high by done.
  zcase (0x80 <=? data); zcase (data <? 0x80); done.
Qed.
End decode.

(** The driver decodes scan codes: for every key event that can be sent, the
    one or two interrupts its bytes cause end in handleKey on that event, with
    the driver back in its normal state. *)
Theorem scancode_decoded {S : Type} `{K : !Lens S ps2_st} `{P : !Ports S} `{KL : !Listener S} `{W : !PortLaws S}
    (s : S) (key led : Z) (ls : bool) (fuel : nat) :
  sendable key → get s = Ps2 STATE_NORMAL led ls →
  match scancode key with
  | [b] => ∀ s1, inportb 0x60 s = Ok (b, s1) → irqHandler fuel s = handleKey fuel key s1
  | [b1; b2] => ∀ s1, inportb 0x60 s = Ok (b1, s1) →
      irqHandler fuel s = Ok (tt, set (Ps2 STATE_ESCAPED led ls) s1) ∧
      ∀ s2 s3, get s2 = Ps2 STATE_ESCAPED led ls → inportb 0x60 s2 = Ok (b2, s3) →
        irqHandler fuel s2 = handleKey fuel key (set (Ps2 STATE_NORMAL led ls) s3)
  | _ => False
  end.
Proof.
  unfold sendable, scancode, ESCAPED_FLAG. cbv zeta. intros (Hr & H1 & H2 & H3 & H4 & H5 & H6) Hs.
  destruct (Z.abs key <? 0x80) eqn:Ek; zb.
  - intros s1 Hin. zcase (key <? 0).
    + erewrite irq_plain; [|exact Hin|exact Hs|lia|unfold KEYBOARD_ACK; lia|unfold KEYBOARD_RESEND; lia|unfold ESCAPED_FLAG; lia].
      zcase (0x80 <=? Z.abs key + 0x80). f_equal. lia.
    + erewrite irq_plain; [|exact Hin|exact Hs|lia|unfold KEYBOARD_ACK; lia|unfold KEYBOARD_RESEND; lia|unfold ESCAPED_FLAG; lia].
      zcase (0x80 <=? Z.abs key). f_equal. lia.
  - intros s1 Hin. split.
    + unfold irqHandler. erewrite bind_ok; [|exact Hin]. change ((0xE0 =? KEYBOARD_ACK) || (0xE0 =? KEYBOARD_RESEND)) with false.
      unfold get_ps2. erewrite bind_ok by done. change (0xE0 =? ESCAPED_FLAG) with true. cbv iota.
      by rewrite (inportb_keeps _ _ _ _ Hin), Hs.
    + intros s2 s3 Hs2 Hin2. zcase (key <? 0).
      * erewrite irq_escaped; [|exact Hin2|exact Hs2|lia|unfold KEYBOARD_ACK; lia|unfold KEYBOARD_RESEND; lia|unfold ESCAPED_FLAG; lia].
        zcase (0x80 <=? Z.abs key). f_equal. lia.
      * erewrite irq_escaped; [|exact Hin2|exact Hs2|lia|unfold KEYBOARD_ACK; lia|unfold KEYBOARD_RESEND; lia|unfold ESCAPED_FLAG; lia].
        zcase (0x80 <=? Z.abs key - 0x80). f_equal. lia.
Qed.

(** *** Instances: ports that deliver a list of bytes, a listener that records *)
Definition demo_kb : Type := ps2_st * (list Z * list Z).
#[local] Instance demo_ports : Ports demo_kb := {
  inportb _ := λ '(p, (q, l)), Ok (default 0 (head q), (p, (tail q, l)));
  outportb _ _ := mret tt;
}.
#[local] Instance demo_listener : Listener demo_kb := {
  onKeyboardEvent key := λ '(p, (q, l)), Ok (tt, (p, (q, l ++ [key])));
}.
#[local] Instance demo_port_laws : PortLaws demo_kb.
Proof. split. intros port [p [q l]] b s' H. cbn in *. by simplify_eq. Qed.

Lemma keyboard_complete_witness : ∃ key, 0 < key < 128 ∧
  (getCharFromKey key kb_initial = Ok (ch "A", kb_initial) ∨
   (getCharFromKey S1_KB_LSHIFT;; c ← getCharFromKey key; getCharFromKey (- S1_KB_LSHIFT);; mret c) kb_initial =
     Ok (ch "A", kb_initial)).
Proof. apply (keyboard_complete (ch "A") kb_initial); [vm_compute; split; discriminate | done]. Defined.

Lemma scancode_decoded_witness :
  irqHandler 5 (Ps2 STATE_NORMAL 0 true, ([0xE0; 0x48], [])) =
    Ok (tt, (Ps2 STATE_ESCAPED 0 true, ([0x48], []))) ∧
  irqHandler 5 (Ps2 STATE_ESCAPED 0 true, ([0x48], [])) =
    Ok (tt, (Ps2 STATE_NORMAL 0 true, ([], [S1_KB_UP]))).
Proof.
  destruct (scancode_decoded (S := demo_kb) (Ps2 STATE_NORMAL 0 true, ([0xE0; 0x48], [])) S1_KB_UP 0 true 5)
    with (s1 := (Ps2 STATE_NORMAL 0 true, ([0x48 : Z], [] : list Z))) as [H1 H2].
  - unfold sendable. vm_compute. repeat split; discriminate.
  - done.
  - done.
  - split; [exact H1|]. refine (eq_trans (H2 _ (Ps2 STATE_ESCAPED 0 true, ([], [])) _ _) _); done.
Defined.
