(* ===== verification/Kthread.v ===== *)
(** * Kernel mutexes (kernel/src/kthread.cpp, kernel/include/inwox/kernel/kthread.h)

    A mutex is one bool; lock spins on an atomic test-and-set, giving the CPU
    away between attempts.  The interleavings of several threads are the runs of
    a step relation whose steps are the atomic actions of the code. *)
From S2P Require Import Prelude.

(** sched_yield (kernel/src/interrupt.S): other threads and interrupts run. *)
Class Sched (S : Type) : Type := { sched_yield : ST S unit }.

Definition KTHREAD_MUTEX_INITIALIZER : bool := false.

(** [__atomic_test_and_set] and [__atomic_clear]: the old value and the new. *)
Definition test_and_set (m : bool) : bool * bool := (m, true).
Definition atomic_clear (m : bool) : bool := false.

Section mutex.
Context {S : Type} `{Y : !Sched S} (M : Lens S bool).

Definition atomic_test_and_set : ST S bool := λ s,
  let '(old, new) := test_and_set (get (Lens := M) s) in Ok (old, set (Lens := M) new s).

Definition kthread_mutex_lock (fuel : nat) : ST S Z :=
  loop fuel (λ _,
    taken ← atomic_test_and_set;
    if taken : bool then sched_yield;; mret (Next tt) else mret (Done 0)) tt.

Definition kthread_mutex_unlock : ST S Z := λ s,
  Ok (0, set (Lens := M) (atomic_clear (get (Lens := M) s)) s).

(** The mutex of the kernel's heap, through which malloc and its kind go. *)
Definition __lockHeap (fuel : nat) : ST S unit := kthread_mutex_lock fuel;; mret tt.
Definition __unlockHeap : ST S unit := kthread_mutex_unlock;; mret tt.

(** ScopedLock: the destructor runs when the block ends. *)
Definition ScopedLock {A : Type} (fuel : nat) (block : ST S A) : ST S A :=
  kthread_mutex_lock fuel;; a ← block; kthread_mutex_unlock;; mret a.
End mutex.

(** ** Threads that share a mutex *)
Inductive pc : Type :=
| Outside          (* not interested *)
| Trying           (* in the loop of kthread_mutex_lock, before the test-and-set *)
| Yielding         (* after a failed test-and-set, in sched_yield *)
| Critical.        (* between lock and unlock *)
#[export] Instance pc_eq_dec : EqDecision pc.
Proof. solve_decision. Defined.

Record threads : Type := Threads { t_mutex : bool; t_pcs : list pc }.

(** What one thread does to the mutex and its own program counter. *)
Inductive thread_step : bool * pc → bool * pc → Prop :=
| Call m : thread_step (m, Outside) (m, Trying)
| Test m : thread_step (m, Trying)
    ((test_and_set m).2, if (test_and_set m).1 then Yielding else Critical)
| Resume m : thread_step (m, Yielding) (m, Trying)
| Unlock m : thread_step (m, Critical) (atomic_clear m, Outside).

(** Any thread may make the next step. *)
Inductive system_step : threads → threads → Prop :=
| Sched_step m m' pcs i p p' :
    pcs !! i = Some p → thread_step (m, p) (m', p') →
    system_step (Threads m pcs) (Threads m' (<[i := p']> pcs)).

Definition start (n : nat) : threads := Threads KTHREAD_MUTEX_INITIALIZER (replicate n Outside).

(** The mutex is set exactly while one thread is in its critical section. *)
Definition mutex_inv (t : threads) : Prop :=
  if t_mutex t then
    ∃ i, t_pcs t !! i = Some Critical ∧ ∀ j, t_pcs t !! j = Some Critical → j = i
  else ∀ i, t_pcs t !! i ≠ Some Critical.

Lemma mutex_inv_start n : mutex_inv (start n).
Proof. intros i H. by apply lookup_replicate in H as [H _]. Qed.

Lemma lookup_other (pcs : list pc) i j p q :
  pcs !! i = Some p → p ≠ Critical → q ≠ Critical →
  (<[i := q]> pcs !! j = Some Critical ↔ pcs !! j = Some Critical).
Proof.
  intros Hi Hp Hq. destruct (decide (i = j)) as [->|Hij].
  - rewrite list_lookup_insert_eq by by eapply lookup_lt_Some. split; congruence.
  - by rewrite list_lookup_insert_ne.
Qed.

(** A step that neither enters nor leaves a critical section. *)
Lemma mutex_inv_quiet m pcs i p q :
  mutex_inv (Threads m pcs) → pcs !! i = Some p → p ≠ Critical → q ≠ Critical →
  mutex_inv (Threads m (<[i := q]> pcs)).
Proof.
  unfold mutex_inv. cbn [t_mutex t_pcs]. intros Hinv Hi Hp Hq.
  pose proof (λ j, lookup_other pcs i j p q Hi Hp Hq) as Hl. destruct m.
  - destruct Hinv as (k & Hk & Huniq). exists k. split; [by apply Hl|]. intros j Hj. by apply Huniq, Hl.
  - intros j Hj. by apply (Hinv j), Hl.
Qed.

Lemma mutex_inv_step t t' : mutex_inv t → system_step t t' → mutex_inv t'.
Proof.
  intros Hinv Hstep. destruct Hstep as [m m' pcs i p p' Hi Hstep]. pose proof (lookup_lt_Some _ _ _ Hi) as Hlt.
  inversion Hstep; subst; cbn [test_and_set fst snd].
  - by eapply mutex_inv_quiet.
  - destruct m.
    + by eapply mutex_inv_quiet.
    + unfold mutex_inv in *. cbn [t_mutex t_pcs] in *. exists i. split; [by apply list_lookup_insert_eq|].
      intros j Hj. destruct (decide (i = j)) as [->|Hij]; [done|].
      rewrite list_lookup_insert_ne in Hj by done. by apply Hinv in Hj.
  - by eapply mutex_inv_quiet.
  - unfold mutex_inv in *. cbn [t_mutex t_pcs atomic_clear] in *. destruct m; [|by apply Hinv in Hi].
    destruct Hinv as (k & Hk & Huniq). apply Huniq in Hi as Hik. subst k.
    intros j Hj. destruct (decide (i = j)) as [->|Hij].
    + by rewrite list_lookup_insert_eq in Hj.
    + rewrite list_lookup_insert_ne in Hj by done. by apply Huniq in Hj.
Qed.

(** C11. Mutual exclusion: however the atomic actions of any number of threads
    that lock and unlock one mutex are interleaved, two threads are never in
    their critical sections together, and the mutex is clear when none is. *)
Theorem mutual_exclusion (n : nat) (t : threads) :
  rtc system_step (start n) t →
  (∀ i j, t_pcs t !! i = Some Critical → t_pcs t !! j = Some Critical → i = j) ∧
  (t_mutex t = false ↔ ∀ i, t_pcs t !! i ≠ Some Critical).
Proof.
  intros Hrun. assert (mutex_inv t) as Hinv.
  { remember (start n) as t0 eqn:H0. assert (mutex_inv t0) as Ht0 by (subst; apply mutex_inv_start).
    clear H0. induction Hrun as [|t0 t1 t2 Hs _ IH]; [done|]. apply IH. by eapply mutex_inv_step. }
  unfold mutex_inv in Hinv. destruct (t_mutex t).
  - destruct Hinv as (k & Hk & Huniq). split.
    + intros i j Hi Hj. by rewrite (Huniq i Hi), (Huniq j Hj).
    + split; [done|]. intros H. by destruct (H k).
  - split; [intros i j Hi; by apply Hinv in Hi|]. tauto.
Qed.

Lemma mutual_exclusion_witness :
  (∀ i j, [Critical; Yielding] !! i = Some Critical → [Critical; Yielding] !! j = Some Critical → i = j) ∧
  (true = false ↔ ∀ i, [Critical; Yielding] !! i ≠ Some Critical).
Proof.
  apply (mutual_exclusion 2 (Threads true [Critical; Yielding])).
  eapply rtc_l; [apply (Sched_step false false _ 0 Outside Trying); [done|apply Call]|].
  eapply rtc_l; [apply (Sched_step false false _ 1 Outside Trying); [done|apply Call]|].
  eapply rtc_l; [apply (Sched_step false true _ 0 Trying Critical); [done|apply (Test false)]|].
  eapply rtc_l; [apply (Sched_step true true _ 1 Trying Yielding); [done|apply (Test true)]|].
  apply rtc_refl.
Defined.
