(* ===== verification/Terminal.v ===== *)
(** * The terminal's line discipline (kernel/src/terminal.cpp)

    Keyboard input goes through a ring buffer of 4096 bytes with three indices;
    in canonical mode a line becomes readable when it is finished.  The echo
    goes to the VGA terminal. *)
From S2P Require Import Prelude Memory CString Vga Keyboard Kthread.

Definition CIRCULAR_BUFFER_SIZE : Z := 4096.

(** ** termios.h *)
Definition ECHO : Z := Z.shiftl 1 0.
Definition ICANON : Z := Z.shiftl 1 1.
Definition VEOF : nat := 0.
Definition VEOL : nat := 1.
Definition VERASE : nat := 2.
Definition VINTR : nat := 3.
Definition VKILL : nat := 4.
Definition VMIN : nat := 5.
Definition VQUIT : nat := 6.
Definition VSTART : nat := 7.
Definition VSTOP : nat := 8.
Definition VSUSP : nat := 9.
Definition VTIME : nat := 10.
Definition TCSAFLUSH : Z := 0.

Record termios : Type := Termios {
  c_iflag : Z;
  c_oflag : Z;
  c_cflag : Z;
  c_lflag : Z;
  c_cc : list Z;
}.

(** ** TerminalBuffer *)
Record tbuf : Type := TBuf {
  circularBuffer : list Z;
  readIndex : Z;
  lineIndex : Z;
  writeIndex : Z;
}.

Definition tb_available (b : tbuf) : Z :=
  if readIndex b <=? lineIndex b then lineIndex b - readIndex b else readIndex b - lineIndex b.

Definition tb_backspace (b : tbuf) : bool * tbuf :=
  if lineIndex b =? writeIndex b then (false, b)
  else
    let w := if negb (writeIndex b =? 0) then (writeIndex b - 1) mod CIRCULAR_BUFFER_SIZE
             else CIRCULAR_BUFFER_SIZE - 1 in
    (true, TBuf (circularBuffer b) (readIndex b) (lineIndex b) w).

Definition tb_reset (b : tbuf) : tbuf := TBuf (circularBuffer b) 0 0 0.

(** The condition [write] waits on, and what it does then. *)
Definition tb_full (b : tbuf) : bool := (writeIndex b + 1) mod CIRCULAR_BUFFER_SIZE =? readIndex b.
Definition tb_put (c : Z) (b : tbuf) : tbuf :=
  TBuf (<[Z.to_nat (writeIndex b) := c]> (circularBuffer b)) (readIndex b) (lineIndex b)
    ((writeIndex b + 1) mod CIRCULAR_BUFFER_SIZE).

Definition tb_read (b : tbuf) : Z * tbuf :=
  (default 0 (circularBuffer b !! Z.to_nat (readIndex b)),
   TBuf (circularBuffer b) ((readIndex b + 1) mod CIRCULAR_BUFFER_SIZE) (lineIndex b) (writeIndex b)).

Definition tb_endLine (b : tbuf) : tbuf :=
  TBuf (circularBuffer b) (readIndex b) (writeIndex b) (writeIndex b).

Definition tb_hasIncompleteLine (b : tbuf) : bool := negb (lineIndex b =? writeIndex b).

(** ** Terminal *)
Record term_st : Type := Term {
  terminalBuffer : tbuf;
  termio : termios;
  numEof : Z;
  mutex : bool;
}.

Definition CTRL (c : Z) : Z := Z.land c 0x1F.

(** The constructor; the array itself is not initialised. *)
Definition Terminal (array : list Z) : term_st :=
  Term (TBuf array 0 0 0)
    (Termios 0 0 0 (Z.lor ECHO ICANON)
       [CTRL (ch "D"); 0; 8; CTRL (ch "C"); CTRL (ch "U"); 1; CTRL (ch "\"); CTRL (ch "Q");
        CTRL (ch "S"); CTRL (ch "Z"); 0]) 0 KTHREAD_MUTEX_INITIALIZER.

Definition with_buffer (b : tbuf) (t : term_st) : term_st := Term b (termio t) (numEof t) (mutex t).
Definition with_numEof (n : Z) (t : term_st) : term_st := Term (terminalBuffer t) (termio t) n (mutex t).

(** The mutex as a component of the terminal. *)
Definition mutex_of (S : Type) (T : Lens S term_st) : Lens S bool.
Proof.
  refine (Lens_comp T {| get := mutex; set m t := Term (terminalBuffer t) (termio t) (numEof t) m |}).
  - done.
  - by intros [].
  - done.
Defined.

Definition canonical (t : term_st) : bool := Z_bool (Z.land (c_lflag (termio t)) ICANON).
Definition echoes (t : term_st) : bool := Z_bool (Z.land (c_lflag (termio t)) ECHO).
(** [termio.c_cc[i]] *)
Definition cc (t : term_st) (i : nat) : Z := default 0 (c_cc (termio t) !! i).

Section terminal.
Context {S : Type} `{L : !Lens S mem} `{V : !Lens S vga_st} `{T : !Lens S term_st} `{K : !Lens S kb_st}.
Context `{P : !Ports S} `{Y : !Sched S}.

Definition get_term : ST S term_st := λ s, Ok (get s, s).
Definition modify_term (f : term_st → term_st) : ST S unit := λ s, Ok (tt, set (f (get s)) s).

(** TerminalBuffer::write spins while the buffer is full. *)
Definition tb_write (fuel : nat) (c : Z) : ST S unit :=
  loop fuel (λ _,
    t ← get_term;
    if tb_full (terminalBuffer t) then mret (Next tt) else mret (Done tt)) tt;;
  modify_term (λ t, with_buffer (tb_put c (terminalBuffer t)) t).

Definition endLine : ST S unit := modify_term (λ t, with_buffer (tb_endLine (terminalBuffer t)) t).

Definition echo (c : Z) : ST S unit :=
  t ← get_term; if echoes t then printCharacterRaw c else mret tt.

Definition handleCharacter (fuel : nat) (c : Z) : ST S unit :=
  t ← get_term;
  if canonical t then
    if c =? cc t VEOF then
      if tb_hasIncompleteLine (terminalBuffer t) then endLine
      else modify_term (λ t, with_numEof (u32 (numEof t + 1)) t)
    else if c =? cc t VEOL then mret tt
    else if c =? cc t VERASE then
      let '(erased, b) := tb_backspace (terminalBuffer t) in
      modify_term (with_buffer b);;
      if erased && echoes t then Vga.backspace else mret tt
    else if c =? cc t VINTR then mret tt
    else if c =? cc t VKILL then mret tt
    else if c =? cc t VQUIT then mret tt
    else if c =? cc t VSTART then mret tt
    else if c =? cc t VSTOP then mret tt
    else if c =? cc t VSUSP then mret tt
    else
      echo c;;
      tb_write fuel c;;
      if c =? 10 then endLine else mret tt
  else
    echo c;;
    tb_write fuel c;;
    endLine.

Fixpoint sequence_chars (fuel : nat) (sequence : list Z) : ST S unit :=
  match sequence with
  | [] => mret tt
  | c :: sequence => echo c;; tb_write fuel c;; sequence_chars fuel sequence
  end.

Definition handleSequence (fuel : nat) (sequence : list Z) : ST S unit :=
  t ← get_term;
  if negb (canonical t) then sequence_chars fuel sequence;; endLine else mret tt.

Definition onKeyboardEvent (fuel : nat) (key : Z) : ST S unit :=
  c ← getCharFromKey key;
  (if Z_bool c then handleCharacter fuel c
   else match getSequenceFromkey key with
        | Some sequence => handleSequence fuel sequence
        | None => mret tt
        end);;
  updateCursorPosition.

(** The wait of read: [Some n] when read returns [n]. *)
Definition read_wait (fuel : nat) (readSize : Z) : ST S (option Z) :=
  loop fuel (λ _,
    t ← get_term;
    if (tb_available (terminalBuffer t) =? 0) && (numEof t =? 0) then
      if canonical t then
        if Z_bool readSize then mret (Done (Some readSize)) else sched_yield;; mret (Next tt)
      else
        if cc t VMIN <=? readSize then mret (Done (Some readSize)) else sched_yield;; mret (Next tt)
    else mret (Done None)) tt.

Definition read (fuel : nat) (buffer size : Z) : ST S Z :=
  loop fuel (λ readSize,
    if readSize <? size then
      r ← read_wait fuel readSize;
      match r with
      | Some n => mret (Done n)
      | None =>
          t ← get_term;
          if Z_bool (numEof t) then
            if Z_bool readSize then mret (Done readSize)
            else modify_term (λ t, with_numEof (numEof t - 1) t);; mret (Done 0)
          else
            let '(c, b) := tb_read (terminalBuffer t) in
            modify_term (with_buffer b);;
            store (buffer + readSize) c;;
            if canonical t && (c =? 10) then mret (Done (readSize + 1))
            else mret (Next (readSize + 1))
      end
    else mret (Done readSize)) 0.

Definition write (fuel : nat) (buffer size : Z) : ST S Z :=
  ScopedLock (mutex_of S T) fuel (
    for_n (Z.to_nat size) 0 (λ i, c ← load (buffer + i); printCharacter (s8 c));;
    updateCursorPosition;;
    mret (s32 size)).

Definition tcgetattr : ST S (Z * termios) := t ← get_term; mret (0, termio t).

Definition tcsetattr (flags : Z) (attributes : termios) : ST S Z :=
  modify_term (λ t, Term (terminalBuffer t) attributes (numEof t) (mutex t));;
  (if flags =? TCSAFLUSH then
     modify_term (λ t, with_numEof 0 (with_buffer (tb_reset (terminalBuffer t)) t))
   else mret tt);;
  mret 0.

Definition initTerminal : ST S unit := Vga.init.
Definition warnTerminal : ST S unit := Vga.warnTerminal.
End terminal.

(** ** The ring buffer as two queues

    [lines]: what can be read; [partial]: the unfinished line. *)
Definition SIZE : Z := 4096.

Definition tb_rep (b : tbuf) (lines partial : list Z) : Prop :=
  length (circularBuffer b) = Z.to_nat SIZE ∧ 0 <= readIndex b < SIZE ∧
  Z.of_nat (length (lines ++ partial)) < SIZE ∧
  lineIndex b = (readIndex b + Z.of_nat (length lines)) mod SIZE ∧
  writeIndex b = (readIndex b + Z.of_nat (length (lines ++ partial))) mod SIZE ∧
  ∀ i c, (lines ++ partial) !! i = Some c →
    circularBuffer b !! Z.to_nat ((readIndex b + Z.of_nat i) mod SIZE) = Some c.

Lemma mod_small_diff a i j :
  (a + i) mod SIZE = (a + j) mod SIZE → 0 <= i < SIZE → 0 <= j < SIZE → i = j.
Proof. unfold SIZE. Z.to_euclidean_division_equations. lia. Qed.

Lemma mod_succ a : (a mod SIZE + 1) mod SIZE = (a + 1) mod SIZE.
Proof. apply Z.add_mod_idemp_l. done. Qed.

Lemma tb_full_spec b lines partial :
  tb_rep b lines partial → tb_full b = bool_decide (Z.of_nat (length (lines ++ partial)) = SIZE - 1).
Proof.
  intros (_ & Hr & Hl & _ & Hw & _). unfold tb_full, CIRCULAR_BUFFER_SIZE. fold SIZE. rewrite Hw, mod_succ.
  set (n := Z.of_nat (length (lines ++ partial))) in *. assert (0 <= n) by lia. clearbody n.
  case_bool_decide as Hn; [apply Z.eqb_eq|apply Z.eqb_neq]; unfold SIZE in *;
    Z.to_euclidean_division_equations; lia.
Qed.

Lemma tb_put_rep b lines partial c :
  tb_rep b lines partial → Z.of_nat (length (lines ++ partial)) < SIZE - 1 →
  tb_rep (tb_put c b) lines (partial ++ [c]).
Proof.
  intros (Hlen & Hr & Hl & Hli & Hw & Hc) Hroom. unfold tb_rep, tb_put, CIRCULAR_BUFFER_SIZE. fold SIZE.
  cbn [circularBuffer readIndex lineIndex writeIndex]. rewrite app_assoc.
  assert (Z.of_nat (length ((lines ++ partial) ++ [c])) = Z.of_nat (length (lines ++ partial)) + 1) as Hn.
  { rewrite (length_app _ [c]). cbn [length]. lia. }
  rewrite Hn. split; [by rewrite length_insert|]. split; [done|]. split; [lia|]. split; [done|]. split.
  - rewrite Hw, mod_succ. f_equal. lia.
  - intros i c' Hi. pose proof (Z.mod_pos_bound (readIndex b + Z.of_nat i) SIZE ltac:(done)).
    pose proof (Z.mod_pos_bound (readIndex b + Z.of_nat (length (lines ++ partial))) SIZE ltac:(done)).
    apply lookup_snoc_Some in Hi as [[Hil Hi]|[-> <-]].
    + rewrite list_lookup_insert_ne; [by apply Hc|]. rewrite Hw. intros Heq.
      apply Z2Nat.inj in Heq; [|lia|lia]. apply mod_small_diff in Heq; lia.
    + rewrite Hw. apply list_lookup_insert_eq. rewrite Hlen. apply Z2Nat.inj_lt; lia.
Qed.

Lemma tb_endLine_rep b lines partial : tb_rep b lines partial → tb_rep (tb_endLine b) (lines ++ partial) [].
Proof.
  intros (Hlen & Hr & Hl & Hli & Hw & Hc). unfold tb_rep, tb_endLine.
  cbn [circularBuffer readIndex lineIndex writeIndex]. by rewrite app_nil_r.
Qed.

Lemma tb_incomplete_spec b lines partial :
  tb_rep b lines partial → tb_hasIncompleteLine b = bool_decide (partial ≠ []).
Proof.
  intros (_ & Hr & Hl & Hli & Hw & _). unfold tb_hasIncompleteLine. rewrite Hli, Hw, length_app.
  rewrite length_app in Hl. destruct partial as [|c partial].
  - cbn [length]. rewrite Nat.add_0_r, Z.eqb_refl. by rewrite bool_decide_eq_false_2 by tauto.
  - rewrite bool_decide_eq_true_2 by done. cbn [length] in *. apply negb_true_iff, Z.eqb_neq. intros Heq.
    apply mod_small_diff in Heq; lia.
Qed.

Lemma tb_backspace_rep b lines partial :
  tb_rep b lines partial →
  match reverse partial with
  | [] => tb_backspace b = (false, b)
  | c :: rest => ∃ b', tb_backspace b = (true, b') ∧ tb_rep b' lines (reverse rest)
  end.
Proof.
  intros Hrep. pose proof (tb_incomplete_spec _ _ _ Hrep) as Hinc. unfold tb_hasIncompleteLine in Hinc.
  destruct Hrep as (Hlen & Hr & Hl & Hli & Hw & Hc). unfold tb_backspace.
  destruct (reverse partial) as [|c rest] eqn:Erev.
  - apply (f_equal reverse) in Erev. rewrite reverse_involutive in Erev. cbn in Erev. subst partial.
    rewrite bool_decide_eq_false_2 in Hinc by tauto. apply negb_false_iff in Hinc. by rewrite Hinc.
  - apply (f_equal reverse) in Erev. rewrite reverse_involutive, reverse_cons in Erev. subst partial.
    rewrite bool_decide_eq_true_2 in Hinc by (by intros [_ ?]%app_nil). apply negb_true_iff in Hinc. rewrite Hinc.
    eexists. split; [reflexivity|]. rewrite app_assoc in *. rewrite (length_app _ [c]) in *. cbn [length] in *.
    unfold tb_rep. cbn [circularBuffer readIndex lineIndex writeIndex]. split; [done|]. split; [done|].
    split; [lia|]. split; [done|]. split.
    + rewrite Hw. unfold CIRCULAR_BUFFER_SIZE, SIZE in *. set (n := length (lines ++ reverse rest)) in *.
      destruct (negb _) eqn:E; [apply negb_true_iff in E|apply negb_false_iff in E]; zb;
        Z.to_euclidean_division_equations; lia.
    + intros i c' Hi. apply Hc. by apply lookup_app_l_Some.
Qed.

Lemma tb_read_rep b c lines partial :
  tb_rep b (c :: lines) partial → ∃ b', tb_read b = (c, b') ∧ tb_rep b' lines partial.
Proof.
  intros (Hlen & Hr & Hl & Hli & Hw & Hc). unfold tb_read, CIRCULAR_BUFFER_SIZE. fold SIZE.
  pose proof (Hc 0%nat c eq_refl) as H0. rewrite Z.add_0_r, Z.mod_small in H0 by done. rewrite H0.
  eexists. split; [reflexivity|]. unfold tb_rep. cbn [circularBuffer readIndex lineIndex writeIndex].
  cbn [app length] in *. split; [done|]. split; [by apply Z.mod_pos_bound|]. split; [lia|].
  rewrite !Zplus_mod_idemp_l. split; [|split].
  - rewrite Hli. f_equal. lia.
  - rewrite Hw. f_equal. lia.
  - intros i c' Hi. rewrite Zplus_mod_idemp_l. rewrite <-(Hc (Datatypes.S i) c' Hi). do 3 f_equal. lia.
Qed.

Lemma tb_available_spec b lines partial :
  tb_rep b lines partial → (tb_available b =? 0) = bool_decide (lines = []).
Proof.
  intros (_ & Hr & Hl & Hli & _ & _). unfold tb_available. rewrite Hli, length_app in *.
  destruct lines as [|c lines].
  - cbn [length]. rewrite Z.add_0_r, Z.mod_small, Z.leb_refl, Z.sub_diag by done. done.
  - rewrite bool_decide_eq_false_2 by done. cbn [length] in *. unfold SIZE in *.
    set (n := Z.of_nat (Datatypes.S (length lines))) in *. assert (0 < n) by lia. assert (n < 4096) by lia. clearbody n.
    destruct (_ <=? _); apply Z.eqb_neq; Z.to_euclidean_division_equations; lia.
Qed.

Lemma tb_reset_rep b lines partial : tb_rep b lines partial → tb_rep (tb_reset b) [] [].
Proof. intros (Hlen & _). by split. Qed.

Lemma tb_initial_rep array : length array = Z.to_nat SIZE → tb_rep (TBuf array 0 0 0) [] [].
Proof. by split. Qed.
