(* ===== verification/TerminalLaws.v ===== *)
(** * Properties of the terminal's line discipline

    The ring buffer implements a queue of finished lines and an unfinished one;
    editing keys and ordinary characters act on them as a reference editor says;
    read hands out a line. *)
From S2P Require Import Prelude Memory CString Vga VgaLaws Keyboard Kthread Terminal.

(** ** The ring buffer *)
Inductive tb_op : Type :=
| OpWrite (c : Z)
| OpEndLine
| OpBackspace
| OpRead
| OpReset.

(** An operation on the queues; [None] where the terminal does not call it: a
    write to a full buffer spins, and a read waits for a finished line.  The
    result is the character read or whether one was erased. *)
Definition abs_op (op : tb_op) (q : list Z * list Z) : option (Z * (list Z * list Z)) :=
  let '(lines, partial) := q in
  match op with
  | OpWrite c => if decide (length (lines ++ partial) < 4095)%nat then Some (0, (lines, partial ++ [c])) else None
  | OpEndLine => Some (0, (lines ++ partial, []))
  | OpBackspace =>
      match reverse partial with
      | [] => Some (0, (lines, partial))
      | _ :: rest => Some (1, (lines, reverse rest))
      end
  | OpRead => match lines with [] => None | c :: lines => Some (c, (lines, partial)) end
  | OpReset => Some (0, ([], []))
  end.

Definition run_op (op : tb_op) (b : tbuf) : Z * tbuf :=
  match op with
  | OpWrite c => (0, tb_put c b)
  | OpEndLine => (0, tb_endLine b)
  | OpBackspace => let '(erased, b) := tb_backspace b in (bool_Z erased, b)
  | OpRead => tb_read b
  | OpReset => (0, tb_reset b)
  end.

Fixpoint abs_run (ops : list tb_op) (q : list Z * list Z) : option (list Z * (list Z * list Z)) :=
  match ops with
  | [] => Some ([], q)
  | op :: ops => '(r, q) ← abs_op op q; '(rs, q) ← abs_run ops q; Some (r :: rs, q)
  end.

Fixpoint run_ops (ops : list tb_op) (b : tbuf) : list Z * tbuf :=
  match ops with
  | [] => ([], b)
  | op :: ops => let '(r, b) := run_op op b in let '(rs, b) := run_ops ops b in (r :: rs, b)
  end.

Lemma run_op_refines op b lines partial r lines' partial' :
  tb_rep b lines partial → abs_op op (lines, partial) = Some (r, (lines', partial')) →
  ∃ b', run_op op b = (r, b') ∧ tb_rep b' lines' partial'.
Proof.
  intros Hrep. destruct op; cbn [abs_op run_op].
  - case_decide; [|done]. intros [= <- <- <-]. eexists. split; [done|]. apply tb_put_rep; [done|]. unfold SIZE. lia.
  - intros [= <- <- <-]. eexists. split; [done|]. by apply tb_endLine_rep.
  - pose proof (tb_backspace_rep _ _ _ Hrep) as Hb. destruct (reverse partial) as [|c rest].
    + intros [= <- <- <-]. rewrite Hb. by exists b.
    + intros [= <- <- <-]. destruct Hb as (b' & -> & Hb). by exists b'.
  - destruct lines as [|c lines]; [done|]. intros [= <- <- <-]. by apply tb_read_rep.
  - intros [= <- <- <-]. eexists. split; [done|]. by eapply tb_reset_rep.
Qed.

Lemma run_ops_refines ops rs b l p lines partial :
  tb_rep b l p → abs_run ops (l, p) = Some (rs, (lines, partial)) →
  ∃ b', run_ops ops b = (rs, b') ∧ tb_rep b' lines partial.
Proof.
  revert rs b l p. induction ops as [|op ops IH]; intros rs b l p Hrep Hrun; cbn [abs_run run_ops] in *.
  - injection Hrun as <- <- <-. by exists b.
  - destruct (abs_op op (l, p)) as [[r [l1 p1]]|] eqn:Hop; [|done]. cbn in Hrun.
    destruct (abs_run ops (l1, p1)) as [[rs1 q]|] eqn:Hops; [|done]. cbn in Hrun. injection Hrun as <- ->.
    destruct (run_op_refines _ _ _ _ _ _ _ Hrep Hop) as (b1 & -> & Hrep1).
    destruct (IH _ _ _ _ Hrep1 Hops) as (b2 & -> & Hrep2). by exists b2.
Qed.

(** C12. The ring buffer implements two queues: any sequence of operations the
    queues allow, from the empty buffer over any array contents, yields the same
    characters, and afterwards [available] is zero exactly when no finished line
    is left, [hasIncompleteLine] tells whether one is unfinished, and a write
    has to wait exactly when 4095 characters are stored. *)
Theorem ring_buffer_refines (array : list Z) (ops : list tb_op) (rs lines partial : list Z) :
  length array = 4096%nat → abs_run ops ([], []) = Some (rs, (lines, partial)) →
  ∃ b, run_ops ops (TBuf array 0 0 0) = (rs, b) ∧ tb_rep b lines partial ∧
    (tb_available b =? 0) = bool_decide (lines = []) ∧
    tb_hasIncompleteLine b = bool_decide (partial ≠ []) ∧
    tb_full b = bool_decide (Z.of_nat (length (lines ++ partial)) = 4095).
Proof.
  intros Hlen Hrun.
  destruct (run_ops_refines ops _ _ _ _ _ _ (tb_initial_rep array Hlen) Hrun) as (b & Hb & Hrep).
  exists b. split; [done|]. split; [done|]. split; [by eapply tb_available_spec|].
  split; [by eapply tb_incomplete_spec|]. by eapply tb_full_spec.
Qed.

(** ** Typing *)

(** The characters that canonical mode treats specially. *)
Definition ordinary (t : term_st) (c : Z) : Prop :=
  Forall (λ i, c ≠ cc t i) [VEOF; VEOL; VERASE; VINTR; VKILL; VQUIT; VSTART; VSTOP; VSUSP].

(** What reading and typing need of the rest of the state. *)
Section typing.
Context {S : Type} `{L : !Lens S mem} `{V : !Lens S vga_st} `{T : !Lens S term_st}.
Context `{I : !Indep L V} `{J : !Indep V L} `{ITL : !Indep T L} `{ITV : !Indep T V}.
Context `{ILT : !Indep L T} `{IVT : !Indep V T}.
Implicit Types s : S.

Definition buffer_of (s : S) : tbuf := terminalBuffer (get s).

(** The terminal with some lines to read and a line being typed. *)
Definition term_rep (s : S) (lines partial : list Z) : Prop :=
  tb_rep (buffer_of s) lines partial ∧ canonical (get s) = true ∧ numEof (get s) = 0.

Lemma run_get_term {A} (k : term_st → ST S A) s : (get_term ≫= k) s = k (get s) s.
Proof. done. Qed.

Lemma run_modify_term {A} f (k : unit → ST S A) s : (modify_term f ≫= k) s = k tt (set (f (get s)) s).
Proof. done. Qed.

Lemma memory_set_term s (t : term_st) : memory (set (Lens := T) t s) = memory s.
Proof. apply get_set_indep. Qed.

Lemma vga_set_term s (t : term_st) : get (Lens := V) (set (Lens := T) t s) = get (Lens := V) s.
Proof. apply get_set_indep. Qed.

Lemma term_vga_only s s' : vga_only s s' → get (Lens := T) s' = get (Lens := T) s.
Proof. intros (m & v & ->). rewrite get_set_indep. unfold with_memory. by rewrite get_set_indep. Qed.

(** A write to a buffer with room. *)
Lemma tb_write_ok s fuel c :
  tb_full (buffer_of s) = false → (0 < fuel)%nat →
  tb_write fuel c s = Ok (tt, set (with_buffer (tb_put c (buffer_of s)) (get s)) s).
Proof.
  intros Hfull Hf. destruct fuel as [|fuel]; [lia|]. unfold tb_write. erewrite bind_ok; [reflexivity|].
  apply loop_done. rewrite run_get_term. unfold buffer_of in Hfull. by rewrite Hfull.
Qed.

(** The echo of a character. *)
Lemma echo_ok s t c :
  vga_rep s t → - 128 <= c < 128 →
  ∃ s', echo c s = Ok (tt, s') ∧ (∃ t', vga_rep s' t') ∧ vga_only s s' ∧
    same_outside video 4000 (memory s) (memory s').
Proof.
  intros Hr Hc. unfold echo. rewrite run_get_term. destruct (echoes (get s)).
  - destruct (print_raw_ok s t c Hr Hc) as (s' & Hrun & Hr' & _ & Hso & Ho). exists s'.
    split; [done|]. split; [by eexists|]. by split.
  - exists s. split; [done|]. split; [by exists t|]. split; [apply vga_only_refl|apply same_outside_refl].
Qed.

Lemma vga_rep_set_term s t (u : term_st) : vga_rep s t → vga_rep (set (Lens := T) u s) t.
Proof. destruct t as [[cs x] y]. unfold vga_rep. by rewrite memory_set_term, vga_set_term. Qed.

Lemma handle_ordinary s v fuel c lines partial :
  term_rep s lines partial → vga_rep s v → - 128 <= c < 128 → ordinary (get s) c →
  (length (lines ++ partial) < 4095)%nat → (0 < fuel)%nat →
  ∃ s' v', handleCharacter fuel c s = Ok (tt, s') ∧
    (if c =? 10 then term_rep s' (lines ++ partial ++ [c]) [] else term_rep s' lines (partial ++ [c])) ∧
    vga_rep s' v' ∧ termio (get (Lens := T) s') = termio (get s) ∧ same_outside video 4000 (memory s) (memory s').
Proof.
  intros (Hrep & Hcan & Heof) Hv Hc Hord Hroom Hf. unfold ordinary in Hord. decompose_Forall.
  unfold handleCharacter. rewrite run_get_term, Hcan.
  repeat match goal with H : c ≠ cc _ _ |- _ => rewrite (proj2 (Z.eqb_neq _ _) H); clear H end.
  destruct (echo_ok s v c Hv Hc) as (s1 & Hecho & (v1 & Hv1) & Ho & Hso). erewrite bind_ok; [|exact Hecho].
  pose proof (term_vga_only _ _ Ho) as Ht1.
  assert (buffer_of s1 = buffer_of s) as Hb1 by (unfold buffer_of; by rewrite Ht1).
  assert (tb_full (buffer_of s1) = false) as Hfull.
  { rewrite Hb1, (tb_full_spec _ _ _ Hrep), bool_decide_eq_false. unfold SIZE. lia. }
  erewrite bind_ok; [|by apply tb_write_ok]. rewrite Hb1, Ht1.
  set (b2 := tb_put c (buffer_of s)). set (s2 := set _ s1).
  assert (tb_rep b2 lines (partial ++ [c])) as Hrep2 by (apply tb_put_rep; [done|unfold SIZE; lia]).
  assert (get (Lens := T) s2 = with_buffer b2 (get s)) as Ht2 by apply get_set.
  destruct (c =? 10).
  - eexists _, v1. split; [reflexivity|]. rewrite Ht2.
    split; [|split; [by apply vga_rep_set_term, vga_rep_set_term|]].
    + split; [|split]; unfold buffer_of; rewrite get_set; [|done|done].
      apply (tb_endLine_rep b2 lines (partial ++ [c])). done.
    + rewrite get_set. split; [done|]. subst s2. by rewrite !memory_set_term.
  - exists s2, v1. split; [done|]. split; [|split; [by apply vga_rep_set_term|]].
    + split; [|split]; unfold buffer_of; by rewrite Ht2.
    + rewrite Ht2. split; [done|]. subst s2. by rewrite memory_set_term.
Qed.

Fixpoint handle_all (fuel : nat) (cs : list Z) : ST S unit :=
  match cs with [] => mret tt | c :: cs => handleCharacter fuel c;; handle_all fuel cs end.

Lemma handle_line s v fuel cs lines partial :
  term_rep s lines partial → vga_rep s v →
  Forall (λ c, - 128 <= c < 128 ∧ ordinary (get s) c ∧ c ≠ 10) cs → ordinary (get s) 10 →
  (length (lines ++ partial) + length cs < 4095)%nat → (0 < fuel)%nat →
  ∃ s' v', handle_all fuel (cs ++ [10]) s = Ok (tt, s') ∧
    term_rep s' (lines ++ partial ++ cs ++ [10]) [] ∧ vga_rep s' v' ∧
    same_outside video 4000 (memory s) (memory s').
Proof.
  intros Hrep Hv Hcs Hnl Hroom Hf. revert s v partial Hrep Hv Hcs Hnl Hroom.
  induction cs as [|c cs IH]; intros s v partial Hrep Hv Hcs Hnl Hroom; cbn [app handle_all].
  - destruct (handle_ordinary s v fuel 10 lines partial Hrep Hv ltac:(lia) Hnl ltac:(cbn [length] in Hroom; lia) Hf)
      as (s' & v' & Hrun & Hr' & Hv' & _ & Hso). exists s', v'. erewrite bind_ok; [|exact Hrun].
    split; [done|]. by split.
  - apply list.Forall_cons in Hcs as [(Hc & Hord & Hne) Hcs]. cbn [length] in Hroom.
    destruct (handle_ordinary s v fuel c lines partial Hrep Hv Hc Hord ltac:(lia) Hf)
      as (s1 & v1 & Hrun & Hr1 & Hv1 & Hio & Hso). erewrite bind_ok; [|exact Hrun].
    rewrite (proj2 (Z.eqb_neq c 10)) in Hr1 by done.
    assert (∀ c, ordinary (get s1) c ↔ ordinary (get s) c) as Hoo by (intros; unfold ordinary, cc; by rewrite Hio).
    destruct (IH s1 v1 (partial ++ [c])) as (s2 & v2 & Hrun2 & Hr2 & Hv2 & Hso2); [done|done| | | |].
    + eapply list.Forall_impl; [exact Hcs|]. intros x (? & ? & ?). split; [done|]. split; [by apply Hoo|done].
    + by apply Hoo.
    + rewrite app_assoc, length_app. cbn [length]. lia.
    + exists s2, v2. split; [done|]. rewrite <-app_assoc in Hr2. cbn [app] in Hr2. split; [done|]. split; [done|].
      by eapply same_outside_trans.
Qed.

(** read takes the characters of a finished line, one per round. *)
Context `{Y : !Sched S}.

Lemma read_wait_ready s fuel n lines partial :
  term_rep s lines partial → lines ≠ [] → (0 < fuel)%nat → read_wait fuel n s = Ok (None, s).
Proof.
  intros (Hrep & _ & _) Hne Hf. destruct fuel as [|fuel]; [lia|]. unfold read_wait. apply loop_done.
  rewrite run_get_term. fold (buffer_of s). rewrite (tb_available_spec _ _ _ Hrep), bool_decide_eq_false_2 by done.
  done.
Qed.

Lemma read_loop fuel0 buffer size cs rest partial :
  (0 < fuel0)%nat → Forall (λ c, c ≠ 10) cs → ∀ n s fuel,
  term_rep s (cs ++ 10 :: rest) partial → 0 <= n → n + Z.of_nat (length cs) < size →
  mapped (memory s) (buffer + n) (Z.of_nat (length cs) + 1) → (length cs < fuel)%nat →
  ∃ s', loop fuel (λ readSize,
    if readSize <? size then
      r ← read_wait fuel0 readSize;
      match r with
      | Some n => mret (Done n)
      | None =>
          t ← get_term;
          if Z_bool (numEof t) then
            if Z_bool readSize then mret (Done readSize)
            else modify_term (λ t, with_numEof (numEof t - 1) t);; mret (Done 0)
          else
            let '(c, b) := tb_read (terminalBuffer t) in
            modify_term (with_buffer b);;
            store (buffer + readSize) c;;
            if canonical t && (c =? 10) then mret (Done (readSize + 1))
            else mret (Next (readSize + 1))
      end
    else mret (Done readSize)) n s = Ok (n + Z.of_nat (length cs) + 1, s') ∧
    term_rep s' rest partial ∧
    memory s' = write_bytes (memory s) (buffer + n) (u8 <$> (cs ++ [10])).
Proof.
  intros Hf0 Hcs. name_loop body.
  assert (∀ n s c lines, term_rep s (c :: lines) partial → n < size → is_Some (memory s !! (buffer + n)) →
    ∃ s', body n s = Ok (if c =? 10 then Done (n + 1) else Next (n + 1), s') ∧ term_rep s' lines partial ∧
      memory s' = <[buffer + n := u8 c]> (memory s)) as Hstep.
  { intros n s c lines Hrep Hn Hm. pose proof Hrep as (Hb & Hcan & Heof). subst body. cbv beta.
    zcase (n <? size). erewrite bind_ok; [|by eapply read_wait_ready]. cbv beta iota. rewrite run_get_term, Heof. change (Z_bool 0) with false. cbv iota.
    destruct (tb_read_rep _ _ _ _ Hb) as (b' & Hread & Hb'). fold (buffer_of s). rewrite Hread, run_modify_term.
    erewrite bind_ok; [|apply store_ok; by rewrite memory_set_term]. rewrite memory_set_term, Hcan. cbn [andb].
    eexists. split; [by destruct (c =? 10)|]. unfold term_rep, buffer_of. rewrite memory_with.
    unfold with_memory. rewrite get_set_indep, get_set. by split. }
  clearbody body. induction Hcs as [|c cs Hc Hcs IH]; intros n s fuel Hrep Hn Hsz Hm Hf;
    (destruct fuel as [|fuel]; [lia|]); cbn [app length] in *.
  - destruct (Hstep n s 10 rest Hrep ltac:(lia) (Hm (buffer + n) ltac:(lia))) as (s' & Hrun & Hrep' & Hm').
    rewrite (loop_done _ _ _ _ _ _ Hrun). exists s'. split; [do 2 f_equal; lia|]. by split.
  - destruct (Hstep n s c _ Hrep ltac:(lia) (Hm (buffer + n) ltac:(lia))) as (s1 & Hrun & Hrep1 & Hm1).
    rewrite (proj2 (Z.eqb_neq c 10)) in Hrun by done. rewrite (loop_next _ _ _ _ _ _ Hrun).
    destruct (IH (n + 1) s1 fuel Hrep1) as (s' & Hrun' & Hrep' & Hm'); [lia|lia| |lia|].
    { rewrite Hm1. apply mapped_insert. intros q Hq. apply Hm. lia. }
    exists s'. split; [rewrite Hrun'; do 2 f_equal; lia|]. split; [done|].
    rewrite Hm', Hm1. cbn [fmap list_fmap write_bytes]. by replace (buffer + n + 1) with (buffer + (n + 1)) by lia.
Qed.

Lemma read_line s fuel buffer size cs rest partial :
  term_rep s (cs ++ 10 :: rest) partial → Forall (λ c, c ≠ 10) cs → Z.of_nat (length cs) < size →
  mapped (memory s) buffer (Z.of_nat (length cs) + 1) → (length cs < fuel)%nat →
  ∃ s', read fuel buffer size s = Ok (Z.of_nat (length cs) + 1, s') ∧ term_rep s' rest partial ∧
    memory s' = write_bytes (memory s) buffer (u8 <$> (cs ++ [10])).
Proof.
  intros Hrep Hcs Hsz Hm Hf. rewrite <-(Z.add_0_r buffer) in Hm.
  destruct (read_loop fuel buffer size cs rest partial ltac:(lia) Hcs 0 s fuel Hrep ltac:(lia) ltac:(lia) Hm Hf)
    as (s' & Hrun & Hrep' & Hm').
  exists s'. rewrite Z.add_0_r in Hm'. split; [exact Hrun|]. by split.
Qed.
End typing.

(** ** Writing

    The bytes of a buffer go to the screen under the mutex of the terminal.
    The ports through which the cursor of the hardware is moved do not change
    what the model sees. *)

(** The reference screen after some bytes. *)
Definition shown (color : Z) (bs : list Z) (t : text) : text := fold_left (λ t c, ref_raw color (s8 c) t) bs t.

Section writing.
Context {S : Type} `{L : !Lens S mem} `{V : !Lens S vga_st} `{T : !Lens S term_st}.
Context `{I : !Indep L V} `{J : !Indep V L} `{ITL : !Indep T L} `{ITV : !Indep T V}.
Context `{ILT : !Indep L T} `{IVT : !Indep V T} `{P : !Ports S} `{Y : !Sched S}.
Implicit Types s : S.

(** Two states in which the memory, the screen's variables and the line
    discipline are the same. *)
Definition same_terminal (s s' : S) : Prop :=
  memory s' = memory s ∧ get (Lens := V) s' = get (Lens := V) s ∧ get (Lens := T) s' = get (Lens := T) s.
Definition quiet_ports : Prop := ∀ port value s, ∃ s', outportb port value s = Ok (tt, s') ∧ same_terminal s s'.
Hypothesis Hports : quiet_ports.

Lemma same_terminal_trans s1 s2 s3 : same_terminal s1 s2 → same_terminal s2 s3 → same_terminal s1 s3.
Proof. intros (H1 & H2 & H3) (H4 & H5 & H6). split; [|split]; congruence. Qed.

Lemma cursor_moved s : ∃ s', updateCursorPosition s = Ok (tt, s') ∧ same_terminal s s'.
Proof using Hports.
  unfold updateCursorPosition. rewrite run_get_vga. set (position := u16 _). cbv zeta. clearbody position.
  destruct (Hports 0x3D4 0x0E s) as (s1 & H1 & Hs1).
  destruct (Hports 0x3D5 (Z.land (Z.shiftr position 8) 0xFF) s1) as (s2 & H2 & Hs2).
  destruct (Hports 0x3D4 0x0F s2) as (s3 & H3 & Hs3).
  destruct (Hports 0x3D5 (Z.land position 0xFF) s3) as (s4 & H4 & Hs4). exists s4.
  rewrite (bind_ok _ _ _ _ _ H1), (bind_ok _ _ _ _ _ H2), (bind_ok _ _ _ _ _ H3). split; [exact H4|].
  eapply same_terminal_trans; [|exact Hs4]. eapply same_terminal_trans; [|exact Hs3]. by eapply same_terminal_trans.
Qed.

Definition plain (c : Z) : Prop := byte_ok c ∧ c ≠ chr_ESC.

Lemma plain_s8 c : plain c → - 128 <= s8 c < 128 ∧ s8 c ≠ chr_ESC.
Proof.
  unfold plain, byte_ok, s8, chr_ESC. intros [Hc He]. Z.to_euclidean_division_equations. lia.
Qed.

Lemma print_bytes_ok buffer bs : ∀ i s t,
  bytes_at (memory s) (buffer + i) bs → disjoint_range video 4000 (buffer + i) (Z.of_nat (length bs)) →
  vga_rep s t → status (get s) = NORMAL → Forall plain bs →
  ∃ s', for_n (length bs) i (λ i, c ← load (buffer + i); printCharacter (s8 c)) s = Ok (tt, s') ∧
    vga_rep s' (shown (fontColor (get s)) bs t) ∧ status (get s') = NORMAL ∧
    fontColor (get s') = fontColor (get s) ∧ same_outside video 4000 (memory s) (memory s') ∧ vga_only s s'.
Proof.
  induction bs as [|c bs IH]; intros i s t Hb Hd Hr Hn Hp; cbn [length for_n shown fold_left].
  - exists s. split; [done|]. split; [done|]. split; [done|]. split; [done|].
    split; [apply same_outside_refl|apply vga_only_refl].
  - apply bytes_at_cons in Hb as [Hc Hb]. apply Forall_cons in Hp as [Hpc Hp].
    destruct (plain_s8 c Hpc) as [Hrange Hesc]. unfold disjoint_range in Hd. cbn [length] in Hd.
    destruct (print_plain_ok s t (s8 c) Hr Hn Hrange Hesc) as (s1 & Hrun & Hr1 & Hn1 & Hf1 & Hso1 & Ho1).
    destruct (IH (i + 1) s1 (ref_raw (fontColor (get s)) (s8 c) t)) as (s2 & Hrun2 & Hr2 & Hn2 & Hf2 & Hso2 & m & v & ->);
      [| |exact Hr1|exact Hn1|exact Hp|].
    + replace (buffer + (i + 1)) with (buffer + i + 1) by lia. intros j x Hx.
      rewrite Hso1; [by apply Hb|]. apply lookup_lt_Some in Hx. lia.
    + unfold disjoint_range. lia.
    + exists (set v (with_memory s1 m)). erewrite bind_ok; [|rewrite (bind_ok _ _ _ _ _ (load_ok _ _ _ Hc)); exact Hrun].
      rewrite Hf1 in Hr2, Hf2. split; [exact Hrun2|]. split; [exact Hr2|]. split; [done|]. split; [done|].
      split; [by eapply same_outside_trans|]. by apply vga_only_set, vga_only_mem.
Qed.

(** The screen and the terminal's variables do not depend on the mutex. *)
Lemma vga_rep_same s s' t : same_terminal s s' → vga_rep s t → vga_rep s' t.
Proof. intros (Hm & Hv & _). destruct t as [[cs x] y]. unfold vga_rep. by rewrite Hm, Hv. Qed.

Definition with_mutex (m : bool) (t : term_st) : term_st := Term (terminalBuffer t) (termio t) (numEof t) m.

(** The screen shows [out] behind what it showed first. *)
Definition on_screen (color : Z) (screen : text) (out : list Z) (s : S) : Prop :=
  mutex (get s) = false ∧ status (get s) = NORMAL ∧ fontColor (get s) = color ∧ vga_rep s (shown color out screen).

(** Memory outside the screen does not matter to it. *)
Lemma on_screen_memory color screen out s m :
  (∀ q, video <= q < video + 4000 → m !! q = memory s !! q) → on_screen color screen out s →
  on_screen color screen out (with_memory s m).
Proof using I ILT IVT ITL ITV J.
  intros Hm (H1 & H2 & H3 & H4). destruct (shown color out screen) as [[cs x] y] eqn:Ht.
  unfold on_screen, vga_rep. rewrite Ht. unfold with_memory at 1 2 3 5 6 7. rewrite !get_set_indep, memory_with.
  split; [done|]. split; [done|]. split; [done|]. destruct H4 as ((Hl & Hc & Hb) & Hrest). split; [|done].
  split; [done|]. split; [done|]. intros i c Hi. rewrite Hm; [by apply Hb|].
  apply lookup_lt_Some in Hi. rewrite length_cell_bytes, Hl in Hi. unfold CELLS in Hi. lia.
Qed.

Lemma shown_app color bs bs' t : shown color (bs ++ bs') t = shown color bs' (shown color bs t).
Proof. apply fold_left_app. Qed.

(** Output under the mutex, with the cursor moved at the end. *)
Lemma locked_output {A} s fuel (print : ST S unit) (r : A) t color :
  mutex (get s) = false → (0 < fuel)%nat →
  (∀ s0, same_terminal s (set (Lens := T) (get s) s0) → ∃ s1, print s0 = Ok (tt, s1) ∧ vga_rep s1 t ∧
    status (get s1) = NORMAL ∧ fontColor (get s1) = color ∧ same_outside video 4000 (memory s0) (memory s1) ∧ vga_only s0 s1) →
  ∃ s', ScopedLock (mutex_of S T) fuel (print;; updateCursorPosition;; mret r) s = Ok (r, s') ∧ vga_rep s' t ∧
    status (get s') = NORMAL ∧ fontColor (get s') = color ∧ get (Lens := T) s' = get (Lens := T) s ∧
    same_outside video 4000 (memory s) (memory s').
Proof using Hports I J ITL ITV ILT IVT.
  intros Hmut Hf Hprint. destruct fuel as [|fuel]; [lia|].
  set (s0 := set (Lens := T) (with_mutex true (get s)) s).
  destruct (Hprint s0) as (s1 & Hrun & Hr1 & Hn1 & Hf1 & Hso1 & Ho1).
  { unfold s0. rewrite set_set, set_get. done. }
  assert (kthread_mutex_lock (mutex_of S T) (Datatypes.S fuel) s = Ok (0, s0)) as Hlock.
  { apply loop_done. erewrite bind_ok; [|unfold atomic_test_and_set; cbn; by rewrite Hmut]. done. }
  destruct (cursor_moved s1) as (s2 & Hcur & Hs2).
  exists (set (Lens := T) (with_mutex false (get s2)) s2).
  pose proof Hs2 as (Hm2 & Hv2 & Ht2). split.
  { unfold ScopedLock. rewrite (bind_ok _ _ _ _ _ Hlock).
    erewrite bind_ok; [|rewrite (bind_ok _ _ _ _ _ Hrun), (bind_ok _ _ _ _ _ Hcur); reflexivity]. done. }
  assert (memory s0 = memory s) as Hm0 by apply memory_set_term.
  rewrite !vga_set_term, memory_set_term, get_set, Hv2, Hm2. split; [apply vga_rep_set_term; by eapply vga_rep_same|].
  split; [done|]. split; [done|]. split; [|by rewrite <-Hm0].
  rewrite Ht2, (term_vga_only _ _ Ho1). unfold s0. rewrite get_set. destruct (get s). cbn in *. by rewrite Hmut.
Qed.

Lemma write_shows s t fuel buffer bs :
  mutex (get s) = false → vga_rep s t → status (get s) = NORMAL → bytes_at (memory s) buffer bs →
  Forall plain bs → disjoint_range video 4000 buffer (Z.of_nat (length bs)) → Z.of_nat (length bs) < 2 ^ 31 →
  (0 < fuel)%nat →
  ∃ s', write fuel buffer (Z.of_nat (length bs)) s = Ok (Z.of_nat (length bs), s') ∧
    vga_rep s' (shown (fontColor (get s)) bs t) ∧ status (get s') = NORMAL ∧
    fontColor (get s') = fontColor (get s) ∧ get (Lens := T) s' = get (Lens := T) s ∧
    same_outside video 4000 (memory s) (memory s').
Proof using Hports I J ITL ITV ILT IVT.
  intros Hmut Hr Hn Hb Hp Hd Hlen Hf. unfold write. rewrite s32_small, Nat2Z.id by lia.
  apply locked_output; [done|done|]. intros s0 (Hm & Hv & Ht). rewrite memory_set_term in Hm. rewrite vga_set_term in Hv.
  rewrite <-Hv. apply print_bytes_ok; rewrite ?Z.add_0_r, ?Hm, ?Hv; try done.
  destruct t as [[cs x] y]. unfold vga_rep in *. by rewrite Hm, Hv.
Qed.
End writing.

(** C13. A typed line is read: in canonical mode, with or without echo, from an
    empty buffer, typing a line of at most 4094 ordinary characters and '\n'
    and then reading into a buffer of more bytes than the line has yields the
    line with its '\n', returns its length, and empties the terminal again; the
    echo writes to the screen only. *)
Theorem typed_line_is_read {S : Type} `{L : !Lens S mem} `{V : !Lens S vga_st} `{T : !Lens S term_st}
    `{I : !Indep L V} `{J : !Indep V L} `{ITL : !Indep T L} `{ITV : !Indep T V} `{ILT : !Indep L T} `{IVT : !Indep V T}
    `{Y : !Sched S} (s : S) (v : text) (cs : list Z) (buffer size : Z) (fuel : nat) :
  term_rep s [] [] → vga_rep s v →
  Forall (λ c, - 128 <= c < 128 ∧ ordinary (get s) c ∧ c ≠ 10) cs → ordinary (get s) 10 →
  (length cs < 4095)%nat → Z.of_nat (length cs) < size →
  mapped (memory s) buffer (Z.of_nat (length cs) + 1) →
  disjoint_range video 4000 buffer (Z.of_nat (length cs) + 1) → (length cs < fuel)%nat →
  ∃ s1 s2, handle_all fuel (cs ++ [10]) s = Ok (tt, s1) ∧
    read fuel buffer size s1 = Ok (Z.of_nat (length cs) + 1, s2) ∧
    bytes_at (memory s2) buffer (u8 <$> (cs ++ [10])) ∧ term_rep s2 [] [] ∧
    same_outside video 4000 (memory s) (memory s1).
Proof.
  intros Hrep Hv Hcs Hnl Hlen Hsz Hm Hd Hf.
  destruct (handle_line s v fuel cs [] [] Hrep Hv Hcs Hnl) as (s1 & v1 & Hrun & Hrep1 & _ & Hso); [cbn; lia|lia|].
  cbn [app] in Hrep1.
  destruct (read_line s1 fuel buffer size cs [] [] Hrep1) as (s2 & Hrun2 & Hrep2 & Hm2).
  - eapply list.Forall_impl; [exact Hcs|]. by intros c (_ & _ & ?).
  - done.
  - intros q Hq. unfold disjoint_range in Hd. rewrite Hso by lia. by apply Hm.
  - done.
  - exists s1, s2. split; [done|]. split; [done|]. split; [|by split]. rewrite Hm2. apply bytes_at_write.
Qed.

(** C14. A full buffer hangs the keyboard interrupt: writing one more character
    waits for a reader that cannot run, whatever the time it is given. *)
Theorem full_buffer_hangs {S : Type} `{L : !Lens S mem} `{V : !Lens S vga_st} `{T : !Lens S term_st}
    (s : S) (lines partial : list Z) (c : Z) (fuel : nat) :
  tb_rep (terminalBuffer (get s)) lines partial → length (lines ++ partial) = 4095%nat →
  tb_write fuel c s = NoFuel.
Proof.
  intros Hrep Hfull. pose proof (tb_full_spec _ _ _ Hrep) as Hb. rewrite bool_decide_eq_true_2 in Hb by (rewrite Hfull; done).
  unfold tb_write, mbind, ST_bind. erewrite (loop_diverges (λ _ s', s' = s)); [done| |done].
  intros [] s' ->. exists tt, s. split; [|done]. unfold get_term. by rewrite Hb.
Qed.

(** Erasing at the top left corner writes below the screen: when a program
    has moved the cursor there while a line is being typed, the erase key makes
    the column wrap around and the store goes to the two bytes in front of the
    video page. *)
Theorem erase_at_origin_underruns {S : Type} `{L : !Lens S mem} `{V : !Lens S vga_st} `{T : !Lens S term_st}
    `{I : !Indep L V} `{J : !Indep V L} `{ITL : !Indep T L} `{ITV : !Indep T V} `{ILT : !Indep L T} `{IVT : !Indep V T}
    (s : S) (lines partial : list Z) (fuel : nat) :
  term_rep s lines partial → partial ≠ [] → echoes (get s) = true →
  cc (get s) VERASE ≠ cc (get s) VEOF → cc (get s) VERASE ≠ cc (get s) VEOL →
  cursorPosX (get s) = 0 → cursorPosY (get s) = 0 → memory s !! (video - 2) = None →
  handleCharacter fuel (cc (get s) VERASE) s = Fault.
Proof.
  intros (Hrep & Hcan & _) Hne Hecho H1 H2 Hx Hy Hnone. unfold handleCharacter. rewrite run_get_term, Hcan.
  rewrite (proj2 (Z.eqb_neq _ _) H1), (proj2 (Z.eqb_neq _ _) H2), Z.eqb_refl.
  pose proof (tb_backspace_rep _ _ _ Hrep) as Hb. destruct (reverse partial) as [|c rest] eqn:Er.
  { apply (f_equal reverse) in Er. rewrite reverse_involutive in Er. done. }
  destruct Hb as (b' & Hb & _). unfold buffer_of in Hb. rewrite Hb, run_modify_term. rewrite Hecho. cbn [andb].
  unfold Vga.backspace. rewrite run_get_vga, run_modify, run_get_vga, get_set, !vga_set_term, Hx, Hy.
  change ((0 =? 0) && (0 <? 0)) with false. cbv iota. cbn [cursorPosX cursorPosY fontColor v_cursor].
  unfold put_cell. apply bind_fault, store_fault. change (videoOffset 0 (u32 (0 - 1))) with (video - 2).
  by rewrite memory_set_vga, memory_set_term.
Qed.

(** *** Instances *)
Lemma ring_buffer_refines_witness : ∃ b,
  run_ops [OpWrite 104; OpWrite 120; OpBackspace; OpWrite 105; OpEndLine; OpRead] (TBuf (replicate 4096 0) 0 0 0) =
    ([0; 0; 1; 0; 0; 104], b) ∧ tb_rep b [105] [].
Proof.
  destruct (ring_buffer_refines (replicate 4096 0)
    [OpWrite 104; OpWrite 120; OpBackspace; OpWrite 105; OpEndLine; OpRead] [0; 0; 1; 0; 0; 104] [105] [])
    as (b & H & Hrep & _).
  - apply length_replicate.
  - vm_compute. done.
  - exists b. exact (conj H Hrep).
Defined.

(** A terminal over a blank screen, with 16 bytes of user memory at 64. *)
Definition tty : Type := mem * (vga_st * term_st).
#[local] Instance tty_sched : Sched tty := { sched_yield := mret tt }.
Definition tty_mem : mem := write_bytes demo_screen 64 (replicate 16 0).
Definition demo_tty : tty := (tty_mem, (vga_initial, Terminal (replicate 4096 0))).

Lemma demo_tty_rep : term_rep demo_tty [] [].
Proof. split; [|done]. apply tb_initial_rep. apply length_replicate. Qed.

Lemma demo_tty_vga : vga_rep demo_tty (blank, 0, 0).
Proof.
  split; [|split; [done|split; [done|split; [done|by apply (bool_decide_eq_true_1 (byte_ok _))]]]].
  destruct demo_screen_rep as (Hl & Hok & Hb). split; [done|]. split; [done|].
  apply bytes_at_write_other; [left; rewrite length_replicate; unfold video; lia|done].
Qed.

Lemma typed_line_is_read_witness : ∃ s1 s2,
  handle_all 100 (str "ls" ++ [10]) demo_tty = Ok (tt, s1) ∧ read 100 64 16 s1 = Ok (3, s2) ∧
  bytes_at (memory s2) 64 (str "ls" ++ [10]).
Proof.
  destruct (typed_line_is_read demo_tty (blank, 0, 0) (str "ls") 64 16 100) as (s1 & s2 & H1 & H2 & H3 & _).
  - apply demo_tty_rep.
  - apply demo_tty_vga.
  - repeat constructor; vm_compute; done.
  - repeat constructor; vm_compute; done.
  - cbn. lia.
  - cbn. lia.
  - intros q Hq. change (is_Some (tty_mem !! q)). unfold tty_mem. cbn in Hq. rewrite lookup_write_bytes.
    rewrite decide_True by (rewrite length_replicate; lia). apply lookup_lt_is_Some. rewrite length_replicate. lia.
  - right. unfold video. cbn. lia.
  - cbn. lia.
  - exists s1, s2. exact (conj H1 (conj H2 H3)).
Defined.

(** A terminal whose ring buffer is full of unread lines. *)
Definition full_tbuf : tbuf := TBuf (replicate 4096 10) 0 4095 4095.

Lemma full_tbuf_rep : tb_rep full_tbuf (replicate 4095 10) [].
Proof.
  assert (length (replicate 4095 10 ++ []) = 4095%nat) as Hl by by rewrite app_nil_r, length_replicate.
  unfold tb_rep. rewrite Hl. split; [apply length_replicate|]. split; [done|]. split; [done|].
  split; [by rewrite length_replicate|]. split; [done|].
  intros i c Hi. pose proof (lookup_lt_Some _ _ _ Hi) as Hlt. rewrite Hl in Hlt. rewrite app_nil_r in Hi.
  apply lookup_replicate in Hi as [-> Hi]. cbn [readIndex full_tbuf circularBuffer].
  rewrite Z.add_0_l, Z.mod_small by (unfold SIZE; lia). rewrite Nat2Z.id. apply lookup_replicate_2. lia.
Qed.

Lemma full_buffer_hangs_witness :
  tb_write 1000 65 (tty_mem, (vga_initial, Term full_tbuf (termio (Terminal [])) 0 false)) = NoFuel.
Proof.
  apply (full_buffer_hangs (L := Lens_fst _ _) (tty_mem, (vga_initial, Term full_tbuf (termio (Terminal [])) 0 false))
    (replicate 4095 10) []).
  - apply full_tbuf_rep.
  - rewrite app_nil_r. apply length_replicate.
Defined.

Definition erase_tty : tty :=
  (tty_mem, (vga_initial, Term (TBuf (replicate 4096 65) 0 0 1) (termio (Terminal [])) 0 false)).

Lemma erase_at_origin_underruns_witness :
  handleCharacter 5 (cc (get erase_tty) VERASE) erase_tty = Fault.
Proof.
  apply (erase_at_origin_underruns erase_tty [] [65] 5).
  - split; [|done]. split; [apply length_replicate|]. split; [done|]. split; [done|]. split; [done|]. split; [done|].
    intros [|i] c Hi; [|done]. injection Hi as <-. done.
  - done.
  - done.
  - vm_compute. done.
  - vm_compute. done.
  - done.
  - done.
  - change (tty_mem !! (video - 2) = None). unfold tty_mem, demo_screen.
    rewrite !lookup_write_bytes_out by (rewrite length_replicate; unfold video; lia). done.
Defined.

(** An end of file typed behind a finished line is delivered first: read tests
    the counter before the buffer, so it returns 0 although a line is there,
    and the next read returns the line. *)
Theorem eof_overtakes :
  match (handle_all 100 (str "ls" ++ [10; CTRL (ch "D")]);;
         a ← read 100 64 16; b ← read 100 64 16; mret (a, b)) demo_tty with
  | Ok (r, _) => r = (0, 3)
  | Fault | NoFuel => False
  end.
Proof. vm_compute. reflexivity. Qed.
