(* ===== verification/Paging.v ===== *)
(** * Paging and page frames (kernel/src/addressspace.cpp, physicalmemory.cpp)

    The kernel edits page tables that it sees through the very mappings they
    describe: the last page directory entry points to the directory itself, so
    the tables of the kernel are pages of virtual memory from 0xFFC00000, and
    the table of a process is mapped at 0xFF7FF000 while it is edited.  The
    free page frames are kept on a stack below 0xFFC00000 that grows by mapping
    one of the frames it is given.

    The state holds the physical memory as aligned 32-bit words and the page
    directory register; every access of the code goes through the MMU, and an
    access that misses, or a store to a read-only page (the loader sets
    CR0.WP), is a [Fault].  The objects (address spaces, segments) are typed
    maps from their addresses.  Each change of an entry the code reads back is
    followed by invlpg, so the model has no TLB. *)
From S2P Require Import Prelude Kthread.

(** ** Constants *)
Definition PAGESIZE : Z := 0x1000.
Definition SEG_NOUNMAP : Z := Z.shiftl 1 16.
Definition RECURSIVE_MAPPING : Z := 0xFFC00000.
Definition PAGE_PRESENT : Z := Z.shiftl 1 0.
Definition PAGE_WRITABLE : Z := Z.shiftl 1 1.
Definition PAGE_USER : Z := Z.shiftl 1 2.
Definition PROT_READ : Z := Z.shiftl 1 0.
Definition PROT_WRITE : Z := Z.shiftl 1 1.
Definition PROT_EXEC : Z := Z.shiftl 1 2.
Definition PROT_NONE : Z := 0.
Definition _PROT_FLAGS : Z := Z.lor (Z.lor (Z.lor PROT_READ PROT_WRITE) PROT_EXEC) PROT_NONE.

(** ** State *)
Record segment : Type := MemorySegment {
  seg_address : Z; seg_size : Z; seg_flags : Z; seg_prev : Z; seg_next : Z }.

Record aspace : Type := Space {
  pageDir : Z; pageDirMapped : Z; firstSegment : Z; as_prev : Z; as_next : Z }.

(** The mutexes of the memory manager; one per address space. *)
Inductive lock_id : Type :=
| listMutex | forkMutex | physMutex | segMutex | spaceMutex (a : Z).
#[export] Instance lock_id_eq_dec : EqDecision lock_id.
Proof. solve_decision. Defined.
#[export] Instance lock_id_countable : Countable lock_id.
Proof.
  apply (inj_countable'
    (λ l, match l with listMutex => (0, 0) | forkMutex => (1, 0) | physMutex => (2, 0)
                     | segMutex => (3, 0) | spaceMutex a => (4, a) end)
    (λ p : Z * Z, match p with (0, _) => listMutex | (1, _) => forkMutex | (2, _) => physMutex
                     | (3, _) => segMutex | (_, a) => spaceMutex a end)).
  by intros [].
Defined.

Record mm : Type := MM {
  phys : gmap Z Z;             (* physical memory: aligned address -> word *)
  cr3 : Z;                     (* the active page directory *)
  held : gset lock_id;         (* the mutexes that are set *)
  stackUsed : Z; stackLeft : Z;
  firstAddressSpace : Z;
  spaces : gmap Z aspace;
  segs : gmap Z segment;
  nextPages : gmap Z Z;        (* the word behind the last slot of a segment page *)
}.

Definition with_phys (m : gmap Z Z) (s : mm) : mm :=
  MM m (cr3 s) (held s) (stackUsed s) (stackLeft s) (firstAddressSpace s) (spaces s) (segs s) (nextPages s).
Definition with_cr3 (c : Z) (s : mm) : mm :=
  MM (phys s) c (held s) (stackUsed s) (stackLeft s) (firstAddressSpace s) (spaces s) (segs s) (nextPages s).
Definition with_held (h : gset lock_id) (s : mm) : mm :=
  MM (phys s) (cr3 s) h (stackUsed s) (stackLeft s) (firstAddressSpace s) (spaces s) (segs s) (nextPages s).
Definition with_stack (used left : Z) (s : mm) : mm :=
  MM (phys s) (cr3 s) (held s) used left (firstAddressSpace s) (spaces s) (segs s) (nextPages s).
Definition with_spaces (first : Z) (m : gmap Z aspace) (s : mm) : mm :=
  MM (phys s) (cr3 s) (held s) (stackUsed s) (stackLeft s) first m (segs s) (nextPages s).
Definition with_segs (m : gmap Z segment) (s : mm) : mm :=
  MM (phys s) (cr3 s) (held s) (stackUsed s) (stackLeft s) (firstAddressSpace s) (spaces s) m (nextPages s).
Definition with_nextPages (m : gmap Z Z) (s : mm) : mm :=
  MM (phys s) (cr3 s) (held s) (stackUsed s) (stackLeft s) (firstAddressSpace s) (spaces s) (segs s) m.

(** One mutex as a component of the state. *)
Lemma with_held_eq h h' s : h ≡ h' → with_held h s = with_held h' s.
Proof. intros H. by apply leibniz_equiv in H as ->. Qed.

#[refine] Definition Lens_lock (l : lock_id) : Lens mm bool := {|
  get s := bool_decide (l ∈ held s);
  set b s := with_held (if b : bool then {[l]} ∪ held s else held s ∖ {[l]}) s |}.
Proof.
  - intros [] s; cbn; [apply bool_decide_eq_true|apply bool_decide_eq_false]; set_solver.
  - intros s. trans (with_held (held s) s); [|by destruct s]. apply with_held_eq.
    case_bool_decide; set_solver.
  - intros a b s. apply (with_held_eq _ _ s). destruct a, b; cbn [held with_held].
    all: intros x; destruct (decide (x = l)); set_solver.
Defined.

Definition get_mm : ST mm mm := λ s, Ok (s, s).
Definition modify_mm (f : mm → mm) : ST mm unit := λ s, Ok (tt, f s).

(** The addresses the linker and the compiler give to the kernel's objects. *)
Class Image : Type := {
  bootstrapBegin : Z; bootstrapEnd : Z;
  kernelPhysicalBegin : Z; kernelPhysicalEnd : Z;
  kernelVirtualBegin : Z; kernelReadOnlyEnd : Z; kernelVirtualEnd : Z;
  kernelPageDirectory : Z;
  _kernelSpace : Z;
  segmentsPage : Z;
  userSegment : Z; videoSegment : Z; readOnlySegment : Z; writableSegment : Z;
  temporarySegment : Z; physicalMemorySegment : Z; recursiveMappingSegment : Z;
}.

(** ** The MMU *)
Definition pte_frame (e : Z) : Z := Z.land e (Z.lnot 0xFFF).

(** The physical address of a virtual one, and whether the kernel may write. *)
Definition walk (m : gmap Z Z) (pd va : Z) : option (Z * bool) :=
  match m !! (pd + 4 * (va / 2 ^ 22)) with
  | Some pde =>
      if Z.testbit pde 0 then
        match m !! (pte_frame pde + 4 * (va / 2 ^ 12 mod 1024)) with
        | Some pte =>
            if Z.testbit pte 0
            then Some (pte_frame pte + va mod 2 ^ 12, Z.testbit pde 1 && Z.testbit pte 1)
            else None
        | None => None
        end
      else None
  | None => None
  end.

(** 32-bit accesses at aligned addresses. *)
Definition vload (va : Z) : ST mm Z := λ s,
  match walk (phys s) (cr3 s) va with
  | Some (pa, _) => match phys s !! pa with Some w => Ok (w, s) | None => Fault end
  | None => Fault
  end.

Definition vstore (va w : Z) : ST mm unit := λ s,
  match walk (phys s) (cr3 s) va with
  | Some (pa, true) =>
      match phys s !! pa with
      | Some _ => Ok (tt, with_phys (<[pa := u32 w]> (phys s)) s)
      | None => Fault
      end
  | _ => Fault
  end.

(** A byte of a word. *)
Definition vload8 (va : Z) : ST mm Z :=
  w ← vload (va - va mod 4); mret (u8 (Z.shiftr w (8 * (va mod 4)))).

Definition vstore8 (va b : Z) : ST mm unit :=
  w ← vload (va - va mod 4);
  let k := 8 * (va mod 4) in
  vstore (va - va mod 4) (w - Z.shiftl (u8 (Z.shiftr w k)) k + Z.shiftl (u8 b) k).

Section operations.
Context `{Img : Image} `{Y : !Sched mm} (fuel : nat).

Definition kernelSpace : Z := _kernelSpace.

Definition lock (l : lock_id) : ST mm Z := kthread_mutex_lock (Lens_lock l) fuel.
Definition unlock (l : lock_id) : ST mm Z := kthread_mutex_unlock (Lens_lock l).
Definition scoped {A : Type} (l : lock_id) (block : ST mm A) : ST mm A :=
  ScopedLock (Lens_lock l) fuel block.

Definition get_space (a : Z) : ST mm aspace := λ s,
  match spaces s !! a with Some sp => Ok (sp, s) | None => Fault end.

(** memset (page, 0, PAGESIZE) *)
Definition clear_page (page : Z) : ST mm unit :=
  for_n 1024 0 (λ i, vstore (page + 4 * i) 0).

Definition protectionToFlags (protection : Z) : Z :=
  let flags := PAGE_PRESENT in
  if Z_bool (Z.land protection PROT_WRITE) then Z.lor flags PAGE_WRITABLE else flags.

Definition IndexToaddress (pdIndex ptIndex : Z) : ST mm Z :=
  if (pdIndex <=? 0x3FF) && (ptIndex <=? 0x3FF)
  then mret (Z.lor (Z.shiftl pdIndex 22) (Z.shiftl ptIndex 12)) else fault.

Definition addressToIndex (virtualAddress : Z) : ST mm (Z * Z) :=
  if Z.land virtualAddress 0xFFF =? 0
  then mret (Z.shiftr virtualAddress 22, Z.land (Z.shiftr virtualAddress 12) 0x3FF) else fault.

(** The functions that map pages and those that hand out page frames call each
    other: here they take [mapAtWithFlags] as an argument, and its Fixpoint
    below ties the knot. *)
Section recursion.
Variable mapAtWithFlags : Z → Z → Z → Z → Z → ST mm Z.

Definition mapAt_index (this pdIndex ptIndex physicalAddress protection : Z) : ST mm Z :=
  if negb (Z.land protection (Z.lnot _PROT_FLAGS) =? 0) then fault else
  if negb (Z.land physicalAddress 0xFFF =? 0) then fault else
  let flags := protectionToFlags protection in
  let flags := if this =? kernelSpace then flags else Z.lor flags PAGE_USER in
  mapAtWithFlags this pdIndex ptIndex physicalAddress flags.

Definition mapAt (this virtualAddress physicalAddress protection : Z) : ST mm Z :=
  '(pdIndex, ptIndex) ← addressToIndex virtualAddress;
  mapAt_index this pdIndex ptIndex physicalAddress protection.

Definition mapTemporarily (physicalAddress protection : Z) : ST mm Z :=
  mapAt kernelSpace 0xFF7FF000 physicalAddress protection.

Definition unMap (this virtualAddress : Z) : ST mm unit :=
  '(pdIndex, ptIndex) ← addressToIndex virtualAddress;
  mapAtWithFlags this pdIndex ptIndex 0 0;;
  mret tt.

Definition getPhysicalAddress (this virtualAddress : Z) : ST mm Z :=
  '(pdIndex, ptIndex) ← addressToIndex virtualAddress;
  self ← get_space this;
  e ← vload (pageDirMapped self + 4 * pdIndex);
  if e =? 0 then mret 0 else
  pageTable ← (if this =? kernelSpace then mret (RECURSIVE_MAPPING + PAGESIZE * pdIndex)
               else lock (spaceMutex kernelSpace);;
                    mapTemporarily (Z.land e (Z.lnot 0xFFF)) PROT_READ);
  pte ← vload (pageTable + 4 * ptIndex);
  let result := Z.land pte (Z.lnot 0xFFF) in
  (if this =? kernelSpace then mret tt
   else unMap kernelSpace pageTable;; unlock (spaceMutex kernelSpace);; mret tt);;
  mret result.

(** [static inwox_phy_addr_t *const stack] *)
Definition stack : Z := 0xFFC00000.

Definition popPageFrame : ST mm Z :=
  scoped physMutex (
    s ← get_mm;
    if stackUsed s =? 0 then
      if 0 <? stackLeft s then
        let virtualAddress := u32 (stack - stackLeft s * 4) in
        result ← getPhysicalAddress kernelSpace virtualAddress;
        unMap kernelSpace virtualAddress;;
        modify_mm (λ s, with_stack (stackUsed s) (u32 (stackLeft s - 1024)) s);;
        mret result
      else mret 0
    else
      modify_mm (λ s, with_stack (stackUsed s) (u32 (stackLeft s + 1)) s);;
      frame ← vload (u32 (stack - 4 * stackUsed s));
      modify_mm (λ s, with_stack (u32 (stackUsed s - 1)) (stackLeft s) s);;
      mret frame).

Definition pushPageFrame (physicalAddress : Z) : ST mm unit :=
  scoped physMutex (
    s ← get_mm;
    if stackLeft s =? 0 then
      mapAt kernelSpace (u32 (stack - stackUsed s * 4 - PAGESIZE)) physicalAddress
        (Z.lor PROT_READ PROT_WRITE);;
      modify_mm (λ s, with_stack (stackUsed s) (u32 (stackLeft s + 1024)) s)
    else
      modify_mm (λ s, with_stack (u32 (stackUsed s + 1)) (stackLeft s) s);;
      s ← get_mm;
      vstore (u32 (stack - 4 * stackUsed s)) physicalAddress;;
      modify_mm (λ s, with_stack (stackUsed s) (u32 (stackLeft s - 1)) s)).

(** A new page table of the kernel is entered in every address space. *)
Definition propagate (pdIndex pageTablePhys : Z) : ST mm unit :=
  s ← get_mm;
  loop fuel (λ addressSpace : Z,
    if addressSpace =? 0 then mret (Done tt) else
    sp ← get_space addressSpace;
    vstore (pageDirMapped sp + 4 * pdIndex) (Z.lor (Z.lor pageTablePhys PAGE_PRESENT) PAGE_WRITABLE);;
    mret (Next (as_next sp))) (firstAddressSpace s).

(** The page table for [pdIndex], as an address the kernel can use; made if
    there is none. *)
Definition find_page_table (this pdIndex : Z) : ST mm Z :=
  self ← get_space this;
  let pageDirectory := pageDirMapped self in
  let isKernel := this =? kernelSpace in
  let kernelTable := RECURSIVE_MAPPING + PAGESIZE * pdIndex in
  e ← vload (pageDirectory + 4 * pdIndex);
  if e =? 0 then
    pageTablePhys ← popPageFrame;
    let pdFlags := Z.lor PAGE_PRESENT PAGE_WRITABLE in
    let pdFlags := if isKernel then pdFlags else Z.lor pdFlags PAGE_USER in
    vstore (pageDirectory + 4 * pdIndex) (Z.lor pageTablePhys pdFlags);;
    pageTable ← (if isKernel then mret kernelTable
                 else lock (spaceMutex kernelSpace);;
                      mapTemporarily pageTablePhys (Z.lor PROT_READ PROT_WRITE));
    clear_page pageTable;;
    (if isKernel then scoped listMutex (propagate pdIndex pageTablePhys) else mret tt);;
    mret pageTable
  else if isKernel then mret kernelTable
  else
    lock (spaceMutex kernelSpace);;
    mapTemporarily (Z.land e (Z.lnot 0xFFF)) (Z.lor PROT_READ PROT_WRITE).

Definition mapAtWithFlags_body (this pdIndex ptIndex physicalAddress flags : Z) : ST mm Z :=
  if negb (Z.land flags (Z.lnot 0xFFF) =? 0) then fault else
  pageTable ← find_page_table this pdIndex;
  vstore (pageTable + 4 * ptIndex) (Z.lor physicalAddress flags);;
  (if this =? kernelSpace then mret tt
   else unlock (spaceMutex kernelSpace);; unMap kernelSpace pageTable);;
  IndexToaddress pdIndex ptIndex.
End recursion.

Fixpoint mapAtWithFlags (depth : nat) (this pdIndex ptIndex physicalAddress flags : Z) : ST mm Z :=
  match depth with
  | O => λ _, NoFuel
  | Datatypes.S n => mapAtWithFlags_body (mapAtWithFlags n) this pdIndex ptIndex physicalAddress flags
  end.
End operations.
