(* ===== verification/PagingLaws.v ===== *)
(** * The invariant of paging and what its operations do

    Each page frame the memory manager uses has one role: a page directory, a
    page table, a page of the stack of free frames, or a free frame.  The
    invariant [inv] says which words of which frames hold what; the theorems
    say that mapping, unmapping and handing out page frames keep it, and what
    they do to the translation of every address. *)
From S2P Require Import Prelude Kthread Paging.

(** ** Page table entries *)
Lemma pte_frame_eq e : pte_frame e = e - e mod 4096.
Proof.
  unfold pte_frame. rewrite <-Z.ldiff_land. change 0xFFF with (Z.ones 12).
  rewrite Z.ldiff_ones_r, Z.shiftl_mul_pow2, Z.shiftr_div_pow2 by lia.
  change (2 ^ 12) with 4096. pose proof (Z.div_mod e 4096). lia.
Qed.

Lemma low_bits f n m : f mod 2 ^ n = 0 → m < n → Z.testbit f m = false.
Proof. intros Hf Hm. rewrite <-(Z.mod_pow2_bits_low f n m) by done. rewrite Hf. apply Z.bits_0. Qed.

Lemma lor_low n f k : f mod 2 ^ n = 0 → 0 <= k < 2 ^ n → Z.lor f k = f + k.
Proof.
  intros Hf Hk. symmetry. rewrite <-Z.add_lor_land.
  enough (Z.land f k = 0) by lia. destruct (decide (k = 0)) as [->|]; [apply Z.land_0_r|]. apply Z.bits_inj'. intros i Hi.
  rewrite Z.land_spec, Z.bits_0. destruct (decide (i < n)).
  - by rewrite (low_bits f n).
  - rewrite (Z.bits_above_log2 k i), andb_false_r; [done|lia|].
    apply Z.log2_lt_pow2; [lia|].
    apply Z.lt_le_trans with (2 ^ n); [lia|]. apply Z.pow_le_mono_r; lia.
Qed.

Lemma lor_aligned f k : f mod 4096 = 0 → 0 <= k < 4096 → Z.lor f k = f + k.
Proof. apply (lor_low 12). Qed.

Lemma pte_frame_add f k : f mod 4096 = 0 → 0 <= k < 4096 → pte_frame (f + k) = f.
Proof. intros. rewrite pte_frame_eq. Z.to_euclidean_division_equations. lia. Qed.

Lemma testbit_add f k n : f mod 4096 = 0 → 0 <= k < 4096 → 0 <= n < 12 →
  Z.testbit (f + k) n = Z.testbit k n.
Proof.
  intros Hf Hk Hn. rewrite <-lor_aligned, Z.lor_spec by done.
  by rewrite (low_bits f 12) by (done || lia).
Qed.

(** Words of different frames have different addresses. *)
Lemma frame_words f g i j :
  f mod 4096 = 0 → g mod 4096 = 0 → 0 <= i < 1024 → 0 <= j < 1024 →
  f + 4 * i = g + 4 * j → f = g ∧ i = j.
Proof. intros. Z.to_euclidean_division_equations. lia. Qed.

(** ** Virtual addresses by index *)
Definition page_va (i j : Z) : Z := 2 ^ 22 * i + 4096 * j.

Lemma page_va_index i j o :
  0 <= j < 1024 → 0 <= o < 4096 →
  (page_va i j + o) / 2 ^ 22 = i ∧ (page_va i j + o) / 2 ^ 12 mod 1024 = j ∧ (page_va i j + o) mod 2 ^ 12 = o.
Proof. unfold page_va. intros. Z.to_euclidean_division_equations. lia. Qed.

Lemma page_va_split va :
  0 <= va → va = page_va (va / 2 ^ 22) (va / 2 ^ 12 mod 1024) + va mod 2 ^ 12.
Proof. unfold page_va. intros. Z.to_euclidean_division_equations. lia. Qed.

Lemma walk_entry m pd i j o pde :
  0 <= j < 1024 → 0 <= o < 4096 → m !! (pd + 4 * i) = Some pde →
  walk m pd (page_va i j + o) =
    if Z.testbit pde 0 then
      match m !! (pte_frame pde + 4 * j) with
      | Some pte => if Z.testbit pte 0 then
          Some (pte_frame pte + o, Z.testbit pde 1 && Z.testbit pte 1) else None
      | None => None
      end
    else None.
Proof.
  intros Hj Ho Hpde. unfold walk. destruct (page_va_index i j o Hj Ho) as (-> & -> & ->).
  by rewrite Hpde.
Qed.

Lemma walk_absent m pd i j o :
  0 <= j < 1024 → 0 <= o < 4096 → m !! (pd + 4 * i) = Some 0 → walk m pd (page_va i j + o) = None.
Proof. intros Hj Ho H. by rewrite (walk_entry m pd i j o 0). Qed.

(** The directory, the table and the page of an address, with the flags the
    kernel gives them. *)
Lemma walk_table m pd i j o f k pte :
  0 <= j < 1024 → 0 <= o < 4096 → f mod 4096 = 0 → (k = 3 ∨ k = 7) →
  m !! (pd + 4 * i) = Some (f + k) → m !! (f + 4 * j) = Some pte →
  walk m pd (page_va i j + o) =
    if Z.testbit pte 0 then Some (pte_frame pte + o, Z.testbit pte 1) else None.
Proof.
  intros Hj Ho Hf Hk Hpde Hpte. rewrite (walk_entry m pd i j o (f + k)) by done.
  rewrite !testbit_add, pte_frame_add, Hpte by lia. by destruct Hk as [-> | ->].
Qed.

Lemma vload_ok s va pa b w :
  walk (phys s) (cr3 s) va = Some (pa, b) → phys s !! pa = Some w → vload va s = Ok (w, s).
Proof. intros H1 H2. unfold vload. by rewrite H1, H2. Qed.

Lemma vstore_ok s va pa w :
  walk (phys s) (cr3 s) va = Some (pa, true) → is_Some (phys s !! pa) → 0 <= w < 2 ^ 32 →
  vstore va w s = Ok (tt, with_phys (<[pa := w]> (phys s)) s).
Proof. intros H1 [w' H2] Hw. unfold vstore. by rewrite H1, H2, u32_small. Qed.

(** ** Mutexes *)
(** Reads a field of an updated state. *)
Ltac mms := cbn [phys cr3 held stackUsed stackLeft firstAddressSpace spaces segs nextPages
  with_phys with_cr3 with_held with_stack with_spaces with_segs with_nextPages].

Section locks.
Context `{Y : !Sched mm} (fuel : nat).

Lemma lock_ok l s :
  l ∉ held s → (0 < fuel)%nat → lock fuel l s = Ok (0, with_held ({[l]} ∪ held s) s).
Proof.
  intros Hl Hf. unfold lock, kthread_mutex_lock. destruct fuel as [|n]; [lia|].
  apply loop_done. unfold atomic_test_and_set. unfold mbind, ST_bind. cbn.
  by rewrite bool_decide_eq_false_2.
Qed.

Lemma unlock_ok l s : unlock l s = Ok (0, with_held (held s ∖ {[l]}) s).
Proof. done. Qed.

Lemma held_restored (l : lock_id) (h : gset lock_id) : l ∉ h → ({[l]} ∪ h) ∖ {[l]} = h.
Proof. intros H. apply leibniz_equiv. set_solver. Qed.

Lemma scoped_ok {A} l (block : ST mm A) s a s' :
  l ∉ held s → (0 < fuel)%nat →
  block (with_held ({[l]} ∪ held s) s) = Ok (a, s') → held s' = {[l]} ∪ held s →
  scoped fuel l block s = Ok (a, with_held (held s) s').
Proof.
  intros Hl Hf Hb Hh. unfold scoped, ScopedLock.
  rewrite (bind_ok _ _ _ _ _ (lock_ok l s Hl Hf)), (bind_ok _ _ _ _ _ Hb).
  rewrite (bind_ok _ _ _ _ _ (unlock_ok l s')), Hh, held_restored by done. done.
Qed.
End locks.

Lemma run_get_mm {A} (k : mm → ST mm A) s : (get_mm ≫= k) s = k s s.
Proof. done. Qed.
Lemma run_modify_mm {A} f (k : unit → ST mm A) s : (modify_mm f ≫= k) s = k tt (f s).
Proof. done. Qed.

(** ** The invariant *)
Inductive role : Type :=
| Directory (a : Z)      (* the page directory of the address space [a] *)
| Table (a i : Z)        (* its page table number [i] *)
| StackPage (j : Z)      (* the [j]th page of the stack of free frames *)
| Free (k : Z).          (* the frame in the [k]th slot of that stack *)

(** The address spaces in the list that starts at [p]. *)
Fixpoint linked (sp : gmap Z aspace) (p : Z) (l : list Z) : Prop :=
  match l with
  | [] => p = 0
  | a :: l => p = a ∧ a ≠ 0 ∧ ∃ x, sp !! a = Some x ∧ linked sp (as_next x) l
  end.

Section invariant.
Context `{Img : Image}.

(** Page [j] of kernel table [i] maps frame [g], present and writable. *)
Definition maps (own : gmap Z role) (K : Z) (m : gmap Z Z) (i j g : Z) : Prop :=
  ∃ f, m !! (K + 4 * i) = Some (f + 3) ∧ own !! f = Some (Table kernelSpace i) ∧
    m !! (f + 4 * j) = Some (g + 3).

(** Slot [k] of the stack (counted from 1, downwards from 0xFFC00000): its
    page and its word in the page. *)
Definition slot_page (k : Z) : Z := (k - 1) / 1024.
Definition slot_word (k : Z) : Z := 1023 - (k - 1) mod 1024.

Record paging_inv (own : gmap Z role) (K : Z) (m : gmap Z Z) (cr used left : Z)
    (sp : gmap Z aspace) : Prop := {
  i_frame : ∀ f r, own !! f = Some r →
    0 < f < 2 ^ 32 ∧ f mod 4096 = 0 ∧ ∀ j, 0 <= j < 1024 → is_Some (m !! (f + 4 * j));
  i_kernel : ∃ x, sp !! kernelSpace = Some x ∧ pageDir x = K ∧ pageDirMapped x = 0xFFFFF000;
  i_dir : ∀ a x, sp !! a = Some x → own !! pageDir x = Some (Directory a);
  i_self : m !! (K + 4 * 1023) = Some (K + 3);
  i_table : ∀ i, 0 <= i < 1023 → m !! (K + 4 * i) = Some 0 ∨
    ∃ f, m !! (K + 4 * i) = Some (f + 3) ∧ own !! f = Some (Table kernelSpace i);
  i_shared : ∀ a x i, sp !! a = Some x → 768 <= i < 1024 →
    m !! (pageDir x + 4 * i) = m !! (K + 4 * i);
  i_user : ∀ a x i, sp !! a = Some x → a ≠ kernelSpace → 0 <= i < 768 →
    m !! (pageDir x + 4 * i) = Some 0 ∨
    ∃ f, m !! (pageDir x + 4 * i) = Some (f + 7) ∧ own !! f = Some (Table a i);
  i_mapped : ∀ a x, sp !! a = Some x → a ≠ kernelSpace → ∃ i j, 768 <= i < 1021 ∧ 0 <= j < 1024 ∧
    pageDirMapped x = page_va i j ∧ maps own K m i j (pageDir x);
  i_cur : ∃ a x, sp !! a = Some x ∧ cr = pageDir x;
  i_count : 0 <= used ∧ 0 <= left ∧ (used + left) mod 1024 = 0 ∧ used + left <= 1024 * 1024;
  i_stack_table : m !! (K + 4 * 1022) ≠ Some 0;
  i_stack : ∀ j, 0 <= j < (used + left) / 1024 → ∃ g,
    own !! g = Some (StackPage j) ∧ maps own K m 1022 (1023 - j) g;
  i_free : ∀ k, 1 <= k <= used → ∃ f g, own !! f = Some (Free k) ∧
    own !! g = Some (StackPage (slot_page k)) ∧ maps own K m 1022 (1023 - slot_page k) g ∧
    m !! (g + 4 * slot_word k) = Some f;
}.

Definition inv (own : gmap Z role) (K : Z) (s : mm) : Prop :=
  paging_inv own K (phys s) (cr3 s) (stackUsed s) (stackLeft s) (spaces s).

(** The page where the kernel sees the page directory of a process. *)
Definition dir_page (sp : gmap Z aspace) (i j : Z) : Prop :=
  ∃ a x, sp !! a = Some x ∧ a ≠ kernelSpace ∧ pageDirMapped x = page_va i j.

(** The words of kernel tables the invariant itself relies on. *)
Definition pinned (sp : gmap Z aspace) (n i j : Z) : Prop :=
  (i = 1022 ∧ 1024 - n <= j) ∨ dir_page sp i j.

Lemma page_va_inj i j i' j' :
  0 <= j < 1024 → 0 <= j' < 1024 → page_va i j = page_va i' j' → i = i' ∧ j = j'.
Proof. unfold page_va. intros. Z.to_euclidean_division_equations. lia. Qed.

Lemma slot_bounds k used left :
  1 <= k <= used → 0 <= left → (used + left) mod 1024 = 0 → used + left <= 1024 * 1024 →
  0 <= slot_page k < (used + left) / 1024 ∧ 0 <= slot_page k < 1024 ∧ 0 <= slot_word k < 1024.
Proof. unfold slot_page, slot_word. intros. Z.to_euclidean_division_equations. lia. Qed.

Section facts.
Context (own : gmap Z role) (K : Z) (m : gmap Z Z) (cr used left : Z) (sp : gmap Z aspace).
Hypothesis I : paging_inv own K m cr used left sp.

Lemma i_dir_K : own !! K = Some (Directory kernelSpace).
Proof. destruct (i_kernel _ _ _ _ _ _ _ I) as (x & Hx & <- & _). by apply (i_dir _ _ _ _ _ _ _ I). Qed.

Lemma role_words f g r r' i j :
  own !! f = Some r → own !! g = Some r' → r ≠ r' → 0 <= i < 1024 → 0 <= j < 1024 →
  f + 4 * i ≠ g + 4 * j.
Proof.
  intros Hf Hg Hr Hi Hj He.
  destruct (i_frame _ _ _ _ _ _ _ I f r Hf) as (_ & Hf' & _), (i_frame _ _ _ _ _ _ _ I g r' Hg) as (_ & Hg' & _).
  apply frame_words in He as [-> _]; [congruence|done..].
Qed.

Lemma unowned_words f g r i j :
  f mod 4096 = 0 → own !! f = None → own !! g = Some r → 0 <= i < 1024 → 0 <= j < 1024 →
  f + 4 * i ≠ g + 4 * j.
Proof.
  intros Hf Hn Hg Hi Hj He. destruct (i_frame _ _ _ _ _ _ _ I g r Hg) as (_ & Hg' & _).
  apply frame_words in He as [-> _]; [congruence|done..].
Qed.

Lemma word_words f r i j :
  own !! f = Some r → 0 <= i < 1024 → 0 <= j < 1024 → i ≠ j → f + 4 * i ≠ f + 4 * j.
Proof. lia. Qed.

(** Memory that agrees on the words the invariant relies on. *)
Lemma inv_cong m' :
  (∀ g a j, own !! g = Some (Directory a) → 0 <= j < 1024 → m' !! (g + 4 * j) = m !! (g + 4 * j)) →
  (∀ g i j, own !! g = Some (Table kernelSpace i) → 0 <= j < 1024 →
     pinned sp ((used + left) / 1024) i j → m' !! (g + 4 * j) = m !! (g + 4 * j)) →
  (∀ g p j, own !! g = Some (StackPage p) → 0 <= j < 1024 → m' !! (g + 4 * j) = m !! (g + 4 * j)) →
  (∀ x, is_Some (m !! x) → is_Some (m' !! x)) →
  paging_inv own K m' cr used left sp.
Proof.
  intros HD HT HS Hm. pose proof I as II. destruct I. pose proof i_dir_K as HK.
  assert (∀ i j g, 0 <= i < 1024 → 0 <= j < 1024 → pinned sp ((used + left) / 1024) i j → maps own K m i j g → maps own K m' i j g) as Hmaps.
  { intros i j g Hi Hj Hp (f & H1 & H2 & H3). exists f. by rewrite (HD K _ i HK), (HT f i j) by done. }
  constructor; try done.
  - intros f r Hf. destruct (i_frame0 f r Hf) as (? & ? & Hb). split_and!; [lia..|].
    intros j Hj. auto.
  - by rewrite (HD K _ 1023 HK) by lia.
  - intros i Hi. rewrite (HD K _ i HK) by lia. auto.
  - intros a x i Hx Hi. rewrite (HD K _ i HK), (HD _ a i) by (eauto || lia). eauto.
  - intros a x i Hx Ha Hi. rewrite (HD _ a i) by (eauto || lia). eauto.
  - intros a x Hx Ha. destruct (i_mapped0 a x Hx Ha) as (i & j & ? & ? & ? & ?).
    exists i, j. split_and!; try (done || lia). apply Hmaps; [lia|lia| |done]. right. by exists a, x.
  - by rewrite (HD K _ 1022 HK) by lia.
  - intros j Hj. destruct (i_stack0 j Hj) as (g & ? & ?). exists g. split; [done|].
    apply Hmaps; [lia| |left; lia|done]. Z.to_euclidean_division_equations. lia.
  - intros k Hk. destruct (i_free0 k Hk) as (f & g & ? & ? & ? & ?). exists f, g.
    destruct (slot_bounds k used left) as (? & ? & ?); try lia.
    split_and!; [done..| |by rewrite (HS g (slot_page k))].
    apply Hmaps; [lia|lia|left; lia|done].
Qed.

(** A fresh frame takes a role. *)
Lemma inv_own_insert f r :
  own !! f = None → 0 < f < 2 ^ 32 → f mod 4096 = 0 → (∀ j, 0 <= j < 1024 → is_Some (m !! (f + 4 * j))) →
  paging_inv (<[f := r]> own) K m cr used left sp.
Proof.
  intros Hn Hr Ha Hb. destruct I.
  assert (∀ g x, own !! g = Some x → <[f := r]> own !! g = Some x) as Ho.
  { intros g x Hg. rewrite lookup_insert_ne; [done|]. congruence. }
  constructor; try done; unfold maps in *.
  - intros g x. rewrite lookup_insert_Some. intros [[<- <-]|[_ Hg]]; [done|eauto].
  - eauto.
  - intros i Hi. destruct (i_table0 i Hi) as [|(g & ? & ?)]; eauto 10.
  - intros a x i Hx Hk Hi. destruct (i_user0 a x i Hx Hk Hi) as [|(g & ? & ?)]; eauto 10.
  - intros a x Hx Hk. destruct (i_mapped0 a x Hx Hk) as (i & j & ? & ? & ? & g & ? & ? & ?).
    exists i, j. split_and!; try (done || lia). eauto 10.
  - intros j Hj. destruct (i_stack0 j Hj) as (g & ? & g' & ? & ? & ?). eauto 12.
  - intros k Hk. destruct (i_free0 k Hk) as (g & g' & ? & ? & (h & ? & ? & ?) & ?). eauto 15.
Qed.

(** A frame in a role the invariant does not rely on gives it up. *)
Lemma inv_own_delete f r :
  own !! f = Some r →
  match r with Free k => ¬ 1 <= k <= used | StackPage j => ¬ 0 <= j < (used + left) / 1024
    | Directory a => sp !! a = None | Table _ _ => False end →
  paging_inv (delete f own) K m cr used left sp.
Proof.
  intros Hf Hr. destruct I.
  assert (∀ g x, own !! g = Some x → x ≠ r → delete f own !! g = Some x) as Ho.
  { intros g x Hg Hx. rewrite lookup_delete_ne; [done|]. congruence. }
  assert (∀ i j g, maps own K m i j g → maps (delete f own) K m i j g) as Hmaps.
  { intros i j g (h & ? & ? & ?). exists h. split_and!; [done| |done]. apply Ho; [done|]. by intros <-. }
  constructor; try done.
  - intros g x. rewrite lookup_delete_Some. intros [_ Hg]. eauto.
  - intros a x Hx. apply Ho; [eauto|]. intros <-. cbn in Hr. congruence.
  - intros i Hi. destruct (i_table0 i Hi) as [|(g & ? & ?)]; [by left|right].
    exists g. split; [done|]. apply Ho; [done|]. by intros <-.
  - intros a x i Hx Hk Hi. destruct (i_user0 a x i Hx Hk Hi) as [|(g & ? & ?)]; [by left|right].
    exists g. split; [done|]. apply Ho; [done|]. by intros <-.
  - intros a x Hx Hk. destruct (i_mapped0 a x Hx Hk) as (i & j & ? & ? & ? & ?).
    exists i, j. split_and!; try (done || lia). auto.
  - intros j Hj. destruct (i_stack0 j Hj) as (g & ? & ?). exists g. split; [|auto].
    apply Ho; [done|]. by intros <-.
  - intros k Hk. destruct (i_free0 k Hk) as (g & g' & ? & ? & ? & ?). exists g, g'.
    destruct (slot_bounds k used left) as (? & ? & ?); try lia.
    split_and!; [| |by auto|done]; apply Ho; try done; by intros <-.
Qed.

(** Virtual addresses of the kernel half translate alike in every space. *)
Lemma walk_shared a x i j o :
  sp !! a = Some x → 768 <= i < 1024 → 0 <= j < 1024 → 0 <= o < 4096 →
  walk m (pageDir x) (page_va i j + o) = walk m K (page_va i j + o).
Proof.
  intros Hx Hi Hj Ho. unfold walk. destruct (page_va_index i j o) as (-> & -> & ->); [done..|].
  by rewrite (i_shared _ _ _ _ _ _ _ I a x i).
Qed.

Lemma walk_cur i j o :
  768 <= i < 1024 → 0 <= j < 1024 → 0 <= o < 4096 →
  walk m cr (page_va i j + o) = walk m K (page_va i j + o).
Proof.
  intros. destruct (i_cur _ _ _ _ _ _ _ I) as (a & x & Hx & Hcr). rewrite Hcr. by apply (walk_shared a).
Qed.

(** The kernel sees its page directory and its tables through the recursive
    entry. *)
Lemma walk_directory i :
  0 <= i < 1024 → walk m cr (0xFFFFF000 + 4 * i) = Some (K + 4 * i, true).
Proof.
  intros Hi. change 0xFFFFF000 with (page_va 1023 1023). rewrite walk_cur by lia.
  destruct (i_frame _ _ _ _ _ _ _ I K _ i_dir_K) as (? & ? & _).
  pose proof (i_self _ _ _ _ _ _ _ I) as Hs.
  rewrite (walk_table m K 1023 1023 _ K 3 (K + 3)) by (done || lia || auto).
  by rewrite !testbit_add, pte_frame_add by lia.
Qed.

Lemma walk_kernel_table i j f :
  0 <= i < 1023 → 0 <= j < 1024 → m !! (K + 4 * i) = Some (f + 3) → own !! f = Some (Table kernelSpace i) →
  walk m cr (RECURSIVE_MAPPING + PAGESIZE * i + 4 * j) = Some (f + 4 * j, true).
Proof.
  intros Hi Hj Hf Hr. replace (RECURSIVE_MAPPING + PAGESIZE * i) with (page_va 1023 i)
    by (unfold page_va, RECURSIVE_MAPPING, PAGESIZE; lia).
  rewrite walk_cur by lia. pose proof (i_self _ _ _ _ _ _ _ I) as Hs.
  destruct (i_frame _ _ _ _ _ _ _ I K _ i_dir_K) as (? & ? & _), (i_frame _ _ _ _ _ _ _ I f _ Hr) as (? & ? & _).
  rewrite (walk_table m K 1023 i _ K 3 (f + 3)) by (done || lia || auto).
  by rewrite !testbit_add, pte_frame_add by lia.
Qed.

Lemma walk_maps i j o g :
  768 <= i < 1023 → 0 <= j < 1024 → 0 <= o < 4096 → g mod 4096 = 0 → maps own K m i j g →
  walk m cr (page_va i j + o) = Some (g + o, true).
Proof.
  intros Hi Hj Ho Hg (f & Hf & Hr & Hw). rewrite walk_cur by lia.
  destruct (i_frame _ _ _ _ _ _ _ I f _ Hr) as (? & ? & _).
  rewrite (walk_table m K i j o f 3 (g + 3)) by (done || lia || auto).
  by rewrite !testbit_add, pte_frame_add by lia.
Qed.
End facts.
End invariant.

(** ** Operations on the kernel's tables *)
Definition backed (m : gmap Z Z) (f : Z) : Prop := ∀ j, 0 <= j < 1024 → is_Some (m !! (f + 4 * j)).

Lemma kernel_index i j :
  0 <= i < 1024 → 0 <= j < 1024 → IndexToaddress i j = mret (page_va i j).
Proof.
  intros Hi Hj. unfold IndexToaddress. rewrite !(proj2 (Z.leb_le _ _)) by lia. cbn [andb].
  rewrite !Z.shiftl_mul_pow2 by lia. f_equal. unfold page_va.
  rewrite (lor_low 22); Z.to_euclidean_division_equations; lia.
Qed.

Lemma address_index i j :
  0 <= i < 1024 → 0 <= j < 1024 → addressToIndex (page_va i j) = mret (i, j).
Proof.
  intros Hi Hj. unfold addressToIndex. change 0xFFF with (Z.ones 12). change 0x3FF with (Z.ones 10).
  rewrite !Z.land_ones, !Z.shiftr_div_pow2 by lia.
  destruct (page_va_index i j 0) as (H1 & H2 & H3); [lia..|]. rewrite Z.add_0_r in *.
  change (2 ^ 10) with 1024. by rewrite H1, H2, H3.
Qed.

Lemma small_flags k : 0 <= k < 4096 → (Z.land k (Z.lnot 0xFFF) =? 0) = true.
Proof.
  intros Hk. apply Z.eqb_eq. change (pte_frame k = 0). rewrite pte_frame_eq, Z.mod_small by done. lia.
Qed.

Section kernel.
Context `{Img : Image} `{Y : !Sched mm} (fuel : nat).
Implicit Types (own : gmap Z role) (s : mm).

Lemma get_kernel own K s :
  inv own K s → ∃ x, get_space kernelSpace s = Ok (x, s) ∧ pageDirMapped x = 0xFFFFF000 ∧ pageDir x = K.
Proof.
  intros I. destruct (i_kernel _ _ _ _ _ _ _ I) as (x & Hx & ? & ?). exists x.
  unfold get_space. by rewrite Hx.
Qed.

Lemma load_directory own K s i e :
  inv own K s → 0 <= i < 1024 → phys s !! (K + 4 * i) = Some e → vload (0xFFFFF000 + 4 * i) s = Ok (e, s).
Proof. intros I Hi He. eapply vload_ok; [by apply (walk_directory own K _ _ _ _ _ I)|done]. Qed.

(** An entry of an existing kernel table is written in place. *)
Lemma kernel_present own K s n i j f pa flags :
  inv own K s → 0 <= i < 1023 → 0 <= j < 1024 →
  phys s !! (K + 4 * i) = Some (f + 3) → own !! f = Some (Table kernelSpace i) →
  0 <= pa < 2 ^ 32 → pa mod 4096 = 0 → 0 <= flags < 4096 →
  mapAtWithFlags fuel (Datatypes.S n) kernelSpace i j pa flags s =
    Ok (page_va i j, with_phys (<[f + 4 * j := pa + flags]> (phys s)) s).
Proof.
  intros I Hi Hj He Hf Hpa Ha Hfl. cbn [mapAtWithFlags]. unfold mapAtWithFlags_body, find_page_table.
  rewrite small_flags by done. cbn [negb].
  destruct (get_kernel own K s I) as (x & Hx & Hm & _), (i_frame _ _ _ _ _ _ _ I f _ Hf) as (? & ? & Hb).
  erewrite bind_ok; [|rewrite (bind_ok _ _ _ _ _ Hx), Hm, Z.eqb_refl;
    erewrite bind_ok; [|apply (load_directory own K); [done|lia|exact He]]; cbv beta;
    rewrite (proj2 (Z.eqb_neq (f + 3) 0)) by lia; reflexivity].
  erewrite bind_ok; [|apply vstore_ok; [by apply (walk_kernel_table own K _ _ _ _ _ I)|by apply Hb|]].
  - rewrite Z.eqb_refl, bind_ret, kernel_index by lia. by rewrite lor_aligned.
  - rewrite lor_aligned by done. Z.to_euclidean_division_equations. lia.
Qed.

(** Writing an entry no one relies on keeps the invariant. *)
Lemma inv_write_table own K s f i j w :
  inv own K s → own !! f = Some (Table kernelSpace i) → 0 <= j < 1024 →
  ¬ pinned (spaces s) ((stackUsed s + stackLeft s) / 1024) i j →
  inv own K (with_phys (<[f + 4 * j := w]> (phys s)) s).
Proof.
  intros I Hf Hj Hp. eapply (inv_cong _ _ _ _ _ _ _ I); cbn.
  - intros g a k Hg Hk. apply lookup_insert_ne. by eapply (role_words _ _ _ _ _ _ _ I).
  - intros g i' k Hg Hk Hp'. apply lookup_insert_ne. destruct (decide (i = i')) as [<-|].
    + destruct (decide (f = g)) as [<-|Hne].
      * assert (j ≠ k) by congruence. lia.
      * intros He. destruct (i_frame _ _ _ _ _ _ _ I f _ Hf) as (_ & ? & _), (i_frame _ _ _ _ _ _ _ I g _ Hg) as (_ & ? & _).
        by apply frame_words in He as [? _].
    + eapply (role_words _ _ _ _ _ _ _ I); [done..|congruence|done|done].
  - intros g p k Hg Hk. apply lookup_insert_ne. by eapply (role_words _ _ _ _ _ _ _ I).
  - intros x Hx. apply lookup_insert_is_Some'. auto.
Qed.

Lemma flags_of prot :
  0 <= prot < 8 → Z.land prot (Z.lnot _PROT_FLAGS) = 0 ∧
  protectionToFlags prot = if Z.testbit prot 1 then 3 else 1.
Proof.
  intros H. assert (prot = 0 ∨ prot = 1 ∨ prot = 2 ∨ prot = 3 ∨ prot = 4 ∨ prot = 5 ∨ prot = 6 ∨ prot = 7)
    as Hp by lia. by repeat (destruct Hp as [->|Hp]; [done|]); subst.
Qed.

Lemma mapAt_kernel (map : Z → Z → Z → Z → Z → ST mm Z) i j pa prot s :
  0 <= i < 1024 → 0 <= j < 1024 → pa mod 4096 = 0 → 0 <= prot < 8 →
  mapAt map kernelSpace (page_va i j) pa prot s =
    map kernelSpace i j pa (if Z.testbit prot 1 then 3 else 1) s.
Proof.
  intros Hi Hj Hpa Hp. unfold mapAt. rewrite address_index, bind_ret by done.
  unfold mapAt_index. destruct (flags_of prot Hp) as [-> ->]. cbn [Z.eqb negb].
  change 0xFFF with (Z.ones 12). rewrite Z.land_ones by lia. change (2 ^ 12) with 4096.
  rewrite Hpa, (Z.eqb_refl kernelSpace). done.
Qed.

Lemma unMap_kernel (map : Z → Z → Z → Z → Z → ST mm Z) i j s s' r :
  0 <= i < 1024 → 0 <= j < 1024 → map kernelSpace i j 0 0 s = Ok (r, s') →
  unMap map kernelSpace (page_va i j) s = Ok (tt, s').
Proof.
  intros Hi Hj Hm. unfold unMap. rewrite address_index, bind_ret by done.
  by rewrite (bind_ok _ _ _ _ _ Hm).
Qed.

(** [getPhysicalAddress] reads the frame in the entry of the page. *)
Lemma getPhysicalAddress_kernel (map : Z → Z → Z → Z → Z → ST mm Z) own K s i j f e :
  inv own K s → 0 <= i < 1023 → 0 <= j < 1024 →
  phys s !! (K + 4 * i) = Some (f + 3) → own !! f = Some (Table kernelSpace i) →
  phys s !! (f + 4 * j) = Some e →
  getPhysicalAddress fuel map kernelSpace (page_va i j) s = Ok (pte_frame e, s).
Proof.
  intros I Hi Hj He Hf Hp. unfold getPhysicalAddress. rewrite address_index, bind_ret by lia.
  destruct (get_kernel own K s I) as (x & Hx & Hm & _), (i_frame _ _ _ _ _ _ _ I f _ Hf) as (? & ? & Hb).
  rewrite (bind_ok _ _ _ _ _ Hx), Hm.
  erewrite bind_ok; [|apply (load_directory own K); [done|lia|exact He]]. cbv beta.
  rewrite (proj2 (Z.eqb_neq (f + 3) 0)) by lia. rewrite Z.eqb_refl, bind_ret.
  by erewrite bind_ok; [|eapply vload_ok; [by apply (walk_kernel_table own K _ _ _ _ _ I)|done]].
Qed.

(** ** The stack of free frames *)
Lemma slot_address k :
  1 <= k <= 1024 * 1024 → u32 (stack - 4 * k) = page_va 1022 (1023 - slot_page k) + 4 * slot_word k.
Proof.
  intros Hk. unfold stack. rewrite u32_small by lia. unfold page_va, slot_page, slot_word.
  Z.to_euclidean_division_equations. lia.
Qed.

Lemma slot_address_page n :
  1 <= n <= 1024 → u32 (stack - 1024 * n * 4) = page_va 1022 (1024 - n).
Proof. intros Hn. unfold stack. rewrite u32_small by lia. unfold page_va. lia. Qed.

(** What the operations on page tables leave alone. *)
Definition same_objects s s' : Prop :=
  cr3 s' = cr3 s ∧ held s' = held s ∧ firstAddressSpace s' = firstAddressSpace s ∧
  spaces s' = spaces s ∧ segs s' = segs s ∧ nextPages s' = nextPages s.

(** How many frames can be popped. *)
Definition frames_left s : Z := stackUsed s + (stackUsed s + stackLeft s) / 1024.

Definition available (r : role) : Prop := match r with Free _ | StackPage _ => True | _ => False end.

Lemma inv_pop own K s f :
  inv own K s → 0 < stackUsed s → own !! f = Some (Free (stackUsed s)) →
  inv (delete f own) K (with_stack (stackUsed s - 1) (stackLeft s + 1) s).
Proof.
  intros I Hu Hf. eapply inv_own_delete; [|exact Hf|cbn; lia]. destruct I. constructor; try done; cbn.
  - replace (stackUsed s - 1 + (stackLeft s + 1)) with (stackUsed s + stackLeft s) by lia. lia.
  - intros j Hj. apply i_stack0. by replace (stackUsed s + stackLeft s) with (stackUsed s - 1 + (stackLeft s + 1)) by lia.
  - intros k Hk. apply i_free0. lia.
Qed.

(** The frame in the top slot. *)
Definition top_is own K s f : Prop :=
  0 < stackUsed s ∧ ∃ g, maps own K (phys s) 1022 (1023 - slot_page (stackUsed s)) g ∧
    phys s !! (g + 4 * slot_word (stackUsed s)) = Some f.

Lemma top_is_unique own K s f f' : top_is own K s f → top_is own K s f' → f = f'.
Proof.
  intros (_ & g & (t & Ht & _ & Hw) & Hf) (_ & g' & (t' & Ht' & _ & Hw') & Hf'). simplify_eq.
  assert (t = t') as -> by lia. simplify_eq. assert (g = g') as -> by lia. by simplify_eq.
Qed.

Lemma pop_used (map : Z → Z → Z → Z → Z → ST mm Z) own K s :
  inv own K s → (0 < fuel)%nat → physMutex ∉ held s → 0 < stackUsed s →
  ∃ f, popPageFrame fuel map s = Ok (f, with_stack (stackUsed s - 1) (stackLeft s + 1) s) ∧
    own !! f = Some (Free (stackUsed s)) ∧ top_is own K s f.
Proof.
  intros I Hfuel Hh Hu. destruct (i_count _ _ _ _ _ _ _ I) as (? & ? & ? & ?).
  destruct (i_free _ _ _ _ _ _ _ I (stackUsed s)) as (f & g & Hf & Hg & Hmap & Hw); [lia|].
  destruct (slot_bounds (stackUsed s) (stackUsed s) (stackLeft s)) as (? & ? & ?); try lia.
  destruct (i_frame _ _ _ _ _ _ _ I g _ Hg) as (? & ? & _).
  exists f. split; [|split; [done|split; [done|by exists g]]]. unfold popPageFrame.
  rewrite (scoped_ok fuel _ _ _ f (with_held ({[physMutex]} ∪ held s)
    (with_stack (stackUsed s - 1) (stackLeft s + 1) s)) Hh Hfuel); [done| |done].
  rewrite run_get_mm. cbn [stackUsed with_held]. rewrite (proj2 (Z.eqb_neq (stackUsed s) 0)) by lia.
  rewrite run_modify_mm, slot_address by lia.
  erewrite bind_ok; [|eapply vload_ok; [apply (walk_maps _ _ _ _ _ _ _ I); [lia|lia|lia|done|exact Hmap]|exact Hw]].
  rewrite run_modify_mm. unfold with_stack. cbn. by rewrite !u32_small by lia.
Qed.

Lemma inv_pop_page own K s g f :
  inv own K s → stackUsed s = 0 → 0 < stackLeft s →
  own !! g = Some (StackPage (stackLeft s / 1024 - 1)) →
  own !! f = Some (Table kernelSpace 1022) →
  inv (delete g own) K (with_stack 0 (stackLeft s - 1024)
    (with_phys (<[f + 4 * (1024 - stackLeft s / 1024) := 0]> (phys s)) s)).
Proof.
  intros I Hu Hl Hg Hf. destruct (i_count _ _ _ _ _ _ _ I) as (_ & _ & Hm & ?). rewrite Hu, Z.add_0_l in *.
  assert (stackLeft s / 1024 = (stackLeft s - 1024) / 1024 + 1) by (Z.to_euclidean_division_equations; lia).
  eapply inv_own_delete; [|exact Hg|mms; rewrite Z.add_0_l; lia].
  apply (inv_write_table own K (with_stack 0 (stackLeft s - 1024) s) f 1022); mms; rewrite ?Z.add_0_l; [|done| |].
  - destruct I. constructor; mms; rewrite ?Z.add_0_l; try done.
    + Z.to_euclidean_division_equations. lia.
    + intros j Hj. apply i_stack0. rewrite Hu, Z.add_0_l. lia.
    + lia.
  - Z.to_euclidean_division_equations. lia.
  - intros [[_ Hp]|(a & x & Hx & Ha & Hp)]; [lia|].
    destruct (i_mapped _ _ _ _ _ _ _ I a x Hx Ha) as (i & j & ? & ? & Hp' & _). rewrite Hp' in Hp.
    apply page_va_inj in Hp; [lia..|]. Z.to_euclidean_division_equations. lia.
Qed.

Lemma pop_page own K s n :
  inv own K s → (0 < fuel)%nat → physMutex ∉ held s → stackUsed s = 0 → 0 < stackLeft s →
  ∃ f g, popPageFrame fuel (mapAtWithFlags fuel (Datatypes.S n)) s =
      Ok (g, with_stack 0 (stackLeft s - 1024)
        (with_phys (<[f + 4 * (1024 - stackLeft s / 1024) := 0]> (phys s)) s)) ∧
    own !! g = Some (StackPage (stackLeft s / 1024 - 1)) ∧ own !! f = Some (Table kernelSpace 1022).
Proof.
  intros I Hfuel Hh Hu Hl. destruct (i_count _ _ _ _ _ _ _ I) as (_ & _ & Hm & ?). rewrite Hu, Z.add_0_l in *.
  destruct (i_stack _ _ _ _ _ _ _ I (stackLeft s / 1024 - 1)) as (g & Hg & f & He & Hf & Hw).
  { rewrite Hu, Z.add_0_l. Z.to_euclidean_division_equations. lia. }
  replace (1023 - (stackLeft s / 1024 - 1)) with (1024 - stackLeft s / 1024) in Hw by lia.
  exists f, g. split; [|done]. unfold popPageFrame. destruct (i_frame _ _ _ _ _ _ _ I g _ Hg) as (? & ? & _).
  assert (0 <= 1024 - stackLeft s / 1024 < 1024) by (Z.to_euclidean_division_equations; lia).
  rewrite (scoped_ok fuel _ _ _ g (with_held ({[physMutex]} ∪ held s) (with_stack 0 (stackLeft s - 1024)
    (with_phys (<[f + 4 * (1024 - stackLeft s / 1024) := 0]> (phys s)) s))) Hh Hfuel); [done| |done].
  rewrite run_get_mm. cbn [stackUsed stackLeft with_held]. rewrite Hu, Z.eqb_refl, (proj2 (Z.ltb_lt _ _)) by lia.
  replace (u32 (stack - stackLeft s * 4)) with (page_va 1022 (1024 - stackLeft s / 1024)).
  2:{ rewrite <-slot_address_page by (Z.to_euclidean_division_equations; lia). f_equal.
      Z.to_euclidean_division_equations. lia. }
  assert (inv own K (with_held ({[physMutex]} ∪ held s) s)) as I' by exact I.
  erewrite bind_ok; [|apply (getPhysicalAddress_kernel _ own K _ 1022 _ f (g + 3) I'); [lia|done..]].
  erewrite bind_ok; [|eapply unMap_kernel; [lia|lia|apply (kernel_present own K _ _ 1022 _ f 0 0 I'); done || lia]].
  rewrite run_modify_mm. cbn [stackUsed stackLeft with_phys with_held].
  rewrite pte_frame_add by lia. rewrite Hu. unfold with_stack. cbn.
  rewrite u32_small by (Z.to_euclidean_division_equations; lia). done.
Qed.

(** How the operations on the kernel's tables change the rest of the state:
    roles other than the free frames are kept, frames outside the memory
    manager and the user half of every address space are not touched. *)
Definition user_word own (x : Z) : Prop :=
  (∃ g j, x = g + 4 * j ∧ 0 <= j < 1024 ∧ g mod 4096 = 0 ∧ own !! g = None) ∨
  (∃ g a i j, x = g + 4 * j ∧ 0 <= j < 1024 ∧ own !! g = Some (Table a i) ∧ a ≠ kernelSpace) ∨
  (∃ g a j, x = g + 4 * j ∧ 0 <= j < 768 ∧ own !! g = Some (Directory a)).

Record evolves own s own' s' : Prop := {
  e_objects : same_objects s s';
  e_mapped : ∀ x, is_Some (phys s !! x) → is_Some (phys s' !! x);
  e_roles : ∀ g r, own !! g = Some r → available r ∨ own' !! g = Some r;
  e_none : ∀ g, own !! g = None → own' !! g = None;
  e_user : ∀ x, user_word own x → phys s' !! x = phys s !! x;
}.

Lemma user_word_evolves own s own' s' x : evolves own s own' s' → user_word own x → user_word own' x.
Proof.
  intros [_ _ Hr Hn _] [(g & j & ? & ? & ? & Hg)|[(g & a & i & j & ? & ? & Hg & ?)|(g & a & j & ? & ? & Hg)]].
  - left. exists g, j. auto.
  - right; left. exists g, a, i, j. destruct (Hr _ _ Hg) as [Hav|]; [by cbn in Hav|auto].
  - right; right. exists g, a, j. destruct (Hr _ _ Hg) as [Hav|]; [by cbn in Hav|auto].
Qed.

Lemma evolves_trans own s own1 s1 own2 s2 :
  evolves own s own1 s1 → evolves own1 s1 own2 s2 → evolves own s own2 s2.
Proof.
  intros E1 E2. pose proof (λ x, user_word_evolves own s own1 s1 x E1). destruct E1 as [O1 M1 R1 N1 U1], E2 as [O2 M2 R2 N2 U2].
  split; auto.
  - unfold same_objects in *. intuition congruence.
  - intros g r Hg. destruct (R1 g r Hg) as [|H1]; [by left|auto].
  - intros x Hx. rewrite U2, U1 by auto. done.
Qed.

Lemma evolves_refl own s : evolves own s own s.
Proof. split; try done. auto. Qed.

(** A word of a frame with a role is not a user word unless the role says so. *)
Lemma role_not_user own K s f r j :
  inv own K s → own !! f = Some r → 0 <= j < 1024 →
  match r with Directory _ => 768 <= j | Table a _ => a = kernelSpace | _ => True end →
  ¬ user_word own (f + 4 * j).
Proof.
  intros I Hf Hj Hr. destruct (i_frame _ _ _ _ _ _ _ I f r Hf) as (_ & Ha & _).
  intros [(g & k & He & Hk & Hg & Hn)|[(g & a & i & k & He & Hk & Hg & Ha')|(g & a & k & He & Hk & Hg)]].
  - apply frame_words in He as [-> _]; [congruence|done..].
  - destruct (i_frame _ _ _ _ _ _ _ I g _ Hg) as (_ & Hg' & _).
    apply frame_words in He as [-> ->]; [|done..]. rewrite Hf in Hg. by simplify_eq.
  - destruct (i_frame _ _ _ _ _ _ _ I g _ Hg) as (_ & Hg' & _).
    apply frame_words in He as [-> ->]; [|done || lia..]. rewrite Hf in Hg. simplify_eq. lia.
Qed.

(** A stored word that is not a user word. *)
Lemma evolves_store own own' s s' x w :
  same_objects s s' → phys s' = <[x := w]> (phys s) → is_Some (phys s !! x) → ¬ user_word own x →
  (∀ g r, own !! g = Some r → available r ∨ own' !! g = Some r) →
  (∀ g, own !! g = None → own' !! g = None) → evolves own s own' s'.
Proof.
  intros Ho Hp Hx Hu Hr Hn. split; try done; rewrite Hp.
  - intros y Hy. apply lookup_insert_is_Some'. auto.
  - intros y Hy. apply lookup_insert_ne. by intros ->.
Qed.

(** Popping takes a frame away from the memory manager. *)
Lemma pop_ok own K s n :
  inv own K s → (0 < fuel)%nat → physMutex ∉ held s → 0 < frames_left s →
  ∃ f r s', popPageFrame fuel (mapAtWithFlags fuel (Datatypes.S n)) s = Ok (f, s') ∧
    own !! f = Some r ∧ available r ∧ inv (delete f own) K s' ∧ evolves own s (delete f own) s' ∧
    frames_left s' = frames_left s - 1 ∧
    (0 < stackUsed s → stackUsed s' = stackUsed s - 1 ∧ stackLeft s' = stackLeft s + 1 ∧ top_is own K s f) ∧
    ∀ x, (∀ g j, own !! g = Some (Table kernelSpace 1022) → 0 <= j < 1024 → x ≠ g + 4 * j) →
      phys s' !! x = phys s !! x.
Proof.
  intros I Hfuel Hh Hpos. destruct (i_count _ _ _ _ _ _ _ I) as (? & ? & ? & ?).
  unfold frames_left in *. assert (0 < stackUsed s + stackLeft s) by (Z.to_euclidean_division_equations; lia).
  assert (∀ f r, own !! f = Some r → available r →
    (∀ g r', own !! g = Some r' → available r' ∨ delete f own !! g = Some r') ∧
    (∀ g, own !! g = None → delete f own !! g = None)) as Hdel.
  { intros f r Hf Hr. split.
    - intros g r' Hg. destruct (decide (f = g)) as [<-|]; [left; congruence|right; by rewrite lookup_delete_ne].
    - intros g Hg. apply lookup_delete_None. by right. }
  destruct (decide (stackUsed s = 0)) as [Hu|Hu].
  - destruct (pop_page own K s n I Hfuel Hh Hu) as (f & g & Hrun & Hg & Hf); [lia|].
    exists g, (StackPage (stackLeft s / 1024 - 1)). eexists. split; [exact Hrun|]. split; [done|]. split; [done|].
    assert (0 <= 1024 - stackLeft s / 1024 < 1024) by (rewrite Hu in *; Z.to_euclidean_division_equations; lia).
    split; [apply inv_pop_page; done || lia|]. split; [|split].
    + destruct (Hdel g _ Hg) as [? ?]; [done|]. eapply evolves_store; [done|done| |by eapply role_not_user|done|done].
      by apply (i_frame _ _ _ _ _ _ _ I f _ Hf).
    + mms. rewrite Hu. Z.to_euclidean_division_equations. lia.
    + split; [lia|]. mms. intros x Hx. apply lookup_insert_ne. apply not_eq_sym. by apply Hx.
  - destruct (pop_used (mapAtWithFlags fuel (Datatypes.S n)) own K s I Hfuel Hh) as (f & Hrun & Hf & Htop); [lia|].
    exists f, (Free (stackUsed s)). eexists. split; [exact Hrun|]. split; [done|]. split; [done|].
    split; [apply inv_pop; done || lia|].
    split; [|split; [mms; replace (stackUsed s - 1 + (stackLeft s + 1)) with (stackUsed s + stackLeft s) by lia; lia|by split]].
    destruct (Hdel f _ Hf) as [? ?]; [done|]. by split.
Qed.

Lemma inv_push own K s f g w :
  inv own K s → 0 < stackLeft s → own !! f = Some (Free (stackUsed s + 1)) →
  own !! g = Some (StackPage (slot_page (stackUsed s + 1))) →
  maps own K (phys s) 1022 (1023 - slot_page (stackUsed s + 1)) g → w = slot_word (stackUsed s + 1) →
  inv own K (with_stack (stackUsed s + 1) (stackLeft s - 1) (with_phys (<[g + 4 * w := f]> (phys s)) s)).
Proof.
  intros I Hl Hf Hg Hgm ->. pose proof (i_dir_K _ _ _ _ _ _ _ I) as HK.
  destruct (i_count _ _ _ _ _ _ _ I) as (? & ? & ? & ?).
  destruct (slot_bounds (stackUsed s + 1) (stackUsed s + 1) (stackLeft s - 1)) as (Hp & ? & ?);
    [lia|lia|by replace (stackUsed s + 1 + (stackLeft s - 1)) with (stackUsed s + stackLeft s) by lia|lia|].
  replace (stackUsed s + 1 + (stackLeft s - 1)) with (stackUsed s + stackLeft s) in Hp by lia.
  set (x := g + 4 * slot_word (stackUsed s + 1)).
  assert (∀ h r j, own !! h = Some r → 0 <= j < 1024 → r ≠ StackPage (slot_page (stackUsed s + 1)) →
    <[x := f]> (phys s) !! (h + 4 * j) = phys s !! (h + 4 * j)) as Hother.
  { intros h r j Hh Hj Hr. apply lookup_insert_ne. by eapply (role_words _ _ _ _ _ _ _ I). }
  assert (∀ i j h, 0 <= i < 1024 → 0 <= j < 1024 → maps own K (phys s) i j h → maps own K (<[x := f]> (phys s)) i j h) as Hmaps.
  { intros i j h Hi Hj (t & ? & ? & ?). exists t. by rewrite (Hother K (Directory kernelSpace)), (Hother t (Table kernelSpace i)). }
  pose proof I as II. destruct II. constructor; mms; try done.
  - intros h r Hh. destruct (i_frame0 h r Hh) as (? & ? & Hb). split_and!; [lia..|done|].
    intros j Hj. apply lookup_insert_is_Some'. auto.
  - by rewrite (Hother K (Directory kernelSpace)).
  - intros i Hi. rewrite (Hother K (Directory kernelSpace)) by (done || lia). auto.
  - intros a y i Hy Hi. rewrite (Hother K (Directory kernelSpace)), (Hother (pageDir y) (Directory a)) by (eauto || lia). eauto.
  - intros a y i Hy Ha Hi. rewrite (Hother (pageDir y) (Directory a)) by (eauto || lia). eauto.
  - intros a y Hy Ha. destruct (i_mapped0 a y Hy Ha) as (i & j & ? & ? & ? & ?).
    exists i, j. split_and!; try (done || lia). apply Hmaps; [lia|lia|done].
  - by replace (stackUsed s + 1 + (stackLeft s - 1)) with (stackUsed s + stackLeft s) by lia; lia.
  - by rewrite (Hother K (Directory kernelSpace)).
  - intros j Hj. replace (stackUsed s + 1 + (stackLeft s - 1)) with (stackUsed s + stackLeft s) in Hj by lia.
    destruct (i_stack0 j Hj) as (h & ? & ?). exists h. split; [done|].
    apply Hmaps; [lia| |done]. Z.to_euclidean_division_equations. lia.
  - intros k Hk. destruct (decide (k = stackUsed s + 1)) as [->|Hne].
    + exists f, g. split; [done|]. split; [done|]. split; [|by rewrite lookup_insert_eq].
      apply Hmaps; [lia|lia|done].
    + destruct (i_free0 k) as (f' & g' & ? & Hg' & ? & ?); [lia|]. exists f', g'.
      destruct (slot_bounds k (stackUsed s) (stackLeft s)) as (? & ? & ?); [lia..|].
      split; [done|]. split; [done|]. split; [apply Hmaps; [lia|lia|done]|].
      rewrite lookup_insert_ne; [done|]. intros He. unfold x in He.
      destruct (i_frame0 g _ Hg) as (_ & Ha & _), (i_frame0 g' _ Hg') as (_ & Ha' & _).
      apply frame_words in He as [-> Hw]; [|done..]. rewrite Hg in Hg'. simplify_eq.
      unfold slot_word, slot_page in *. Z.to_euclidean_division_equations. lia.
Qed.

Lemma inv_push_page own K s g f :
  inv own K s → stackLeft s = 0 → stackUsed s < 1024 * 1024 →
  own !! g = Some (StackPage (stackUsed s / 1024)) →
  phys s !! (K + 4 * 1022) = Some (f + 3) → own !! f = Some (Table kernelSpace 1022) →
  inv own K (with_stack (stackUsed s) 1024
    (with_phys (<[f + 4 * (1023 - stackUsed s / 1024) := g + 3]> (phys s)) s)).
Proof.
  intros I Hl Hu Hg He Hf. destruct (i_count _ _ _ _ _ _ _ I) as (? & _ & Hm & ?). rewrite Hl, Z.add_0_r in *.
  assert (0 <= stackUsed s / 1024 < 1024) by (Z.to_euclidean_division_equations; lia).
  assert ((stackUsed s + 1024) / 1024 = stackUsed s / 1024 + 1) as Hd by (Z.to_euclidean_division_equations; lia).
  pose proof (i_dir_K _ _ _ _ _ _ _ I) as HK.
  assert (inv own K (with_phys (<[f + 4 * (1023 - stackUsed s / 1024) := g + 3]> (phys s)) s)) as I'.
  { apply (inv_write_table own K s f 1022); [done|done|lia|]. rewrite Hl, Z.add_0_r.
    intros [[_ Hp]|(a & x & Hx & Ha & Hp)]; [lia|].
    destruct (i_mapped _ _ _ _ _ _ _ I a x Hx Ha) as (i & j & ? & ? & Hp' & _). rewrite Hp' in Hp.
    apply page_va_inj in Hp; lia. }
  destruct I'. unfold inv. mms. constructor; try done.
  - Z.to_euclidean_division_equations. lia.
  - mms. intros j Hj. rewrite Hd in Hj. destruct (decide (j = stackUsed s / 1024)) as [->|].
    + exists g. split; [done|]. exists f. split; [|split; [done|by rewrite lookup_insert_eq]].
      rewrite lookup_insert_ne; [done|]. eapply (role_words _ _ _ _ _ _ _ I); [done|exact HK|done|lia|lia].
    + apply i_stack0. mms. rewrite Hl, Z.add_0_r. lia.
Qed.

Lemma insert_roles own f r :
  own !! f = None → (∀ g x, own !! g = Some x → available x ∨ <[f := r]> own !! g = Some x).
Proof. intros Hf g x Hg. right. rewrite lookup_insert_ne; [done|]. congruence. Qed.

(** What pushing [f] leaves behind: a new page of the stack when the last one is
    full, one more slot in use otherwise. *)
Definition pushed own K s f s' : Prop :=
  (stackLeft s = 0 ∧ ∃ t, phys s !! (K + 4 * 1022) = Some (t + 3) ∧ own !! t = Some (Table kernelSpace 1022) ∧
     s' = with_stack (stackUsed s) 1024 (with_phys (<[t + 4 * (1023 - stackUsed s / 1024) := f + 3]> (phys s)) s)) ∨
  (0 < stackLeft s ∧ ∃ g, own !! g = Some (StackPage (slot_page (stackUsed s + 1))) ∧
     maps own K (phys s) 1022 (1023 - slot_page (stackUsed s + 1)) g ∧
     s' = with_stack (stackUsed s + 1) (stackLeft s - 1)
       (with_phys (<[g + 4 * slot_word (stackUsed s + 1) := f]> (phys s)) s)).

Lemma slot_bounds_next own K s :
  inv own K s → 0 < stackLeft s → 0 <= slot_page (stackUsed s + 1) < (stackUsed s + stackLeft s) / 1024 ∧
    0 <= slot_page (stackUsed s + 1) < 1024 ∧ 0 <= slot_word (stackUsed s + 1) < 1024.
Proof.
  intros I Hl. destruct (i_count _ _ _ _ _ _ _ I) as (? & ? & Hm & ?).
  replace (stackUsed s + stackLeft s) with (stackUsed s + 1 + (stackLeft s - 1)) in * by lia.
  apply (slot_bounds (stackUsed s + 1)); lia.
Qed.

Lemma push_runs own K s n f :
  inv own K s → (0 < fuel)%nat → physMutex ∉ held s → (stackLeft s = 0 → stackUsed s < 1024 * 1024) →
  0 < f < 2 ^ 32 → f mod 4096 = 0 →
  ∃ s', pushPageFrame fuel (mapAtWithFlags fuel (Datatypes.S n)) f s = Ok (tt, s') ∧ pushed own K s f s'.
Proof.
  intros I Hfuel Hh Hroom Hf Ha. destruct (i_count _ _ _ _ _ _ _ I) as (? & ? & Hm & ?).
  unfold pushPageFrame. set (h := {[physMutex]} ∪ held s). destruct (decide (stackLeft s = 0)) as [Hl|Hl].
  - specialize (Hroom Hl).
    assert (0 <= stackUsed s / 1024 < 1024) by (Z.to_euclidean_division_equations; lia).
    destruct (i_table _ _ _ _ _ _ _ I 1022) as [Hz|(t & He & Ht)]; [lia|by destruct (i_stack_table _ _ _ _ _ _ _ I)|].
    eexists. split; [|left; split; [done|]; exists t; split_and!; [done..|reflexivity]].
    apply (scoped_ok fuel _ _ _ tt (with_held h
      (with_stack (stackUsed s) 1024 (with_phys (<[t + 4 * (1023 - stackUsed s / 1024) := f + 3]> (phys s)) s))) Hh Hfuel); [|done].
    fold h. rewrite run_get_mm. mms. rewrite Hl, Z.eqb_refl.
    replace (u32 (stack - stackUsed s * 4 - PAGESIZE)) with (page_va 1022 (1023 - stackUsed s / 1024)).
    2:{ unfold stack, PAGESIZE. rewrite u32_small; unfold page_va; Z.to_euclidean_division_equations; lia. }
    erewrite bind_ok; [|rewrite mapAt_kernel by (done || lia);
      apply (kernel_present own K (with_held h s) n 1022 _ t f 3 I); done || lia].
    unfold modify_mm. mms. rewrite u32_small by lia. rewrite Hl. done.
  - destruct (slot_bounds_next own K s I) as (Hp & ? & ?); [lia|].
    destruct (i_stack _ _ _ _ _ _ _ I _ Hp) as (g & Hg & Hgm). destruct (i_frame _ _ _ _ _ _ _ I g _ Hg) as (? & ? & Hgb).
    eexists. split; [|right; split; [lia|]; exists g; split_and!; [done..|reflexivity]].
    apply (scoped_ok fuel _ _ _ tt (with_held h
      (with_stack (stackUsed s + 1) (stackLeft s - 1)
        (with_phys (<[g + 4 * slot_word (stackUsed s + 1) := f]> (phys s)) s))) Hh Hfuel); [|done].
    fold h. rewrite run_get_mm. mms. rewrite (proj2 (Z.eqb_neq (stackLeft s) 0)) by done.
    rewrite run_modify_mm, run_get_mm. mms. rewrite (u32_small (stackUsed s + 1)) by lia. rewrite slot_address by lia.
    erewrite bind_ok; [|apply vstore_ok; [apply (walk_maps _ _ _ _ _ _ _ I); [lia|lia|lia|done|exact Hgm]|by apply Hgb|lia]].
    unfold modify_mm. mms. rewrite u32_small by lia. done.
Qed.

(** A pushed frame belongs to the memory manager. *)
Lemma pushed_ok own K s f s' :
  inv own K s → (stackLeft s = 0 → stackUsed s < 1024 * 1024) →
  own !! f = None → 0 < f < 2 ^ 32 → f mod 4096 = 0 → backed (phys s) f → pushed own K s f s' →
  ∃ r, available r ∧ inv (<[f := r]> own) K s' ∧ same_objects s s' ∧
    frames_left s' = frames_left s + 1 ∧
    (0 < stackLeft s → stackUsed s' = stackUsed s + 1 ∧ stackLeft s' = stackLeft s - 1 ∧ top_is (<[f := r]> own) K s' f) ∧
    (∀ x, user_word (<[f := r]> own) x → phys s' !! x = phys s !! x) ∧
    (∀ x, (∀ g j r', own !! g = Some r' → r' = Table kernelSpace 1022 ∨ available r' → 0 <= j < 1024 → x ≠ g + 4 * j) →
      phys s' !! x = phys s !! x).
Proof.
  intros I Hroom Hn Hf Ha Hb Hpush. destruct (i_count _ _ _ _ _ _ _ I) as (? & ? & Hm & ?).
  assert (∀ r g r', own !! g = Some r' → <[f := r]> own !! g = Some r') as Hins by (intros r g r' Hg; rewrite lookup_insert_ne; congruence).
  destruct Hpush as [(Hl & t & He & Ht & ->)|(Hl & g & Hg & Hgm & ->)].
  - specialize (Hroom Hl). set (r := StackPage (stackUsed s / 1024)). exists r.
    assert (0 <= stackUsed s / 1024 < 1024) by (Z.to_euclidean_division_equations; lia).
    assert (inv (<[f := r]> own) K s) as I1 by (by apply inv_own_insert). pose proof (Hins r _ _ Ht) as Ht1.
    split; [done|]. split.
    { by apply (inv_push_page (<[f := r]> own) K s f t I1); [..|apply lookup_insert_eq| |]. } split; [done|].
    split; [unfold frames_left; mms; rewrite Hl; Z.to_euclidean_division_equations; lia|]. split; [lia|]. split; mms.
    + intros x Hx. apply lookup_insert_ne. intros <-. revert Hx. by apply (role_not_user _ K s _ (Table kernelSpace 1022) _ I1 Ht1); [lia|].
    + intros x Hx. apply lookup_insert_ne. apply not_eq_sym. eapply Hx; [done|by left|lia].
  - destruct (slot_bounds_next own K s I Hl) as (Hp & ? & ?). set (r := Free (stackUsed s + 1)). exists r.
    assert (inv (<[f := r]> own) K s) as I1 by (by apply inv_own_insert). pose proof (Hins r _ _ Hg) as Hg1.
    assert (maps (<[f := r]> own) K (phys s) 1022 (1023 - slot_page (stackUsed s + 1)) g) as Hgm1.
    { destruct Hgm as (t & ? & ? & ?). exists t. split; [done|]. split; [by apply Hins|done]. }
    split; [done|]. split.
    { apply (inv_push (<[f := r]> own) K s f g _ I1); try done; apply lookup_insert_eq. } split; [done|].
    split; [unfold frames_left; mms; replace (stackUsed s + 1 + (stackLeft s - 1)) with (stackUsed s + stackLeft s) by lia; lia|].
    split.
    { intros _. split; [done|]. split; [done|]. split; [mms; lia|]. exists g. mms. split; [|apply lookup_insert_eq].
      destruct Hgm1 as (t & Ht & Htr & Hw). exists t.
      split; [rewrite lookup_insert_ne; [done|]|split; [done|rewrite lookup_insert_ne; [done|]]].
      - apply (role_words _ _ _ _ _ _ _ I1 _ _ _ _ _ _ Hg1 (i_dir_K _ _ _ _ _ _ _ I1)); done || lia.
      - apply (role_words _ _ _ _ _ _ _ I1 _ _ _ _ _ _ Hg1 Htr); done || lia. }
    split; mms.
    + intros x Hx. apply lookup_insert_ne. intros <-. revert Hx. by apply (role_not_user _ K s _ _ _ I1 Hg1).
    + intros x Hx. apply lookup_insert_ne. apply not_eq_sym. eapply Hx; [done|by right|lia].
Qed.

(** Pushing gives a frame to the memory manager. *)
Lemma push_ok own K s n f :
  inv own K s → (0 < fuel)%nat → physMutex ∉ held s →
  (stackLeft s = 0 → stackUsed s < 1024 * 1024) →
  own !! f = None → 0 < f < 2 ^ 32 → f mod 4096 = 0 → backed (phys s) f →
  ∃ r s', pushPageFrame fuel (mapAtWithFlags fuel (Datatypes.S n)) f s = Ok (tt, s') ∧
    available r ∧ inv (<[f := r]> own) K s' ∧ same_objects s s' ∧
    frames_left s' = frames_left s + 1 ∧
    (0 < stackLeft s → stackUsed s' = stackUsed s + 1 ∧ stackLeft s' = stackLeft s - 1 ∧ top_is (<[f := r]> own) K s' f) ∧
    (∀ x, user_word (<[f := r]> own) x → phys s' !! x = phys s !! x) ∧
    (∀ x, (∀ g j r', own !! g = Some r' → r' = Table kernelSpace 1022 ∨ available r' → 0 <= j < 1024 → x ≠ g + 4 * j) →
      phys s' !! x = phys s !! x).
Proof.
  intros I Hfuel Hh Hroom Hn Hf Ha Hb. destruct (push_runs own K s n f I Hfuel Hh Hroom Hf Ha) as (s' & Hrun & Hp).
  destruct (pushed_ok own K s f s' I Hroom Hn Hf Ha Hb Hp) as (r & H). by exists r, s'.
Qed.

(** ** A new kernel table *)
Definition agree (X : Z → Prop) (m m' : gmap Z Z) : Prop :=
  (∀ x, ¬ X x → m' !! x = m !! x) ∧ (∀ x, is_Some (m !! x) → is_Some (m' !! x)).

Lemma agree_refl X m : agree X m m.
Proof. done. Qed.
Lemma agree_trans X m1 m2 m3 : agree X m1 m2 → agree X m2 m3 → agree X m1 m3.
Proof. intros [A1 B1] [A2 B2]. split; [|auto]. intros x Hx. by rewrite A2, A1. Qed.
Lemma agree_insert (X : Z → Prop) m x w : X x → agree X m (<[x := w]> m).
Proof.
  intros Hx. split; [|intros y Hy; apply lookup_insert_is_Some'; auto].
  intros y Hy. apply lookup_insert_ne. by intros ->.
Qed.
Lemma agree_weaken (X X' : Z → Prop) m m' : (∀ x, X x → X' x) → agree X m m' → agree X' m m'.
Proof. intros H [A B]. split; [|done]. intros x Hx. apply A. auto. Qed.

(** The words of a frame. *)
Definition in_frame (f x : Z) : Prop := ∃ j, 0 <= j < 1024 ∧ x = f + 4 * j.

Lemma walk_recursive m cr K i j f :
  0 <= i < 1024 → 0 <= j < 1024 → K mod 4096 = 0 → f mod 4096 = 0 →
  m !! (cr + 4 * 1023) = Some (K + 3) → m !! (K + 4 * i) = Some (f + 3) →
  walk m cr (RECURSIVE_MAPPING + PAGESIZE * i + 4 * j) = Some (f + 4 * j, true).
Proof.
  intros Hi Hj HK Hf H1 H2. replace (RECURSIVE_MAPPING + PAGESIZE * i) with (page_va 1023 i)
    by (unfold page_va, RECURSIVE_MAPPING, PAGESIZE; lia).
  rewrite (walk_table m cr 1023 i _ K 3 (f + 3)) by (done || lia || auto).
  by rewrite !testbit_add, pte_frame_add by lia.
Qed.

(** Clearing a page that stays mapped while it is cleared. *)
Lemma clear_ok page f s :
  backed (phys s) f →
  (∀ m j, agree (in_frame f) (phys s) m → 0 <= j < 1024 → walk m (cr3 s) (page + 4 * j) = Some (f + 4 * j, true)) →
  ∃ m, clear_page page s = Ok (tt, with_phys m s) ∧ agree (in_frame f) (phys s) m ∧
    ∀ j, 0 <= j < 1024 → m !! (f + 4 * j) = Some 0.
Proof.
  intros Hb Hw. unfold clear_page.
  enough (∀ n i m, agree (in_frame f) (phys s) m → 0 <= i → i + Z.of_nat n = 1024 →
    (∀ j, 0 <= j < i → m !! (f + 4 * j) = Some 0) →
    ∃ m', for_n n i (λ i, vstore (page + 4 * i) 0) (with_phys m s) = Ok (tt, with_phys m' s) ∧
      agree (in_frame f) (phys s) m' ∧ ∀ j, 0 <= j < 1024 → m' !! (f + 4 * j) = Some 0) as Hloop.
  { destruct (Hloop 1024%nat 0 (phys s)) as (m & Hm); [apply agree_refl|lia|lia|lia|].
    exists m. by destruct s. }
  intros n. induction n as [|n IH]; intros i m Hm Hi Hn Hz.
  - exists m. split; [done|]. split; [done|]. intros j Hj. apply Hz. lia.
  - rewrite (for_n_succ _ _ _ _ (with_phys (<[f + 4 * i := 0]> m) s)).
    + apply IH; [|lia|lia|].
      * eapply agree_trans; [exact Hm|]. apply agree_insert. exists i. split; [lia|done].
      * intros j Hj. destruct (decide (j = i)) as [->|]; [by rewrite lookup_insert_eq|].
        rewrite lookup_insert_ne by lia. apply Hz. lia.
    + rewrite (vstore_ok _ _ (f + 4 * i)); [done| | |lia]; mms.
      * apply Hw; [done|lia].
      * apply Hm, Hb. lia.
Qed.

(** Entering a table in every address space of the list. *)
Lemma propagate_ok l s i f :
  linked (spaces s) (firstAddressSpace s) l → (length l < fuel)%nat →
  f mod 4096 = 0 → 0 <= f → f + 3 < 2 ^ 32 →
  (∀ a x, a ∈ l → spaces s !! a = Some x → is_Some (phys s !! (pageDir x + 4 * i))) →
  (∀ m, agree (λ x, ∃ a y, spaces s !! a = Some y ∧ x = pageDir y + 4 * i) (phys s) m →
     ∀ a x, a ∈ l → spaces s !! a = Some x →
     walk m (cr3 s) (pageDirMapped x + 4 * i) = Some (pageDir x + 4 * i, true)) →
  ∃ m, propagate fuel i f s = Ok (tt, with_phys m s) ∧
    agree (λ x, ∃ a y, a ∈ l ∧ spaces s !! a = Some y ∧ x = pageDir y + 4 * i) (phys s) m ∧
    ∀ a x, a ∈ l → spaces s !! a = Some x → m !! (pageDir x + 4 * i) = Some (f + 3).
Proof.
  intros Hl Hlen Hf Hf0 Hf3 Hb Hw. unfold propagate. rewrite run_get_mm.
  assert (Z.lor (Z.lor f PAGE_PRESENT) PAGE_WRITABLE = f + 3) as ->.
  { rewrite <-Z.lor_assoc. apply (lor_aligned f 3 Hf). lia. }
  match goal with |- context [loop _ ?b _] => set (body := b) end.
  set (X := λ x, ∃ a y, a ∈ l ∧ spaces s !! a = Some y ∧ x = pageDir y + 4 * i).
  enough (∀ l' n p m, linked (spaces s) p l' → l' ⊆ l → (length l' < n)%nat → agree X (phys s) m →
    ∃ m', loop n body p (with_phys m s) = Ok (tt, with_phys m' s) ∧ agree X (phys s) m' ∧
      (∀ x, m' !! x = m !! x ∨ m' !! x = Some (f + 3)) ∧
      ∀ a x, a ∈ l' → spaces s !! a = Some x → m' !! (pageDir x + 4 * i) = Some (f + 3)) as Hloop.
  { destruct (Hloop l fuel (firstAddressSpace s) (phys s)) as (m & Hm & ? & _ & ?); try done.
    exists m. split; [|done]. by destruct s. }
  intros l'. induction l' as [|a l' IH]; intros n p m Hlk Hsub Hn Hm; (destruct n as [|n]; [cbn in Hn; lia|]).
  - cbn in Hlk. subst p. exists m. split; [done|]. split; [done|]. split; [by left|].
    intros a x Ha. by apply elem_of_nil in Ha.
  - destruct Hlk as (-> & Ha0 & x & Hx & Hlk). assert (a ∈ l) as Hal by (apply Hsub; left).
    assert (agree X (phys s) (<[pageDir x + 4 * i := f + 3]> m)) as Hm'.
    { eapply agree_trans; [exact Hm|]. apply agree_insert. by exists a, x. }
    destruct (IH n (as_next x) (<[pageDir x + 4 * i := f + 3]> m)) as (m' & Hrun & ? & Hor & Hin);
      [done|set_solver|cbn in Hn; lia|done|].
    exists m'. split; [|split; [done|split]].
    + erewrite loop_next; [exact Hrun|]. unfold body. rewrite (proj2 (Z.eqb_neq a 0)) by done.
      assert (get_space a (with_phys m s) = Ok (x, with_phys m s)) as Hg by (unfold get_space; mms; by rewrite Hx).
      rewrite (bind_ok _ _ _ _ _ Hg).
      erewrite bind_ok; [|apply (vstore_ok _ _ (pageDir x + 4 * i)); [|by apply Hm, (Hb a)|lia]]; [done|].
      mms. apply (Hw m) with a; [|done..]. eapply agree_weaken; [|exact Hm]. intros y (b & z & _ & ?). eauto.
    + intros y. destruct (Hor y) as [->|]; [|by right].
      destruct (decide (y = pageDir x + 4 * i)) as [->|]; [right; apply lookup_insert_eq|left].
      by rewrite lookup_insert_ne.
    + intros b y Hb' Hy. apply elem_of_cons in Hb' as [->|Hb']; [|eauto]. simplify_eq.
      destruct (Hor (pageDir x + 4 * i)) as [->|]; [|done]. apply lookup_insert_eq.
Qed.

(** The words that change when table [i] of the kernel is made in frame [f]. *)
Definition table_words (sp : gmap Z aspace) (i f x : Z) : Prop :=
  in_frame f x ∨ ∃ a y, sp !! a = Some y ∧ x = pageDir y + 4 * i.

Lemma inv_new_table own K s i f m :
  inv own K s → 768 <= i < 1023 → phys s !! (K + 4 * i) = Some 0 → own !! f = Some (Table kernelSpace i) →
  agree (table_words (spaces s) i f) (phys s) m →
  (∀ a x, spaces s !! a = Some x → m !! (pageDir x + 4 * i) = Some (f + 3)) →
  inv own K (with_phys m s).
Proof.
  intros I Hi Hz Hf [Hm Hb] Hnew. pose proof (i_dir_K _ _ _ _ _ _ _ I) as HK.
  destruct (i_frame _ _ _ _ _ _ _ I f _ Hf) as (_ & Hfa & _).
  assert (∀ g a j, own !! g = Some (Directory a) → 0 <= j < 1024 → j ≠ i → m !! (g + 4 * j) = phys s !! (g + 4 * j)) as HD.
  { intros g a j Hg Hj Hne. apply Hm. intros [(k & Hk & He)|(b & y & Hy & He)].
    - by apply (role_words _ _ _ _ _ _ _ I g f _ _ j k Hg Hf) in He.
    - pose proof (i_dir _ _ _ _ _ _ _ I b y Hy) as Hd.
      destruct (i_frame _ _ _ _ _ _ _ I g _ Hg) as (_ & ? & _), (i_frame _ _ _ _ _ _ _ I _ _ Hd) as (_ & ? & _).
      apply frame_words in He as [_ ?]; [done|done..|lia]. }
  assert (∀ g r j, own !! g = Some r → 0 <= j < 1024 → r ≠ Table kernelSpace i → (∀ a, r ≠ Directory a) →
    m !! (g + 4 * j) = phys s !! (g + 4 * j)) as HO.
  { intros g r j Hg Hj Hr Hr'. apply Hm. intros [(k & Hk & He)|(b & y & Hy & He)].
    - by apply (role_words _ _ _ _ _ _ _ I g f _ _ j k Hg Hf) in He.
    - pose proof (i_dir _ _ _ _ _ _ _ I b y Hy) as Hd.
      apply (role_words _ _ _ _ _ _ _ I g (pageDir y) _ _ j i Hg Hd) in He; [done|congruence|done|lia]. }
  assert (∀ i' j g, 0 <= i' < 1024 → 0 <= j < 1024 → maps own K (phys s) i' j g → maps own K m i' j g) as Hmaps.
  { intros i' j g Hi' Hj (t & Ht & Hr & Hw). destruct (i_frame _ _ _ _ _ _ _ I t _ Hr) as (? & _).
    assert (i' ≠ i) by (intros ->; simplify_eq; lia).
    exists t. by rewrite (HD K _ i' HK), (HO t _ j Hr) by (done || congruence). }
  destruct (i_kernel _ _ _ _ _ _ _ I) as (xk & Hxk & HKd & _).
  pose proof I as II. destruct II. constructor; mms; try done.
  - intros h r Hh. destruct (i_frame0 h r Hh) as (? & ? & Hbk). split_and!; [lia..|done|]. auto.
  - by rewrite (HD K _ 1023 HK) by lia.
  - intros j Hj. destruct (decide (j = i)) as [->|].
    + right. exists f. rewrite <-HKd at 1. by rewrite (Hnew _ _ Hxk).
    + rewrite (HD K _ j HK) by lia. auto.
  - intros a y j Hy Hj. destruct (decide (j = i)) as [->|].
    + rewrite (Hnew a y Hy), <-HKd. by rewrite (Hnew _ _ Hxk).
    + rewrite (HD K _ j HK), (HD _ a j) by (eauto || lia). eauto.
  - intros a y j Hy Ha Hj. rewrite (HD _ a j) by (eauto || lia). eauto.
  - intros a y Hy Ha. destruct (i_mapped0 a y Hy Ha) as (j & k & ? & ? & ? & ?).
    exists j, k. split_and!; try (done || lia). apply Hmaps; [lia|lia|done].
  - rewrite (HD K _ 1022 HK); [done|lia|]. by intros <-.
  - intros j Hj. destruct (i_stack0 j Hj) as (h & ? & ?). exists h. split; [done|].
    apply Hmaps; [lia| |done]. Z.to_euclidean_division_equations. lia.
  - intros k Hk. destruct (i_free0 k Hk) as (f' & g' & ? & Hg' & ? & ?). exists f', g'.
    destruct (slot_bounds k (stackUsed s) (stackLeft s)) as (? & ? & ?); [lia..|].
    split; [done|]. split; [done|]. split; [apply Hmaps; [lia|lia|done]|].
    by rewrite (HO g' _ (slot_word k) Hg').
Qed.

(** The list of address spaces holds all of them but the kernel's, and is short
    enough for the loop over it. *)
Definition list_fits s : Prop := ∃ l, linked (spaces s) (firstAddressSpace s) l ∧
  (∀ a, a ∈ l ↔ a ≠ kernelSpace ∧ is_Some (spaces s !! a)) ∧ (length l < fuel)%nat.

(** The words of the directories lie in no other frame, and one to a directory. *)
Lemma directory_words own K s b x i j f :
  inv own K s → spaces s !! b = Some x → own !! f = Some (Table kernelSpace i) →
  0 <= i < 1024 → 0 <= j < 1024 → j ≠ i → ¬ table_words (spaces s) i f (pageDir x + 4 * j).
Proof.
  intros I Hx Hf Hi Hj Hne. pose proof (i_dir _ _ _ _ _ _ _ I b x Hx) as Hd.
  intros [(k & Hk & He)|(c & z & Hc & He)].
  - by apply (role_words _ _ _ _ _ _ _ I _ _ _ _ j k Hd Hf) in He.
  - pose proof (i_dir _ _ _ _ _ _ _ I c z Hc) as Hd'.
    destruct (i_frame _ _ _ _ _ _ _ I _ _ Hd) as (_ & ? & _), (i_frame _ _ _ _ _ _ _ I _ _ Hd') as (_ & ? & _).
    by apply frame_words in He as [_ ?].
Qed.

(** Translations that do not go through table [i] survive its making. *)
Lemma walk_agree own K s b x i f m i' j g :
  inv own K s → spaces s !! b = Some x → own !! f = Some (Table kernelSpace i) → 0 <= i < 1024 →
  agree (table_words (spaces s) i f) (phys s) m → phys s !! (K + 4 * i) = Some 0 →
  768 <= i' < 1023 → 0 <= j < 1024 → g mod 4096 = 0 → maps own K (phys s) i' j g →
  ∀ o, 0 <= o < 4096 → walk m (pageDir x) (page_va i' j + o) = Some (g + o, true).
Proof.
  intros I Hx Hf Hi [Hm _] Hz Hi' Hj Hga (t & Ht & Hr & Hw) o Ho.
  destruct (i_frame _ _ _ _ _ _ _ I t _ Hr) as (? & ? & _). assert (i' ≠ i) by (intros ->; simplify_eq; lia).
  rewrite (walk_table m _ i' j o t 3 (g + 3)); [|done|done|done|auto| |].
  - by rewrite !testbit_add, pte_frame_add by lia.
  - rewrite Hm by (apply (directory_words own K s b x i i' f I Hx Hf); lia). by rewrite (i_shared _ _ _ _ _ _ _ I b x i' Hx) by lia.
  - rewrite Hm; [done|]. intros [(k & Hk & He)|(c & z & Hc & He)].
    + apply (role_words _ _ _ _ _ _ _ I t f _ _ j k Hr Hf) in He; [done|congruence|done|done].
    + by apply (role_words _ _ _ _ _ _ _ I t _ _ _ j i Hr (i_dir _ _ _ _ _ _ _ I c z Hc)) in He.
Qed.

(** The new table is entered in the kernel's directory, cleared through the
    recursive entry, and entered in the directories of all address spaces. *)
Lemma enter_table own K s i f :
  inv own K s → list_fits s → listMutex ∉ held s → (0 < fuel)%nat → 768 <= i < 1023 →
  own !! f = Some (Table kernelSpace i) → phys s !! (K + 4 * i) = Some 0 →
  let page := RECURSIVE_MAPPING + PAGESIZE * i in
  ∃ m, (vstore (0xFFFFF000 + 4 * i) (f + 3);; clear_page page;;
        scoped fuel listMutex (propagate fuel i f);; mret page) s = Ok (page, with_phys m s) ∧
    agree (table_words (spaces s) i f) (phys s) m ∧
    (∀ a x, spaces s !! a = Some x → m !! (pageDir x + 4 * i) = Some (f + 3)) ∧
    ∀ j, 0 <= j < 1024 → m !! (f + 4 * j) = Some 0.
Proof.
  intros I (l & Hl & Hin & Hfit) Hlm Hfuel Hi Hf Hz page. set (X := table_words (spaces s) i f).
  pose proof (i_dir_K _ _ _ _ _ _ _ I) as HK. destruct (i_frame _ _ _ _ _ _ _ I K _ HK) as (_ & HKa & _).
  destruct (i_frame _ _ _ _ _ _ _ I f _ Hf) as (Hf32 & Hfa & Hfb).
  assert (f + 3 < 2 ^ 32) by (Z.to_euclidean_division_equations; lia).
  destruct (i_kernel _ _ _ _ _ _ _ I) as (xk & Hxk & HxK & _).
  erewrite bind_ok; [|apply vstore_ok; [apply (walk_directory own K _ _ _ _ _ I); lia|by eexists|lia]].
  set (m2 := <[K + 4 * i := f + 3]> (phys s)).
  assert (agree X (phys s) m2) as A2 by (apply agree_insert; right; exists kernelSpace, xk; by rewrite HxK).
  assert (∀ c z, spaces s !! c = Some z → ¬ in_frame f (pageDir z + 4 * i)) as Hdir.
  { intros c z Hc (k & Hk & He). by apply (role_words _ _ _ _ _ _ _ I _ f _ _ i k (i_dir _ _ _ _ _ _ _ I c z Hc) Hf) in He; [| |lia|]. }
  destruct (clear_ok page f (with_phys m2 s)) as (m3 & Hclear & A3 & Hz3).
  { intros j Hj. apply A2, Hfb, Hj. }
  { mms. intros m j Hm Hj. destruct (i_cur _ _ _ _ _ _ _ I) as (b & x & Hb & Hcur). rewrite Hcur.
    apply (walk_recursive m (pageDir x) K); [lia|done..| |].
    - assert (agree X (phys s) m) as [Hm' _] by (eapply agree_trans; [exact A2|]; eapply agree_weaken; [|exact Hm]; by left).
      rewrite Hm' by (apply (directory_words own K s b x i 1023 f I Hb Hf); lia). rewrite (i_shared _ _ _ _ _ _ _ I b x 1023 Hb) by lia.
      apply (i_self _ _ _ _ _ _ _ I).
    - rewrite (proj1 Hm) by (rewrite <-HxK; by eapply Hdir). apply lookup_insert_eq. }
  rewrite (bind_ok _ _ _ _ _ Hclear). change (with_phys m3 (with_phys m2 s)) with (with_phys m3 s).
  assert (agree X (phys s) m3) as A3' by (eapply agree_trans; [exact A2|]; eapply agree_weaken; [|exact A3]; by left).
  set (h := {[listMutex]} ∪ held s).
  destruct (propagate_ok l (with_held h (with_phys m3 s)) i f) as (m4 & Hprop & A4 & Hent); mms; try (done || lia).
  { intros a x _ Hx. apply A3'. apply (i_frame _ _ _ _ _ _ _ I _ _ (i_dir _ _ _ _ _ _ _ I a x Hx)). lia. }
  { intros m Hm a x Ha Hx. apply Hin in Ha as [Ha _]. destruct (i_cur _ _ _ _ _ _ _ I) as (b & y & Hb & ->).
    destruct (i_mapped _ _ _ _ _ _ _ I a x Hx Ha) as (i' & j & ? & ? & -> & Hmap).
    apply (walk_agree own K s b y i f m i' j); try (done || lia).
    - eapply agree_trans; [exact A3'|]. eapply agree_weaken; [|exact Hm]. by right.
    - by destruct (i_frame _ _ _ _ _ _ _ I _ _ (i_dir _ _ _ _ _ _ _ I a x Hx)) as (_ & ? & _). }
  exists m4. erewrite bind_ok; [|apply scoped_ok; [done|done|exact Hprop|done]].
  split; [done|]. split; [|split].
  - eapply agree_trans; [exact A3'|]. eapply agree_weaken; [|exact A4].
    intros y (a & z & _ & ? & ?). right. eauto.
  - intros a x Hx. destruct (decide (a = kernelSpace)) as [->|Ha].
    + assert (m3 !! (pageDir x + 4 * i) = Some (f + 3)) as H3.
      { rewrite (proj1 A3) by by eapply Hdir. simplify_eq. apply lookup_insert_eq. }
      rewrite (proj1 A4); [done|]. intros (a & y & Ha & Hy & He).
      pose proof (i_dir _ _ _ _ _ _ _ I a y Hy) as Hd1. pose proof (i_dir _ _ _ _ _ _ _ I _ x Hx) as Hd2.
      assert (pageDir x = pageDir y) as Heq by lia. rewrite Heq, Hd1 in Hd2. simplify_eq. by apply Hin in Ha as [? _].
    + apply Hent with a; [|done]. apply Hin. eauto.
  - intros j Hj. rewrite (proj1 A4); [by apply Hz3|]. intros (a & y & _ & Hy & He).
    apply (Hdir a y Hy). exists j. split; [done|lia].
Qed.

(** The kernel's table [i], found or made. *)
Lemma find_table_kernel own K s i n :
  inv own K s → list_fits s → listMutex ∉ held s → physMutex ∉ held s → (0 < fuel)%nat → 768 <= i < 1023 →
  phys s !! (K + 4 * i) ≠ Some 0 ∨ 0 < frames_left s →
  ∃ own' f s', find_page_table fuel (mapAtWithFlags fuel (Datatypes.S n)) kernelSpace i s =
      Ok (RECURSIVE_MAPPING + PAGESIZE * i, s') ∧
    inv own' K s' ∧ evolves own s own' s' ∧
    phys s' !! (K + 4 * i) = Some (f + 3) ∧ own' !! f = Some (Table kernelSpace i) ∧
    frames_left s - 1 <= frames_left s' ∧
    (phys s !! (K + 4 * i) ≠ Some 0 → s' = s ∧ own' = own) ∧
    (phys s !! (K + 4 * i) = Some 0 → ∀ j, 0 <= j < 1024 → phys s' !! (f + 4 * j) = Some 0) ∧
    ∀ i', 768 <= i' < 1022 → i' ≠ i → phys s' !! (K + 4 * i') = phys s !! (K + 4 * i') ∧
      ∀ g j, own !! g = Some (Table kernelSpace i') → 0 <= j < 1024 → phys s' !! (g + 4 * j) = phys s !! (g + 4 * j).
Proof.
  intros I Hfit Hlm Hpm Hfuel Hi Hcase. unfold find_page_table.
  destruct (get_kernel own K s I) as (xk & Hx & Hm & HxK).
  rewrite (bind_ok _ _ _ _ _ Hx), Hm, Z.eqb_refl.
  destruct (i_table _ _ _ _ _ _ _ I i) as [Hz|(f & He & Hf)]; [lia| |].
  2:{ destruct (i_frame _ _ _ _ _ _ _ I f _ Hf) as (? & ? & _).
      exists own, f, s. erewrite bind_ok; [|apply (load_directory own K); [done|lia|exact He]]. cbv beta.
      rewrite (proj2 (Z.eqb_neq (f + 3) 0)) by lia. split; [done|]. split; [done|].
      split; [apply evolves_refl|]. do 4 (split; [done || lia|]).
      split; [|done]. rewrite He. intros ?. simplify_eq. lia. }
  destruct Hcase as [|Hpos]; [done|].
  erewrite bind_ok; [|apply (load_directory own K); [done|lia|exact Hz]]. cbv beta. rewrite Z.eqb_refl.
  destruct (pop_ok own K s n I Hfuel Hpm Hpos) as (f & r & s1 & Hpop & Hfr & Hav & I1 & E1 & Hle & _ & Hsame).
  rewrite (bind_ok _ _ _ _ _ Hpop). destruct (i_frame _ _ _ _ _ _ _ I f _ Hfr) as (Hf32 & Hfa & Hfb).
  set (own1 := <[f := Table kernelSpace i]> (delete f own)).
  destruct (e_objects _ _ _ _ E1) as (Hcr1 & Hheld1 & Hfirst1 & Hsp1 & _ & _).
  assert (inv own1 K s1) as I2.
  { apply inv_own_insert; try done; [apply lookup_delete_eq|]. intros j Hj. apply (e_mapped _ _ _ _ E1), Hfb, Hj. }
  assert (own1 !! f = Some (Table kernelSpace i)) as Hf1 by apply lookup_insert_eq.
  pose proof (i_dir_K _ _ _ _ _ _ _ I) as HK.
  assert (∀ j, 0 <= j < 1024 → phys s1 !! (K + 4 * j) = phys s !! (K + 4 * j)) as HsK.
  { intros j Hj. apply Hsame. intros g k Hg Hk. by apply (role_words _ _ _ _ _ _ _ I K g _ _ j k HK Hg). }
  assert (Z.lor f (Z.lor PAGE_PRESENT PAGE_WRITABLE) = f + 3) as -> by (apply (lor_aligned f 3 Hfa); lia).
  destruct (enter_table own1 K s1 i f) as (m & Hrun & Hm' & Hent & Hz'); try done.
  { unfold list_fits. by rewrite Hsp1, Hfirst1. } { by rewrite Hheld1. } { by rewrite HsK by lia. }
  exists own1, f, (with_phys m s1). split; [exact Hrun|].
  assert (inv own1 K (with_phys m s1)) as I3.
  { apply (inv_new_table own1 K s1 i f); try done. by rewrite HsK by lia. }
  assert (∀ g r, own !! g = Some r → available r ∨ own1 !! g = Some r) as Hroles.
  { intros g r' Hg. destruct (decide (g = f)) as [->|]; [left; congruence|right].
    unfold own1. by rewrite lookup_insert_ne, lookup_delete_ne. }
  destruct (i_kernel _ _ _ _ _ _ _ I2) as (xk' & Hxk' & HxK' & _).
  split; [exact I3|]. split; [|split; [rewrite <-HxK' at 1; by apply Hent with kernelSpace|split; [done|]]].
  - split; [exact (e_objects _ _ _ _ E1)| |exact Hroles| |]; mms.
    + intros x Hx'. apply Hm', (e_mapped _ _ _ _ E1), Hx'.
    + intros g Hg. unfold own1. assert (f ≠ g) by congruence. by rewrite lookup_insert_ne, lookup_delete_ne.
    + intros x Hu. rewrite (proj1 Hm'); [by apply (e_user _ _ _ _ E1)|]. rewrite Hsp1. intros [(k & Hk & ->)|(a & y & Hy & ->)].
      * revert Hu. apply (role_not_user own K s f r k I Hfr Hk). by destruct r.
      * revert Hu. apply (role_not_user own K s _ (Directory a) i I); [by apply (i_dir _ _ _ _ _ _ _ I)|lia|lia].
  - split; [unfold frames_left in *; mms; lia|]. split; [done|]. split; [by intros _|]. intros i' Hi' Hne. mms. split.
    { rewrite <-(HsK i') by lia. rewrite (proj1 Hm'); [done|]. rewrite <-HxK'.
      apply (directory_words own1 K s1 kernelSpace xk' i i' f I2 Hxk' Hf1); lia. }
    intros g j Hg Hj. assert (own1 !! g = Some (Table kernelSpace i')) as Hg1 by (destruct (Hroles g _ Hg) as [[]|]; done).
    rewrite (proj1 Hm').
    + apply Hsame. intros g' k Hg' Hk. apply (role_words _ _ _ _ _ _ _ I g g' _ _ j k Hg Hg'); [|done..]. intros [=]. lia.
    + intros [(k & Hk & He)|(a & y & Hy & He)].
      * apply (role_words _ _ _ _ _ _ _ I2 g f _ _ j k Hg1 Hf1) in He; [done|congruence|done|done].
      * by apply (role_words _ _ _ _ _ _ _ I2 g _ _ _ j i Hg1 (i_dir _ _ _ _ _ _ _ I2 a y Hy)) in He; [| |lia|lia].
Qed.
(** A new entry of a process's directory. *)
Lemma inv_user_entry own K s a x i f :
  inv own K s → spaces s !! a = Some x → a ≠ kernelSpace → 0 <= i < 768 → own !! f = Some (Table a i) →
  inv own K (with_phys (<[pageDir x + 4 * i := f + 7]> (phys s)) s).
Proof.
  intros I Hx Ha Hi Hf. pose proof (i_dir _ _ _ _ _ _ _ I a x Hx) as Hd.
  assert (∀ g r j, own !! g = Some r → 0 <= j < 1024 → r ≠ Directory a ∨ j ≠ i →
    <[pageDir x + 4 * i := f + 7]> (phys s) !! (g + 4 * j) = phys s !! (g + 4 * j)) as HO.
  { intros g r j Hg Hj Hr. apply lookup_insert_ne. intros He.
    destruct (i_frame _ _ _ _ _ _ _ I g _ Hg) as (_ & ? & _), (i_frame _ _ _ _ _ _ _ I _ _ Hd) as (_ & ? & _).
    apply frame_words in He as [<- <-]; [|done || lia..]. rewrite Hd in Hg. simplify_eq. by destruct Hr. }
  pose proof (i_dir_K _ _ _ _ _ _ _ I) as HK.
  assert (∀ i' j g, 0 <= i' < 1024 → 0 <= j < 1024 → maps own K (phys s) i' j g →
    maps own K (<[pageDir x + 4 * i := f + 7]> (phys s)) i' j g) as Hmaps.
  { intros i' j g Hi' Hj (t & ? & Ht & ?). exists t.
    by rewrite (HO K _ i' HK Hi'), (HO t _ j Ht Hj) by (left; congruence). }
  assert (∀ j, 0 <= j < 1024 → <[pageDir x + 4 * i := f + 7]> (phys s) !! (K + 4 * j) = phys s !! (K + 4 * j)) as HsK.
  { intros j Hj. apply (HO K (Directory kernelSpace)); [done|done|left; congruence]. }
  pose proof I as II. destruct II. constructor; mms; try done.
  - intros h r Hh. destruct (i_frame0 h r Hh) as (? & ? & Hb). split_and!; [lia..|done|].
    intros j Hj. apply lookup_insert_is_Some'. auto.
  - by rewrite HsK.
  - intros j Hj. rewrite HsK by lia. auto.
  - intros b y j Hy Hj. rewrite HsK, (HO _ (Directory b)) by (eauto || lia). eauto.
  - intros b y j Hy Hb Hj. destruct (decide (a = b ∧ i = j)) as [[<- <-]|Hn].
    + simplify_eq. right. exists f. by rewrite lookup_insert_eq.
    + rewrite (HO _ (Directory b)); [by apply i_user0|eauto|lia|].
      destruct (decide (a = b)) as [->|]; [right; naive_solver|left; congruence].
  - intros b y Hy Hb. destruct (i_mapped0 b y Hy Hb) as (i' & j & ? & ? & ? & ?).
    exists i', j. split_and!; try (done || lia). apply Hmaps; [lia|lia|done].
  - by rewrite HsK.
  - intros j Hj. destruct (i_stack0 j Hj) as (h & ? & ?). exists h. split; [done|].
    apply Hmaps; [lia| |done]. Z.to_euclidean_division_equations. lia.
  - intros k Hk. destruct (i_free0 k Hk) as (f' & g' & ? & Hg' & ? & ?). exists f', g'.
    destruct (slot_bounds k (stackUsed s) (stackLeft s)) as (? & ? & ?); [lia..|].
    split; [done|]. split; [done|]. split; [apply Hmaps; [lia|lia|done]|].
    rewrite (HO g' (StackPage (slot_page k))); auto.
Qed.

(** Words of a process's table do not matter to the invariant. *)
Lemma inv_user_table own K s f a i m :
  inv own K s → own !! f = Some (Table a i) → a ≠ kernelSpace →
  agree (in_frame f) (phys s) m → inv own K (with_phys m s).
Proof.
  intros I Hf Ha [Hm Hb]. assert (∀ g r j, own !! g = Some r → 0 <= j < 1024 → r ≠ Table a i →
    m !! (g + 4 * j) = phys s !! (g + 4 * j)) as HO.
  { intros g r j Hg Hj Hr. apply Hm. intros (k & Hk & He).
    by apply (role_words _ _ _ _ _ _ _ I g f _ _ j k Hg Hf) in He. }
  eapply (inv_cong _ _ _ _ _ _ _ I); mms.
  - intros g b j Hg Hj. by apply (HO g (Directory b)).
  - intros g i' j Hg Hj _. apply (HO g (Table kernelSpace i')); [done|done|congruence].
  - intros g p j Hg Hj. by apply (HO g (StackPage p)).
  - done.
Qed.

End kernel.
