(* ===== verification/PagingMap.v ===== *)
(** * Mapping pages

    The theorems about [AddressSpace::mapAt], [unMap], [getPhysicalAddress] and
    the stack of page frames, for the kernel's address space and for those of
    processes, from the invariant of PagingLaws.v. *)
From S2P Require Import Prelude Kthread Paging PagingLaws.

Section mapping.
Context `{Img : Image} `{Y : !Sched mm} (fuel : nat).
Implicit Types (own : gmap Z role) (s : mm).

(** The mutexes of the frame stack and of the list of spaces are free, and the
    loops have fuel. *)
Definition calm s : Prop :=
  listMutex ∉ held s ∧ physMutex ∉ held s ∧ (0 < fuel)%nat ∧ list_fits fuel s.
Definition quiet s : Prop := calm s ∧ spaceMutex kernelSpace ∉ held s.

(** Enough for operations that make no kernel table. *)
Definition steady s : Prop := physMutex ∉ held s ∧ spaceMutex kernelSpace ∉ held s ∧ (0 < fuel)%nat.

Lemma quiet_steady s : quiet s → steady s.
Proof. by intros [(_ & ? & ? & _) ?]. Qed.

Lemma calm_objects s s' : same_objects s s' → calm s → calm s'.
Proof.
  intros (_ & Hh & Hf & Hsp & _) (? & ? & ? & Hl). unfold calm, list_fits in *. by rewrite Hh, Hf, Hsp.
Qed.

(** The translation of a kernel address, from the entry of its table. *)
Lemma walk_kernel own K s i j o :
  inv own K s → 0 <= i < 1023 → 0 <= j < 1024 → 0 <= o < 4096 →
  (phys s !! (K + 4 * i) = Some 0 ∧ walk (phys s) K (page_va i j + o) = None) ∨
  ∃ f pte, phys s !! (K + 4 * i) = Some (f + 3) ∧ own !! f = Some (Table kernelSpace i) ∧
    phys s !! (f + 4 * j) = Some pte ∧
    walk (phys s) K (page_va i j + o) =
      if Z.testbit pte 0 then Some (pte_frame pte + o, Z.testbit pte 1) else None.
Proof.
  intros I Hi Hj Ho. destruct (i_table _ _ _ _ _ _ _ I i Hi) as [Hz|(f & He & Hf)].
  - left. split; [done|]. by apply walk_absent.
  - right. destruct (i_frame _ _ _ _ _ _ _ I f _ Hf) as (? & ? & Hb). destruct (Hb j Hj) as [pte Hp].
    exists f, pte. do 3 (split; [done|]). by apply (walk_table (phys s) K i j o f 3 pte); auto.
Qed.

Lemma pte_flags pa flags :
  pa mod 4096 = 0 → 0 <= flags < 4096 →
  Z.testbit (pa + flags) 0 = Z.testbit flags 0 ∧ Z.testbit (pa + flags) 1 = Z.testbit flags 1 ∧
  pte_frame (pa + flags) = pa.
Proof. intros. rewrite !testbit_add, pte_frame_add by lia. done. Qed.

(** [mapAtWithFlags] on the kernel's space. *)
Lemma map_kernel own K s n i j pa flags :
  inv own K s → calm s → 768 <= i < 1022 → 0 <= j < 1024 →
  ¬ dir_page (spaces s) i j →
  0 <= pa < 2 ^ 32 → pa mod 4096 = 0 → 0 <= flags < 4096 →
  phys s !! (K + 4 * i) ≠ Some 0 ∨ 0 < frames_left s →
  ∃ own' f s', mapAtWithFlags fuel (Datatypes.S (Datatypes.S n)) kernelSpace i j pa flags s = Ok (page_va i j, s') ∧
    inv own' K s' ∧ evolves own s own' s' ∧ frames_left s - 1 <= frames_left s' ∧
    phys s' !! (K + 4 * i) = Some (f + 3) ∧ own' !! f = Some (Table kernelSpace i) ∧
    phys s' !! (f + 4 * j) = Some (pa + flags) ∧
    (phys s !! (K + 4 * i) ≠ Some 0 → frames_left s' = frames_left s ∧ stackLeft s' = stackLeft s ∧ own' = own) ∧
    ∀ i' j' o, 768 <= i' < 1022 → 0 <= j' < 1024 → 0 <= o < 4096 → (i', j') ≠ (i, j) →
      walk (phys s') K (page_va i' j' + o) = walk (phys s) K (page_va i' j' + o).
Proof.
  intros I (Hlm & Hpm & Hfuel & Hfit) Hi Hj Hpin Hpa Ha Hfl Hcase.
  destruct (find_table_kernel fuel own K s i n) as
    (own1 & f & s1 & Hrun & I1 & E1 & He & Hf & Hleft & Hold & Hnew & Hoth); try (done || lia).
  destruct (i_frame _ _ _ _ _ _ _ I1 f _ Hf) as (Hf32 & Hfa & Hfb). pose proof (e_objects _ _ _ _ E1) as (_ & _ & _ & Hsp & _).
  assert (0 <= pa + flags < 2 ^ 32) by (Z.to_euclidean_division_equations; lia).
  set (s' := with_phys (<[f + 4 * j := pa + flags]> (phys s1)) s1).
  assert (inv own1 K s') as I'.
  { apply (inv_write_table own1 K s1 f i); [done..|]. rewrite Hsp. intros [[? _]|Hd]; [lia|done]. }
  exists own1, f, s'. split; [|split; [done|split]].
  - remember (Datatypes.S n) as n1. cbn [mapAtWithFlags]. unfold mapAtWithFlags_body. subst n1.
    rewrite small_flags by done. cbn [negb]. rewrite (bind_ok _ _ _ _ _ Hrun).
    erewrite bind_ok; [|apply vstore_ok; [apply (walk_kernel_table own1 K _ _ _ _ _ I1); [lia|done|exact He|done]|by apply Hfb|]].
    + rewrite Z.eqb_refl, bind_ret, kernel_index by lia. unfold s'. by rewrite lor_aligned.
    + by rewrite lor_aligned.
  - eapply (evolves_trans own s own1 s1); [exact E1|]. eapply evolves_store; [done|done|by apply Hfb| |by auto|done].
    by apply (role_not_user own1 K s1 f _ j I1 Hf).
  - split; [exact Hleft|]. pose proof (i_dir_K _ _ _ _ _ _ _ I1) as HK.
    assert (∀ i', 0 <= i' < 1024 → phys s' !! (K + 4 * i') = phys s1 !! (K + 4 * i')) as HsK.
    { intros i' Hi'. apply lookup_insert_ne. by apply (role_words _ _ _ _ _ _ _ I1 f K _ _ j i' Hf HK). }
    split; [by rewrite HsK by lia|]. split; [done|]. split; [apply lookup_insert_eq|].
    split; [by intros [-> ->]%Hold|]. intros i' j' o Hi' Hj' Ho Hne.
    destruct (walk_kernel own K s i' j' o I) as [[Hz ->]|(g & pte & Hg & Hgr & Hp & ->)]; [lia|done|done| |].
    + destruct (decide (i' = i)) as [->|Hii].
      * rewrite (walk_table _ K i j' o f 3 0); [done|done|done|done|by left|by rewrite HsK by lia|].
        unfold s'. mms. rewrite lookup_insert_ne by (assert (j' ≠ j) by congruence; lia). by apply Hnew.
      * apply walk_absent; [done..|]. rewrite HsK by lia. by rewrite (proj1 (Hoth i' Hi' Hii)).
    + destruct (i_frame _ _ _ _ _ _ _ I g _ Hgr) as (Hg0 & Hga & _). destruct (decide (i' = i)) as [->|Hii].
      * destruct Hold as [-> ->]; [rewrite Hg; intros ?; simplify_eq; lia|]. simplify_eq.
        assert (g = f) as -> by lia. apply (walk_table _ K i j' o f 3); [done..|by left|by rewrite HsK by lia|].
        unfold s'. mms. rewrite lookup_insert_ne; [done|]. assert (j' ≠ j) by congruence. lia.
      * destruct (Hoth i' Hi' Hii) as [Hk Hw]. apply (walk_table _ K i' j' o g 3); [done..|by left|by rewrite HsK, Hk by lia|].
        destruct (e_roles _ _ _ _ E1 g _ Hgr) as [[]|Hg1].
        unfold s'. mms. rewrite lookup_insert_ne; [by rewrite Hw|].
        apply (role_words _ _ _ _ _ _ _ I1 f g _ _ j j' Hf Hg1); [congruence|done|done].
Qed.

(** ** The tables of processes *)
Lemma walk_cong own K s m i j o :
  inv own K s → 0 <= i < 1023 → 0 <= j < 1024 → 0 <= o < 4096 →
  m !! (K + 4 * i) = phys s !! (K + 4 * i) →
  (∀ g, own !! g = Some (Table kernelSpace i) → m !! (g + 4 * j) = phys s !! (g + 4 * j)) →
  walk m K (page_va i j + o) = walk (phys s) K (page_va i j + o).
Proof.
  intros I Hi Hj Ho HK Hw.
  destruct (walk_kernel own K s i j o I Hi Hj Ho) as [[Hz ->]|(f & pte & He & Hf & Hp & ->)].
  - apply walk_absent; congruence.
  - destruct (i_frame _ _ _ _ _ _ _ I f _ Hf) as (_ & Ha & _).
    apply (walk_table m K i j o f 3); try done; [by left|congruence|]. by rewrite Hw.
Qed.

(** The address at which the tables of processes are edited. *)
Definition temp_page : Z * Z := (1021, 1023).

(** What mapping a page in a process changes outside the words [W]. *)
Record changes (W : Z → Prop) K own s own' s' : Prop := {
  c_mapped : ∀ x, is_Some (phys s !! x) → is_Some (phys s' !! x);
  c_roles : ∀ g r, own !! g = Some r → available r ∨ own' !! g = Some r;
  c_none : ∀ g, own !! g = None → own' !! g = None;
  c_user : ∀ x, user_word own x → ¬ W x → phys s' !! x = phys s !! x;
  c_kernel : ∀ i j o, 768 <= i < 1022 → 0 <= j < 1024 → 0 <= o < 4096 → (i, j) ≠ temp_page →
    walk (phys s') K (page_va i j + o) = walk (phys s) K (page_va i j + o);
}.

Lemma user_word_roles own own' x :
  (∀ g r, own !! g = Some r → available r ∨ own' !! g = Some r) → (∀ g, own !! g = None → own' !! g = None) →
  user_word own x → user_word own' x.
Proof.
  intros Hr Hn [(g & j & ? & ? & ? & Hg)|[(g & a & i & j & ? & ? & Hg & ?)|(g & a & j & ? & ? & Hg)]].
  - left. exists g, j. auto.
  - right; left. exists g, a, i, j. destruct (Hr _ _ Hg) as [[]|]; auto.
  - right; right. exists g, a, j. destruct (Hr _ _ Hg) as [[]|]; auto.
Qed.

Lemma changes_trans W K own s own1 s1 own2 s2 :
  changes W K own s own1 s1 → changes W K own1 s1 own2 s2 → changes W K own s own2 s2.
Proof.
  intros [M1 R1 N1 U1 K1] [M2 R2 N2 U2 K2]. split; auto.
  - intros g r Hg. destruct (R1 g r Hg) as [|H1]; [by left|auto].
  - intros x Hx HW. rewrite U2, U1; [done..| |done]. by eapply user_word_roles.
  - intros. by rewrite K2, K1.
Qed.

Lemma changes_weaken (W W' : Z → Prop) K own s own' s' :
  (∀ x, user_word own x → W x → W' x) → changes W K own s own' s' → changes W' K own s own' s'.
Proof. intros H [M R N U KK]. split; auto. Qed.

Lemma changes_held W K own s own' s' h :
  changes W K own (with_held h s) own' s' → changes W K own s own' s'.
Proof. intros [M R N U KK]; split; done. Qed.

Lemma changes_held_r W K own s own' s' h :
  changes W K own s own' s' → changes W K own s own' (with_held h s').
Proof. intros [M R N U KK]; split; done. Qed.

Lemma pop_changes own K s n :
  inv own K s → calm s → 0 < frames_left s →
  ∃ f r s', popPageFrame fuel (mapAtWithFlags fuel (Datatypes.S n)) s = Ok (f, s') ∧
    own !! f = Some r ∧ available r ∧ inv (delete f own) K s' ∧ same_objects s s' ∧
    frames_left s' = frames_left s - 1 ∧ ∀ r', changes (λ _, False) K own s (<[f := r']> own) s'.
Proof.
  intros I (_ & Hpm & Hfuel & _) Hpos.
  destruct (pop_ok fuel own K s n I Hfuel Hpm Hpos) as (f & r & s' & Hrun & Hf & Hr & I' & [O M R N U] & Hc & _ & Hsame).
  exists f, r, s'. do 6 (split; [done|]). intros r'. split; auto.
  { intros g r'' Hg. destruct (decide (f = g)) as [<-|]; [left; congruence|right; by rewrite lookup_insert_ne]. }
  { intros g Hg. rewrite lookup_insert_ne; [done|congruence]. }
  intros i j o Hi Hj Ho _. apply (walk_cong own K s); [done|lia|done|done| |].
  - apply Hsame. intros g k Hg Hk.
    by apply (role_words _ _ _ _ _ _ _ I K g _ _ i k (i_dir_K _ _ _ _ _ _ _ I) Hg); [|lia|].
  - intros g Hg. apply Hsame. intros g' k Hg' Hk.
    apply (role_words _ _ _ _ _ _ _ I g g' _ _ j k Hg Hg'); [|done..]. intros [=]. lia.
Qed.

(** A store to a word of a process: its directory or one of its tables. *)
Lemma changes_store (W : Z → Prop) own K s f r j w :
  inv own K s → own !! f = Some r → 0 <= j < 1024 → W (f + 4 * j) →
  match r with Directory a => a ≠ kernelSpace | Table a _ => a ≠ kernelSpace | _ => False end →
  changes W K own s own (with_phys (<[f + 4 * j := w]> (phys s)) s).
Proof.
  intros I Hf Hj HW Hr. split; mms; auto.
  - intros x Hx. apply lookup_insert_is_Some'. auto.
  - intros x _ Hx. apply lookup_insert_ne. by intros <-.
  - intros i k o Hi Hk Ho _. apply (walk_cong own K s); [done|lia|done|done| |].
    + apply lookup_insert_ne. apply (role_words _ _ _ _ _ _ _ I f K _ _ j i Hf (i_dir_K _ _ _ _ _ _ _ I)); [|done|lia].
      intros ->. by destruct Hr.
    + intros g Hg. apply lookup_insert_ne. apply (role_words _ _ _ _ _ _ _ I f g _ _ j k Hf Hg); [|done|done].
      intros ->. by destruct Hr.
Qed.

Lemma map_temporarily own K s n T protection :
  inv own K s → calm s → 0 <= T < 2 ^ 32 → T mod 4096 = 0 → 0 <= protection < 8 →
  phys s !! (K + 4 * 1021) ≠ Some 0 ∨ 0 < frames_left s →
  ∃ own' f s', mapTemporarily (mapAtWithFlags fuel (Datatypes.S (Datatypes.S n))) T protection s =
      Ok (page_va 1021 1023, s') ∧
    inv own' K s' ∧ same_objects s s' ∧ changes (λ _, False) K own s own' s' ∧
    phys s' !! (K + 4 * 1021) = Some (f + 3) ∧ own' !! f = Some (Table kernelSpace 1021) ∧
    phys s' !! (f + 4 * 1023) = Some (T + if Z.testbit protection 1 then 3 else 1) ∧
    frames_left s - 1 <= frames_left s'.
Proof.
  intros I Q HT Ha Hp Hcase. unfold mapTemporarily. change 0xFF7FF000 with (page_va 1021 1023).
  rewrite mapAt_kernel by (done || lia).
  destruct (map_kernel own K s n 1021 1023 T (if Z.testbit protection 1 then 3 else 1)) as
    (own' & f & s' & Hrun & I' & E & Hl & He & Hf & Hw & _ & Hk); try (done || lia).
  { intros (a & x & Hx & Hax & Hva). destruct (i_mapped _ _ _ _ _ _ _ I a x Hx Hax) as (i & j & ? & ? & Hva' & _).
    rewrite Hva' in Hva. apply page_va_inj in Hva; lia. } { by destruct (Z.testbit _ _). }
  exists own', f, s'. destruct E as [O M R N U]. do 3 (split; [done|]). split; [|split; [done|split; [done|split; [done|]]]].
  - split; auto.
  - done.
Qed.

(** The words of process [a]'s translation through entry [i]. *)
Definition entry_words (x : aspace) (i f : Z) (y : Z) : Prop := y = pageDir x + 4 * i ∨ in_frame f y.

(** What [find_page_table] leaves for a process: its table [f] mapped at the
    temporary page, with the mutex of the kernel's space held. *)
Definition table_ready own K s own' s' a x i f : Prop :=
  inv own' K s' ∧ cr3 s' = cr3 s ∧ held s' = {[spaceMutex kernelSpace]} ∪ held s ∧
  firstAddressSpace s' = firstAddressSpace s ∧ spaces s' = spaces s ∧ segs s' = segs s ∧ nextPages s' = nextPages s ∧
  changes (entry_words x i f) K own s own' s' ∧
  phys s' !! (pageDir x + 4 * i) = Some (f + 7) ∧ own' !! f = Some (Table a i) ∧
  maps own' K (phys s') 1021 1023 f ∧
  (phys s !! (pageDir x + 4 * i) = Some 0 → ∀ j, 0 <= j < 1024 → phys s' !! (f + 4 * j) = Some 0) ∧
  (phys s !! (pageDir x + 4 * i) ≠ Some 0 → phys s !! (pageDir x + 4 * i) = Some (f + 7) ∧
    ∀ j, 0 <= j < 1024 → phys s' !! (f + 4 * j) = phys s !! (f + 4 * j)).

Lemma walk_user_dir own K s a x i :
  inv own K s → spaces s !! a = Some x → a ≠ kernelSpace → 0 <= i < 1024 →
  walk (phys s) (cr3 s) (pageDirMapped x + 4 * i) = Some (pageDir x + 4 * i, true).
Proof.
  intros I Hx Ha Hi. destruct (i_mapped _ _ _ _ _ _ _ I a x Hx Ha) as (i' & j & ? & ? & -> & Hm).
  destruct (i_frame _ _ _ _ _ _ _ I _ _ (i_dir _ _ _ _ _ _ _ I a x Hx)) as (_ & ? & _).
  apply (walk_maps _ _ _ _ _ _ _ I i' j (4 * i)); [lia|lia|lia|done|done].
Qed.

Lemma calm_locked s : calm s → calm (with_held ({[spaceMutex kernelSpace]} ∪ held s) s).
Proof. intros (? & ? & ? & ?). unfold calm. mms. split_and!; try done; set_solver. Qed.

(** Mapping the table at the temporary page, with the mutex held. *)
Lemma map_table own K s n a x i f :
  inv own K s → quiet s → spaces s !! a = Some x → a ≠ kernelSpace → 0 <= i < 768 →
  phys s !! (pageDir x + 4 * i) = Some (f + 7) → own !! f = Some (Table a i) → 0 < frames_left s →
  ∃ own' s', (lock fuel (spaceMutex kernelSpace);;
      mapTemporarily (mapAtWithFlags fuel (Datatypes.S (Datatypes.S n))) f (Z.lor PROT_READ PROT_WRITE)) s =
      Ok (page_va 1021 1023, s') ∧ table_ready own K s own' s' a x i f ∧ frames_left s - 1 <= frames_left s'.
Proof.
  intros I [Q Hkm] Hx Ha Hi He Hf Hpos. destruct (i_frame _ _ _ _ _ _ _ I f _ Hf) as (? & Hfa & Hfb).
  rewrite (bind_ok _ _ _ _ _ (lock_ok fuel _ s Hkm (proj1 (proj2 (proj2 Q))))).
  set (h := {[spaceMutex kernelSpace]} ∪ held s).
  destruct (map_temporarily own K (with_held h s) n f (Z.lor PROT_READ PROT_WRITE)) as
    (own' & t & s' & Hrun & I' & (O1 & O2 & O3 & O4 & O5 & O6) & C & Ht & Htr & Hw & Hl);
    try (done || lia || by right); [by apply calm_locked|].
  exists own', s'. split; [exact Hrun|]. split; [|exact Hl]. do 7 (split; [done|]). pose proof C as [_ R _ U _].
  assert (∀ j, 0 <= j < 1024 → phys s' !! (f + 4 * j) = phys s !! (f + 4 * j)) as Hwords.
  { intros j Hj. apply U; [|by intros []]. right; left. exists f, a, i, j. done. }
  split; [apply (changes_held _ K own s own' s' h), (changes_weaken (λ _, False)); [done|exact C]|].
  split; [rewrite U; [done| |by intros []]; right; right; exists (pageDir x), a, i; by split_and!; try lia; apply (i_dir _ _ _ _ _ _ _ I)|].
  split; [by destruct (R f _ Hf) as [[]|]|]. split; [by exists t|]. split; [|done]. intros Hz. rewrite He in Hz. simplify_eq. lia.
Qed.

Lemma maps_user own K s f a i m i' j g :
  inv own K s → own !! f = Some (Table a i) → a ≠ kernelSpace → agree (in_frame f) (phys s) m →
  0 <= i' < 1024 → 0 <= j < 1024 → maps own K (phys s) i' j g → maps own K m i' j g.
Proof.
  intros I Hf Ha [Hm _] Hi Hj (t & ? & Ht & ?). exists t. rewrite !Hm; [done|..].
  - intros (k & Hk & He). apply (role_words _ _ _ _ _ _ _ I t f _ _ j k Ht Hf) in He; [done|congruence|done|done].
  - intros (k & Hk & He). by apply (role_words _ _ _ _ _ _ _ I K f _ _ i' k (i_dir_K _ _ _ _ _ _ _ I) Hf) in He.
Qed.

Lemma changes_table own K s f a i m :
  inv own K s → own !! f = Some (Table a i) → a ≠ kernelSpace → agree (in_frame f) (phys s) m →
  changes (in_frame f) K own s own (with_phys m s).
Proof.
  intros I Hf Ha [Hm Hb]. split; mms; auto. intros i' j o Hi Hj Ho _.
  apply (walk_cong own K s); [done|lia|done|done|apply Hm|intros g Hg; apply Hm]; intros (k & Hk & He).
  - by apply (role_words _ _ _ _ _ _ _ I K f _ _ i' k (i_dir_K _ _ _ _ _ _ _ I) Hf) in He; [| |lia|].
  - apply (role_words _ _ _ _ _ _ _ I g f _ _ j k Hg Hf) in He; [done|congruence|done|done].
Qed.

(** Words of the table are free to change. *)
Lemma table_ready_write own K s own' s' a x i f m :
  table_ready own K s own' s' a x i f → spaces s !! a = Some x → a ≠ kernelSpace → 0 <= i < 1024 →
  agree (in_frame f) (phys s') m →
  inv own' K (with_phys m s') ∧ maps own' K m 1021 1023 f ∧
  m !! (pageDir x + 4 * i) = Some (f + 7) ∧ changes (entry_words x i f) K own s own' (with_phys m s').
Proof.
  intros (I & ? & ? & ? & Hsp & ? & ? & C & He & Hf & Hm & _) Hx Ha Hi Ag. rewrite <-Hsp in Hx.
  split; [by eapply inv_user_table|]. split; [by eapply maps_user; eauto; lia|]. split.
  - rewrite (proj1 Ag); [done|]. intros (k & Hk & He').
    by apply (role_words _ _ _ _ _ _ _ I _ f _ _ i k (i_dir _ _ _ _ _ _ _ I a x Hx) Hf) in He'.
  - eapply changes_trans; [exact C|]. eapply changes_weaken; [|by eapply changes_table]. intros y _ Hy. by right.
Qed.

(** The page table of a process for entry [i], found or made. *)
Lemma find_table_user own K s n a x i :
  inv own K s → quiet s → spaces s !! a = Some x → a ≠ kernelSpace → 0 <= i < 768 → 2 <= frames_left s →
  ∃ own' f s', find_page_table fuel (mapAtWithFlags fuel (Datatypes.S (Datatypes.S n))) a i s =
      Ok (page_va 1021 1023, s') ∧ table_ready own K s own' s' a x i f ∧ frames_left s - 2 <= frames_left s'.
Proof.
  intros I Q Hx Ha Hi Hpos. unfold find_page_table.
  assert (get_space a s = Ok (x, s)) as Hg by (unfold get_space; by rewrite Hx).
  rewrite (bind_ok _ _ _ _ _ Hg), (proj2 (Z.eqb_neq a kernelSpace)) by done.
  pose proof (walk_user_dir own K s a x i I Hx Ha ltac:(lia)) as Hwalk.
  destruct (i_user _ _ _ _ _ _ _ I a x i Hx Ha Hi) as [Hz|(f & He & Hf)].
  2:{ destruct (i_frame _ _ _ _ _ _ _ I f _ Hf) as (? & Hfa & Hfb).
      destruct (map_table own K s n a x i f I Q Hx Ha Hi He Hf) as (own' & s' & Hrun & Hr & Hl); [lia|].
      exists own', f, s'. split; [|split; [done|lia]]. erewrite bind_ok; [|eapply vload_ok; [exact Hwalk|exact He]]. cbv beta.
      rewrite (proj2 (Z.eqb_neq (f + 7) 0)) by lia. change (Z.land (f + 7) (Z.lnot 0xFFF)) with (pte_frame (f + 7)).
      by rewrite pte_frame_add by lia. }
  erewrite bind_ok; [|eapply vload_ok; [exact Hwalk|exact Hz]]. cbv beta. rewrite Z.eqb_refl.
  destruct (pop_changes own K s (Datatypes.S n) I (proj1 Q)) as (f & r & s1 & Hpop & Hfr & Hav & I1 & O & Hc & C1); [lia|].
  rewrite (bind_ok _ _ _ _ _ Hpop). destruct (i_frame _ _ _ _ _ _ _ I f _ Hfr) as (Hf32 & Hfa & Hfb).
  set (own1 := <[f := Table a i]> own). specialize (C1 (Table a i)). fold own1 in C1.
  assert (inv own1 K s1) as I2.
  { unfold own1. rewrite <-insert_delete_eq. apply inv_own_insert; try done; [apply lookup_delete_eq|].
    intros j Hj. apply (c_mapped _ _ _ _ _ _ C1), Hfb, Hj. }
  assert (own1 !! f = Some (Table a i)) as Hf1 by apply lookup_insert_eq.
  destruct O as (Hcr1 & Hheld1 & Hfirst1 & Hsp1 & Hsegs1 & Hnp1). assert (spaces s1 !! a = Some x) as Hx1 by by rewrite Hsp1.
  assert (f + 7 < 2 ^ 32) by (Z.to_euclidean_division_equations; lia).
  assert (Z.lor f (Z.lor (Z.lor PAGE_PRESENT PAGE_WRITABLE) PAGE_USER) = f + 7) as -> by (apply (lor_aligned f 7 Hfa); lia).
  pose proof (i_dir _ _ _ _ _ _ _ I2 a x Hx1) as Hd.
  erewrite bind_ok; [|apply vstore_ok; [apply (walk_user_dir own1 K s1 a x i I2 Hx1 Ha); lia| |lia]];
    [|apply (i_frame _ _ _ _ _ _ _ I2 _ _ Hd); lia].
  set (s2 := with_phys (<[pageDir x + 4 * i := f + 7]> (phys s1)) s1).
  assert (inv own1 K s2) as I3 by (by apply (inv_user_entry own1 K s1 a x i f)).
  assert (changes (entry_words x i f) K own1 s1 own1 s2) as C2.
  { apply (changes_store _ own1 K s1 (pageDir x) (Directory a)); [done|done|lia|by left|done]. }
  destruct (map_table own1 K s2 n a x i f) as (own2 & s3 & Hrun & Hr & Hl3); try done.
  { destruct Q as [(? & ? & ? & Hfit) ?]. unfold quiet, calm, list_fits in *. unfold s2. mms. by rewrite Hheld1, Hsp1, Hfirst1. }
  { apply lookup_insert_eq. } { unfold frames_left in *. unfold s2. mms. lia. }
  rewrite (bind_ok _ _ _ _ _ Hrun). pose proof Hr as (I4 & Hcr & Hheld & Hfirst & Hsp & Hsegs & Hnp & C3 & He & Hf & Hm & _).
  destruct (clear_ok (page_va 1021 1023) f s3) as (m & Hclear & Am & Hz3).
  { intros j Hj. by apply (i_frame _ _ _ _ _ _ _ I4 f _ Hf). }
  { intros m j Am Hj. destruct (table_ready_write own1 K s2 own2 s3 a x i f m Hr) as (I5 & Hm5 & _); try (done || lia).
    by apply (walk_maps _ _ _ _ _ _ _ I5 1021 1023 (4 * j) f); try lia. }
  rewrite (bind_ok _ _ _ _ _ Hclear), bind_ret.
  destruct (table_ready_write own1 K s2 own2 s3 a x i f m Hr) as (I5 & Hm5 & He5 & C5); try (done || lia).
  exists own2, f, (with_phys m s3). split; [done|].
  split; [|unfold frames_left in *; unfold s2 in Hl3; mms; cbn [stackUsed stackLeft with_phys] in Hl3; lia].
  split; [exact I5|]. mms.
  split; [exact (eq_trans Hcr Hcr1)|]. split; [rewrite Hheld; unfold s2; mms; by rewrite Hheld1|].
  split; [exact (eq_trans Hfirst Hfirst1)|]. split; [exact (eq_trans Hsp Hsp1)|].
  split; [exact (eq_trans Hsegs Hsegs1)|]. split; [exact (eq_trans Hnp Hnp1)|].
  split; [|split; [exact He5|split; [done|split; [exact Hm5|split]]]].
  - eapply changes_trans; [|exact C5]. eapply changes_trans; [|exact C2].
    eapply changes_weaken; [|exact C1]. by intros ? _ [].
  - intros _. exact Hz3.
  - by rewrite Hz.
Qed.

(** Giving up the temporary page. *)
Lemma changes_temp own K s t w :
  inv own K s → phys s !! (K + 4 * 1021) = Some (t + 3) → own !! t = Some (Table kernelSpace 1021) →
  let s' := with_phys (<[t + 4 * 1023 := w]> (phys s)) s in
  inv own K s' ∧ changes (λ _, False) K own s own s' ∧
  (∀ g r j, own !! g = Some r → r ≠ Table kernelSpace 1021 → 0 <= j < 1024 → phys s' !! (g + 4 * j) = phys s !! (g + 4 * j)).
Proof.
  intros I He Ht s'.
  assert (∀ g r j, own !! g = Some r → r ≠ Table kernelSpace 1021 → 0 <= j < 1024 →
    phys s' !! (g + 4 * j) = phys s !! (g + 4 * j)) as HO.
  { intros g r j Hg Hr Hj. apply lookup_insert_ne.
    by apply (role_words _ _ _ _ _ _ _ I t g _ _ 1023 j Ht Hg); [|lia|]. }
  split; [|split; [|exact HO]].
  - apply (inv_write_table own K s t 1021); [done|done|lia|]. intros [[? _]|(a & x & Hx & Hax & Hva)]; [lia|].
    destruct (i_mapped _ _ _ _ _ _ _ I a x Hx Hax) as (i & j & ? & ? & Hva' & _).
    rewrite Hva' in Hva. apply page_va_inj in Hva; lia.
  - split; unfold s'; mms; auto.
    + intros x Hx. apply lookup_insert_is_Some'. auto.
    + intros x Hx _. apply lookup_insert_ne. intros <-. revert Hx. by apply (role_not_user own K s t _ 1023 I Ht).
    + intros i j o Hi Hj Ho Hne. apply (walk_cong own K s); [done|lia|done|done| |].
      * apply (HO K (Directory kernelSpace)); [apply (i_dir_K _ _ _ _ _ _ _ I)|done|lia].
      * intros g Hg. destruct (decide (i = 1021)) as [->|].
        -- apply lookup_insert_ne. destruct (decide (g = t)) as [->|Hgt].
           ++ assert (j ≠ 1023) by (intros ->; by apply Hne). lia.
           ++ destruct (i_frame _ _ _ _ _ _ _ I t _ Ht) as (_ & ? & _), (i_frame _ _ _ _ _ _ _ I g _ Hg) as (_ & ? & _).
              intros Hw. apply frame_words in Hw as [? _]; [congruence|done||lia..].
        -- apply (HO g _ j Hg); [congruence|done].
Qed.

(** The kernel's table with the temporary page. *)
Definition temp_table own K s (t : Z) : Prop :=
  phys s !! (K + 4 * 1021) = Some (t + 3) ∧ own !! t = Some (Table kernelSpace 1021).

(** [mapAtWithFlags] on the space of a process. *)
Lemma map_user own K s n a x i j pa flags :
  inv own K s → quiet s → spaces s !! a = Some x → a ≠ kernelSpace → 0 <= i < 768 → 0 <= j < 1024 →
  0 <= pa < 2 ^ 32 → pa mod 4096 = 0 → 0 <= flags < 4096 → 2 <= frames_left s →
  ∃ own' f s', mapAtWithFlags fuel (Datatypes.S (Datatypes.S (Datatypes.S n))) a i j pa flags s = Ok (page_va i j, s') ∧
    inv own' K s' ∧ same_objects s s' ∧ changes (entry_words x i f) K own s own' s' ∧
    frames_left s - 2 <= frames_left s' ∧
    phys s' !! (pageDir x + 4 * i) = Some (f + 7) ∧ own' !! f = Some (Table a i) ∧
    phys s' !! (f + 4 * j) = Some (pa + flags) ∧
    (phys s !! (pageDir x + 4 * i) = Some 0 → ∀ k, 0 <= k < 1024 → k ≠ j → phys s' !! (f + 4 * k) = Some 0) ∧
    (phys s !! (pageDir x + 4 * i) ≠ Some 0 → phys s !! (pageDir x + 4 * i) = Some (f + 7) ∧
      ∀ k, 0 <= k < 1024 → k ≠ j → phys s' !! (f + 4 * k) = phys s !! (f + 4 * k)) ∧
    ∃ t, temp_table own' K s' t.
Proof.
  intros I Q Hx Ha Hi Hj Hpa Hpaa Hfl Hpos.
  destruct (find_table_user own K s n a x i I Q Hx Ha Hi Hpos) as (own1 & f & s1 & Hrun & Hr & Hl).
  pose proof Hr as (I1 & Hcr & Hheld & Hfirst & Hsp & Hsegs & Hnp & C1 & He & Hf & Hm & Hnew & Hold).
  destruct (i_frame _ _ _ _ _ _ _ I1 f _ Hf) as (Hf32 & Hfa & Hfb).
  assert (0 <= pa + flags < 2 ^ 32) by (Z.to_euclidean_division_equations; lia).
  set (m := <[f + 4 * j := pa + flags]> (phys s1)).
  destruct (table_ready_write own K s own1 s1 a x i f m Hr) as (I2 & Hm2 & He2 & C2); try (done || lia).
  { apply agree_insert. by exists j. }
  set (s2 := with_held (held s) (with_phys m s1)).
  assert (inv own1 K s2) as I3 by exact I2.
  pose proof Hm2 as (t & Ht & Htr & _). destruct (i_frame _ _ _ _ _ _ _ I3 t _ Htr) as (? & ? & ?).
  destruct (changes_temp own1 K s2 t 0 I3 Ht Htr) as (I4 & C4 & HO).
  set (s3 := with_phys (<[t + 4 * 1023 := 0]> (phys s2)) s2) in *.
  assert (phys s3 !! (pageDir x + 4 * i) = phys s2 !! (pageDir x + 4 * i)) as HsD.
  { apply (HO _ (Directory a)); [|done|lia]. apply (i_dir _ _ _ _ _ _ _ I3). unfold s2. mms. by rewrite Hsp. }
  assert (∀ k, 0 <= k < 1024 → phys s3 !! (f + 4 * k) = phys s2 !! (f + 4 * k)) as HsT.
  { intros k Hk. apply (HO _ (Table a i)); [done|congruence|done]. }
  exists own1, f, s3. split; [|split; [exact I4|]].
  - remember (Datatypes.S (Datatypes.S n)) as n1 eqn:Hn1. cbn [mapAtWithFlags]. unfold mapAtWithFlags_body.
    rewrite small_flags by done. cbn [negb]. subst n1. rewrite (bind_ok _ _ _ _ _ Hrun), (lor_aligned pa flags) by done.
    erewrite bind_ok; [|apply (vstore_ok _ _ (f + 4 * j)); [by apply (walk_maps _ _ _ _ _ _ _ I1 1021 1023 (4 * j) f); try lia|by apply Hfb|done]].
    rewrite (proj2 (Z.eqb_neq a kernelSpace)) by done. fold m.
    erewrite bind_ok; [|erewrite (bind_ok _ _ _ 0 s2);
      [apply (unMap_kernel _ 1021 1023 _ s3 (page_va 1021 1023)); [lia|lia|]|unfold s2; rewrite unlock_ok; mms; by rewrite Hheld, held_restored by apply Q]].
    + rewrite kernel_index by lia. done.
    + rewrite (kernel_present fuel own1 K s2 (Datatypes.S n) 1021 1023 t 0 0 I3); done || lia.
  - split; [unfold same_objects, s3, s2; mms; done|]. split.
    { eapply changes_trans; [exact (changes_held_r _ _ _ _ _ _ (held s) C2)|].
      eapply changes_weaken; [|exact C4]. by intros ? _ []. }
    split; [exact Hl|]. split; [by rewrite HsD|]. split; [done|]. split; [rewrite HsT by done; apply lookup_insert_eq|].
    split; [|split].
    + intros Hz k Hk Hkj. rewrite HsT by done. unfold s2, m. mms. rewrite lookup_insert_ne by lia. auto.
    + intros [Hz Ho]%Hold. split; [done|]. intros k Hk Hkj. rewrite HsT by done. unfold s2, m. mms.
      rewrite lookup_insert_ne by lia. auto.
    + exists t. split; [|done]. rewrite (HO K (Directory kernelSpace)); [done|apply (i_dir_K _ _ _ _ _ _ _ I3)|done|lia].
Qed.

(** ** Translations of processes *)
Lemma walk_user own K s a x i j o :
  inv own K s → spaces s !! a = Some x → a ≠ kernelSpace → 0 <= i < 768 → 0 <= j < 1024 → 0 <= o < 4096 →
  (phys s !! (pageDir x + 4 * i) = Some 0 ∧ walk (phys s) (pageDir x) (page_va i j + o) = None) ∨
  ∃ f pte, phys s !! (pageDir x + 4 * i) = Some (f + 7) ∧ own !! f = Some (Table a i) ∧
    phys s !! (f + 4 * j) = Some pte ∧
    walk (phys s) (pageDir x) (page_va i j + o) =
      if Z.testbit pte 0 then Some (pte_frame pte + o, Z.testbit pte 1) else None.
Proof.
  intros I Hx Ha Hi Hj Ho. destruct (i_user _ _ _ _ _ _ _ I a x i Hx Ha Hi) as [Hz|(f & He & Hf)].
  - left. split; [done|]. by apply walk_absent.
  - right. destruct (i_frame _ _ _ _ _ _ _ I f _ Hf) as (? & ? & Hb). destruct (Hb j Hj) as [pte Hp].
    exists f, pte. do 3 (split; [done|]). by apply (walk_table (phys s) _ i j o f 7 pte); auto.
Qed.

(** Every user translation but that of one page survives. *)
Lemma user_walks_kept own K s own' s' a x i j f :
  inv own K s → inv own' K s' → spaces s' = spaces s → spaces s !! a = Some x → a ≠ kernelSpace → 0 <= i < 768 →
  changes (entry_words x i f) K own s own' s' →
  phys s' !! (pageDir x + 4 * i) = Some (f + 7) → own' !! f = Some (Table a i) →
  (phys s !! (pageDir x + 4 * i) = Some 0 → ∀ k, 0 <= k < 1024 → k ≠ j → phys s' !! (f + 4 * k) = Some 0) →
  (phys s !! (pageDir x + 4 * i) ≠ Some 0 → phys s !! (pageDir x + 4 * i) = Some (f + 7) ∧
    ∀ k, 0 <= k < 1024 → k ≠ j → phys s' !! (f + 4 * k) = phys s !! (f + 4 * k)) →
  ∀ b y i' k o, spaces s !! b = Some y → b ≠ kernelSpace → 0 <= i' < 768 → 0 <= k < 1024 → 0 <= o < 4096 →
    (b, i', k) ≠ (a, i, j) →
    walk (phys s') (pageDir y) (page_va i' k + o) = walk (phys s) (pageDir y) (page_va i' k + o).
Proof.
  intros I I' Hsp Hx Ha Hi C He Hf Hnew Hold b y i' k o Hy Hb Hi' Hk Ho Hne.
  pose proof (i_dir _ _ _ _ _ _ _ I b y Hy) as Hdb. pose proof (i_dir _ _ _ _ _ _ _ I a x Hx) as Hda.
  assert (own' !! pageDir y = Some (Directory b)) as Hdb' by (apply (i_dir _ _ _ _ _ _ _ I'); congruence).
  destruct (i_frame _ _ _ _ _ _ _ I' f _ Hf) as (? & Hfa & _).
  destruct (decide (b = a ∧ i' = i)) as [[-> ->]|Hbi].
  - simplify_eq. assert (k ≠ j) by congruence.
    destruct (walk_user own K s a x i k o I Hx Ha Hi Hk Ho) as [[Hz ->]|(g & pte & Hg & Hgr & Hp & ->)].
    + by rewrite (walk_table _ _ i k o f 7 0) by (auto; by apply Hnew).
    + destruct (c_roles _ _ _ _ _ _ C g _ Hgr) as [[]|Hgr'].
      destruct (i_frame _ _ _ _ _ _ _ I g _ Hgr) as (? & ? & _). destruct Hold as [Hgf Hw]; [rewrite Hg; intros ?; simplify_eq; lia|].
      assert (g = f) as -> by (simplify_eq; lia). apply (walk_table _ _ i k o f 7); auto. by rewrite Hw.
  - assert (¬ entry_words x i f (pageDir y + 4 * i')) as Hn1.
    { destruct (i_frame _ _ _ _ _ _ _ I _ _ Hdb) as (_ & ? & _), (i_frame _ _ _ _ _ _ _ I _ _ Hda) as (_ & ? & _).
      intros [Hw|(q & Hq & Hw)].
      - apply frame_words in Hw as [Hw ->]; [|done || lia..]. rewrite Hw, Hda in Hdb. simplify_eq. by apply Hbi.
      - by apply (role_words _ _ _ _ _ _ _ I' _ f _ _ i' q Hdb' Hf) in Hw; [| |lia|]. }
    assert (phys s' !! (pageDir y + 4 * i') = phys s !! (pageDir y + 4 * i')) as Hent.
    { apply (c_user _ _ _ _ _ _ C); [|done]. right; right. exists (pageDir y), b, i'. done. }
    destruct (walk_user own K s b y i' k o I Hy Hb Hi' Hk Ho) as [[Hz ->]|(g & pte & Hg & Hgr & Hp & ->)].
    + apply walk_absent; [done..|by rewrite Hent].
    + destruct (i_frame _ _ _ _ _ _ _ I g _ Hgr) as (_ & ? & _). destruct (c_roles _ _ _ _ _ _ C g _ Hgr) as [[]|Hgr'].
      apply (walk_table _ _ i' k o g 7); auto; [by rewrite Hent|]. rewrite (c_user _ _ _ _ _ _ C); [done|..].
      * right; left. exists g, b, i', k. done.
      * intros [Hw|(q & Hq & Hw)].
        -- by apply (role_words _ _ _ _ _ _ _ I g _ _ _ k i Hgr Hda) in Hw; [| |lia|lia].
        -- apply (role_words _ _ _ _ _ _ _ I' g f _ _ k q Hgr' Hf) in Hw; [done| |done|done].
           intros [= -> ->]. by apply Hbi.
Qed.

Lemma mapAt_user (map : Z → Z → Z → Z → Z → ST mm Z) a i j pa prot s :
  a ≠ kernelSpace → 0 <= i < 1024 → 0 <= j < 1024 → pa mod 4096 = 0 → 0 <= prot < 8 →
  mapAt map a (page_va i j) pa prot s = map a i j pa (if Z.testbit prot 1 then 7 else 5) s.
Proof.
  intros Ha Hi Hj Hpa Hp. unfold mapAt. rewrite address_index, bind_ret by done.
  unfold mapAt_index. destruct (flags_of prot Hp) as [-> ->]. cbn [Z.eqb negb].
  change 0xFFF with (Z.ones 12). rewrite Z.land_ones by lia. change (2 ^ 12) with 4096.
  rewrite Hpa, (proj2 (Z.eqb_neq a kernelSpace)) by done. cbn [Z.eqb negb]. by destruct (Z.testbit prot 1).
Qed.

Lemma unMap_user (map : Z → Z → Z → Z → Z → ST mm Z) a i j s s' r :
  0 <= i < 1024 → 0 <= j < 1024 → map a i j 0 0 s = Ok (r, s') →
  unMap map a (page_va i j) s = Ok (tt, s').
Proof.
  intros Hi Hj Hm. unfold unMap. rewrite address_index, bind_ret by done.
  by rewrite (bind_ok _ _ _ _ _ Hm).
Qed.

(** No role but that of a free frame is lost, and no frame comes in. *)
Definition roles_kept own own' : Prop :=
  (∀ g r, own !! g = Some r → available r ∨ own' !! g = Some r) ∧ (∀ g, own !! g = None → own' !! g = None).

(** What a page operation of a process leaves: only the translation of page
    [j] of table [i] of space [a] may be new. *)
Definition one_page_changed own K s s' a i j : Prop :=
  same_objects s s' ∧
  (∀ b y i' k o, spaces s !! b = Some y → b ≠ kernelSpace → 0 <= i' < 768 → 0 <= k < 1024 → 0 <= o < 4096 →
    (b, i', k) ≠ (a, i, j) →
    walk (phys s') (pageDir y) (page_va i' k + o) = walk (phys s) (pageDir y) (page_va i' k + o)) ∧
  (∀ i' k o, 768 <= i' < 1022 → 0 <= k < 1024 → 0 <= o < 4096 → (i', k) ≠ temp_page →
    walk (phys s') K (page_va i' k + o) = walk (phys s) K (page_va i' k + o)) ∧
  (∀ g k, g mod 4096 = 0 → own !! g = None → 0 <= k < 1024 → phys s' !! (g + 4 * k) = phys s !! (g + 4 * k)).

Lemma map_user_page own K s n a x i j pa flags :
  inv own K s → quiet s → spaces s !! a = Some x → a ≠ kernelSpace → 0 <= i < 768 → 0 <= j < 1024 →
  0 <= pa < 2 ^ 32 → pa mod 4096 = 0 → 0 <= flags < 4096 → 2 <= frames_left s →
  ∃ own' s', mapAtWithFlags fuel (Datatypes.S (Datatypes.S (Datatypes.S n))) a i j pa flags s = Ok (page_va i j, s') ∧
    inv own' K s' ∧ one_page_changed own K s s' a i j ∧ roles_kept own own' ∧ (∃ t, temp_table own' K s' t) ∧
    frames_left s - 2 <= frames_left s' ∧
    ∀ o, 0 <= o < 4096 → walk (phys s') (pageDir x) (page_va i j + o) =
      if Z.testbit flags 0 then Some (pa + o, Z.testbit flags 1) else None.
Proof.
  intros I Q Hx Ha Hi Hj Hpa Hpaa Hfl Hpos.
  destruct (map_user own K s n a x i j pa flags I Q Hx Ha Hi Hj Hpa Hpaa Hfl Hpos) as
    (own' & f & s' & Hrun & I' & O & C & Hl & He & Hf & Hw & Hnew & Hold & Ht).
  destruct (i_frame _ _ _ _ _ _ _ I' f _ Hf) as (? & Hfa & _).
  exists own', s'. split; [exact Hrun|]. split; [exact I'|].
  split; [split; [exact O|split; [|split]]|split; [|split; [exact Ht|split; [exact Hl|]]]].
  - apply (user_walks_kept own K s own' s' a x i j f); try done. apply O.
  - apply (c_kernel _ _ _ _ _ _ C).
  - intros g k Hg Hn Hk. apply (c_user _ _ _ _ _ _ C); [left; by exists g, k|].
    pose proof (c_none _ _ _ _ _ _ C g Hn) as Hn'. intros [Hd|(q & Hq & Hd)]; revert Hd.
    + apply (unowned_words own' K _ _ _ _ _ I' g (pageDir x) (Directory a) k i Hg Hn'); [|done|lia].
      apply (i_dir _ _ _ _ _ _ _ I'). by destruct O as (_ & _ & _ & -> & _).
    + by apply (unowned_words own' K _ _ _ _ _ I' g f (Table a i) k q Hg Hn').
  - split; [apply (c_roles _ _ _ _ _ _ C)|apply (c_none _ _ _ _ _ _ C)].
  - intros o Ho. destruct (pte_flags pa flags) as (Hb0 & Hb1 & Hfr); [done..|].
    rewrite (walk_table _ _ i j o f 7 (pa + flags)), Hb0, Hb1, Hfr by auto. done.
Qed.

Lemma one_page_trans own own1 K s s1 s2 a i j :
  (∀ g, own !! g = None → own1 !! g = None) → one_page_changed own K s s1 a i j →
  one_page_changed own1 K s1 s2 a i j → one_page_changed own K s s2 a i j.
Proof.
  intros Hn (O1 & U1 & K1 & D1) (O2 & U2 & K2 & D2). pose proof O1 as (_ & _ & _ & Hsp & _). split; [|split; [|split]].
  - unfold same_objects in *. intuition congruence.
  - intros b y i' k o Hy Hb Hi' Hk Ho Hne. rewrite (U2 b y), (U1 b y) by (done || congruence). done.
  - intros i' k o Hi' Hk Ho Hne. by rewrite K2, K1.
  - intros g k Hg Ho Hk. rewrite D2, D1; auto.
Qed.

(** C15. Mapping a page in the address space of a process: [mapAt] makes the
    page translate to the given frame, writable exactly if PROT_WRITE is given,
    whether or not its page table existed before, and [unMap] makes it
    untranslated again.  No other translation of any process changes, none of
    the kernel but the page used to edit the table, no word of a frame that
    does not belong to the memory manager, and the invariant holds throughout. *)
Theorem user_page_mapped own K s a x i j pa prot :
  inv own K s → quiet s → (3 <= fuel)%nat → spaces s !! a = Some x → a ≠ kernelSpace →
  0 <= i < 768 → 0 <= j < 1024 → 0 <= pa < 2 ^ 32 → pa mod 4096 = 0 → 0 <= prot < 8 → 4 <= frames_left s →
  let map := mapAtWithFlags fuel fuel in
  ∃ own1 s1 own2 s2,
    mapAt map a (page_va i j) pa prot s = Ok (page_va i j, s1) ∧
    inv own1 K s1 ∧ one_page_changed own K s s1 a i j ∧
    (∀ o, 0 <= o < 4096 → walk (phys s1) (pageDir x) (page_va i j + o) = Some (pa + o, Z.testbit prot 1)) ∧
    unMap map a (page_va i j) s1 = Ok (tt, s2) ∧ inv own2 K s2 ∧ one_page_changed own K s s2 a i j ∧
    (∀ o, 0 <= o < 4096 → walk (phys s2) (pageDir x) (page_va i j + o) = None).
Proof.
  intros I Q Hfuel Hx Ha Hi Hj Hpa Hpaa Hp Hpos map.
  assert (map = mapAtWithFlags fuel (Datatypes.S (Datatypes.S (Datatypes.S (fuel - 3))))) as -> by (unfold map; f_equal; lia).
  set (flags := if Z.testbit prot 1 then 7 else 5).
  assert (0 <= flags < 4096 ∧ Z.testbit flags 0 = true ∧ Z.testbit flags 1 = Z.testbit prot 1) as (Hfl & Hf0 & Hf1)
    by (unfold flags; by destruct (Z.testbit prot 1)).
  destruct (map_user_page own K s (fuel - 3) a x i j pa flags) as (own1 & s1 & Hrun1 & I1 & P1 & [_ N1] & _ & Hl1 & Hw1); try (done || lia).
  pose proof P1 as (O1 & _). assert (spaces s1 !! a = Some x) as Hx1 by (by destruct O1 as (_ & _ & _ & -> & _)).
  assert (quiet s1) as Q1.
  { destruct Q as [Q1 Q2]. split; [by eapply calm_objects|]. by destruct O1 as (_ & -> & _). }
  destruct (map_user_page own1 K s1 (fuel - 3) a x i j 0 0) as (own2 & s2 & Hrun2 & I2 & P2 & _ & _ & _ & Hw2); try (done || lia).
  exists own1, s1, own2, s2. split; [rewrite mapAt_user by (done || lia); exact Hrun1|].
  split; [exact I1|]. split; [exact P1|]. split; [intros o Ho; by rewrite Hw1, Hf0, Hf1|].
  split; [apply (unMap_user _ a i j _ _ (page_va i j)); [lia|lia|exact Hrun2]|]. split; [exact I2|].
  split; [exact (one_page_trans own own1 K s s1 s2 a i j N1 P1 P2)|]. intros o Ho. by rewrite Hw2.
Qed.

(** C16. Mapping a page in the kernel's space: [mapAt] makes the page translate
    to the given frame in the address space of the kernel and of every process
    alike, writable exactly if PROT_WRITE is given, whether or not its page
    table existed before; no other kernel translation below the frame stack
    changes, nothing changes in the user half of any space, and the invariant
    holds afterwards. *)
Theorem kernel_page_mapped own K s i j pa prot :
  inv own K s → calm s → (2 <= fuel)%nat → 768 <= i < 1022 → 0 <= j < 1024 → ¬ dir_page (spaces s) i j →
  0 <= pa < 2 ^ 32 → pa mod 4096 = 0 → 0 <= prot < 8 → 1 <= frames_left s →
  ∃ own' s', mapAt (mapAtWithFlags fuel fuel) kernelSpace (page_va i j) pa prot s = Ok (page_va i j, s') ∧
    inv own' K s' ∧ same_objects s s' ∧
    (∀ a x o, spaces s !! a = Some x → 0 <= o < 4096 →
      walk (phys s') (pageDir x) (page_va i j + o) = Some (pa + o, Z.testbit prot 1)) ∧
    (∀ a x i' j' o, spaces s !! a = Some x → 768 <= i' < 1022 → 0 <= j' < 1024 → 0 <= o < 4096 → (i', j') ≠ (i, j) →
      walk (phys s') (pageDir x) (page_va i' j' + o) = walk (phys s) (pageDir x) (page_va i' j' + o)) ∧
    (∀ y, user_word own y → phys s' !! y = phys s !! y).
Proof.
  intros I Q Hfuel Hi Hj Hd Hpa Hpaa Hp Hpos. set (flags := if Z.testbit prot 1 then 3 else 1).
  assert (0 <= flags < 4096 ∧ Z.testbit flags 0 = true ∧ Z.testbit flags 1 = Z.testbit prot 1) as (Hfl & Hf0 & Hf1)
    by (unfold flags; by destruct (Z.testbit prot 1)).
  destruct (map_kernel own K s (fuel - 2) i j pa flags) as
    (own' & f & s' & Hrun & I' & E & _ & He & Hf & Hw & _ & Hk); try (done || lia || by right; lia).
  pose proof (e_objects _ _ _ _ E) as O. pose proof O as (_ & _ & _ & Hsp & _).
  exists own', s'. rewrite mapAt_kernel by (done || lia).
  split; [replace (mapAtWithFlags fuel fuel) with (mapAtWithFlags fuel (Datatypes.S (Datatypes.S (fuel - 2))))
    by (f_equal; lia); exact Hrun|].
  split; [exact I'|]. split; [exact O|]. split; [|split].
  - intros a x o Hx Ho. rewrite <-Hsp in Hx. rewrite (walk_shared _ _ _ _ _ _ _ I' a x) by (done || lia).
    destruct (pte_flags pa flags) as (Hb0 & Hb1 & Hfr); [done..|].
    destruct (i_frame _ _ _ _ _ _ _ I' f _ Hf) as (? & ? & _).
    rewrite (walk_table _ K i j o f 3 (pa + flags)), Hb0, Hb1, Hfr, Hf0, Hf1 by auto. done.
  - intros a x i' j' o Hx Hi' Hj' Ho Hne. rewrite (walk_shared _ _ _ _ _ _ _ I a x) by (done || lia).
    rewrite <-Hsp in Hx. rewrite (walk_shared _ _ _ _ _ _ _ I' a x) by (done || lia). by apply Hk.
  - apply (e_user _ _ _ _ E).
Qed.

(** With no frame left a pop returns 0. *)
Lemma pop_empty (map : Z → Z → Z → Z → Z → ST mm Z) own K s :
  inv own K s → calm s → frames_left s = 0 → popPageFrame fuel map s = Ok (0, s).
Proof.
  intros I (_ & Hpm & Hfuel & _) Hz. destruct (i_count _ _ _ _ _ _ _ I) as (? & ? & ? & ?). unfold frames_left in Hz.
  assert (stackUsed s = 0 ∧ stackLeft s = 0) as [Hu Hl] by (Z.to_euclidean_division_equations; lia).
  unfold popPageFrame. rewrite (scoped_ok fuel _ _ s 0 (with_held ({[physMutex]} ∪ held s) s)); [by destruct s|done|lia| |done].
  rewrite run_get_mm. mms. by rewrite Hu, Hl.
Qed.

(** C17. The stack of page frames loses no frame and hands none out twice:
    pushing a frame that does not belong to the memory manager gives it to the
    manager, as a free frame or, every 1024 frames, as a new page of the stack;
    popping takes a frame that is free, or the last page of the stack when no
    other frame is left, away from it.  The number of frames left counts both,
    a pop with none left returns 0, and a frame just pushed on a stack page with
    room is the next to be popped, the counters going back. *)
Theorem push_then_pop own K s f :
  inv own K s → calm s → (1 <= fuel)%nat → (stackLeft s = 0 → stackUsed s < 1024 * 1024) →
  own !! f = None → 0 < f < 2 ^ 32 → f mod 4096 = 0 → backed (phys s) f →
  let map := mapAtWithFlags fuel fuel in
  (frames_left s = 0 → popPageFrame fuel map s = Ok (0, s)) ∧
  ∃ r s1, pushPageFrame fuel map f s = Ok (tt, s1) ∧ available r ∧
    inv (<[f := r]> own) K s1 ∧ same_objects s s1 ∧ frames_left s1 = frames_left s + 1 ∧
    ∃ g r' s2, popPageFrame fuel map s1 = Ok (g, s2) ∧ <[f := r]> own !! g = Some r' ∧ available r' ∧
      inv (delete g (<[f := r]> own)) K s2 ∧ same_objects s s2 ∧ frames_left s2 = frames_left s ∧
      (0 < stackLeft s → g = f ∧ inv own K s2 ∧ stackUsed s2 = stackUsed s ∧ stackLeft s2 = stackLeft s).
Proof.
  intros I Q Hfuel Hroom Hn Hf Hfa Hb map. pose proof Q as (Hlm & Hpm & _ & Hfit).
  destruct (i_count _ _ _ _ _ _ _ I) as (? & ? & ? & ?).
  assert (map = mapAtWithFlags fuel (Datatypes.S (fuel - 1))) as -> by (unfold map; f_equal; lia).
  split; [by eapply pop_empty|].
  destruct (push_ok fuel own K s (fuel - 1) f) as (r & s1 & Hpush & Hr & I1 & O1 & Hl1 & Hc1 & _ & _); try (done || lia).
  exists r, s1. do 5 (split; [done|]). pose proof (calm_objects _ _ O1 Q) as (_ & Hpm1 & _ & _).
  destruct (i_count _ _ _ _ _ _ _ I1) as (? & ? & ? & ?).
  destruct (pop_ok fuel _ K s1 (fuel - 1) I1) as (g & r' & s2 & Hpop & Hg & Hr' & I2 & E2 & Hl2 & Hc2 & _); [lia|done| |].
  { rewrite Hl1. unfold frames_left. Z.to_euclidean_division_equations. lia. }
  exists g, r', s2. do 4 (split; [done|]). split.
  { destruct (e_objects _ _ _ _ E2) as (? & ? & ? & ? & ? & ?). unfold same_objects in *. intuition congruence. }
  split; [lia|]. intros Hl. destruct (Hc1 Hl) as (Hu1 & Hl1' & Ht1), Hc2 as (Hu2 & Hl2' & Ht2); [lia|].
  pose proof (top_is_unique _ _ _ _ _ Ht1 Ht2) as <-. split; [done|]. split; [|lia].
  rewrite delete_insert_id in I2 by done. exact I2.
Qed.
End mapping.
