(* ===== verification/PagingDemo.v ===== *)
(** * A concrete state of the memory manager

    The page directory, the tables and the frame stack as the loader and
    [PhysicalMemory::initialize] leave them, with one process: the state at
    which the theorems on paging are instantiated. *)
From S2P Require Import Prelude Kthread Paging PagingLaws PagingMap.

#[export] Instance role_eq_dec : EqDecision role.
Proof. solve_decision. Defined.

#[export] Instance demo_image : Image := {|
  bootstrapBegin := 0x10000; bootstrapEnd := 0x14000;
  kernelPhysicalBegin := 0x14000; kernelPhysicalEnd := 0x40000;
  kernelVirtualBegin := 0xC0001000; kernelReadOnlyEnd := 0xC0020000; kernelVirtualEnd := 0xC0030000;
  kernelPageDirectory := 0x100000; _kernelSpace := 0xC0020100; segmentsPage := 0xC0021000;
  userSegment := 0xC0020200; videoSegment := 0xC0020220; readOnlySegment := 0xC0020240;
  writableSegment := 0xC0020260; temporarySegment := 0xC0020280;
  physicalMemorySegment := 0xC00202A0; recursiveMappingSegment := 0xC00202C0 |}.
#[export] Instance demo_sched : Sched mm := {| sched_yield := λ s, Ok (tt, s) |}.

Definition demo_process : Z := 0xC0022000.
Definition demo_own : gmap Z role := list_to_map [
  (0x100000, Directory kernelSpace); (0x101000, Table kernelSpace 768); (0x102000, Table kernelSpace 1022);
  (0x103000, StackPage 0); (0x107000, Directory demo_process);
  (0x104000, Free 1); (0x105000, Free 2); (0x106000, Free 3); (0x108000, Free 4)].

Definition demo_words : list (Z * Z) := [
  (0x100000 + 4 * 768, 0x101003); (0x100000 + 4 * 1022, 0x102003); (0x100000 + 4 * 1023, 0x100003);
  (0x101000 + 4 * 512, 0x107003); (0x102000 + 4 * 1023, 0x103003);
  (0x107000 + 4 * 768, 0x101003); (0x107000 + 4 * 1022, 0x102003); (0x107000 + 4 * 1023, 0x100003);
  (0x103000 + 4 * 1023, 0x104000); (0x103000 + 4 * 1022, 0x105000);
  (0x103000 + 4 * 1021, 0x106000); (0x103000 + 4 * 1020, 0x108000)].

(** Nine frames of the memory manager and one it does not own. *)
Definition demo_memory : gmap Z Z := list_to_map (demo_words ++
  mjoin (map (λ f, map (λ j, (f + 4 * j, 0)) (seqZ 0 1024))
    [0x100000; 0x101000; 0x102000; 0x103000; 0x104000; 0x105000; 0x106000; 0x107000; 0x108000; 0x200000])).

(** Sealed, so that only the lemmas below evaluate it. *)
Lemma demo_phys_seal : { m | m = demo_memory }.
Proof. by eexists. Qed.
Definition demo_phys : gmap Z Z := `demo_phys_seal.
Lemma demo_phys_eq : demo_phys = demo_memory.
Proof. exact (proj2_sig demo_phys_seal). Qed.

Definition demo_spaces : gmap Z aspace := list_to_map [
  (kernelSpace, Space 0x100000 0xFFFFF000 0 0 0);
  (demo_process, Space 0x107000 (page_va 768 512) 0x5000 0 0)].

Definition demo_mm : mm := MM demo_phys 0x107000 ∅ 4 1020 demo_process demo_spaces ∅ ∅.

(** ** The invariant, by evaluation *)
Lemma range_check (P : Z → bool) n :
  forallb P (seqZ 0 n) = true → ∀ i, 0 <= i < n → P i = true.
Proof. rewrite forallb_forall. intros H i Hi. apply H, list_elem_of_In, elem_of_seqZ. lia. Qed.

Definition own_entry (own : gmap Z role) (e k : Z) (r : role) : bool := bool_decide (own !! (e - k) = Some r).

Definition entry_b (m : gmap Z Z) (own : gmap Z role) (k pd a i : Z) : bool :=
  match m !! (pd + 4 * i) with Some e => (e =? 0) || own_entry own e k (Table a i) | None => false end.

Lemma entry_check m own k pd a i :
  entry_b m own k pd a i = true →
  m !! (pd + 4 * i) = Some 0 ∨ ∃ f, m !! (pd + 4 * i) = Some (f + k) ∧ own !! f = Some (Table a i).
Proof.
  unfold entry_b, own_entry. destruct (m !! _) as [e|]; [|done]. rewrite orb_true_iff, bool_decide_eq_true.
  intros [->%Z.eqb_eq|H]; [by left|right]. exists (e - k). split; [f_equal; lia|done].
Qed.

(** The words of the demo memory, by evaluation. *)
Ltac by_memory := rewrite ?demo_phys_eq; vm_compute; reflexivity.

Lemma demo_frames_b : forallb (λ '(f, _), (0 <? f) && (f <? 2 ^ 32) && (f mod 4096 =? 0) &&
    forallb (λ j, bool_decide (is_Some (demo_phys !! (f + 4 * j)))) (seqZ 0 1024)) (map_to_list demo_own) = true.
Proof. by_memory. Qed.

Lemma demo_frames f r :
  demo_own !! f = Some r →
  0 < f < 2 ^ 32 ∧ f mod 4096 = 0 ∧ ∀ j, 0 <= j < 1024 → is_Some (demo_phys !! (f + 4 * j)).
Proof.
  intros H%elem_of_map_to_list. pose proof (proj1 (forallb_forall _ _) demo_frames_b) as Hall.
  apply list_elem_of_In in H. specialize (Hall _ H). cbv beta iota in Hall.
  apply andb_prop in Hall as [Hall H4]. apply andb_prop in Hall as [Hall H3]. apply andb_prop in Hall as [H1 H2]. zb.
  split; [lia|]. split; [done|]. intros j Hj. exact (bool_decide_eq_true_1 _ (range_check _ 1024 H4 j Hj)).
Qed.

Lemma demo_tables : forallb (entry_b demo_phys demo_own 3 0x100000 kernelSpace) (seqZ 0 1023) = true.
Proof. by_memory. Qed.

Lemma demo_user_tables : forallb (entry_b demo_phys demo_own 7 0x107000 demo_process) (seqZ 0 768) = true.
Proof. by_memory. Qed.

Lemma demo_shared : forallb (λ i, bool_decide (demo_phys !! (0x107000 + 4 * (768 + i)) =
  demo_phys !! (0x100000 + 4 * (768 + i)))) (seqZ 0 256) = true.
Proof. by_memory. Qed.

Lemma demo_space a x :
  demo_spaces !! a = Some x →
  (a = kernelSpace ∧ x = Space 0x100000 0xFFFFF000 0 0 0) ∨
  (a = demo_process ∧ x = Space 0x107000 (page_va 768 512) 0x5000 0 0).
Proof.
  unfold demo_spaces. cbn [list_to_map foldr uncurry]. rewrite !lookup_insert_Some, lookup_empty. naive_solver.
Qed.

Lemma demo_maps i j f g :
  demo_phys !! (0x100000 + 4 * i) = Some (f + 3) → demo_own !! f = Some (Table kernelSpace i) →
  demo_phys !! (f + 4 * j) = Some (g + 3) → maps demo_own 0x100000 demo_phys i j g.
Proof. intros H1 H2 H3. exact (ex_intro _ f (conj H1 (conj H2 H3))). Qed.

Lemma demo_map_dir : maps demo_own 0x100000 demo_phys 768 512 0x107000.
Proof. apply (demo_maps _ _ 0x101000); by_memory. Qed.

Lemma demo_map_stack : maps demo_own 0x100000 demo_phys 1022 1023 0x103000.
Proof. apply (demo_maps _ _ 0x102000); by_memory. Qed.

Lemma demo_slot k f :
  slot_page k = 0 → demo_own !! f = Some (Free k) → demo_phys !! (0x103000 + 4 * slot_word k) = Some f →
  ∃ f g, demo_own !! f = Some (Free k) ∧ demo_own !! g = Some (StackPage (slot_page k)) ∧
    maps demo_own 0x100000 demo_phys 1022 (1023 - slot_page k) g ∧ demo_phys !! (g + 4 * slot_word k) = Some f.
Proof.
  intros Hp Hf Hw. exists f, 0x103000. rewrite Hp. split; [done|]. split; [by vm_compute|]. split; [exact demo_map_stack|exact Hw].
Qed.

Lemma demo_inv : inv demo_own 0x100000 demo_mm.
Proof.
  constructor; unfold demo_mm; mms.
  - apply demo_frames.
  - by exists (Space 0x100000 0xFFFFF000 0 0 0).
  - intros a x [[-> ->]|[-> ->]]%demo_space; vm_compute; reflexivity.
  - by_memory.
  - intros i Hi. apply entry_check. exact (range_check _ 1023 demo_tables i Hi).
  - intros a x i [[_ ->]|[_ ->]]%demo_space Hi; [done|]. cbn [pageDir].
    pose proof (bool_decide_eq_true_1 _ (range_check _ 256 demo_shared (i - 768) ltac:(lia))) as Hb.
    by replace (768 + (i - 768)) with i in Hb by lia.
  - intros a x i [[-> ->]|[-> ->]]%demo_space Ha Hi; [done|]. cbn [pageDir].
    apply entry_check. exact (range_check _ 768 demo_user_tables i Hi).
  - intros a x [[-> ->]|[-> ->]]%demo_space Ha; [done|]. exists 768, 512.
    do 3 (split; [done || lia|]). exact demo_map_dir.
  - by exists demo_process, (Space 0x107000 (page_va 768 512) 0x5000 0 0).
  - by vm_compute.
  - rewrite demo_phys_eq. by vm_compute.
  - intros j Hj. assert (j = 0) as -> by (change ((4 + 1020) / 1024) with 1 in Hj; lia). exists 0x103000.
    split; [vm_compute; reflexivity|]. exact demo_map_stack.
  - intros k Hk. assert (k = 1 ∨ k = 2 ∨ k = 3 ∨ k = 4) as [->|[->|[->| ->]]] by lia.
    + apply (demo_slot 1 0x104000); [done|by vm_compute|by_memory].
    + apply (demo_slot 2 0x105000); [done|by vm_compute|by_memory].
    + apply (demo_slot 3 0x106000); [done|by vm_compute|by_memory].
    + apply (demo_slot 4 0x108000); [done|by vm_compute|by_memory].
Qed.

Lemma demo_quiet : quiet 10 demo_mm.
Proof.
  split; [|done]. do 2 (split; [done|]). split; [lia|]. exists [demo_process]. split; [|split; [|cbn; lia]].
  - cbn. split; [done|]. split; [done|]. by exists (Space 0x107000 (page_va 768 512) 0x5000 0 0).
  - intros a. rewrite list_elem_of_singleton. split; [intros ->; split; [done|by eexists]|].
    intros [Ha [x [[-> _]|[-> _]]%demo_space]]; done.
Qed.

Lemma demo_dir_page i j : 0 <= j < 1024 → i ≠ 768 ∨ j ≠ 512 → ¬ dir_page demo_spaces i j.
Proof.
  intros Hj Hne (a & x & Hx & Ha & Hp). destruct (demo_space a x Hx) as [[-> ->]|[-> ->]]; [done|].
  cbn [pageDirMapped] in Hp. apply page_va_inj in Hp; lia.
Qed.

Lemma demo_backed_b : forallb (λ j, bool_decide (is_Some (demo_phys !! (0x200000 + 4 * j)))) (seqZ 0 1024) = true.
Proof. by_memory. Qed.

Lemma demo_backed : backed demo_phys 0x200000.
Proof. intros j Hj. exact (bool_decide_eq_true_1 _ (range_check _ 1024 demo_backed_b j Hj)). Qed.

(** ** Witnesses *)
Lemma user_page_mapped_witness :
  ∃ s, mapAt (mapAtWithFlags 10 10) demo_process (page_va 32 72) 0x200000 3 demo_mm = Ok (page_va 32 72, s).
Proof.
  destruct (user_page_mapped 10 demo_own 0x100000 demo_mm demo_process (Space 0x107000 (page_va 768 512) 0x5000 0 0) 32 72
    0x200000 3 demo_inv demo_quiet ltac:(lia) ltac:(vm_compute; reflexivity) ltac:(done) ltac:(lia) ltac:(lia)
    ltac:(lia) ltac:(done) ltac:(lia) ltac:(by vm_compute)) as (_ & s & _ & _ & Hrun & _).
  exists s. exact Hrun.
Defined.

Lemma kernel_page_mapped_witness :
  ∃ s, mapAt (mapAtWithFlags 10 10) kernelSpace (page_va 770 5) 0x200000 1 demo_mm = Ok (page_va 770 5, s) ∧
    ∀ o, 0 <= o < 4096 → walk (phys s) 0x107000 (page_va 770 5 + o) = Some (0x200000 + o, false).
Proof.
  destruct (kernel_page_mapped 10 demo_own 0x100000 demo_mm 770 5 0x200000 1 demo_inv (proj1 demo_quiet) ltac:(lia)
    ltac:(lia) ltac:(lia) (demo_dir_page 770 5 ltac:(lia) ltac:(lia)) ltac:(lia) ltac:(done) ltac:(lia) ltac:(by vm_compute))
    as (_ & s & Hrun & _ & _ & Hw & _).
  exists s. split; [exact Hrun|]. intros o Ho.
  exact (Hw demo_process (Space 0x107000 (page_va 768 512) 0x5000 0 0) o ltac:(vm_compute; reflexivity) Ho).
Defined.

Lemma push_then_pop_witness :
  ∃ s1 s2, pushPageFrame 10 (mapAtWithFlags 10 10) 0x200000 demo_mm = Ok (tt, s1) ∧
    popPageFrame 10 (mapAtWithFlags 10 10) s1 = Ok (0x200000, s2).
Proof.
  destruct (push_then_pop 10 demo_own 0x100000 demo_mm 0x200000 demo_inv (proj1 demo_quiet) ltac:(lia)
    ltac:(by vm_compute) ltac:(vm_compute; reflexivity) ltac:(lia) ltac:(done) demo_backed) as (_ & r & s1 & Hpush & _ & _ & _ & _ & g & r' & s2 & Hpop & _ & _ & _ & _ & _ & Hg).
  exists s1, s2. split; [exact Hpush|]. destruct (Hg ltac:(by vm_compute)) as (-> & _). exact Hpop.
Defined.
