(* ===== verification/Segments.v ===== *)
(** * Memory segments (kernel/src/memorysegment.cpp)

    The used parts of an address space: a doubly linked list of segments sorted
    by address.  Their objects live in slots of pages the kernel maps for them
    (204 to a page, then the address of the next such page); a slot is free
    when its address or its size is 0. *)
From S2P Require Import Prelude Kthread Paging.

Definition sizeof_MemorySegment : Z := 20.

(** The end of the slots of a page. *)
Definition slots_end : Z := PAGESIZE - PAGESIZE mod sizeof_MemorySegment.

Section segments.
Context `{Img : Image} `{Y : !Sched mm} (fuel : nat).

Definition get_segment (p : Z) : ST mm segment := λ s,
  match segs s !! p with Some g => Ok (g, s) | None => Fault end.
Definition update_segment (p : Z) (f : segment → segment) : ST mm unit := λ s,
  match segs s !! p with
  | Some g => Ok (tt, with_segs (<[p := f g]> (segs s)) s)
  | None => Fault
  end.
Definition set_address (p v : Z) : ST mm unit :=
  update_segment p (λ g, MemorySegment v (seg_size g) (seg_flags g) (seg_prev g) (seg_next g)).
Definition set_size (p v : Z) : ST mm unit :=
  update_segment p (λ g, MemorySegment (seg_address g) v (seg_flags g) (seg_prev g) (seg_next g)).
Definition set_flags (p v : Z) : ST mm unit :=
  update_segment p (λ g, MemorySegment (seg_address g) (seg_size g) v (seg_prev g) (seg_next g)).
Definition set_prev (p v : Z) : ST mm unit :=
  update_segment p (λ g, MemorySegment (seg_address g) (seg_size g) (seg_flags g) v (seg_next g)).
Definition set_next (p v : Z) : ST mm unit :=
  update_segment p (λ g, MemorySegment (seg_address g) (seg_size g) (seg_flags g) (seg_prev g) v).

Definition seg_end (g : segment) : Z := u32 (seg_address g + seg_size g).

Definition getFreeSpaceAfter (p : Z) : ST mm Z :=
  g ← get_segment p;
  n ← get_segment (seg_next g);
  mret (u32 (seg_address n - seg_end g)).

Definition findFreeSegment (first size : Z) : ST mm Z :=
  loop fuel (λ currentSegment : Z,
    free ← getFreeSpaceAfter currentSegment;
    g ← get_segment currentSegment;
    if free <? size then
      if seg_next g =? 0 then mret (Done 0) else mret (Next (seg_next g))
    else mret (Done (seg_end g))) first.

(** [addSegment (firstSegment, newSegment)] *)
Definition insertSegment (first newSegment : Z) : ST mm unit :=
  new ← get_segment newSegment;
  let endAddress := seg_end new in
  currentSegment ← loop fuel (λ currentSegment : Z,
    g ← get_segment currentSegment;
    if seg_next g =? 0 then mret (Done currentSegment) else
    n ← get_segment (seg_next g);
    if seg_address n <? endAddress then mret (Next (seg_next g)) else mret (Done currentSegment)) first;
  g ← get_segment currentSegment;
  if negb (seg_end g <=? seg_address new) then fault else
  ok ← (if seg_next g =? 0 then mret true
        else n ← get_segment (seg_next g); mret (endAddress <=? seg_address n));
  if negb ok then fault else
  set_prev newSegment currentSegment;;
  set_next newSegment (seg_next g);;
  set_next currentSegment newSegment;;
  (if seg_next g =? 0 then mret tt else set_prev (seg_next g) newSegment).

Definition get_nextPage (p : Z) : ST mm Z := λ s,
  match nextPages s !! p with Some a => Ok (a, s) | None => Fault end.

Definition allocateSegment (address size flags : Z) : ST mm Z :=
  current ← loop fuel (λ current : Z,
    g ← get_segment current;
    if negb (seg_address g =? 0) && negb (seg_size g =? 0) then
      let current := current + sizeof_MemorySegment in
      if Z.land current 0xFFF =? slots_end then
        nextPage ← get_nextPage current;
        if nextPage =? 0 then fault else mret (Next nextPage)
      else mret (Next current)
    else mret (Done current)) segmentsPage;
  set_address current address;; set_size current size;; set_flags current flags;;
  mret current.

(** memset (segment, 0, sizeof (MemorySegment)) *)
Definition deallocateSegment (p : Z) : ST mm unit :=
  update_segment p (λ _, MemorySegment 0 0 0 0 0).

(** A page of free slots. *)
Definition clear_slots (page : Z) : ST mm unit :=
  for_n 204 0 (λ i, modify_mm (λ s,
    with_segs (<[page + sizeof_MemorySegment * i := MemorySegment 0 0 0 0 0]> (segs s)) s));;
  modify_mm (λ s, with_nextPages (<[page + slots_end := 0]> (nextPages s)) s).

Definition verifySegmentList : ST mm unit :=
  '(found, freeSegment, nextPage) ← loop fuel (λ '(current, found, freeSegment),
    g ← get_segment current;
    let '(found, freeSegment) :=
      if (seg_address g =? 0) && (seg_size g =? 0) then (found + 1, current) else (found, freeSegment) in
    let current := current + sizeof_MemorySegment in
    if Z.land current 0xFFF =? slots_end then
      next ← get_nextPage current;
      if next =? 0 then mret (Done (found, freeSegment, current))
      else mret (Next (next, found, freeSegment))
    else mret (Next (current, found, freeSegment))) (segmentsPage, 0, 0);
  if found =? 1 then
    kernel ← get_space kernelSpace;
    address ← findFreeSegment (firstSegment kernel) PAGESIZE;
    physical ← popPageFrame fuel (mapAtWithFlags fuel fuel);
    mapAt (mapAtWithFlags fuel fuel) kernelSpace address physical (Z.lor PROT_READ PROT_WRITE);;
    modify_mm (λ s, with_nextPages (<[nextPage := address]> (nextPages s)) s);;
    clear_slots address;;
    set_address freeSegment address;; set_size freeSegment PAGESIZE;;
    set_flags freeSegment (Z.lor PROT_READ PROT_WRITE);;
    insertSegment (firstSegment kernel) freeSegment
  else mret tt.

Definition addSegment (first address size protection : Z) : ST mm unit :=
  scoped fuel segMutex (
    newSegment ← allocateSegment address size protection;
    insertSegment first newSegment;;
    verifySegmentList).

Definition findAndAddNewSegment (first size protection : Z) : ST mm Z :=
  scoped fuel segMutex (
    address ← findFreeSegment first size;
    newSegment ← allocateSegment address size protection;
    insertSegment first newSegment;;
    verifySegmentList;;
    mret address).

(** What is left to remove behind the gap that follows a segment. *)
Definition skip_gap (p size : Z) : ST mm Z :=
  free ← getFreeSpaceAfter p;
  mret (if size <? free then 0 else u32 (size - free)).

(** One round of the second loop of [removeSegment]. *)
Definition remove_step (currentSegment address size : Z) : ST mm (Z * Z * Z) :=
  g ← get_segment currentSegment;
  if (seg_address g =? address) && (seg_size g <=? size) then
    let address := u32 (address + seg_size g) in
    size ← skip_gap currentSegment (u32 (size - seg_size g));
    g ← get_segment currentSegment;
    (if seg_next g =? 0 then mret tt else set_prev (seg_next g) (seg_prev g));;
    (if seg_prev g =? 0 then mret tt else set_next (seg_prev g) (seg_next g));;
    deallocateSegment currentSegment;;
    mret (seg_next g, address, size)
  else
    '(address, size) ←
      (if (seg_address g =? address) && (size <? seg_size g) then
         set_address currentSegment (u32 (seg_address g + size));;
         set_size currentSegment (u32 (seg_size g - size));;
         mret (address, 0)
       else if seg_end g <? u32 (address + size) then
         let diff := u32 (seg_end g - address) in
         set_size currentSegment (u32 (seg_size g - diff));;
         mret (u32 (address + diff), u32 (size - diff))
       else
         let firstSize := u32 (address - seg_address g) in
         let secondSize := u32 (seg_size g - firstSize - size) in
         newSegment ← allocateSegment (u32 (address + size)) secondSize (seg_flags g);
         set_prev newSegment currentSegment;;
         g ← get_segment currentSegment;
         set_next newSegment (seg_next g);;
         set_next currentSegment newSegment;;
         set_size currentSegment firstSize;;
         mret (address, size));
    size ← skip_gap currentSegment size;
    g ← get_segment currentSegment;
    mret (seg_next g, address, size).

Definition removeSegment (first address size : Z) : ST mm unit :=
  scoped fuel segMutex (
    currentSegment ← loop fuel (λ currentSegment : Z,
      g ← get_segment currentSegment;
      if seg_end g <=? address then mret (Next (seg_next g)) else mret (Done currentSegment)) first;
    loop fuel (λ '(currentSegment, address, size),
      if size =? 0 then mret (Done tt) else
      next ← remove_step currentSegment address size;
      mret (Next next)) (currentSegment, address, size);;
    verifySegmentList).
End segments.
