(* ===== verification/SegmentLaws.v ===== *)
(** * What the segment lists guarantee

    A list of segments is a doubly linked chain of objects whose address ranges
    are sorted and disjoint.  Finding room returns the end of the first segment
    with a large enough gap behind it, and adding a segment is a sorted
    insertion that keeps the ranges disjoint. *)
From S2P Require Import Prelude Kthread Paging PagingLaws Segments.

(** ** Chains *)
Record entry : Type := Entry { e_ptr : Z; e_addr : Z; e_size : Z; e_flags : Z }.

Definition e_end (e : entry) : Z := e_addr e + e_size e.
Definition e_segment (e : entry) (prev next : Z) : segment :=
  MemorySegment (e_addr e) (e_size e) (e_flags e) prev next.

(** The objects of [l], from [p] (whose prev is [prv]) up to [last], whose next
    is [nxt]. *)
Fixpoint chain (m : gmap Z segment) (prv p : Z) (l : list entry) (last nxt : Z) : Prop :=
  match l with
  | [] => p = nxt ∧ prv = last
  | e :: l => p = e_ptr e ∧ p ≠ 0 ∧ ∃ q, m !! p = Some (e_segment e prv q) ∧ chain m p q l last nxt
  end.

Lemma chain_app m prv p l1 l2 last nxt :
  chain m prv p (l1 ++ l2) last nxt ↔ ∃ x q, chain m prv p l1 x q ∧ chain m x q l2 last nxt.
Proof.
  revert prv p. induction l1 as [|e l1 IH]; intros prv p; cbn [chain app].
  - split; [intros H; by exists prv, p|]. by intros (x & q & [-> ->] & H).
  - split.
    + intros (-> & Hp & q & Hq & (x & y & H1 & H2)%IH). exists x, y. split; [|done]. eauto.
    + intros (x & y & (-> & Hp & q & Hq & H1) & H2). split; [done|]. split; [done|]. exists q. split; [done|].
      apply IH. eauto.
Qed.

Lemma chain_same m m' prv p l last nxt :
  (∀ e, e ∈ l → m' !! e_ptr e = m !! e_ptr e) → chain m prv p l last nxt → chain m' prv p l last nxt.
Proof.
  revert prv p. induction l as [|e l IH]; intros prv p Hm; cbn [chain]; [done|].
  intros (-> & Hp & q & Hq & Hc). split; [done|]. split; [done|]. exists q.
  split; [by rewrite Hm by left|]. apply IH; [|done]. intros e' He. apply Hm. by right.
Qed.

(** Ranges in ascending order without overlap, all below 2^32. *)
Fixpoint sorted_from (lo : Z) (l : list entry) : Prop :=
  match l with
  | [] => lo <= 2 ^ 32
  | e :: l => lo <= e_addr e ∧ 0 < e_size e ∧ sorted_from (e_end e) l
  end.

Lemma sorted_bound lo l : sorted_from lo l → lo <= 2 ^ 32.
Proof.
  revert lo. induction l as [|e l IH]; intros lo; cbn; [done|].
  intros (? & ? & H%IH). unfold e_end in H. lia.
Qed.

Lemma sorted_app lo l1 l2 :
  sorted_from lo (l1 ++ l2) ↔ ∃ mid, sorted_from lo l1 ∧ sorted_from mid l2 ∧ mid = foldl (λ _ e, e_end e) lo l1.
Proof.
  revert lo. induction l1 as [|e l1 IH]; intros lo; cbn [app sorted_from foldl].
  - split; [intros H; exists lo; split_and!; try done; by eapply sorted_bound|]. by intros (mid & _ & ? & ->).
  - rewrite IH. split; [intros (? & ? & mid & ? & ? & ?); eauto 10|intros (mid & (? & ? & ?) & ? & ?); eauto 10].
Qed.

(** ** Finding room *)
Fixpoint find_gap (size : Z) (l : list entry) : option Z :=
  match l with
  | e1 :: ((e2 :: _) as l') => if size <=? e_addr e2 - e_end e1 then Some (e_end e1) else find_gap size l'
  | _ => None
  end.

Section segments.
Context `{Img : Image} `{Y : !Sched mm} (fuel : nat).
Implicit Types s : mm.

Lemma get_segment_ok s p g : segs s !! p = Some g → get_segment p s = Ok (g, s).
Proof. intros H. unfold get_segment. by rewrite H. Qed.

Lemma update_segment_ok s p g f :
  segs s !! p = Some g → update_segment p f s = Ok (tt, with_segs (<[p := f g]> (segs s)) s).
Proof. intros H. unfold update_segment. by rewrite H. Qed.

Lemma seg_end_small e prv q : 0 <= e_addr e → 0 < e_size e → e_end e < 2 ^ 32 → seg_end (e_segment e prv q) = e_end e.
Proof. intros. unfold seg_end, e_end in *. cbn. apply u32_small. lia. Qed.

Lemma free_space s e1 e2 prv q prv' q' :
  0 <= e_addr e1 → 0 < e_size e1 → e_end e1 <= e_addr e2 → e_addr e2 < 2 ^ 32 →
  segs s !! e_ptr e1 = Some (e_segment e1 prv q) → segs s !! q = Some (e_segment e2 prv' q') →
  getFreeSpaceAfter (e_ptr e1) s = Ok (e_addr e2 - e_end e1, s).
Proof.
  intros ? ? ? ? H1 H2. unfold getFreeSpaceAfter. rewrite (bind_ok _ _ _ _ _ (get_segment_ok _ _ _ H1)).
  cbn [seg_next e_segment]. rewrite (bind_ok _ _ _ _ _ (get_segment_ok _ _ _ H2)).
  fold (e_segment e1 prv q). rewrite seg_end_small by lia. cbn [seg_address e_segment].
  rewrite u32_small; [done|]. unfold e_end in *. lia.
Qed.

(** [findFreeSegment] returns the end of the first segment that is followed
    by a gap of at least [size] bytes.  Behind the last segment it looks for
    none, and when no gap is large enough it does not return 0: it follows the
    null pointer of the last segment. *)
Lemma find_free_ok s first l lo prv last size :
  chain (segs s) prv first l last 0 → sorted_from lo l → 0 <= lo → 0 <= size → l ≠ [] → segs s !! 0 = None →
  (length l <= fuel)%nat →
  findFreeSegment fuel first size s = match find_gap size l with Some a => Ok (a, s) | None => Fault end.
Proof.
  intros Hc Hs Hlo Hsize Hne Hnull Hfuel. unfold findFreeSegment.
  match goal with |- context [loop _ ?b _] => set (body := b) end.
  revert lo prv first fuel Hc Hs Hlo Hne Hfuel. induction l as [|e1 l IH]; [done|].
  intros lo prv first n (-> & Hp & q & Hq & Hc) (? & ? & Hs) Hlo _ Hn. destruct n as [|n]; [cbn in Hn; lia|].
  destruct l as [|e2 l].
  - destruct Hc as [-> _]. cbn [find_gap]. apply loop_fault. unfold body. apply bind_fault.
    unfold getFreeSpaceAfter. rewrite (bind_ok _ _ _ _ _ (get_segment_ok _ _ _ Hq)). apply bind_fault.
    unfold get_segment. cbn [seg_next e_segment]. by rewrite Hnull.
  - pose proof Hs as (He & He2 & Hs2). pose proof (sorted_bound _ _ Hs2) as Hb. unfold e_end in Hb.
    pose proof Hc as (-> & Hq0 & q' & Hq' & _).
    assert (getFreeSpaceAfter (e_ptr e1) s = Ok (e_addr e2 - e_end e1, s)) as Hfree.
    { eapply free_space; [lia|done|done|lia|exact Hq|exact Hq']. }
    cbn [find_gap]. destruct (decide (size <= e_addr e2 - e_end e1)) as [Hle|Hle].
    + rewrite (proj2 (Z.leb_le _ _)) by done. apply loop_done. unfold body.
      rewrite (bind_ok _ _ _ _ _ Hfree), (bind_ok _ _ _ _ _ (get_segment_ok _ _ _ Hq)).
      rewrite (proj2 (Z.ltb_ge _ _)) by done. rewrite seg_end_small; [done|lia|done|]. unfold e_end in *. lia.
    + rewrite (proj2 (Z.leb_gt _ _)) by lia. erewrite loop_next.
      * apply (IH (e_end e1) (e_ptr e1) (e_ptr e2)); [done|done|unfold e_end; lia|done|cbn in *; lia].
      * unfold body. rewrite (bind_ok _ _ _ _ _ Hfree), (bind_ok _ _ _ _ _ (get_segment_ok _ _ _ Hq)).
        rewrite (proj2 (Z.ltb_lt _ _)) by lia. cbn [seg_next e_segment].
        rewrite (proj2 (Z.eqb_neq (e_ptr e2) 0)) by done. done.
Qed.

(** ** Adding a segment *)
Lemma sorted_all lo l e : sorted_from lo l → e ∈ l → lo <= e_addr e ∧ 0 < e_size e ∧ e_end e <= 2 ^ 32.
Proof.
  revert lo. induction l as [|x l IH]; intros lo; [by intros _ ?%elem_of_nil|].
  intros (? & ? & Hs) [->|Hin]%elem_of_cons; [split_and!; [done..|by eapply sorted_bound]|].
  destruct (IH _ Hs Hin). unfold e_end in *. lia.
Qed.

(** The loop of [insertSegment] stops at the last segment that starts before
    [endAddress], and at the first segment at the latest. *)
Lemma insert_place s prv p l lo last endAddress n :
  chain (segs s) prv p l last 0 → sorted_from lo l → l ≠ [] → (length l <= n)%nat →
  ∃ l1 e l2, l = l1 ++ e :: l2 ∧
    loop n (λ currentSegment : Z,
      g ← get_segment currentSegment;
      if seg_next g =? 0 then mret (Done currentSegment) else
      n ← get_segment (seg_next g);
      if seg_address n <? endAddress then mret (Next (seg_next g)) else mret (Done currentSegment)) p s
      = Ok (e_ptr e, s) ∧
    (∀ x, x ∈ l2 → endAddress <= e_addr x) ∧ (∀ x, x ∈ tail (l1 ++ [e]) → e_addr x < endAddress).
Proof.
  revert lo prv p n. induction l as [|e1 l IH]; [done|].
  intros lo prv p n (-> & Hp & q & Hq & Hc) (? & ? & Hs) _ Hn. destruct n as [|n]; [cbn in Hn; lia|].
  destruct l as [|e2 l].
  - destruct Hc as [-> _]. exists [], e1, []. split; [done|]. split; [|split; by intros x ?%elem_of_nil].
    apply loop_done. by rewrite (bind_ok _ _ _ _ _ (get_segment_ok _ _ _ Hq)).
  - pose proof Hs as (Hlo2 & ? & Hs2). pose proof Hc as (-> & Hq0 & q' & Hq' & _).
    destruct (decide (e_addr e2 < endAddress)) as [Hlt|Hge].
    + destruct (IH (e_end e1) (e_ptr e1) (e_ptr e2) n Hc Hs) as (l1 & e & l2 & Hl & Hrun & HA & HB); [done|cbn in *; lia|].
      exists (e1 :: l1), e, l2. rewrite Hl. split; [done|]. split; [|split; [done|]].
      * erewrite loop_next; [exact Hrun|]. rewrite (bind_ok _ _ _ _ _ (get_segment_ok _ _ _ Hq)).
        cbn [seg_next e_segment]. rewrite (proj2 (Z.eqb_neq (e_ptr e2) 0)) by done.
        rewrite (bind_ok _ _ _ _ _ (get_segment_ok _ _ _ Hq')). cbn [seg_address e_segment].
        by rewrite (proj2 (Z.ltb_lt _ _)) by done.
      * cbn [tail app]. destruct l1 as [|y l1]; cbn in Hl; simplify_eq; cbn [app tail] in *.
        -- by intros x ->%list_elem_of_singleton.
        -- intros x [->|Hx]%elem_of_cons; auto.
    + exists [], e1, (e2 :: l). split; [done|]. split; [|split; [|by intros x ?%elem_of_nil]].
      * apply loop_done. rewrite (bind_ok _ _ _ _ _ (get_segment_ok _ _ _ Hq)).
        cbn [seg_next e_segment]. rewrite (proj2 (Z.eqb_neq (e_ptr e2) 0)) by done.
        rewrite (bind_ok _ _ _ _ _ (get_segment_ok _ _ _ Hq')). cbn [seg_address e_segment].
        by rewrite (proj2 (Z.ltb_ge _ _)) by lia.
      * intros x [->|Hx]%elem_of_cons; [lia|]. destruct (sorted_all _ _ _ Hs2 Hx). unfold e_end in *. lia.
Qed.

(** Sorted insertion behind the segments that end at or before the new one. *)
Fixpoint insert_sorted (new : entry) (l : list entry) : list entry :=
  match l with
  | e :: l => if e_end e <=? e_addr new then e :: insert_sorted new l else new :: e :: l
  | [] => [new]
  end.

Lemma insert_sorted_split new l1 e l2 :
  (∀ x, x ∈ l1 ++ [e] → e_end x <= e_addr new) → (∀ x, x ∈ l2 → e_addr new < e_end x) →
  insert_sorted new (l1 ++ e :: l2) = l1 ++ e :: new :: l2.
Proof.
  intros H1 H2. induction l1 as [|x l1 IH]; cbn [app insert_sorted].
  - rewrite (proj2 (Z.leb_le _ _)) by (apply H1; left). f_equal. destruct l2 as [|y l2]; [done|].
    cbn [insert_sorted]. rewrite (proj2 (Z.leb_gt _ _)); [done|]. apply H2. left.
  - rewrite (proj2 (Z.leb_le _ _)) by (apply H1; left). f_equal. apply IH. intros y Hy. apply H1. by right.
Qed.

Lemma set_prev_ok s p e a b v :
  segs s !! p = Some (e_segment e a b) →
  set_prev p v s = Ok (tt, with_segs (<[p := e_segment e v b]> (segs s)) s).
Proof. intros H. unfold set_prev. by rewrite (update_segment_ok _ _ _ _ H). Qed.

Lemma set_next_ok s p e a b v :
  segs s !! p = Some (e_segment e a b) →
  set_next p v s = Ok (tt, with_segs (<[p := e_segment e a v]> (segs s)) s).
Proof. intros H. unfold set_next. by rewrite (update_segment_ok _ _ _ _ H). Qed.

(** The four pointer updates of [insertSegment]. *)
Lemma link_after s q new a b e x nx l2 last :
  segs s !! q = Some (e_segment new a b) → q = e_ptr new → q ≠ 0 → e_ptr e ≠ 0 →
  segs s !! e_ptr e = Some (e_segment e x nx) → chain (segs s) (e_ptr e) nx l2 last 0 →
  NoDup (q :: e_ptr e :: (e_ptr <$> l2)) →
  ∃ m last', (set_prev q (e_ptr e);; set_next q nx;; set_next (e_ptr e) q;;
      (if nx =? 0 then mret tt else set_prev nx q)) s = Ok (tt, with_segs m s) ∧
    chain m x (e_ptr e) (e :: new :: l2) last' 0 ∧
    ∀ p, p ≠ q → p ≠ e_ptr e → p ∉ e_ptr <$> l2 → m !! p = segs s !! p.
Proof.
  intros Hq -> Hq0 He0 He Hc [Hqn [Hen Hnd]%NoDup_cons]%NoDup_cons.
  rewrite not_elem_of_cons in Hqn. destruct Hqn as [Hqe Hql].
  erewrite bind_ok; [|exact (set_prev_ok _ _ _ _ _ _ Hq)].
  erewrite bind_ok; [|apply (set_next_ok _ _ new (e_ptr e) b); mms; apply lookup_insert_eq].
  erewrite bind_ok; [|apply (set_next_ok _ _ e x nx); mms; rewrite !lookup_insert_ne by done; exact He]. mms.
  set (m3 := <[e_ptr e := _]> _).
  assert (∀ p, p ≠ e_ptr new → p ≠ e_ptr e → m3 !! p = segs s !! p) as Ho.
  { intros p Hp1 Hp2. unfold m3. by rewrite !lookup_insert_ne by done. }
  assert (m3 !! e_ptr e = Some (e_segment e x (e_ptr new))) as He3 by apply lookup_insert_eq.
  assert (m3 !! e_ptr new = Some (e_segment new (e_ptr e) nx)) as Hn3.
  { unfold m3. rewrite lookup_insert_ne by done. apply lookup_insert_eq. }
  destruct l2 as [|e2 l2].
  - destruct Hc as [-> _]. exists m3, (e_ptr new). split; [done|]. split; [|by intros; apply Ho].
    cbn [chain]. split; [done|]. split; [done|]. exists (e_ptr new). split; [done|]. split; [done|]. split; [done|]. by exists 0.
  - cbn [fmap list_fmap] in *. rewrite not_elem_of_cons in Hql, Hen. destruct Hc as (-> & Hp2 & q2 & Hq2 & Hc).
    destruct Hql as [Hq2n Hql], Hen as [He2n Hen]. rewrite NoDup_cons in Hnd. destruct Hnd as [H2n Hnd].
    rewrite (proj2 (Z.eqb_neq (e_ptr e2) 0)) by done.
    exists (<[e_ptr e2 := e_segment e2 (e_ptr new) q2]> m3), last. split.
    { rewrite (set_prev_ok _ _ e2 (e_ptr e) q2); [done|]. mms. rewrite Ho by done. exact Hq2. }
    split; [|intros p Hp1 Hp3 [Hp4 _]%not_elem_of_cons; rewrite lookup_insert_ne by done; by apply Ho].
    cbn [chain]. split; [done|]. split; [done|]. exists (e_ptr new). rewrite lookup_insert_ne by done.
    split; [done|]. split; [done|]. split; [done|]. exists (e_ptr e2). rewrite lookup_insert_ne by done.
    split; [done|]. split; [done|]. split; [done|]. exists q2. rewrite lookup_insert_eq. split; [done|].
    eapply chain_same; [|exact Hc]. intros y Hy. pose proof (list_elem_of_fmap_2 e_ptr _ _ Hy) as Hy'.
    assert (e_ptr y ≠ e_ptr e2 ∧ e_ptr y ≠ e_ptr new ∧ e_ptr y ≠ e_ptr e) as (? & ? & ?)
      by (split_and!; intros Heq; rewrite Heq in Hy'; done).
    rewrite lookup_insert_ne by done. by apply Ho.
Qed.

Lemma sorted_before lo l1 e l2 x : sorted_from lo (l1 ++ e :: l2) → x ∈ l1 → e_end x <= e_addr e.
Proof.
  revert lo. induction l1 as [|y l1 IH]; intros lo; [by intros _ ?%elem_of_nil|].
  intros (? & ? & Hs) [->|Hx]%elem_of_cons; [|by eapply IH].
  destruct (sorted_all _ _ e Hs) as (? & _); [set_solver|done].
Qed.

Lemma sorted_insert lo l1 e new l2 :
  sorted_from lo (l1 ++ e :: l2) → e_end e <= e_addr new → 0 < e_size new → e_end new <= 2 ^ 32 →
  (∀ x, x ∈ l2 → e_end new <= e_addr x) → sorted_from lo (l1 ++ e :: new :: l2).
Proof.
  rewrite !sorted_app. intros (mid & ? & (? & ? & Hs) & ?) He Hn Hend Hl2. exists mid. split; [done|]. split; [|done].
  cbn [sorted_from]. split; [done|]. split; [done|]. split; [done|]. split; [done|].
  destruct l2 as [|y l2]; [done|]. destruct Hs as (? & ? & ?). split; [apply Hl2; left|done].
Qed.

Definition disjoint_from (new x : entry) : Prop := e_end x <= e_addr new ∨ e_end new <= e_addr x.

(** Adding a segment to a list: if its range meets no range of the list the
    segment is linked in at its place, both ways, and the list stays sorted and
    disjoint, all other segments and objects as they were; if it meets one (and
    no segment reaches the end of the address space, where the end wraps to 0),
    the assertion fails. *)
Lemma insert_ok s prv first e0 l lo last q new a b :
  chain (segs s) prv first (e0 :: l) last 0 → sorted_from lo (e0 :: l) → 0 <= lo →
  segs s !! q = Some (e_segment new a b) → q = e_ptr new → q ≠ 0 → NoDup (q :: (e_ptr <$> e0 :: l)) →
  e_end e0 <= e_addr new → 0 < e_size new → e_end new < 2 ^ 32 → (length (e0 :: l) <= fuel)%nat →
  (Forall (disjoint_from new) (e0 :: l) →
    ∃ m last', insertSegment fuel first q s = Ok (tt, with_segs m s) ∧
      chain m prv first (insert_sorted new (e0 :: l)) last' 0 ∧ sorted_from lo (insert_sorted new (e0 :: l)) ∧
      ∀ p, p ∉ q :: (e_ptr <$> e0 :: l) → m !! p = segs s !! p) ∧
  (Exists (λ x, ¬ disjoint_from new x) (e0 :: l) → Forall (λ x, e_end x < 2 ^ 32) (e0 :: l) →
    insertSegment fuel first q s = Fault).
Proof.
  intros Hc Hs Hlo Hq -> Hq0 Hnd He0 Hsz Hend Hfuel.
  destruct (insert_place s prv first (e0 :: l) lo last (e_end new) fuel Hc Hs) as (l1 & e & l2 & Hl & Hrun & Hafter & Hbefore); [done|done|].
  rewrite Hl in *. pose proof (proj1 (chain_app _ _ _ _ _ _ _) Hc) as (x & p & Hc1 & (-> & Hp0 & nx & He & Hc2)).
  pose proof (sorted_all _ _ e Hs ltac:(set_solver)) as (Hlo_e & Hsz_e & Hend_e).
  pose proof (sorted_all _ _ _ Hs (ltac:(rewrite <-Hl; left) : e0 ∈ l1 ++ e :: l2)) as (Hlo0 & Hsz0 & _).
  assert (0 <= e_addr new) by (unfold e_end in *; lia).
  assert (∀ y, y ∈ l1 → e_end y <= e_addr e) as Hl1 by (intros y; by eapply sorted_before).
  assert (insertSegment fuel first (e_ptr new) s =
    if seg_end (e_segment e x nx) <=? e_addr new then
      (set_prev (e_ptr new) (e_ptr e);; set_next (e_ptr new) nx;; set_next (e_ptr e) (e_ptr new);;
        (if nx =? 0 then mret tt else set_prev nx (e_ptr new))) s else Fault) as Hins.
  { unfold insertSegment. rewrite (bind_ok _ _ _ _ _ (get_segment_ok _ _ _ Hq)).
    cbv zeta. rewrite seg_end_small by done. rewrite (bind_ok _ _ _ _ _ Hrun).
    rewrite (bind_ok _ _ _ _ _ (get_segment_ok _ _ _ He)). cbn [seg_next seg_address e_segment].
    fold (e_segment e x nx). destruct (seg_end (e_segment e x nx) <=? e_addr new); [cbn [negb]|done].
    destruct l2 as [|e2 l2]; [destruct Hc2 as [-> _]; done|]. destruct Hc2 as (-> & Hp2 & q2 & Hq2 & _).
    rewrite (proj2 (Z.eqb_neq (e_ptr e2) 0)) by done.
    erewrite bind_ok; [|rewrite (bind_ok _ _ _ _ _ (get_segment_ok _ _ _ Hq2)); reflexivity].
    cbn [seg_address e_segment]. rewrite (proj2 (Z.leb_le _ _)) by (apply Hafter; left). done. }
  rewrite Hins. split.
  - intros Hd. rewrite Forall_forall in Hd.
    assert (e_end e <= e_addr new) as Hee.
    { destruct l1 as [|y l1]; [cbn in Hl; by simplify_eq|]. destruct (Hd e) as [|Hafter_e]; [set_solver|done|].
      specialize (Hbefore e). cbn [tail app] in Hbefore. specialize (Hbefore ltac:(set_solver)). lia. }
    rewrite seg_end_small by (done || unfold e_end in *; lia). rewrite (proj2 (Z.leb_le _ _)) by done.
    destruct (link_after s (e_ptr new) new a b e x nx l2 last) as (m & last' & Hlink & Hcm & Hom); try done.
    { rewrite fmap_app, fmap_cons in Hnd. rewrite NoDup_cons, NoDup_app, NoDup_cons in Hnd. rewrite !NoDup_cons.
      destruct Hnd as (Hn1 & _ & Hn2 & Hn3 & Hn4). split; [|done]. set_solver. }
    assert (insert_sorted new (l1 ++ e :: l2) = l1 ++ e :: new :: l2) as ->.
    { apply insert_sorted_split.
      - intros y Hy. apply elem_of_app in Hy as [Hy|Hy%list_elem_of_singleton]; [|by subst].
        specialize (Hl1 y Hy). unfold e_end in *. lia.
      - intros y Hy. specialize (Hafter y Hy). pose proof (sorted_all _ _ y Hs ltac:(set_solver)). unfold e_end in *. lia. }
    exists m, last'. split; [exact Hlink|]. split; [|split].
    + apply chain_app. exists x, (e_ptr e). split; [|exact Hcm]. eapply chain_same; [|exact Hc1].
      intros y Hy. pose proof (list_elem_of_fmap_2 e_ptr _ _ Hy) as Hy'.
      rewrite fmap_app, fmap_cons, NoDup_cons, NoDup_app in Hnd. destruct Hnd as (Hn1 & _ & Hn2 & _).
      apply Hom; [set_solver|intros Heq; apply (Hn2 _ Hy'); rewrite Heq; left|].
      intros Heq. apply (Hn2 _ Hy'). by right.
    + by apply sorted_insert; [|done|done|lia|].
    + intros p Hp. rewrite fmap_app, fmap_cons, !not_elem_of_cons, not_elem_of_app, not_elem_of_cons in Hp.
      apply Hom; tauto.
  - intros [y [Hy Hov]]%Exists_exists Hsmall. rewrite Forall_forall in Hsmall.
    rewrite seg_end_small; [|lia|done|apply Hsmall; set_solver]. rewrite (proj2 (Z.leb_gt _ _)); [done|].
    apply Z.nle_gt. intros Hee. apply Hov. unfold disjoint_from.
    apply elem_of_app in Hy as [Hy|[->|Hy]%elem_of_cons]; [left; specialize (Hl1 y Hy); unfold e_end in *; lia|by left|].
    right. by apply Hafter.
Qed.

(** ** Slots *)
Definition slot_free (g : segment) : bool := (seg_address g =? 0) && (seg_size g =? 0).
Definition slot_usable (g : segment) : bool := (seg_address g =? 0) || (seg_size g =? 0).

(** The slots of the pages from [p] on, in order, with their contents, and the
    word behind the last one. *)
Fixpoint slot_list (m : gmap Z segment) (np : gmap Z Z) (p : Z) (l : list Z) (last : Z) : Prop :=
  match l with
  | [] => False
  | x :: l => p = x ∧ is_Some (m !! p) ∧
      if Z.land (p + sizeof_MemorySegment) 0xFFF =? slots_end then
        if l is [] then np !! (p + sizeof_MemorySegment) = Some 0 ∧ last = p + sizeof_MemorySegment
        else ∃ r, np !! (p + sizeof_MemorySegment) = Some r ∧ r ≠ 0 ∧ slot_list m np r l last
      else slot_list m np (p + sizeof_MemorySegment) l last
  end.

Definition count_free (m : gmap Z segment) (l : list Z) : Z :=
  foldr (λ p n, n + if m !! p is Some g then bool_Z (slot_free g) else 0) 0 l.

Lemma verify_loop s p l last found free n :
  slot_list (segs s) (nextPages s) p l last → (length l <= n)%nat →
  ∃ free', loop n (λ '(current, found, freeSegment),
    g ← get_segment current;
    let '(found, freeSegment) :=
      if (seg_address g =? 0) && (seg_size g =? 0) then (found + 1, current) else (found, freeSegment) in
    let current := current + sizeof_MemorySegment in
    if Z.land current 0xFFF =? slots_end then
      next ← get_nextPage current;
      if next =? 0 then mret (Done (found, freeSegment, current))
      else mret (Next (next, found, freeSegment))
    else mret (Next (current, found, freeSegment))) (p, found, free) s
    = Ok ((found + count_free (segs s) l, free', last), s).
Proof.
  revert p found free n. induction l as [|x l IH]; [done|]. intros p found free n (<- & [g Hg] & Hl) Hn.
  destruct n as [|n]; [cbn in Hn; lia|]. cbn [count_free foldr]. fold (count_free (segs s) l). rewrite Hg.
  assert (∃ found1 free1, (if (seg_address g =? 0) && (seg_size g =? 0) then (found + 1, p) else (found, free)) = (found1, free1) ∧
    found1 = found + bool_Z (slot_free g)) as (found1 & free1 & Hif & ->).
  { unfold slot_free. destruct ((seg_address g =? 0) && (seg_size g =? 0)); cbn [bool_Z].
    - by exists (found + 1), p. - exists found, free. split; [done|lia]. }
  destruct (Z.land (p + sizeof_MemorySegment) 0xFFF =? slots_end) eqn:He.
  - destruct l as [|y l].
    + destruct Hl as [Hnp ->]. exists free1. apply loop_done. rewrite (bind_ok _ _ _ _ _ (get_segment_ok _ _ _ Hg)), Hif, He.
      unfold get_nextPage. erewrite bind_ok; [|by rewrite Hnp]. cbn [count_free foldr].
      rewrite Z.eqb_refl. by rewrite Z.add_0_l.
    + destruct Hl as (r & Hnp & Hr & Hl).
      destruct (IH r (found + bool_Z (slot_free g)) free1 n Hl ltac:(cbn in *; lia)) as [free' Hrun].
      exists free'. erewrite loop_next; [rewrite Hrun; do 4 f_equal; lia|].
      rewrite (bind_ok _ _ _ _ _ (get_segment_ok _ _ _ Hg)), Hif, He.
      unfold get_nextPage. erewrite bind_ok; [|by rewrite Hnp]. by rewrite (proj2 (Z.eqb_neq r 0)) by done.
  - destruct (IH (p + sizeof_MemorySegment) (found + bool_Z (slot_free g)) free1 n Hl ltac:(cbn in *; lia)) as [free' Hrun].
    exists free'. erewrite loop_next; [rewrite Hrun; do 4 f_equal; lia|].
    by rewrite (bind_ok _ _ _ _ _ (get_segment_ok _ _ _ Hg)), Hif, He.
Qed.

(** With any number of free slots but one, [verifySegmentList] does nothing. *)
Lemma verify_ok s l last :
  slot_list (segs s) (nextPages s) segmentsPage l last → (length l <= fuel)%nat → count_free (segs s) l ≠ 1 →
  verifySegmentList fuel s = Ok (tt, s).
Proof.
  intros Hl Hn Hc. unfold verifySegmentList.
  destruct (verify_loop s segmentsPage l last 0 0 fuel Hl Hn) as [free Hrun].
  rewrite (bind_ok _ _ _ _ _ Hrun). rewrite Z.add_0_l. by rewrite (proj2 (Z.eqb_neq _ 1)) by done.
Qed.

Lemma allocate_ok s l last used q rest address size flags :
  slot_list (segs s) (nextPages s) segmentsPage l last → l = used ++ q :: rest →
  (∀ p g, p ∈ used → segs s !! p = Some g → slot_usable g = false) →
  (∃ g, segs s !! q = Some g ∧ slot_usable g = true) → (length l <= fuel)%nat →
  ∃ a b, allocateSegment fuel address size flags s =
    Ok (q, with_segs (<[q := MemorySegment address size flags a b]> (segs s)) s).
Proof.
  intros Hl -> Hused (g & Hg & Hfree) Hn. unfold allocateSegment.
  erewrite bind_ok.
  { exists (seg_prev g), (seg_next g).
    erewrite bind_ok; [|apply (update_segment_ok s q g); exact Hg].
    erewrite bind_ok; [|apply update_segment_ok; mms; apply lookup_insert_eq].
    erewrite bind_ok; [|apply update_segment_ok; mms; apply lookup_insert_eq].
    unfold with_segs. mms. rewrite !insert_insert_eq. done. }
  generalize segmentsPage Hl fuel Hn. clear Hl Hn. induction used as [|x used IH]; intros p Hl n Hn;
    (destruct n as [|n]; [cbn in Hn; lia|]); destruct Hl as (-> & [gx Hgx] & Hl).
  - apply loop_done. rewrite (bind_ok _ _ _ _ _ (get_segment_ok _ _ _ Hg)).
    unfold slot_usable in Hfree. apply orb_true_iff in Hfree as [->| ->]; [done|by rewrite andb_false_r].
  - pose proof (Hused x gx ltac:(left) Hgx) as Hu. unfold slot_usable in Hu. apply orb_false_iff in Hu as [Hu1 Hu2].
    assert (∀ p g, p ∈ used → segs s !! p = Some g → slot_usable g = false) as Hused' by (intros; eapply Hused; [by right|done]).
    destruct (Z.land (x + sizeof_MemorySegment) 0xFFF =? slots_end) eqn:He.
    + assert (∃ r, nextPages s !! (x + sizeof_MemorySegment) = Some r ∧ r ≠ 0 ∧
        slot_list (segs s) (nextPages s) r (used ++ q :: rest) last) as (r & Hr & Hr0 & Hl') by (by destruct used).
      erewrite loop_next; [apply (IH Hused' r Hl' n); cbn in *; lia|].
      rewrite (bind_ok _ _ _ _ _ (get_segment_ok _ _ _ Hgx)), Hu1, Hu2. cbn [negb andb]. rewrite He.
      unfold get_nextPage. erewrite bind_ok; [|by rewrite Hr]. by rewrite (proj2 (Z.eqb_neq r 0)) by done.
    + erewrite loop_next; [apply (IH Hused' _ Hl n); cbn in *; lia|].
      rewrite (bind_ok _ _ _ _ _ (get_segment_ok _ _ _ Hgx)), Hu1, Hu2. cbn [negb andb]. by rewrite He.
Qed.

Lemma chain_lookup m prv p l last nxt e :
  chain m prv p l last nxt → e ∈ l → ∃ a b, m !! e_ptr e = Some (e_segment e a b).
Proof.
  revert prv p. induction l as [|x l IH]; intros prv p; [by intros _ ?%elem_of_nil|].
  intros (-> & _ & q & Hq & Hc) [->|He]%elem_of_cons; [by exists prv, q|]. by eapply IH.
Qed.

Lemma slot_list_same m m' np p l last :
  (∀ x, x ∈ l → is_Some (m !! x) → is_Some (m' !! x)) → slot_list m np p l last → slot_list m' np p l last.
Proof.
  revert p. induction l as [|x l IH]; [done|]. intros p Hm (-> & Hx & Hl). split; [done|].
  split; [apply Hm; [left|done]|]. assert (∀ y, y ∈ l → is_Some (m !! y) → is_Some (m' !! y)) as Hm' by (intros; apply Hm; [by right|done]).
  destruct (Z.land _ _ =? _); [|by apply IH]. destruct l as [|y l]; [done|].
  destruct Hl as (r & ? & ? & ?). exists r. split_and!; [done..|]. by apply IH.
Qed.

Definition same_free (m m' : gmap Z segment) (p : Z) : Prop :=
  slot_free <$> m !! p = slot_free <$> m' !! p.

Lemma count_same m m' l : (∀ p, p ∈ l → same_free m m' p) → count_free m l = count_free m' l.
Proof.
  induction l as [|p l IH]; intros H; [done|]. cbn [count_free foldr]. fold (count_free m l) (count_free m' l).
  rewrite IH by (intros; apply H; by right). f_equal. pose proof (H p ltac:(left)) as Hp. unfold same_free in Hp.
  destruct (m !! p), (m' !! p); cbn in Hp; congruence.
Qed.

Lemma count_app m l1 l2 : count_free m (l1 ++ l2) = count_free m l1 + count_free m l2.
Proof.
  induction l1 as [|p l1 IH]; [done|]. cbn [count_free foldr app].
  fold (count_free m (l1 ++ l2)) (count_free m l1). rewrite IH. lia.
Qed.

Lemma find_gap_disjoint lo e0 l size addr q flags :
  sorted_from lo (e0 :: l) → 0 <= lo → 0 < size → find_gap size (e0 :: l) = Some addr →
  e_end e0 <= addr ∧ 0 < addr ∧ addr + size < 2 ^ 32 ∧
  Forall (disjoint_from (Entry q addr size flags)) (e0 :: l).
Proof.
  revert lo e0. induction l as [|e1 l IH]; [done|]. intros lo e0 Hs Hlo Hsize. pose proof Hs as (? & ? & Hs1).
  assert (find_gap size (e0 :: e1 :: l) = if size <=? e_addr e1 - e_end e0 then Some (e_end e0)
    else find_gap size (e1 :: l)) as -> by done.
  pose proof Hs1 as (He1 & Hsz1 & Hs2). pose proof (sorted_bound _ _ Hs2) as Hb.
  destruct (size <=? e_addr e1 - e_end e0) eqn:Hle; zb.
  - intros [= <-]. split_and!; [unfold e_end in *; lia..|]. constructor; [left; cbn [e_addr]; lia|].
    apply Forall_forall. intros x Hx. right.
    apply elem_of_cons in Hx as [->|Hx]; [unfold e_end in *; cbn [e_addr e_size]; lia|].
    destruct (sorted_all _ _ x Hs2 Hx). unfold e_end in *. cbn [e_addr e_size]. lia.
  - intros Hf. destruct (IH (e_end e0) e1 Hs1 ltac:(unfold e_end in *; lia) Hsize Hf) as (Hend & Hpos & Hlt & Hall).
    split; [unfold e_end in *; lia|]. split; [done|]. split; [done|]. constructor; [|done].
    left. unfold e_end in *. cbn [e_addr]. lia.
Qed.

(** Finding and adding a segment, when there is a gap. *)
Lemma find_and_add_ok s prv first e0 l lo last slots slast used q rest size prot addr :
  segMutex ∉ held s → chain (segs s) prv first (e0 :: l) last 0 → sorted_from lo (e0 :: l) → 0 <= lo →
  segs s !! 0 = None → NoDup (q :: (e_ptr <$> e0 :: l)) → (length (e0 :: l) <= fuel)%nat →
  slot_list (segs s) (nextPages s) segmentsPage slots slast → slots = used ++ q :: rest → NoDup slots →
  (length slots <= fuel)%nat → (∀ p g, p ∈ used → segs s !! p = Some g → slot_usable g = false) →
  slot_free <$> segs s !! q = Some true → count_free (segs s) slots ≠ 2 →
  0 < size → find_gap size (e0 :: l) = Some addr →
  let new := Entry q addr size prot in
  ∃ m last', findAndAddNewSegment fuel first size prot s = Ok (addr, with_segs m s) ∧
    chain m prv first (insert_sorted new (e0 :: l)) last' 0 ∧ sorted_from lo (insert_sorted new (e0 :: l)) ∧
    Forall (disjoint_from new) (e0 :: l) ∧
    ∀ p, p ∉ q :: (e_ptr <$> e0 :: l) → m !! p = segs s !! p.
Proof.
  intros Hlock Hc Hs Hlo Hnull Hnd Hlen Hsl -> Hnds Hslen Hused Hq Hcount Hsize Hgap new.
  destruct (find_gap_disjoint lo e0 l size addr q prot Hs Hlo Hsize Hgap) as (He0 & Hpos & Hend & Hdisj). fold new in Hdisj.
  destruct (segs s !! q) as [gq|] eqn:Hgq; [|done]. cbn in Hq. injection Hq as Hq.
  assert (q ≠ 0) by (intros ->; congruence).
  set (s1 := with_held ({[segMutex]} ∪ held s) s).
  destruct (allocate_ok s1 (used ++ q :: rest) slast used q rest addr size prot) as (a & b & Halloc); try done.
  { exists gq. split; [done|]. unfold slot_free in Hq. unfold slot_usable. apply andb_true_iff in Hq as [-> _]. done. }
  fold (e_segment new a b) in Halloc. set (s2 := with_segs (<[q := e_segment new a b]> (segs s1)) s1) in Halloc.
  assert (chain (segs s2) prv first (e0 :: l) last 0) as Hc2.
  { eapply chain_same; [|exact Hc]. intros e He. unfold s2. mms. apply lookup_insert_ne. intros Heq.
    apply NoDup_cons in Hnd as [Hnd _]. apply Hnd. apply list_elem_of_fmap. eauto. }
  destruct (insert_ok s2 prv first e0 l lo last q new a b) as [Hins _]; try done.
  { apply lookup_insert_eq. }
  destruct (Hins Hdisj) as (m & last' & Hrun & Hcm & Hsm & Hom).
  exists m, last'. split; [|split; [done|split; [done|split; [done|]]]].
  2:{ intros p Hp. rewrite Hom by done. apply not_elem_of_cons in Hp as [Hp _]. unfold s2. mms. by rewrite lookup_insert_ne. }
  unfold findAndAddNewSegment.
  apply (scoped_ok fuel segMutex _ s addr (with_segs m s1) Hlock); [cbn in Hlen; lia| |done]. fold s1.
  assert (findFreeSegment fuel first size s1 = Ok (addr, s1)) as Hff.
  { rewrite (find_free_ok s1 first (e0 :: l) lo prv last size); try (done || lia). by rewrite Hgap. }
  rewrite (bind_ok _ _ _ _ _ Hff), (bind_ok _ _ _ _ _ Halloc), (bind_ok _ _ _ _ _ Hrun).
  change (with_segs m s2) with (with_segs m s1).
  assert (∀ p, p ≠ q → same_free (segs s) m p) as Hfree.
  { intros p Hp. unfold same_free. destruct (decide (p ∈ e_ptr <$> e0 :: l)) as [Hin|Hout].
    - apply list_elem_of_fmap in Hin as (e & -> & He).
      destruct (chain_lookup _ _ _ _ _ _ e Hc He) as (a1 & b1 & ->).
      assert (e ∈ insert_sorted new (e0 :: l)) as He'.
      { clear -He. induction (e0 :: l) as [|x xs IH]; [by apply elem_of_nil in He|]. cbn [insert_sorted].
        destruct (_ <=? _); [|by right]. apply elem_of_cons in He as [->|He]; [left|right; auto]. }
      by destruct (chain_lookup _ _ _ _ _ _ e Hcm He') as (a2 & b2 & ->).
    - rewrite Hom by (rewrite not_elem_of_cons; done).
      unfold s2. mms. by rewrite lookup_insert_ne. }
  pose proof (proj1 (NoDup_app _ _) Hnds) as (_ & Hn1 & [Hn2 _]%NoDup_cons).
  erewrite bind_ok; [|eapply (verify_ok (with_segs m s1) (used ++ q :: rest) slast); [| |]]; [done|..]; mms.
  - eapply slot_list_same; [|exact Hsl]. intros x Hx Hsome. destruct (decide (x = q)) as [->|Hxq].
    + destruct (chain_lookup _ _ _ _ _ _ new Hcm) as (a2 & b2 & Hm2); [|change (e_ptr new) with q in Hm2; by rewrite Hm2].
      clear. induction (e0 :: l) as [|x xs IH]; cbn [insert_sorted]; [left|]. destruct (_ <=? _); [by right|left].
    + specialize (Hfree x Hxq). unfold same_free in Hfree. destruct Hsome as [gx Hgx]. rewrite Hgx in Hfree.
      destruct (m !! x); [done|by cbn in Hfree].
  - done.
  - rewrite count_app in *. cbn [count_free foldr] in *. fold (count_free (segs s) rest) (count_free m rest) in *.
    rewrite <-(count_same (segs s) m used), <-(count_same (segs s) m rest).
    + destruct (chain_lookup _ _ _ _ _ _ new Hcm) as (a2 & b2 & Hm2).
      { clear. induction (e0 :: l) as [|x xs IH]; cbn [insert_sorted]; [left|]. destruct (_ <=? _); [by right|left]. }
      change (e_ptr new) with q in Hm2. rewrite Hm2. rewrite Hgq, Hq in Hcount. unfold slot_free. cbn in Hcount |- *.
      rewrite (proj2 (Z.eqb_neq addr 0)) by lia. cbn. lia.
    + intros p Hp. apply Hfree. intros ->. done.
    + intros p Hp. apply Hfree. intros ->. apply (Hn1 q Hp). left.
Qed.

(** C18. Finding and adding a segment: when a gap of [size] bytes exists between
    two segments, the address returned is the first such, the new range meets
    no range of the list, the list becomes the sorted list with the new segment
    in it, and no other object changes.  When there is none the code does not
    return 0 as its test for the end of the list says: it follows the null
    pointer of the last segment first.  (The page of slots must not be down to
    its last two free slots, when the code also adds a page.) *)
Theorem findAndAddNewSegment_fresh s prv first e0 l lo last slots slast used q rest size prot :
  segMutex ∉ held s → chain (segs s) prv first (e0 :: l) last 0 → sorted_from lo (e0 :: l) → 0 <= lo →
  segs s !! 0 = None → NoDup (q :: (e_ptr <$> e0 :: l)) → (length (e0 :: l) <= fuel)%nat →
  slot_list (segs s) (nextPages s) segmentsPage slots slast → slots = used ++ q :: rest → NoDup slots →
  (length slots <= fuel)%nat → (∀ p g, p ∈ used → segs s !! p = Some g → slot_usable g = false) →
  slot_free <$> segs s !! q = Some true → count_free (segs s) slots ≠ 2 → 0 < size →
  match find_gap size (e0 :: l) with
  | Some addr =>
      let new := Entry q addr size prot in
      ∃ m last', findAndAddNewSegment fuel first size prot s = Ok (addr, with_segs m s) ∧
        chain m prv first (insert_sorted new (e0 :: l)) last' 0 ∧ sorted_from lo (insert_sorted new (e0 :: l)) ∧
        Forall (disjoint_from new) (e0 :: l) ∧ ∀ p, p ∉ q :: (e_ptr <$> e0 :: l) → m !! p = segs s !! p
  | None => findAndAddNewSegment fuel first size prot s = Fault
  end.
Proof.
  intros Hlock Hc Hs Hlo Hnull Hnd Hlen Hsl Hslots Hnds Hslen Hused Hq Hcount Hsize.
  destruct (find_gap size (e0 :: l)) as [addr|] eqn:Hgap; [by eapply find_and_add_ok|].
  unfold findAndAddNewSegment, scoped, ScopedLock.
  rewrite (bind_ok _ _ _ _ _ (lock_ok fuel segMutex s Hlock ltac:(cbn in Hlen; lia))).
  apply bind_fault, bind_fault. rewrite (find_free_ok _ first (e0 :: l) lo prv last size); try (done || lia). by rewrite Hgap.
Qed.

(** ** Removing a segment *)
Lemma remove_scan s prv p l1 e l2 lo last n a :
  chain (segs s) prv p (l1 ++ e :: l2) last 0 → sorted_from lo (l1 ++ e :: l2) → 0 <= lo → e_end e < 2 ^ 32 →
  (length l1 < n)%nat → e_addr e <= a < e_end e →
  loop n (λ currentSegment : Z,
    g ← get_segment currentSegment;
    if seg_end g <=? a then mret (Next (seg_next g)) else mret (Done currentSegment)) p s = Ok (e_ptr e, s).
Proof.
  revert prv p lo n. induction l1 as [|x l1 IH]; intros prv p lo n Hc Hs Hlo He Hn Ha; (destruct n as [|n]; [cbn in Hn; lia|]).
  - destruct Hc as (-> & _ & q & Hq & _), Hs as (? & ? & _). apply loop_done.
    rewrite (bind_ok _ _ _ _ _ (get_segment_ok _ _ _ Hq)), seg_end_small by (done || lia).
    by rewrite (proj2 (Z.leb_gt _ _)) by lia.
  - pose proof (sorted_before _ (x :: l1) e l2 x Hs ltac:(left)) as Hxe.
    pose proof (sorted_all _ _ e Hs ltac:(set_solver)) as (_ & Hse & _).
    destruct Hc as (-> & _ & q & Hq & Hc), Hs as (? & ? & Hs). erewrite loop_next.
    + apply (IH _ _ _ n Hc Hs); [unfold e_end; lia|done|cbn in *; lia|done].
    + rewrite (bind_ok _ _ _ _ _ (get_segment_ok _ _ _ Hq)), seg_end_small by (done || unfold e_end in *; lia).
      by rewrite (proj2 (Z.leb_le _ _)) by lia.
Qed.

Lemma remove_step_whole s e y e2 x q2 :
  segs s !! e_ptr e = Some (e_segment e (e_ptr y) (e_ptr e2)) → segs s !! e_ptr y = Some (e_segment y x (e_ptr e)) →
  segs s !! e_ptr e2 = Some (e_segment e2 (e_ptr e) q2) → NoDup [e_ptr y; e_ptr e; e_ptr e2] →
  e_ptr y ≠ 0 → e_ptr e2 ≠ 0 → 0 <= e_addr e → 0 < e_size e → e_end e <= e_addr e2 → e_addr e2 < 2 ^ 32 →
  ∃ address, remove_step fuel (e_ptr e) (e_addr e) (e_size e) s = Ok ((e_ptr e2, address, 0),
    with_segs (<[e_ptr e := MemorySegment 0 0 0 0 0]> (<[e_ptr y := e_segment y x (e_ptr e2)]>
      (<[e_ptr e2 := e_segment e2 (e_ptr y) q2]> (segs s)))) s).
Proof.
  intros He Hy He2 Hnd Hy0 He20 Ha Hsz Hlt Hlt2. exists (u32 (e_addr e + e_size e)). unfold remove_step.
  rewrite !NoDup_cons, !not_elem_of_cons in Hnd. destruct Hnd as ((? & ? & _) & (? & _) & _).
  rewrite (bind_ok _ _ _ _ _ (get_segment_ok _ _ _ He)). cbn [seg_address seg_size e_segment].
  rewrite Z.eqb_refl, Z.leb_refl. cbn [andb]. rewrite Z.sub_diag. change (u32 0) with 0.
  assert (skip_gap (e_ptr e) 0 s = Ok (0, s)) as Hskip.
  { unfold skip_gap. erewrite bind_ok; [|by eapply free_space; [..|exact He|exact He2]]. cbv beta.
    destruct (0 <? e_addr e2 - e_end e) eqn:Hz; zb; [done|]. replace (e_addr e2 - e_end e) with 0 by lia. done. }
  rewrite (bind_ok _ _ _ _ _ Hskip), (bind_ok _ _ _ _ _ (get_segment_ok _ _ _ He)). cbn [seg_prev seg_next e_segment].
  rewrite (proj2 (Z.eqb_neq (e_ptr e2) 0)), (proj2 (Z.eqb_neq (e_ptr y) 0)) by done.
  rewrite (bind_ok _ _ _ _ _ (set_prev_ok _ _ _ _ _ _ He2)).
  erewrite bind_ok; [|apply (set_next_ok _ _ y x (e_ptr e)); mms; rewrite lookup_insert_ne by done; exact Hy].
  erewrite bind_ok; [|apply (update_segment_ok _ _ (e_segment e (e_ptr y) (e_ptr e2))); mms; rewrite !lookup_insert_ne by done; exact He].
  done.
Qed.

(** Removing exactly one segment of a list, with segments on both sides:
    the neighbours are linked to each other, the slot of the segment becomes
    free, and the list is the old one without it. *)
Theorem removeSegment_whole s prv first l1 y e e2 l2 lo last slots slast :
  let l := l1 ++ y :: e :: e2 :: l2 in
  segMutex ∉ held s → chain (segs s) prv first l last 0 → sorted_from lo l → 0 <= lo → NoDup (e_ptr <$> l) →
  (length l < fuel)%nat → slot_list (segs s) (nextPages s) segmentsPage slots slast → (length slots <= fuel)%nat →
  e_ptr e ∈ slots → NoDup slots → count_free (segs s) slots ≠ 0 → 0 < e_addr e →
  ∃ m, removeSegment fuel first (e_addr e) (e_size e) s = Ok (tt, with_segs m s) ∧
    chain m prv first (l1 ++ y :: e2 :: l2) last 0 ∧ sorted_from lo (l1 ++ y :: e2 :: l2) ∧
    slot_free <$> m !! e_ptr e = Some true ∧ slot_list m (nextPages s) segmentsPage slots slast ∧
    ∀ p, p ∉ e_ptr <$> l → m !! p = segs s !! p.
Proof.
  intros l Hlock Hc Hs Hlo Hnd Hlen Hsl Hslen Hin Hnds Hcount Ha.
  assert (l = (l1 ++ [y]) ++ e :: e2 :: l2) as Hl by (unfold l; by rewrite <-app_assoc).
  pose proof Hc as (x & p & Hc1 & -> & Hy0 & q & Hy & -> & He0 & q1 & He & -> & He20 & q2 & He2 & Hc2)%chain_app.
  assert (sorted_from lo ((l1 ++ [y]) ++ e :: e2 :: l2)) as Hs' by by rewrite <-Hl.
  destruct (proj1 (sorted_app _ _ _) Hs') as (mid & Hs1 & (Hm1 & Hse & Hee2 & Hse2 & Hs2) & Hmid).
  pose proof (sorted_bound _ _ Hs2) as Hb2. set (s1 := with_held ({[segMutex]} ∪ held s) s).
  assert (NoDup [e_ptr y; e_ptr e; e_ptr e2] ∧ (∀ z, z ∈ l1 ++ l2 → e_ptr z ≠ e_ptr y ∧ e_ptr z ≠ e_ptr e ∧ e_ptr z ≠ e_ptr e2)) as [Hnd3 Hnd'].
  { clear -Hnd. unfold l in Hnd. rewrite fmap_app, !fmap_cons, NoDup_app, !NoDup_cons, !not_elem_of_cons in Hnd.
    destruct Hnd as (_ & Hd & (? & ? & ?) & (? & ?) & ? & _). split.
    - rewrite !NoDup_cons, !not_elem_of_cons. split_and!; try done; [apply not_elem_of_nil..|constructor].
    - intros z [Hz|Hz]%elem_of_app; pose proof (list_elem_of_fmap_2 e_ptr _ _ Hz) as Hz'; [|split_and!; intros Heq; rewrite Heq in Hz'; done].
      specialize (Hd _ Hz'). rewrite !not_elem_of_cons in Hd. tauto. }
  destruct (remove_step_whole s1 e y e2 x q2 He Hy He2 Hnd3 Hy0 He20) as [address Hstep]; try (done || unfold e_end in *; lia).
  set (m := <[e_ptr e := _]> _) in Hstep.
  assert (chain m prv first (l1 ++ y :: e2 :: l2) last 0) as Hcm.
  { rewrite !NoDup_cons, !not_elem_of_cons in Hnd3. destruct Hnd3 as ((? & ? & _) & (? & _) & _).
    assert (∀ z, z ∈ l1 ++ l2 → m !! e_ptr z = segs s !! e_ptr z) as Hsame.
    { intros z Hz. destruct (Hnd' z Hz) as (? & ? & ?). unfold m. by rewrite !lookup_insert_ne. }
    apply chain_app. exists x, (e_ptr y). split; [eapply chain_same; [|exact Hc1]; intros; apply Hsame; set_solver|].
    split; [done|]. split; [done|]. exists (e_ptr e2). unfold m at 1. rewrite lookup_insert_ne, lookup_insert_eq by done. split; [done|].
    split; [done|]. split; [done|]. exists q2. unfold m at 1. rewrite !lookup_insert_ne, lookup_insert_eq by done. split; [done|].
    eapply chain_same; [|exact Hc2]. intros; apply Hsame; set_solver. }
  assert (slot_list m (nextPages s) segmentsPage slots slast) as Hslm.
  { eapply slot_list_same; [|exact Hsl]. intros z _ Hz. unfold m. repeat (apply lookup_insert_is_Some'; right). done. }
  exists m. split; [|split; [done|split; [|split; [by unfold m; rewrite lookup_insert_eq|split; [exact Hslm|]]]]].
  - apply (scoped_ok fuel segMutex _ s tt (with_segs m s1) Hlock); [lia| |done]. fold s1.
    erewrite bind_ok.
    2:{ apply (remove_scan s1 prv first (l1 ++ [y]) e (e2 :: l2) lo last); try done; [by rewrite <-Hl|unfold e_end in *; lia| |unfold e_end; lia].
        rewrite Hl in Hlen. rewrite !length_app in *. cbn in *. lia. }
    erewrite bind_ok.
    2:{ assert (2 <= fuel)%nat as Hf by (unfold l in Hlen; rewrite length_app in Hlen; cbn in Hlen; lia).
        apply (loop_fuel 2 fuel _ _ _ (tt, with_segs m s1)); [|exact Hf]. rewrite (loop_next 1 _ _ _ (e_ptr e2, address, 0) (with_segs m s1)); [done|].
        rewrite (proj2 (Z.eqb_neq (e_size e) 0)) by lia. by rewrite (bind_ok _ _ _ _ _ Hstep). }
    change (verifySegmentList fuel (with_segs m s1) = Ok (tt, with_segs m s1)).
    apply (verify_ok (with_segs m s1) slots slast); mms; [exact Hslm|done|].
    + apply list_elem_of_split in Hin as (sl1 & sl2 & ->). rewrite count_app in *. cbn [count_free foldr] in *.
      fold (count_free (segs s) sl2) (count_free m sl2) in *. apply NoDup_app in Hnds as (_ & Hn1 & [Hn2 _]%NoDup_cons).
      assert (∀ z, z ≠ e_ptr e → same_free (segs s) m z) as Hfree.
      { intros z Hz. unfold same_free, m. rewrite lookup_insert_ne by done.
        destruct (decide (z = e_ptr y)) as [->|]; [by rewrite lookup_insert_eq, Hy|]. rewrite lookup_insert_ne by done.
        destruct (decide (z = e_ptr e2)) as [->|]; [by rewrite lookup_insert_eq, He2|by rewrite lookup_insert_ne]. }
      rewrite <-(count_same (segs s) m sl1), <-(count_same (segs s) m sl2).
      * unfold m. rewrite lookup_insert_eq. rewrite He in Hcount. unfold slot_free in *. cbn in Hcount |- *.
        rewrite (proj2 (Z.eqb_neq (e_addr e) 0)) in Hcount by lia. cbn in Hcount. lia.
      * intros z Hz. apply Hfree. intros ->. first [done|apply (Hn1 _ Hz); left].
      * intros z Hz. apply Hfree. intros ->. first [done|apply (Hn1 _ Hz); left].
  - apply sorted_app in Hs1 as (mid' & Hs1 & (? & ? & ?) & Hmid'). apply sorted_app. exists mid'. split; [done|]. split; [|done].
    split; [done|]. split; [done|]. split; [|split; done]. rewrite foldl_app in Hmid. cbn in Hmid. unfold e_end in *. lia.
  - intros p Hp. unfold l in Hp. rewrite fmap_app, !fmap_cons, not_elem_of_app, !not_elem_of_cons in Hp.
    unfold m. rewrite !lookup_insert_ne; [done|..]; intros <-; tauto.
Qed.

(** Taking a range out of the middle or the end of a segment: the segment is cut
    at the start of the range, and the slot [q] holds what lies behind it. *)
Lemma remove_step_split s e prv nx q a address size l last used rest :
  segs s !! e_ptr e = Some (e_segment e prv nx) → e_ptr e ≠ q → 0 <= e_addr e < address → 0 < size →
  address + size <= e_end e → e_end e < 2 ^ 32 →
  slot_list (segs s) (nextPages s) segmentsPage l last → l = used ++ q :: rest →
  (∀ p g, p ∈ used → segs s !! p = Some g → slot_usable g = false) → segs s !! q = Some a → slot_usable a = true → (length l <= fuel)%nat →
  remove_step fuel (e_ptr e) address size s = Ok ((q, address, 0),
    with_segs (<[e_ptr e := MemorySegment (e_addr e) (address - e_addr e) (e_flags e) prv q]>
      (<[q := MemorySegment (address + size) (e_end e - (address + size)) (e_flags e) (e_ptr e) nx]> (segs s))) s).
Proof.
  intros He Hq Ha Hsz Hend Hlt Hsl Hl Hused Hg Hu Hlen. unfold remove_step, e_end in *.
  rewrite (bind_ok _ _ _ _ _ (get_segment_ok _ _ _ He)). cbn [seg_address seg_size seg_flags e_segment].
  rewrite (proj2 (Z.eqb_neq (e_addr e) address)) by lia. cbn [andb]. fold (e_segment e prv nx).
  rewrite seg_end_small by (unfold e_end; lia). unfold e_end.
  rewrite (u32_small (address + size)), (proj2 (Z.ltb_ge _ _)) by lia.
  rewrite (u32_small (address - e_addr e)), u32_small by lia.
  replace (e_size e - (address - e_addr e) - size) with (e_addr e + e_size e - (address + size)) by lia.
  destruct (allocate_ok s l last used q rest (address + size) (e_addr e + e_size e - (address + size)) (e_flags e))
    as (pr & nr & Halloc); [done..|by exists a|done|].
  set (rest_size := e_addr e + e_size e - (address + size)) in *.
  set (s1 := with_segs _ _) in Halloc.
  assert (segs s1 !! q = Some (MemorySegment (address + size) rest_size (e_flags e) pr nr)) as H1 by apply lookup_insert_eq.
  assert (segs s1 !! e_ptr e = Some (e_segment e prv nx)) as H2 by (unfold s1; mms; by rewrite lookup_insert_ne).
  set (s' := with_segs _ s).
  erewrite (bind_ok _ _ s (address, size) s').
  2: { rewrite (bind_ok _ _ _ _ _ Halloc).
    erewrite bind_ok; [|apply (update_segment_ok s1 q); exact H1].
    erewrite bind_ok; [|apply get_segment_ok; mms; rewrite lookup_insert_ne by done; exact H2].
    erewrite bind_ok; [|apply update_segment_ok; mms; apply lookup_insert_eq].
    erewrite bind_ok; [|apply update_segment_ok; mms; rewrite !lookup_insert_ne by done; exact H2].
    erewrite bind_ok; [|apply update_segment_ok; mms; apply lookup_insert_eq].
    unfold mret, ST_ret, s', s1. mms. by rewrite !insert_insert_eq. }
  assert (segs s' !! e_ptr e = Some (MemorySegment (e_addr e) (address - e_addr e) (e_flags e) prv q)) as H3 by apply lookup_insert_eq.
  assert (skip_gap (e_ptr e) size s' = Ok (0, s')) as Hskip.
  { assert (segs s' !! q = Some (MemorySegment (address + size) rest_size (e_flags e) (e_ptr e) nx)) as H4
      by (unfold s'; mms; rewrite lookup_insert_ne, lookup_insert_eq by done; done).
    assert (getFreeSpaceAfter (e_ptr e) s' = Ok (size, s')) as Hfree.
    { unfold getFreeSpaceAfter. rewrite (bind_ok _ _ _ _ _ (get_segment_ok _ _ _ H3)). cbn [seg_next].
      rewrite (bind_ok _ _ _ _ _ (get_segment_ok _ _ _ H4)). unfold seg_end. cbn [seg_address seg_size].
      rewrite (u32_small (_ + _)), u32_small by lia. unfold mret, ST_ret. do 2 f_equal. lia. }
    unfold skip_gap. rewrite (bind_ok _ _ _ _ _ Hfree), Z.ltb_irrefl, Z.sub_diag. done. }
  cbv beta iota. rewrite (bind_ok _ _ _ _ _ Hskip), (bind_ok _ _ _ _ _ (get_segment_ok _ _ _ H3)). done.
Qed.

(** C21. Removing a range from the middle or the end of a segment cuts the segment
    at the start of the range and puts what lies behind it into a slot of its
    own, linked in behind the segment.  Everything else stays as it is, the link
    back of the segment that follows included, which still leads to the front
    part.  When the range reaches up to the end, the second part is empty: its
    slot is in the list and yet counts as usable, and the next segment allocated
    takes it. *)
Theorem removeSegment_splits s prv first l1 e l2 lo last slots slast used q rest address size :
  let l := l1 ++ e :: l2 in
  segMutex ∉ held s → chain (segs s) prv first l last 0 → sorted_from lo l → 0 <= lo → NoDup (q :: (e_ptr <$> l)) →
  (length l < fuel)%nat → slot_list (segs s) (nextPages s) segmentsPage slots slast → slots = used ++ q :: rest →
  NoDup slots → (length slots <= fuel)%nat → (∀ p g, p ∈ used → segs s !! p = Some g → slot_usable g = false) →
  slot_free <$> segs s !! q = Some true → count_free (segs s) slots ≠ 2 →
  e_addr e < address → 0 < size → address + size <= e_end e → e_end e < 2 ^ 32 →
  ∃ m x nx, removeSegment fuel first address size s = Ok (tt, with_segs m s) ∧ segs s !! e_ptr e = Some (e_segment e x nx) ∧
    m !! e_ptr e = Some (MemorySegment (e_addr e) (address - e_addr e) (e_flags e) x q) ∧
    m !! q = Some (MemorySegment (address + size) (e_end e - (address + size)) (e_flags e) (e_ptr e) nx) ∧
    (∀ p, p ≠ e_ptr e → p ≠ q → m !! p = segs s !! p) ∧
    (address + size = e_end e → ∀ a sz fl, ∃ s', allocateSegment fuel a sz fl (with_segs m s) = Ok (q, s')).
Proof.
  intros l Hlock Hc Hs Hlo Hnd Hlen Hsl -> Hnds Hslen Hused Hq Hcount Ha Hsz Hend Hlt.
  pose proof (sorted_all _ _ e Hs ltac:(unfold l; set_solver)) as (He0 & _ & _).
  pose proof Hc as (x & p & _ & -> & _ & nx & He & _)%chain_app.
  assert (e_ptr e ≠ q) as Heq.
  { intros Heq. apply NoDup_cons in Hnd as [Hnd _]. apply Hnd. apply list_elem_of_fmap. exists e. split; [done|]. unfold l. set_solver. }
  destruct (segs s !! q) as [gq|] eqn:Hgq; [|done]. cbn in Hq. injection Hq as Hq.
  assert (slot_usable gq = true) as Hu by (unfold slot_free in Hq; unfold slot_usable; by apply andb_true_iff in Hq as [-> _]).
  set (s1 := with_held ({[segMutex]} ∪ held s) s).
  pose proof (remove_step_split s1 e x nx q gq address size (used ++ q :: rest) slast used rest He Heq ltac:(lia) Hsz Hend Hlt
    Hsl eq_refl Hused Hgq Hu Hslen) as Hstep.
  set (front := MemorySegment (e_addr e) _ _ _ _) in Hstep. set (back := MemorySegment (address + size) _ _ _ _) in Hstep.
  set (m := <[e_ptr e := _]> _) in Hstep.
  assert (m !! e_ptr e = Some front) as Hme by apply lookup_insert_eq.
  assert (m !! q = Some back) as Hmq by (unfold m; by rewrite lookup_insert_ne, lookup_insert_eq).
  assert (∀ p, p ≠ e_ptr e → p ≠ q → m !! p = segs s !! p) as Hother by (intros p Hp1 Hp2; unfold m; by rewrite !lookup_insert_ne).
  assert (slot_list m (nextPages s) segmentsPage (used ++ q :: rest) slast) as Hslm.
  { eapply slot_list_same; [|exact Hsl]. intros z _ Hz. unfold m. repeat (apply lookup_insert_is_Some'; right). done. }
  pose proof (proj1 (NoDup_app _ _) Hnds) as (_ & Hn1 & [Hn2 _]%NoDup_cons).
  exists m, x, nx. split; [|do 4 (split; [done|])].
  - apply (scoped_ok fuel segMutex _ s tt (with_segs m s1) Hlock); [lia| |done]. fold s1.
    erewrite bind_ok.
    2:{ apply (remove_scan s1 prv first l1 e l2 lo last); try done; [|lia]. unfold l in Hlen. rewrite length_app in Hlen. cbn in Hlen. lia. }
    erewrite bind_ok.
    2:{ assert (2 <= fuel)%nat as Hf by (unfold l in Hlen; rewrite length_app in *; cbn in *; lia).
        apply (loop_fuel 2 fuel _ _ _ (tt, with_segs m s1)); [|exact Hf]. rewrite (loop_next 1 _ _ _ (q, address, 0) (with_segs m s1)); [done|].
        rewrite (proj2 (Z.eqb_neq size 0)) by lia. by rewrite (bind_ok _ _ _ _ _ Hstep). }
    apply (verify_ok (with_segs m s1) (used ++ q :: rest) slast); mms; [exact Hslm|done|].
    rewrite count_app in *. cbn [count_free foldr] in *. fold (count_free (segs s) rest) (count_free m rest) in *.
    assert (∀ z, z ≠ q → same_free (segs s) m z) as Hfree.
    { intros z Hz. unfold same_free. destruct (decide (z = e_ptr e)) as [->|]; [|by rewrite Hother].
      rewrite Hme, He. cbn. unfold slot_free, front. cbn. f_equal. rewrite (proj2 (Z.eqb_neq (e_size e) 0)), (proj2 (Z.eqb_neq (address - e_addr e) 0)) by (unfold e_end in *; lia). by rewrite !andb_false_r. }
    rewrite <-(count_same (segs s) m used), <-(count_same (segs s) m rest).
    + rewrite Hmq. rewrite Hgq, Hq in Hcount. unfold slot_free, back. cbn in Hcount |- *.
      rewrite (proj2 (Z.eqb_neq (address + size) 0)) by lia. cbn. lia.
    + intros z Hz. apply Hfree. by intros ->.
    + intros z Hz. apply Hfree. intros ->. apply (Hn1 q Hz). left.
  - intros Hempty a sz fl. destruct (allocate_ok (with_segs m s) (used ++ q :: rest) slast used q rest a sz fl) as (pr & nr & Hrun); try done.
    + intros z g Hz Hg. assert (z ≠ q) as Hzq by (intros ->; apply (Hn1 q Hz); left).
      change (m !! z = Some g) in Hg. destruct (decide (z = e_ptr e)) as [->|]; [|rewrite Hother in Hg by done; by eapply Hused].
      rewrite Hme in Hg. injection Hg as <-. specialize (Hused _ _ Hz He). unfold slot_usable, front in *. cbn in *.
      rewrite (proj2 (Z.eqb_neq (address - e_addr e) 0)) by lia. apply orb_false_iff in Hused as [-> _]. done.
    + exists back. split; [done|]. unfold slot_usable, back. cbn. rewrite Hempty, Z.sub_diag. by rewrite orb_true_r.
    + eexists. exact Hrun.
Qed.
End segments.
