(* ===== verification/SegmentDemo.v ===== *)
(** * A concrete segment list

    A process with two mapped ranges, as the constructor of [AddressSpace] and
    two calls of [mapMemory] leave it: the state at which the theorems on
    segments are instantiated, and at which the defects of [removeSegment]
    show. *)
From S2P Require Import Prelude Kthread Paging PagingLaws PagingMap PagingDemo Segments SegmentLaws.

Definition demo_slots : list Z := map (λ i, segmentsPage + sizeof_MemorySegment * i) (seqZ 0 204).

Definition demo_entries : list entry := [
  Entry 0x5000 0 0x1000 SEG_NOUNMAP; Entry 0xC0021000 0x10000 0x3000 3;
  Entry 0xC0021014 0x20000 0x1000 3; Entry 0xC0021028 0xC0000000 0x40000000 SEG_NOUNMAP].

Definition demo_segs : gmap Z segment := list_to_map (
  [(0x5000, MemorySegment 0 0x1000 SEG_NOUNMAP 0 0xC0021000);
   (0xC0021000, MemorySegment 0x10000 0x3000 3 0x5000 0xC0021014);
   (0xC0021014, MemorySegment 0x20000 0x1000 3 0xC0021000 0xC0021028);
   (0xC0021028, MemorySegment 0xC0000000 0x40000000 SEG_NOUNMAP 0xC0021014 0)]
  ++ map (λ p, (p, MemorySegment 0 0 0 0 0)) (drop 3 demo_slots)).

Definition demo_seg_mm : mm := MM ∅ 0 ∅ 0 0 0 ∅ demo_segs {[segmentsPage + slots_end := 0]}.

(** ** Evaluating the slot list *)
Fixpoint slot_list_b (m : gmap Z segment) (np : gmap Z Z) (p : Z) (l : list Z) (last : Z) : bool :=
  match l with
  | [] => false
  | x :: l => (p =? x) && bool_decide (is_Some (m !! p)) &&
      if Z.land (p + sizeof_MemorySegment) 0xFFF =? slots_end then
        if l is [] then bool_decide (np !! (p + sizeof_MemorySegment) = Some 0) && (last =? p + sizeof_MemorySegment)
        else match np !! (p + sizeof_MemorySegment) with
             | Some r => negb (r =? 0) && slot_list_b m np r l last
             | None => false
             end
      else slot_list_b m np (p + sizeof_MemorySegment) l last
  end.

Lemma slot_list_check m np p l last : slot_list_b m np p l last = true → slot_list m np p l last.
Proof.
  revert p. induction l as [|x l IH]; intros p; [done|]. cbn [slot_list_b slot_list].
  intros [[Hp Hm]%andb_prop Hl]%andb_prop. zb. apply bool_decide_eq_true in Hm.
  split; [done|]. split; [done|]. destruct (Z.land _ _ =? _); [|by apply IH].
  destruct l as [|y l].
  - apply andb_prop in Hl as [H1 H2]. zb. by apply bool_decide_eq_true in H1.
  - destruct (np !! _) as [r|]; [|done]. apply andb_prop in Hl as [H1 H2]. exists r.
    split; [done|]. split; [|by apply IH]. intros ->. done.
Qed.

Lemma demo_slot_list : slot_list demo_segs {[segmentsPage + slots_end := 0]} segmentsPage demo_slots (segmentsPage + slots_end).
Proof. apply slot_list_check. vm_compute. reflexivity. Qed.

Lemma demo_slots_nodup : NoDup demo_slots.
Proof. apply (bool_decide_eq_true_1 _). vm_compute. reflexivity. Qed.

Lemma demo_chain : chain demo_segs 0 0x5000 demo_entries 0xC0021028 0.
Proof.
  repeat (split; [done|]; split; [done|]; eexists; split; [vm_compute; reflexivity|]). done.
Qed.

Lemma demo_sorted : sorted_from 0 demo_entries.
Proof. by vm_compute. Qed.

(** ** Witnesses *)
Lemma findAndAddNewSegment_fresh_witness :
  ∃ m, findAndAddNewSegment 300 0x5000 0xD000 3 demo_seg_mm = Ok (0x1000, with_segs m demo_seg_mm).
Proof.
  destruct (findAndAddNewSegment_fresh 300 demo_seg_mm 0 0x5000 (Entry 0x5000 0 0x1000 SEG_NOUNMAP) (tail demo_entries) 0
    0xC0021028 demo_slots (segmentsPage + slots_end) [0xC0021000; 0xC0021014; 0xC0021028] 0xC002103C (drop 4 demo_slots) 0xD000 3
    ltac:(by vm_compute) demo_chain demo_sorted ltac:(done) ltac:(vm_compute; reflexivity)
    ltac:(apply (bool_decide_eq_true_1 _); vm_compute; reflexivity) ltac:(cbn; lia) demo_slot_list ltac:(vm_compute; reflexivity)
    demo_slots_nodup ltac:(vm_compute; lia)
    ltac:(intros p g Hp; rewrite !elem_of_cons in Hp; destruct Hp as [->|[->|[->|Hp%elem_of_nil]]];
      [vm_compute; by intros [= <-]..|done])
    ltac:(vm_compute; reflexivity) ltac:(by vm_compute) ltac:(done)) as (m & last' & Hrun & _).
  exists m. exact Hrun.
Defined.

Lemma removeSegment_whole_witness :
  ∃ m, removeSegment 300 0x5000 0x20000 0x1000 demo_seg_mm = Ok (tt, with_segs m demo_seg_mm).
Proof.
  destruct (removeSegment_whole 300 demo_seg_mm 0 0x5000 [Entry 0x5000 0 0x1000 SEG_NOUNMAP] (Entry 0xC0021000 0x10000 0x3000 3)
    (Entry 0xC0021014 0x20000 0x1000 3) (Entry 0xC0021028 0xC0000000 0x40000000 SEG_NOUNMAP) [] 0 0xC0021028
    demo_slots (segmentsPage + slots_end) ltac:(by vm_compute) demo_chain demo_sorted ltac:(done)
    ltac:(apply (bool_decide_eq_true_1 _); vm_compute; reflexivity) ltac:(cbn; lia) demo_slot_list ltac:(vm_compute; lia)
    ltac:(apply (bool_decide_eq_true_1 _); vm_compute; reflexivity) demo_slots_nodup ltac:(by vm_compute) ltac:(done))
    as (m & Hrun & _).
  exists m. exact Hrun.
Defined.

(** The tail 0x12000..0x13000 of the first mapped range is removed; the slot of
    the empty second part is the one allocated next. *)
Lemma removeSegment_splits_witness :
  ∃ m, removeSegment 300 0x5000 0x12000 0x1000 demo_seg_mm = Ok (tt, with_segs m demo_seg_mm) ∧
    m !! 0xC0021000 = Some (MemorySegment 0x10000 0x2000 3 0x5000 0xC002103C) ∧
    m !! 0xC002103C = Some (MemorySegment 0x13000 0 3 0xC0021000 0xC0021014) ∧
    ∃ s', allocateSegment 300 0x30000 0x1000 3 (with_segs m demo_seg_mm) = Ok (0xC002103C, s').
Proof.
  destruct (removeSegment_splits 300 demo_seg_mm 0 0x5000 [Entry 0x5000 0 0x1000 SEG_NOUNMAP] (Entry 0xC0021000 0x10000 0x3000 3)
    (drop 2 demo_entries) 0 0xC0021028 demo_slots (segmentsPage + slots_end) [0xC0021000; 0xC0021014; 0xC0021028] 0xC002103C
    (drop 4 demo_slots) 0x12000 0x1000 ltac:(by vm_compute) demo_chain demo_sorted ltac:(done)
    ltac:(apply (bool_decide_eq_true_1 _); vm_compute; reflexivity) ltac:(cbn; lia) demo_slot_list ltac:(vm_compute; reflexivity)
    demo_slots_nodup ltac:(vm_compute; lia)
    ltac:(intros p g Hp; rewrite !elem_of_cons in Hp; destruct Hp as [->|[->|[->|Hp%elem_of_nil]]];
      [vm_compute; by intros [= <-]..|done])
    ltac:(vm_compute; reflexivity) ltac:(by vm_compute) ltac:(done) ltac:(done) ltac:(done) ltac:(done))
    as (m & x & nx & Hrun & He & Hme & Hmq & _ & Halloc).
  assert (segs demo_seg_mm !! 0xC0021000 = Some (MemorySegment 0x10000 0x3000 3 0x5000 0xC0021014)) as He' by (vm_compute; reflexivity).
  cbn [e_ptr] in *. rewrite He' in He. injection He as <- <-. exists m. split; [exact Hrun|]. split; [exact Hme|]. split; [exact Hmq|].
  by apply Halloc.
Defined.

(** What comes of it: the slot taken drops the segments behind from the list.
    Here the range 0x12000..0x13000 of a mapped range is removed and a page is
    mapped at 0x30000; the mapped range 0x20000..0x21000, never removed, is then
    handed out again, as part of 0x12000..0x22000. *)
Example unmap_tail_double_allocation :
  demo_segs !! 0xC0021014 = Some (MemorySegment 0x20000 0x1000 3 0xC0021000 0xC0021028) ∧
  match (removeSegment 300 0x5000 0x12000 0x1000;; addSegment 300 0x5000 0x30000 0x1000 3;;
         findAndAddNewSegment 300 0x5000 0x10000 3) demo_seg_mm with
  | Ok (address, _) => address = 0x12000
  | _ => False
  end.
Proof. split; vm_compute; reflexivity. Qed.

(** Removing a range with a hole in it corrupts the segment behind the hole:
    the code steps over the gap without advancing the address, so the next
    segment looks like one to be split in front of its own start, and its size
    wraps around to nearly 4 GiB. *)
Theorem remove_across_gap_wraps :
  match removeSegment 300 0x5000 0x10000 0x11000 demo_seg_mm with
  | Ok (_, s) => seg_size <$> segs s !! 0xC0021014 = Some (2 ^ 32 - 0xD000)
  | _ => False
  end.
Proof. vm_compute. reflexivity. Qed.
