(* ===== verification/AddressSpace.v ===== *)
(** * Address spaces (kernel/src/addressspace.cpp, physicalmemory.cpp)

    Creation, destruction and fork of address spaces, mapping and unmapping of
    memory, and the start of the memory manager from the data the boot loader
    leaves.  [operator new] of the kernel (libc's malloc over
    [AddressSpace::mapMemory]) is the interface [Kheap]. *)
From S2P Require Import Prelude Kthread Paging Segments.

Class Kheap : Type := { new : Z → ST mm Z; delete : Z → ST mm unit }.

(** The fields of [multiboot_info] the kernel uses. *)
Record multiboot_info : Type := Multiboot {
  mb_flags : Z; mods_count : Z; mods_addr : Z; mmap_length : Z; mmap_addr : Z }.
Definition MULTIBOOT_MEMORY_AVAILABLE : Z := 1.
Definition sizeof_mod_list : Z := 16.

Definition ALIGN_UP (value alignment : Z) : Z :=
  u32 (Z.land (u32 (value - 1)) (u32 (Z.lnot (alignment - 1))) + alignment).
Definition CHECK_MULTIBOOT_FLAG (flags bit : Z) : bool := Z_bool (Z.land flags (Z.shiftl 1 bit)).

Section spaces.
Context `{Img : Image} `{Y : !Sched mm} `{H : !Kheap} (fuel : nat).

Let map_page := mapAtWithFlags fuel fuel.
Let pop := popPageFrame fuel map_page.
Let push := pushPageFrame fuel map_page.
Let physical_of := getPhysicalAddress fuel map_page.
Let lock_space (a : Z) {A : Type} (block : ST mm A) : ST mm A := scoped fuel (spaceMutex a) block.

Definition update_space (a : Z) (f : aspace → aspace) : ST mm unit := λ s,
  match spaces s !! a with
  | Some sp => Ok (tt, with_spaces (firstAddressSpace s) (<[a := f sp]> (spaces s)) s)
  | None => Fault
  end.
Definition set_as_prev (v : Z) (sp : aspace) : aspace :=
  Space (pageDir sp) (pageDirMapped sp) (firstSegment sp) v (as_next sp).
Definition set_as_next (v : Z) (sp : aspace) : aspace :=
  Space (pageDir sp) (pageDirMapped sp) (firstSegment sp) (as_prev sp) v.

(** Maps [size] bytes of pages at [virtualAddress], page [i] to what [frame i]
    yields; the early return of the code when a page cannot be mapped. *)
Definition map_pages (this virtualAddress size protection : Z) (frame : Z → ST mm Z) : ST mm Z :=
  loop fuel (λ i : Z,
    if i <? size then
      physicalAddress ← frame i;
      if physicalAddress =? 0 then mret (Done 0) else
      va ← mapAt map_page this (u32 (virtualAddress + i)) physicalAddress protection;
      if va =? 0 then mret (Done 0) else mret (Next (u32 (i + PAGESIZE)))
    else mret (Done virtualAddress)) 0.

Definition mapMemory (this size protection : Z) : ST mm Z :=
  lock_space this (
    self ← get_space this;
    virtualAddress ← findAndAddNewSegment fuel (firstSegment self) size protection;
    map_pages this virtualAddress size protection (λ _, pop)).

(** [mapMemory (virtualAddress, size, protection)] *)
Definition mapMemoryAt (this virtualAddress size protection : Z) : ST mm Z :=
  lock_space this (
    self ← get_space this;
    addSegment fuel (firstSegment self) virtualAddress size protection;;
    map_pages this virtualAddress size protection (λ _, pop)).

Definition mapPhysical (this physicalAddress size protection : Z) : ST mm Z :=
  lock_space this (
    self ← get_space this;
    virtualAddress ← findAndAddNewSegment fuel (firstSegment self) size protection;
    loop fuel (λ i : Z,
      if i <? size then
        va ← mapAt map_page this (u32 (virtualAddress + i)) (u32 (physicalAddress + i)) protection;
        if va =? 0 then mret (Done 0) else mret (Next (u32 (i + PAGESIZE)))
      else mret (Done virtualAddress)) 0).

Definition unmapMemory (this virtualAddress size : Z) : ST mm unit :=
  lock_space this (
    loop fuel (λ i : Z,
      if i <? size then
        physicalAddress ← physical_of this (u32 (virtualAddress + i));
        unMap map_page this (u32 (virtualAddress + i));;
        push physicalAddress;;
        mret (Next (u32 (i + PAGESIZE)))
      else mret (Done tt)) 0;;
    self ← get_space this;
    removeSegment fuel (firstSegment self) virtualAddress size).

Definition unmapPhysical (this virtualAddress size : Z) : ST mm unit :=
  lock_space this (
    loop fuel (λ i : Z,
      if i <? size then
        unMap map_page this (u32 (virtualAddress + i));;
        mret (Next (u32 (i + PAGESIZE)))
      else mret (Done tt)) 0;;
    self ← get_space this;
    removeSegment fuel (firstSegment self) virtualAddress size).

Definition mapFromOtherAddressSpace (this sourceSpace sourceVirtualAddress size protection : Z) : ST mm Z :=
  destination ← lock_space this (
    self ← get_space this;
    findAndAddNewSegment fuel (firstSegment self) size protection);
  loop fuel (λ i : Z,
    if i <? size then
      physicalAddress ← lock_space sourceSpace (physical_of sourceSpace (u32 (sourceVirtualAddress + i)));
      lock_space this (mapAt map_page this (u32 (destination + i)) physicalAddress protection);;
      mret (Next (u32 (i + PAGESIZE)))
    else mret (Done destination)) 0.

(** memcpy of the 1024 entries of a page directory, and of bytes. *)
Definition copy_page (dest src : Z) : ST mm unit :=
  for_n 1024 0 (λ i, w ← vload (src + 4 * i); vstore (dest + 4 * i) w).
Definition copy_bytes (dest src size : Z) : ST mm unit :=
  for_n (Z.to_nat size) 0 (λ i, b ← vload8 (src + i); vstore8 (dest + i) b).

(** The constructor, on the object at [this]. *)
Definition AddressSpace (this : Z) : ST mm unit :=
  (if this =? kernelSpace then
     modify_mm (λ s, with_spaces (firstAddressSpace s)
       (<[this := Space 0 (RECURSIVE_MAPPING + 0x3FF000) 0 0 0]> (spaces s)) s)
   else
     dir ← pop;
     kernel ← get_space kernelSpace;
     mapped ← mapPhysical kernelSpace dir PAGESIZE (Z.lor PROT_READ PROT_WRITE);
     first ← new sizeof_MemorySegment;
     modify_mm (λ s, with_segs
       (<[first := MemorySegment 0 PAGESIZE (Z.lor PROT_NONE SEG_NOUNMAP) 0 0]> (segs s)) s);;
     addSegment fuel first 0xC0000000 (u32 (- 0xC0000000)) (Z.lor PROT_NONE SEG_NOUNMAP);;
     scoped fuel listMutex (
       copy_page mapped (pageDirMapped kernel);;
       s ← get_mm;
       let next := firstAddressSpace s in
       modify_mm (λ s, with_spaces next (<[this := Space dir mapped first 0 next]> (spaces s)) s);;
       (if next =? 0 then mret tt else update_space next (set_as_prev this));;
       modify_mm (λ s, with_spaces this (spaces s) s)));;
  unlock (spaceMutex this);;
  mret tt.

(** The destructor. *)
Definition destroy (this : Z) : ST mm unit :=
  lock fuel listMutex;;
  self ← get_space this;
  (if as_prev self =? 0 then mret tt else update_space (as_prev self) (set_as_next (as_next self)));;
  (if as_next self =? 0 then mret tt else update_space (as_next self) (set_as_prev (as_prev self)));;
  modify_mm (λ s, with_spaces (if this =? firstAddressSpace s then as_next self else firstAddressSpace s)
    (spaces s) s);;
  unlock listMutex;;
  loop fuel (λ currentSegment : Z,
    if currentSegment =? 0 then mret (Done tt) else
    g ← get_segment currentSegment;
    (if Z_bool (Z.land (seg_flags g) SEG_NOUNMAP) then mret tt
     else unmapMemory this (seg_address g) (seg_size g));;
    mret (Next (seg_next g))) (firstSegment self);;
  push (pageDir self).

Definition fork (this : Z) : ST mm Z :=
  scoped fuel forkMutex (
    result ← new 24;
    AddressSpace result;;
    self ← get_space this;
    first ← get_segment (firstSegment self);
    loop fuel (λ segment : Z,
      if segment =? 0 then mret (Done tt) else
      g ← get_segment segment;
      (if Z_bool (Z.land (seg_flags g) SEG_NOUNMAP) then mret tt
       else
         let size := seg_size g in
         mapMemoryAt result (seg_address g) size (seg_flags g);;
         source ← mapFromOtherAddressSpace kernelSpace this (seg_address g) size PROT_READ;
         dest ← mapFromOtherAddressSpace kernelSpace result (seg_address g) size PROT_WRITE;
         copy_bytes dest source size;;
         unmapPhysical kernelSpace source size;;
         unmapPhysical kernelSpace dest size);;
      g ← get_segment segment;
      mret (Next (seg_next g))) (seg_next first);;
    mret result).

Definition activate (this : Z) : ST mm unit :=
  self ← get_space this;
  modify_mm (with_cr3 (pageDir self)).

(** The static segments of the kernel, as the compiler initialises them. *)
Definition static_segments : gmap Z segment :=
  list_to_map [
    (userSegment, MemorySegment 0 0xC0000000 PROT_NONE 0 0);
    (videoSegment, MemorySegment 0xC0000000 PAGESIZE (Z.lor PROT_READ PROT_WRITE) userSegment 0);
    (readOnlySegment, MemorySegment kernelVirtualBegin (u32 (kernelReadOnlyEnd - kernelVirtualBegin))
       (Z.lor PROT_READ PROT_EXEC) videoSegment 0);
    (writableSegment, MemorySegment kernelReadOnlyEnd (u32 (kernelVirtualEnd - kernelReadOnlyEnd))
       (Z.lor PROT_READ PROT_WRITE) readOnlySegment 0);
    (temporarySegment, MemorySegment 0xFF7FF000 PAGESIZE PROT_NONE writableSegment 0);
    (physicalMemorySegment, MemorySegment (RECURSIVE_MAPPING - 0x400000) 0x400000
       (Z.lor PROT_READ PROT_WRITE) temporarySegment 0);
    (recursiveMappingSegment, MemorySegment RECURSIVE_MAPPING (u32 (- RECURSIVE_MAPPING))
       (Z.lor PROT_READ PROT_WRITE) physicalMemorySegment 0)].

(** [AddressSpace::initialize] *)
Definition initialize : ST mm unit :=
  update_space kernelSpace (λ sp,
    Space kernelPageDirectory (pageDirMapped sp) (firstSegment sp) (as_prev sp) (as_next sp));;
  loop fuel (λ p : Z,
    if p <? bootstrapEnd then unMap map_page kernelSpace p;; mret (Next (u32 (p + PAGESIZE)))
    else mret (Done tt)) bootstrapBegin;;
  unMap map_page kernelSpace RECURSIVE_MAPPING;;
  update_space kernelSpace (λ sp,
    Space (pageDir sp) (pageDirMapped sp) userSegment (as_prev sp) (as_next sp));;
  set_next userSegment videoSegment;;
  set_next videoSegment readOnlySegment;;
  set_next readOnlySegment writableSegment;;
  set_next writableSegment temporarySegment;;
  set_next temporarySegment physicalMemorySegment;;
  set_next physicalMemorySegment recursiveMappingSegment.

(** ** Physical memory at boot *)
Definition vload_le (n : nat) (va : Z) : ST mm Z :=
  (fix go (n : nat) (va : Z) : ST mm Z :=
     match n with
     | O => mret 0
     | Datatypes.S n => b ← vload8 va; r ← go n (va + 1); mret (b + 2 ^ 8 * r)
     end) n va.

Definition isUsedByKernel (physicalAddress : Z) : bool :=
  ((bootstrapBegin <=? physicalAddress) && (physicalAddress <? bootstrapEnd)) ||
  ((kernelPhysicalBegin <=? physicalAddress) && (physicalAddress <? kernelPhysicalEnd)) ||
  (physicalAddress =? 0).

Definition isUsedByModule (physicalAddress modules moduleCount : Z) : ST mm bool :=
  loop fuel (λ i : Z,
    if i <? moduleCount then
      mod_start ← vload_le 4 (modules + sizeof_mod_list * i);
      mod_end ← vload_le 4 (modules + sizeof_mod_list * i + 4);
      if (mod_start <=? physicalAddress) && (physicalAddress <? mod_end)
      then mret (Done true) else mret (Next (i + 1))
    else mret (Done false)) 0.

Definition isUsedByMultiboot (physicalAddress : Z) (multiboot : multiboot_info) : bool :=
  let mmapEnd := u32 (mmap_addr multiboot + mmap_length multiboot) in
  let modsEnd := u32 (mods_addr multiboot + mods_count multiboot * sizeof_mod_list) in
  ((Z.land (mmap_addr multiboot) (Z.lnot 0xFFF) <=? physicalAddress) && (physicalAddress <? mmapEnd)) ||
  ((Z.land (mods_addr multiboot) (Z.lnot 0xFFF) <=? physicalAddress) && (physicalAddress <? modsEnd)).

(** The pages of one entry of the memory map. *)
Definition push_region (addr length modules : Z) (multiboot : multiboot_info) : ST mm unit :=
  loop fuel (λ i : Z,
    if i <? length then
      let page := u32 (addr + i) in
      byModule ← isUsedByModule page modules (mods_count multiboot);
      (if (byModule : bool) || isUsedByKernel page || isUsedByMultiboot page multiboot then mret tt
       else push page);;
      mret (Next (u64 (i + PAGESIZE)))
    else mret (Done tt)) 0.

(** [PhysicalMemory::initialize] *)
Definition initialize_frames (multiboot : multiboot_info) : ST mm unit :=
  if negb (CHECK_MULTIBOOT_FLAG (mb_flags multiboot) 0) then mret tt else
  if negb (CHECK_MULTIBOOT_FLAG (mb_flags multiboot) 6) then mret tt else
  let mmapPhys := mmap_addr multiboot in
  let mmapAligned := Z.land mmapPhys (Z.lnot 0xFFF) in
  let mmapOffset := mmapPhys - mmapAligned in
  let mmapSize := ALIGN_UP (mmapOffset + mmap_length multiboot) PAGESIZE in
  let modulesPhys := mods_addr multiboot in
  let modulesAligned := Z.land modulesPhys (Z.lnot 0xFFF) in
  let modulesOffset := modulesPhys - modulesAligned in
  let modulesSize := ALIGN_UP (modulesOffset + mods_count multiboot * sizeof_mod_list) PAGESIZE in
  mmapMapped ← mapPhysical kernelSpace mmapAligned mmapSize PROT_READ;
  modulesMapped ← mapPhysical kernelSpace modulesAligned modulesSize PROT_READ;
  let mmap := u32 (mmapMapped + mmapOffset) in
  let mmapEnd := u32 (mmap + mmap_length multiboot) in
  let modules := u32 (modulesMapped + modulesOffset) in
  loop fuel (λ mmap : Z,
    if mmap <? mmapEnd then
      size ← vload_le 4 mmap;
      base_addr ← vload_le 8 (mmap + 4);
      length ← vload_le 8 (mmap + 12);
      type ← vload_le 4 (mmap + 20);
      (if (type =? MULTIBOOT_MEMORY_AVAILABLE) && (u64 (base_addr + length) <=? 2 ^ 32 - 1)
       then push_region (u32 base_addr) length modules multiboot else mret tt);;
      mret (Next (u32 (mmap + size + 4)))
    else mret (Done tt)) mmap;;
  unmapPhysical kernelSpace mmapMapped mmapSize;;
  unmapPhysical kernelSpace modulesMapped modulesSize.

(** ** The pages of the kernel's own heap (libk) *)
Definition __mapMemory (size : Z) : ST mm Z := mapMemory kernelSpace size (Z.lor PROT_READ PROT_WRITE).
Definition __unmapMemory (addr size : Z) : ST mm unit := unmapMemory kernelSpace addr size.
End spaces.
