(* ===== verification/SpaceLaws.v ===== *)
(** * What the operations on address spaces guarantee

    The invariant of a process's memory joins the paging invariant and the
    segment list: a page is translated exactly if a segment covers it, with the
    protection of the segment, and no two pages of processes share a frame.
    [AddressSpace::mapMemory] and [unmapMemory] keep it. *)
From S2P Require Import Prelude Kthread Paging PagingLaws PagingMap Segments SegmentLaws AddressSpace.

(** ** Pages by number *)
Definition USER_PAGES : Z := 768 * 1024.

Lemma page_number p : page_va (p / 1024) (p mod 1024) = 4096 * p.
Proof. unfold page_va. Z.to_euclidean_division_equations. lia. Qed.

Lemma page_range p : 0 <= p < USER_PAGES → 0 <= p / 1024 < 768 ∧ 0 <= p mod 1024 < 1024.
Proof. unfold USER_PAGES. intros. Z.to_euclidean_division_equations. lia. Qed.

Lemma page_inj p q : p / 1024 = q / 1024 → p mod 1024 = q mod 1024 → p = q.
Proof. intros. Z.to_euclidean_division_equations. lia. Qed.

Section spaces.
Context `{Img : Image} `{Y : !Sched mm} (fuel : nat).
Implicit Types (own : gmap Z role) (s : mm) (l : list entry).
Notation map := (mapAtWithFlags fuel fuel).
Notation delete := base.delete.

(** The frame page [p] of the space [a] is translated to, and whether it is
    writable. *)
Definition page_at s (a p : Z) : option (Z * bool) := x ← spaces s !! a; walk (phys s) (pageDir x) (4096 * p).

Lemma page_at_space s a x p :
  spaces s !! a = Some x → page_at s a p = walk (phys s) (pageDir x) (page_va (p / 1024) (p mod 1024) + 0).
Proof. intros Hx. unfold page_at. rewrite Hx. cbn. by rewrite page_number, Z.add_0_r. Qed.

(** A byte of a page is translated with it. *)
Lemma page_at_byte s a x p o g w :
  spaces s !! a = Some x → page_at s a p = Some (g, w) → 0 <= p → 0 <= o < 4096 →
  walk (phys s) (pageDir x) (4096 * p + o) = Some (g + o, w).
Proof.
  intros Hx. unfold page_at. rewrite Hx. cbn. unfold walk. intros Hw Hp Ho.
  assert ((4096 * p + o) / 2 ^ 22 = (4096 * p) / 2 ^ 22) as -> by (Z.to_euclidean_division_equations; lia).
  assert ((4096 * p + o) / 2 ^ 12 mod 1024 = (4096 * p) / 2 ^ 12 mod 1024) as -> by (f_equal; Z.to_euclidean_division_equations; lia).
  repeat case_match; try done. injection Hw as <- <-. do 2 f_equal.
  change (2 ^ 12) with 4096. Z.to_euclidean_division_equations. lia.
Qed.

(** ** What the operations leave alone

    Only pages in [W] may be translated anew. *)
Record kept (W : Z → Z → Prop) K own s own' s' : Prop := {
  k_objects : same_objects s s';
  k_pages : ∀ b q, b ≠ kernelSpace → 0 <= q < USER_PAGES → ¬ W b q → page_at s' b q = page_at s b q;
  k_kernel : ∀ i j o, 768 <= i < 1022 → 0 <= j < 1024 → 0 <= o < 4096 → (i, j) ≠ temp_page →
    walk (phys s') K (page_va i j + o) = walk (phys s) K (page_va i j + o);
  k_words : ∀ g j, g mod 4096 = 0 → own !! g = None → own' !! g = None → 0 <= j < 1024 →
    phys s' !! (g + 4 * j) = phys s !! (g + 4 * j);
}.
Definition one_page (a p : Z) : Z → Z → Prop := λ b q, b = a ∧ q = p.

Lemma same_objects_trans s1 s2 s3 : same_objects s1 s2 → same_objects s2 s3 → same_objects s1 s3.
Proof. unfold same_objects. intuition congruence. Qed.

Lemma kept_trans (W1 W2 W : Z → Z → Prop) K own s own1 s1 own2 s2 :
  kept W1 K own s own1 s1 → kept W2 K own1 s1 own2 s2 →
  (∀ g, own !! g = None → own2 !! g = None → own1 !! g = None) →
  (∀ b q, W1 b q ∨ W2 b q → W b q) → kept W K own s own2 s2.
Proof.
  intros [O1 P1 K1 D1] [O2 P2 K2 D2] Hn HW. split.
  - by eapply same_objects_trans.
  - intros b q Hb Hq Hne. rewrite P2, P1; auto.
  - intros. by rewrite K2, K1.
  - intros. rewrite D2, D1; auto.
Qed.

Lemma one_page_kept own K s own' s' a p :
  0 <= p < USER_PAGES → one_page_changed own K s s' a (p / 1024) (p mod 1024) → kept (one_page a p) K own s own' s'.
Proof.
  intros Hp (O & U & KK & D). split; [done| |done|auto].
  intros b q Hb Hq Hne. pose proof O as (_ & _ & _ & Hsp & _). destruct (page_range q Hq).
  destruct (spaces s !! b) as [y|] eqn:Hy; [|unfold page_at; by rewrite Hsp, Hy].
  rewrite (page_at_space s b y), (page_at_space s' b y) by congruence. apply (U b y); try (done || lia).
  intros [= -> H1 H2]. apply Hne. split; [done|]. by apply page_inj.
Qed.

(** Popping a frame changes no translation. *)
Lemma pop_kept own K s n :
  inv own K s → calm fuel s → 0 < frames_left s →
  ∃ f r s', popPageFrame fuel (mapAtWithFlags fuel (Datatypes.S n)) s = Ok (f, s') ∧
    own !! f = Some r ∧ available r ∧ inv (delete f own) K s' ∧ frames_left s' = frames_left s - 1 ∧
    backed (phys s') f ∧ kept (λ _ _, False) K own s (delete f own) s'.
Proof.
  intros I Q Hpos. destruct (pop_changes fuel own K s n I Q Hpos) as (f & r & s' & Hrun & Hf & Hr & I' & O & Hl & C).
  exists f, r, s'. do 5 (split; [done|]). specialize (C (Free 0)). destruct (i_frame _ _ _ _ _ _ _ I f r Hf) as (_ & _ & Hb).
  split; [intros j Hj; apply (c_mapped _ _ _ _ _ _ C), Hb, Hj|].
  split; [done| |apply (c_kernel _ _ _ _ _ _ C)|].
  - intros b q Hk Hq _. pose proof O as (_ & _ & _ & Hsp & _). destruct (page_range q Hq) as [Hi Hj].
    destruct (spaces s !! b) as [y|] eqn:Hy; [|unfold page_at; by rewrite Hsp, Hy].
    rewrite (page_at_space s b y), (page_at_space s' b y) by congruence. pose proof (i_dir _ _ _ _ _ _ _ I b y Hy) as Hd.
    assert (phys s' !! (pageDir y + 4 * (q / 1024)) = phys s !! (pageDir y + 4 * (q / 1024))) as Hent.
    { apply (c_user _ _ _ _ _ _ C); [|by intros []]. right; right. by exists (pageDir y), b, (q / 1024). }
    destruct (walk_user own K s b y _ _ 0 I Hy Hk Hi Hj) as [[Hz ->]|(t & pte & Ht & Htr & Hp & ->)]; [lia| |].
    + apply walk_absent; [lia..|by rewrite Hent].
    + destruct (i_frame _ _ _ _ _ _ _ I t _ Htr) as (_ & Ha & _).
      apply (walk_table _ _ _ _ 0 t 7 pte); try (done || lia); [congruence|].
      rewrite (c_user _ _ _ _ _ _ C); [done| |by intros []]. right; left. by exists t, b, (q / 1024), (q mod 1024).
  - intros g j Hg Hn _ Hj. apply (c_user _ _ _ _ _ _ C); [|by intros []]. left. by exists g, j.
Qed.

(** ** Isolation

    A frame a process can reach does not belong to the memory manager, and no
    other page of any process is translated to it. *)
Record isolated own s : Prop := {
  iso_frame : ∀ a p g w, a ≠ kernelSpace → 0 <= p < USER_PAGES → page_at s a p = Some (g, w) →
    own !! g = None ∧ 0 < g < 2 ^ 32 ∧ g mod 4096 = 0 ∧ backed (phys s) g;
  iso_distinct : ∀ a p w b q w' g, a ≠ kernelSpace → b ≠ kernelSpace → 0 <= p < USER_PAGES → 0 <= q < USER_PAGES →
    page_at s a p = Some (g, w) → page_at s b q = Some (g, w') → a = b ∧ p = q;
}.

Lemma kept_backed W K own s own' s' g :
  kept W K own s own' s' → g mod 4096 = 0 → own !! g = None → own' !! g = None → backed (phys s) g → backed (phys s') g.
Proof. intros Hk Hg H1 H2 Hb j Hj. rewrite (k_words _ _ _ _ _ _ Hk); auto. Qed.

(** One page gets a frame that was the memory manager's. *)
Lemma isolated_add own K s own' s' a p f r w :
  isolated own s → kept (one_page a p) K own s own' s' → (∀ g, own !! g = None → own' !! g = None) →
  page_at s' a p = Some (f, w) → own !! f = Some r → own' !! f = None → 0 < f < 2 ^ 32 → f mod 4096 = 0 →
  backed (phys s') f → isolated own' s'.
Proof.
  intros [F D] Hk Hn Hp Hf Hf' Hf32 Hfa Hfb.
  assert (∀ b q g w, b ≠ kernelSpace → 0 <= q < USER_PAGES → page_at s' b q = Some (g, w) →
    (b = a ∧ q = p ∧ g = f) ∨ (¬ one_page a p b q ∧ page_at s b q = Some (g, w) ∧ g ≠ f)) as Hcase.
  { intros b q g w' Hb Hq Hg. destruct (decide (b = a ∧ q = p)) as [[-> ->]|Hne]; [left; by simplify_eq|right].
    rewrite (k_pages _ _ _ _ _ _ Hk) in Hg by done. split; [done|]. split; [done|]. intros ->.
    destruct (F _ _ _ _ Hb Hq Hg) as [? _]. congruence. }
  split.
  - intros b q g w' Hb Hq Hg. destruct (Hcase _ _ _ _ Hb Hq Hg) as [(-> & -> & ->)|(Hne & Hg' & _)]; [done|].
    destruct (F _ _ _ _ Hb Hq Hg') as (H1 & H2 & H3 & H4). split; [auto|]. split; [done|]. split; [done|].
    eapply kept_backed; eauto.
  - intros b q w1 b' q' w2 g Hb Hb' Hq Hq' H1 H2.
    destruct (Hcase _ _ _ _ Hb Hq H1) as [(-> & -> & ->)|(_ & G1 & ?)], (Hcase _ _ _ _ Hb' Hq' H2) as [(-> & -> & ?)|(_ & G2 & ?)];
      [done|done|done|]. exact (D _ _ _ _ _ _ _ Hb Hb' Hq Hq' G1 G2).
Qed.

(** ** Mapping pages one by one *)
Lemma quiet_objects s s' : same_objects s s' → quiet fuel s → quiet fuel s'.
Proof. intros O [Q Hk]. split; [by eapply calm_objects|]. by destruct O as (_ & -> & _). Qed.

Lemma steady_objects s s' : same_objects s s' → steady fuel s → steady fuel s'.
Proof. intros O. unfold steady. by destruct O as (_ & -> & _). Qed.

Lemma roles_kept_trans own own1 own2 : roles_kept own own1 → roles_kept own1 own2 → roles_kept own own2.
Proof. intros [R1 N1] [R2 N2]. split; [|auto]. intros g r Hg. destruct (R1 g r Hg) as [|H1]; [by left|auto]. Qed.

Lemma roles_kept_delete own f r : own !! f = Some r → available r → roles_kept own (delete f own).
Proof.
  intros Hf Hr. split.
  - intros g r' Hg. destruct (decide (f = g)) as [<-|]; [left; congruence|right; by rewrite lookup_delete_ne].
  - intros g Hg. apply lookup_delete_None. by right.
Qed.

(** A frame is popped and becomes page [p] of the process. *)
Lemma alloc_page own K s a p prot :
  inv own K s → quiet fuel s → (3 <= fuel)%nat → is_Some (spaces s !! a) → a ≠ kernelSpace → 0 <= p < USER_PAGES →
  0 <= prot < 8 → 3 <= frames_left s → isolated own s →
  ∃ f r own' s1 s', popPageFrame fuel map s = Ok (f, s1) ∧ mapAt map a (4096 * p) f prot s1 = Ok (4096 * p, s') ∧
    f ≠ 0 ∧ own !! f = Some r ∧ available r ∧ own' !! f = None ∧ inv own' K s' ∧ isolated own' s' ∧ roles_kept own own' ∧
    kept (one_page a p) K own s own' s' ∧ page_at s' a p = Some (f, Z.testbit prot 1) ∧
    (∃ t, temp_table own' K s' t) ∧ frames_left s - 3 <= frames_left s'.
Proof.
  intros I Q Hfuel [x Hx] Ha Hp Hprot Hpos Hiso. destruct (page_range p Hp).
  destruct (pop_kept own K s (fuel - 1) I (proj1 Q)) as (f & r & s1 & Hpop & Hf & Hr & I1 & Hl1 & Hb1 & K1); [lia|].
  destruct (i_frame _ _ _ _ _ _ _ I f r Hf) as (Hf32 & Hfa & _). pose proof (k_objects _ _ _ _ _ _ K1) as O1.
  assert (spaces s1 !! a = Some x) as Hx1 by (by destruct O1 as (_ & _ & _ & -> & _)).
  set (flags := if Z.testbit prot 1 then 7 else 5).
  assert (0 <= flags < 4096 ∧ Z.testbit flags 0 = true ∧ Z.testbit flags 1 = Z.testbit prot 1) as (Hfl & Hf0 & Hf1)
    by (unfold flags; by destruct (Z.testbit prot 1)).
  destruct (map_user_page fuel (delete f own) K s1 (fuel - 3) a x (p / 1024) (p mod 1024) f flags) as
    (own' & s' & Hrun & I' & P' & N' & Ht & Hl' & Hw); try (done || lia); [by eapply quiet_objects|].
  pose proof (one_page_kept _ _ _ _ _ _ _ Hp P' : kept _ _ _ _ own' _) as K'.
  assert (delete f own !! f = None) as Hf1n by apply lookup_delete_eq.
  assert (roles_kept own own') as HR by (eapply roles_kept_trans; [by eapply roles_kept_delete|done]).
  assert (kept (one_page a p) K own s own' s') as KK.
  { eapply (kept_trans _ _ (one_page a p)); [exact K1|exact K'| |by intros b q [[]|]].
    intros g Hg _. apply lookup_delete_None. by right. }
  assert (page_at s' a p = Some (f, Z.testbit prot 1)) as Hpage.
  { rewrite (page_at_space s' a x), Hw, Hf0, Hf1, Z.add_0_r by (done || lia || by destruct P' as ((_ & _ & _ & -> & _) & _)). done. }
  assert (backed (phys s') f) as Hb' by (eapply kept_backed; [exact K'|done|done|by apply N'|done]).
  exists f, r, own', s1, s'. split; [replace map with (mapAtWithFlags fuel (Datatypes.S (fuel - 1))) by (f_equal; lia); exact Hpop|].
  split; [rewrite <-page_number, mapAt_user by (done || lia);
    replace map with (mapAtWithFlags fuel (Datatypes.S (Datatypes.S (Datatypes.S (fuel - 3))))) by (f_equal; lia); exact Hrun|].
  split; [lia|]. do 2 (split; [done|]). split; [by apply N'|]. split; [done|].
  split; [eapply isolated_add; try done; [apply HR|by apply N']|]. do 4 (split; [done|]). lia.
Qed.

(** What [map_pages] with fresh frames leaves: page [p + k] of the process is
    translated to the [k]th of the frames [fs]. *)
Definition pages_mapped own K s own' s' a p n prot (fs : list Z) : Prop :=
  length fs = n ∧ inv own' K s' ∧ isolated own' s' ∧ roles_kept own own' ∧
  kept (λ b q, b = a ∧ p <= q < p + Z.of_nat n) K own s own' s' ∧
  (∀ k f, fs !! k = Some f → (∃ r, own !! f = Some r ∧ available r) ∧ own' !! f = None ∧
    page_at s' a (p + Z.of_nat k) = Some (f, Z.testbit prot 1)).

Lemma available_before own own' f r : roles_kept own own' → own' !! f = Some r → available r →
  ∃ r', own !! f = Some r' ∧ available r'.
Proof.
  intros [R N] Hf Hr. destruct (own !! f) as [r'|] eqn:Ho; [|rewrite N in Hf; done].
  exists r'. split; [done|]. destruct (R f r' Ho) as [|H]; [done|]. by simplify_eq.
Qed.

Lemma map_pages_ok a prot size p n own K s i m :
  inv own K s → quiet fuel s → (3 <= fuel)%nat → is_Some (spaces s !! a) → a ≠ kernelSpace → 0 <= prot < 8 →
  isolated own s → 0 <= i → i mod 4096 = 0 → 0 < p → 4096 * p + size <= 4096 * USER_PAGES → size = i + 4096 * Z.of_nat n →
  3 * Z.of_nat n <= frames_left s → (n < m)%nat →
  ∃ fs own' s', loop m (λ i : Z,
    if i <? size then
      physicalAddress ← popPageFrame fuel map;
      if physicalAddress =? 0 then mret (Done 0) else
      va ← mapAt map a (u32 (4096 * p + i)) physicalAddress prot;
      if va =? 0 then mret (Done 0) else mret (Next (u32 (i + PAGESIZE)))
    else mret (Done (4096 * p))) i s = Ok (4096 * p, s') ∧
    pages_mapped own K s own' s' a (p + i / 4096) n prot fs ∧
    (n ≠ 0%nat ∨ (∃ t, temp_table own K s t) → ∃ t, temp_table own' K s' t).
Proof.
  intros I Q Hfuel Hx Ha Hprot Hiso Hi Hia Hp Hend Hsize Hpos Hm.
  revert own s i m I Q Hx Hiso Hi Hia Hsize Hpos Hm. induction n as [|n IH]; intros own s i [|m] I Q Hx Hiso Hi Hia Hsize Hpos Hm; try lia.
  - exists [], own, s. split; [apply loop_done; by zcase (i <? size)|]. split; [|by intros [|]].
    split; [done|]. do 2 (split; [done|]). split; [split; [by right|done]|]. split; [by split|done].
  - unfold USER_PAGES in Hend. set (q := p + i / 4096).
    assert (4096 * p + i = 4096 * q) as Hq by (unfold q; Z.to_euclidean_division_equations; lia).
    destruct (alloc_page own K s a q prot I Q Hfuel Hx Ha) as
      (f & r & own1 & s1 & s2 & Hpop & Hmap & Hf0 & Hf & Hr & Hf1 & I2 & Hiso2 & R2 & K2 & Hpg & Ht & Hl); try (done || lia);
      [unfold USER_PAGES; lia|].
    pose proof (k_objects _ _ _ _ _ _ K2) as O2.
    destruct (IH own1 s2 (i + 4096) m) as (fs & own' & s' & Hrun & (Hlen & I' & Hiso' & R' & K' & Hpages) & Ht'); try (done || lia).
    { by eapply quiet_objects. } { by destruct O2 as (_ & _ & _ & -> & _). } { Z.to_euclidean_division_equations; lia. }
    replace (p + (i + 4096) / 4096) with (q + 1) in * by (unfold q; Z.to_euclidean_division_equations; lia).
    exists (f :: fs), own', s'. split; [|split].
    + erewrite loop_next; [exact Hrun|]. zcase (i <? size). rewrite (bind_ok _ _ _ _ _ Hpop). zcase (f =? 0).
      rewrite (u32_small (4096 * p + i)), Hq by lia. rewrite (bind_ok _ _ _ _ _ Hmap). zcase (4096 * q =? 0).
      unfold PAGESIZE. by rewrite u32_small by lia.
    + split; [cbn; lia|]. split; [done|]. split; [done|]. split; [by eapply roles_kept_trans|]. split.
      * eapply kept_trans; [exact K2|exact K'|intros g Hg _; by apply R2|]. intros b z [[-> ->]|[-> Hz]]; (split; [done|lia]).
      * intros [|k] g Hk; cbn in Hk.
        -- injection Hk as ->. split; [by exists r|]. split; [by apply R'|]. rewrite Z.add_0_r, (k_pages _ _ _ _ _ _ K'); [done|done|unfold USER_PAGES; lia|].
           intros [_ ?]. lia.
        -- destruct (Hpages k g Hk) as ((r' & Hg & Hr') & Hg' & Hp'). split; [by eapply available_before|]. split; [done|].
           rewrite <-Hp'. f_equal. lia.
    + intros _. apply Ht'. by right.
Qed.

(** ** The memory of a process *)
Definition covers (e : entry) (p : Z) : Prop := e_addr e <= 4096 * p < e_end e.
Definition reserved (e : entry) : bool := Z_bool (Z.land (e_flags e) SEG_NOUNMAP).

(** The list the constructor and the operations make: the null page in front,
    the kernel's half behind, whole pages of memory between. *)
Definition process_list l : Prop := ∃ p0 mid pl,
  l = Entry p0 0 PAGESIZE SEG_NOUNMAP :: mid ++ [Entry pl 0xC0000000 0x40000000 SEG_NOUNMAP] ∧
  Forall (λ e, e_addr e mod 4096 = 0 ∧ e_size e mod 4096 = 0 ∧ reserved e = false) mid.

(** A page is translated exactly if a segment that is not reserved covers it,
    and can be written exactly if the segment can. *)
Record faithful s a l : Prop := {
  f_mapped : ∀ e p, e ∈ l → reserved e = false → covers e p → ∃ g, page_at s a p = Some (g, Z.testbit (e_flags e) 1);
  f_unmapped : ∀ p, 0 <= p < USER_PAGES → (∀ e, e ∈ l → covers e p → reserved e = true) → page_at s a p = None;
}.

Record process_ok own K s a l : Prop := {
  po_inv : inv own K s;
  po_isolated : isolated own s;
  po_chain : ∃ x last, spaces s !! a = Some x ∧ chain (segs s) 0 (firstSegment x) l last 0;
  po_sorted : sorted_from 0 l;
  po_nodup : NoDup (e_ptr <$> l);
  po_list : process_list l;
  po_faithful : faithful s a l;
}.

(** A segment page with a free slot [q], not down to its last two. *)
Definition slot_for s (slots : list Z) (q : Z) : Prop :=
  ∃ slast used rest, slot_list (segs s) (nextPages s) segmentsPage slots slast ∧ slots = used ++ q :: rest ∧
    NoDup slots ∧ (length slots <= fuel)%nat ∧ (∀ p g, p ∈ used → segs s !! p = Some g → slot_usable g = false) ∧
    slot_free <$> segs s !! q = Some true ∧ count_free (segs s) slots ≠ 2.

(** ** The new segment in the list *)
Lemma find_gap_between lo size l addr :
  sorted_from lo l → find_gap size l = Some addr → ∃ l1 e1 e2 l2, l = l1 ++ e1 :: e2 :: l2 ∧ addr = e_end e1 ∧ addr + size <= e_addr e2.
Proof.
  revert lo. induction l as [|e1 l IH]; [done|]. intros lo (_ & _ & Hs). destruct l as [|e2 l]; [done|].
  change (find_gap size (e1 :: e2 :: l)) with (if size <=? e_addr e2 - e_end e1 then Some (e_end e1) else find_gap size (e2 :: l)).
  destruct (_ <=? _) eqn:Hle; zb.
  - intros [= <-]. exists [], e1, e2, l. split; [done|]. split; [done|]. lia.
  - intros (l1 & x & y & l2 & -> & H)%(IH _ Hs). exists (e1 :: l1), x, y, l2. by split.
Qed.

Lemma insert_sorted_perm new l : insert_sorted new l ≡ₚ new :: l.
Proof.
  induction l as [|e l IH]; [done|]. cbn [insert_sorted]. destruct (_ <=? _); [|done]. rewrite IH. apply Permutation_swap.
Qed.

Lemma insert_sorted_last new l e : e_addr new < e_end e → insert_sorted new (l ++ [e]) = insert_sorted new l ++ [e].
Proof.
  intros He. induction l as [|x l IH]; cbn [app insert_sorted].
  - by rewrite (proj2 (Z.leb_gt _ _)) by lia.
  - destruct (_ <=? _); [by rewrite IH|done].
Qed.

Lemma process_list_insert new l :
  process_list l → PAGESIZE <= e_addr new → e_end new <= 0xC0000000 → 0 < e_size new →
  e_addr new mod 4096 = 0 → e_size new mod 4096 = 0 → reserved new = false → process_list (insert_sorted new l).
Proof.
  intros (p0 & mid & pl & -> & Hmid) Ha He Hs Ham Hsm Hr. exists p0, (insert_sorted new mid), pl. split.
  - cbn [insert_sorted]. unfold e_end at 1. cbn [e_addr e_size]. unfold PAGESIZE in *.
    rewrite (proj2 (Z.leb_le _ _)) by lia. rewrite insert_sorted_last; [done|]. unfold e_end in *. cbn [e_addr e_size]. lia.
  - rewrite insert_sorted_perm. by constructor.
Qed.

(** Memory lies between the two reserved segments. *)
Lemma process_range p0 mid pl e :
  sorted_from 0 (Entry p0 0 PAGESIZE SEG_NOUNMAP :: mid ++ [Entry pl 0xC0000000 0x40000000 SEG_NOUNMAP]) → e ∈ mid →
  PAGESIZE <= e_addr e ∧ 0 < e_size e ∧ e_end e <= 0xC0000000.
Proof.
  intros Hs He. pose proof Hs as (_ & _ & Hs'). destruct (sorted_all _ _ e Hs' ltac:(set_solver)) as (? & ? & _).
  split; [done|]. split; [done|]. apply list_elem_of_split in He as (m1 & m2 & ->).
  exact (sorted_before 0 (_ :: m1 ++ e :: m2) _ [] e Hs ltac:(set_solver)).
Qed.

Lemma process_covers l e p :
  process_list l → sorted_from 0 l → e ∈ l → reserved e = false → covers e p → 0 < p < USER_PAGES.
Proof.
  intros (p0 & mid & pl & -> & _) Hs He Hr Hc.
  apply elem_of_cons in He as [->|[He| ->%list_elem_of_singleton]%elem_of_app]; [done| |done].
  destruct (process_range _ _ _ _ Hs He). unfold covers, PAGESIZE, USER_PAGES in *. lia.
Qed.

(** The gap found in the list of a process lies between its two reserved
    segments and is made of whole pages. *)
Lemma process_gap l size addr :
  process_list l → sorted_from 0 l → 0 < size → find_gap size l = Some addr →
  PAGESIZE <= addr ∧ addr + size <= 0xC0000000 ∧ addr mod 4096 = 0.
Proof.
  intros (p0 & mid & pl & -> & Hmid) Hs Hsize Hgap. rewrite Forall_forall in Hmid.
  destruct (find_gap_between 0 size _ addr Hs Hgap) as (l1 & e1 & e2 & l2 & Hl & -> & Hle).
  destruct (exists_last (l := e2 :: l2)) as (l2' & z & Hz); [done|].
  set (last := Entry pl 0xC0000000 0x40000000 SEG_NOUNMAP) in *.
  assert (Entry p0 0 PAGESIZE SEG_NOUNMAP :: mid = l1 ++ e1 :: l2' ∧ z = last) as [Hl' ->].
  { rewrite Hz, (app_comm_cons l2'), app_assoc, (app_comm_cons mid) in Hl. by apply app_inj_tail in Hl as [-> ->]. }
  assert (e_addr e2 <= 0xC0000000) as Hlast.
  { assert (e2 ∈ l2' ++ [last]) as [H2| ->%list_elem_of_singleton]%elem_of_app by (rewrite <-Hz; left); [|done].
    assert (e2 ∈ mid) as H2' by (destruct l1; injection Hl' as _ ->; set_solver).
    destruct (process_range _ _ _ _ Hs H2') as (_ & ? & ?). unfold e_end in *. lia. }
  assert (e1 = Entry p0 0 PAGESIZE SEG_NOUNMAP ∨ e1 ∈ mid) as [->|Hin]; [|split; [done|split; [lia|done]]|].
  { destruct l1; injection Hl' as H1 H2; [by left|right; set_solver]. }
  destruct (Hmid e1 Hin) as (H1 & H3 & _), (process_range _ _ _ _ Hs Hin) as (? & ? & _). unfold e_end in *.
  split; [lia|]. split; [lia|]. Z.to_euclidean_division_equations. lia.
Qed.

Lemma process_ok_head own K s a l : process_ok own K s a l → ∃ e0 l', l = e0 :: l'.
Proof. intros [_ _ _ _ _ (p0 & mid & pl & -> & _) _]. eauto. Qed.

(** The other processes keep their memory. *)
Lemma process_ok_other own K s own' s' b l m (W : Z → Z → Prop) :
  process_ok own K s b l → b ≠ kernelSpace → inv own' K s' → isolated own' s' → kept W K own (with_segs m s) own' s' →
  (∀ q, ¬ W b q) → (∀ e, e ∈ l → m !! e_ptr e = segs s !! e_ptr e) → process_ok own' K s' b l.
Proof.
  intros [_ _ (x & last & Hx & Hc) Hs Hnd Hl [F1 F2]] Hb I' Hiso' Hk HW Hm.
  destruct (k_objects _ _ _ _ _ _ Hk) as (_ & _ & _ & Hsp & Hsg & _). cbn in Hsp, Hsg.
  assert (∀ q, 0 <= q < USER_PAGES → page_at s' b q = page_at s b q) as Hp.
  { intros q Hq. by rewrite (k_pages _ _ _ _ _ _ Hk). }
  split; try done.
  - exists x, last. rewrite Hsp, Hsg. split; [done|]. eapply chain_same; eauto.
  - split.
    + intros e p He Hr Hcov. rewrite Hp; [by apply F1|]. pose proof (process_covers _ _ _ Hl Hs He Hr Hcov). lia.
    + intros p Hpr Hn. rewrite Hp by done. by apply F2.
Qed.

(** Every page but those in [W] is translated as before and holds what it held. *)
Definition memory_kept (W : Z → Z → Prop) s s' : Prop := ∀ b p, b ≠ kernelSpace → 0 <= p < USER_PAGES → ¬ W b p →
  page_at s' b p = page_at s b p ∧
  ∀ g w j, page_at s b p = Some (g, w) → 0 <= j < 1024 → phys s' !! (g + 4 * j) = phys s !! (g + 4 * j).

Lemma kept_memory (W W' : Z → Z → Prop) K own s0 s own' s1 s' :
  kept W K own s0 own' s1 → isolated own s → isolated own' s' → (∀ b p, W b p → W' b p) →
  phys s0 = phys s → spaces s0 = spaces s → phys s1 = phys s' → spaces s1 = spaces s' → memory_kept W' s s'.
Proof.
  intros Hk [F _] [F' _] HW Hp0 Hs0 Hp1 Hs1 b p Hb Hp Hn. assert (page_at s' b p = page_at s b p) as Hpg.
  { unfold page_at. rewrite <-Hp0, <-Hs0, <-Hp1, <-Hs1. apply (k_pages _ _ _ _ _ _ Hk); auto. }
  split; [done|]. intros g w j Hg Hj. destruct (F b p g w Hb Hp Hg) as (Hgn & _ & Hga & _).
  rewrite <-Hpg in Hg. destruct (F' b p g w Hb Hp Hg) as (Hgn' & _). rewrite <-Hp0, <-Hp1. by rewrite (k_words _ _ _ _ _ _ Hk).
Qed.

Lemma pages_mapped_nodup own K s own' s' a p n prot fs :
  pages_mapped own K s own' s' a p n prot fs → a ≠ kernelSpace → 0 <= p → p + Z.of_nat n <= USER_PAGES → NoDup fs.
Proof.
  intros (Hlen & _ & [_ D] & _ & _ & Hpages) Ha Hp Hn. apply NoDup_alt. intros i j f Hi Hj.
  pose proof (lookup_lt_Some _ _ _ Hi). pose proof (lookup_lt_Some _ _ _ Hj).
  destruct (Hpages i f Hi) as (_ & _ & H1), (Hpages j f Hj) as (_ & _ & H2).
  destruct (D a (p + Z.of_nat i) _ a (p + Z.of_nat j) _ f Ha Ha ltac:(lia) ltac:(lia) H1 H2). lia.
Qed.

Lemma not_reserved q addr size prot : 0 <= prot < 8 → reserved (Entry q addr size prot) = false.
Proof.
  intros H. assert (prot = 0 ∨ prot = 1 ∨ prot = 2 ∨ prot = 3 ∨ prot = 4 ∨ prot = 5 ∨ prot = 6 ∨ prot = 7)
    as Hp by lia. by repeat (destruct Hp as [->|Hp]; [done|]); subst.
Qed.

(** The list and the translations agree after a segment was added and its
    pages mapped. *)
Lemma faithful_insert own K s own' s' a l q addr size prot fs n :
  faithful s a l → process_list l → sorted_from 0 l → a ≠ kernelSpace → Forall (disjoint_from (Entry q addr size prot)) l →
  addr mod 4096 = 0 → 0 <= addr → 0 <= prot < 8 → size = 4096 * Z.of_nat n →
  pages_mapped own K s own' s' a (addr / 4096) n prot fs → faithful s' a (insert_sorted (Entry q addr size prot) l).
Proof.
  intros [F1 F2] Hl Hs Ha Hd Ham Ha0 Hp -> (Hlen & _ & _ & _ & Hk & Hpages). set (new := Entry _ _ _ _) in *.
  assert (∀ p, covers new p ↔ addr / 4096 <= p < addr / 4096 + Z.of_nat n) as Hcov.
  { intros p. unfold covers, e_end, new. cbn [e_addr e_size]. Z.to_euclidean_division_equations. lia. }
  assert (∀ p, 0 <= p < USER_PAGES → ¬ covers new p → page_at s' a p = page_at s a p) as Hother.
  { intros p Hr Hn. rewrite Hcov in Hn. apply (k_pages _ _ _ _ _ _ Hk); [done..|]. intros [_ H]. tauto. }
  split.
  - intros e p He Hr Hc. rewrite insert_sorted_perm in He. apply elem_of_cons in He as [->|He].
    + apply Hcov in Hc. destruct (lookup_lt_is_Some_2 fs (Z.to_nat (p - addr / 4096))) as [f Hf]; [lia|].
      exists f. destruct (Hpages _ _ Hf) as (_ & _ & Hpg). change (e_flags new) with prot. rewrite <-Hpg. f_equal. lia.
    + rewrite Hother; [by apply F1| |].
      * pose proof (process_covers _ _ _ Hl Hs He Hr Hc). lia.
      * intros Hn. rewrite Forall_forall in Hd. unfold covers in *. destruct (Hd e He); lia.
  - intros p Hpr Hn. setoid_rewrite insert_sorted_perm in Hn. rewrite Hother; [|done|].
    + apply F2; [done|]. intros e He. apply Hn. by right.
    + intros Hc. specialize (Hn new ltac:(left) Hc). unfold new in Hn. by rewrite not_reserved in Hn.
Qed.

(** What a process has got: [fs] are the frames of the new pages.  Segment list
    and page tables agree afterwards, and all other memory of processes is as it
    was. *)
Definition memory_given own K s own' s' a l q addr size prot (fs : list Z) : Prop :=
  let new := Entry q addr size prot in
  process_ok own' K s' a (insert_sorted new l) ∧ Forall (disjoint_from new) l ∧
  Z.of_nat (length fs) = size / 4096 ∧ NoDup fs ∧
  (∀ k f, fs !! k = Some f → (∃ r, own !! f = Some r ∧ available r) ∧ own' !! f = None ∧
    page_at s' a (addr / 4096 + Z.of_nat k) = Some (f, Z.testbit prot 1)) ∧
  (∀ b l', b ≠ a → b ≠ kernelSpace → process_ok own K s b l' →
    (∀ e, e ∈ l' → e_ptr e ∉ q :: (e_ptr <$> l)) → process_ok own' K s' b l') ∧
  memory_kept (λ b p, b = a ∧ addr / 4096 <= p < addr / 4096 + size / 4096) s s' ∧
  ∃ t, temp_table own' K s' t.

(** AddressSpace::mapMemory. *)
Lemma mapMemory_ok own K s a l slots q size prot addr :
  process_ok own K s a l → a ≠ kernelSpace → quiet fuel s → spaceMutex a ∉ held s → segMutex ∉ held s →
  slot_for s slots q → q ∉ e_ptr <$> l → segs s !! 0 = None → (length l <= fuel)%nat → (3 <= fuel)%nat →
  0 <= prot < 8 → 0 < size → size mod 4096 = 0 → size / 4096 < Z.of_nat fuel → 3 * (size / 4096) <= frames_left s →
  find_gap size l = Some addr →
  ∃ fs own' s', mapMemory fuel a size prot s = Ok (addr, s') ∧ held s' = held s ∧
    memory_given own K s own' s' a l q addr size prot fs.
Proof.
  intros Hok Ha Q Hlock Hsl (slast & used & rest & Hslots & -> & Hnds & Hslen & Hused & Hfree & Hcount) Hq Hnull Hlen Hfuel
    Hprot Hsize Hsm Hn Hpos Hgap. set (new := Entry q addr size prot).
  pose proof Hok as [I Hiso (x & last & Hx & Hc) Hs Hnd Hl F]. destruct (process_ok_head _ _ _ _ _ Hok) as (e0 & l' & ->).
  destruct (process_gap _ _ _ Hl Hs Hsize Hgap) as (Ha1 & Ha2 & Ham). unfold PAGESIZE in Ha1.
  set (sa := with_held ({[spaceMutex a]} ∪ held s) s). set (n := Z.to_nat (size / 4096)).
  assert (size = 4096 * Z.of_nat n) as Hsn by (unfold n; Z.to_euclidean_division_equations; lia).
  destruct (find_and_add_ok fuel sa 0 (firstSegment x) e0 l' 0 last (used ++ q :: rest) slast used q rest size prot addr) as
    (m & last' & Hadd & Hcm & Hsm' & Hdis & Hom); try done.
  { unfold sa. mms. set_solver. } { by constructor. }
  destruct (map_pages_ok a prot size (addr / 4096) n own K (with_segs m sa) 0 fuel) as (fs & own' & s' & Hrun & Hpm & Ht); try (done || lia).
  { destruct Q as [(? & ? & ? & ?) ?]. unfold quiet, calm, list_fits, sa in *. mms. split_and!; try done; set_solver. }
  { by destruct Hiso. } { Z.to_euclidean_division_equations; lia. }
  { unfold USER_PAGES. Z.to_euclidean_division_equations; lia. } { change (frames_left (with_segs m sa)) with (frames_left s). lia. }
  rewrite Z.add_0_r in Hpm. replace (4096 * (addr / 4096)) with addr in Hrun by (Z.to_euclidean_division_equations; lia).
  pose proof Hpm as (Hlenf & I' & Hiso' & HR & Hk & Hpages). pose proof (k_objects _ _ _ _ _ _ Hk) as (_ & Hheld & _ & Hsp & Hsg & _).
  cbn in Hheld, Hsp, Hsg. set (s1 := with_held (held s) s').
  exists fs, own', s1. split; [|split; [done|split; [|split; [done|split; [lia|split; [|split; [|split; [|split; [|]]]]]]]]].
  - apply (scoped_ok fuel _ _ s addr s' Hlock); [lia| |done]. unfold get_space. fold sa.
    rewrite (bind_ok _ _ _ x sa) by (cbn; by rewrite Hx). rewrite (bind_ok _ _ _ _ _ Hadd). exact Hrun.
  - split; try done.
    + destruct Hiso' as [H1 H2]. by split.
    + exists x, last'. cbn. rewrite Hsp, Hsg. by split.
    + rewrite insert_sorted_perm. by constructor.
    + apply process_list_insert; try done; try (unfold e_end; cbn; lia). by apply not_reserved.
    + assert (faithful s' a (insert_sorted new (e0 :: l'))) as [F1 F2] by 
        (eapply (faithful_insert own K (with_segs m sa)); try done; [by destruct F|lia]).
      by split.
  - eapply pages_mapped_nodup; [exact Hpm|done|Z.to_euclidean_division_equations; lia|].
    unfold USER_PAGES. Z.to_euclidean_division_equations; lia.
  - done.
  - intros b lb Hb Hbk Hokb Hptr.
    eapply (process_ok_other own K s own' s1 b lb m (λ z _, z = a)); try done.
    + destruct Hiso' as [H1 H2]. by split.
    + destruct Hk as [(? & _ & ? & ? & ? & ?) P KK D]. split; [by unfold same_objects; split_and!| |done|done].
      intros z y Hz Hy Hw. apply P; [done..|]. tauto.
    + intros e He. rewrite Hom by auto. done.
  - eapply (kept_memory _ _ K own _ s own' s' s1 Hk Hiso); [by destruct Hiso'| |done..]. intros b p [-> Hp]. split; [done|]. lia.
  - apply Ht. left. lia.
Qed.

(** Out of page frames mapMemory returns 0, but the segment it added stays in
    the list: the range is reserved and no page of it is translated, so the list
    and the page tables of the process no longer agree. *)
Theorem mapMemory_out_of_frames own K s a l slots q size prot addr :
  process_ok own K s a l → a ≠ kernelSpace → quiet fuel s → spaceMutex a ∉ held s → segMutex ∉ held s →
  slot_for s slots q → q ∉ e_ptr <$> l → segs s !! 0 = None → (length l <= fuel)%nat → 0 <= prot < 8 → 0 < size →
  frames_left s = 0 → find_gap size l = Some addr →
  let new := Entry q addr size prot in
  ∃ m last, mapMemory fuel a size prot s = Ok (0, with_segs m s) ∧
    (∃ x, spaces s !! a = Some x ∧ chain m 0 (firstSegment x) (insert_sorted new l) last 0) ∧
    ∀ p, 0 <= p < USER_PAGES → covers new p → page_at (with_segs m s) a p = None.
Proof.
  intros Hok Ha Q Hlock Hsl (slast & used & rest & Hslots & -> & Hnds & Hslen & Hused & Hfree & Hcount) Hq Hnull Hlen
    Hprot Hsize Hempty Hgap new.
  pose proof Hok as [I _ (x & last & Hx & Hc) Hs Hnd Hl F]. destruct (process_ok_head _ _ _ _ _ Hok) as (e0 & l' & ->).
  set (sa := with_held ({[spaceMutex a]} ∪ held s) s).
  destruct (find_and_add_ok fuel sa 0 (firstSegment x) e0 l' 0 last (used ++ q :: rest) slast used q rest size prot addr) as
    (m & last' & Hadd & Hcm & Hsm' & Hdis & Hom); try done.
  { unfold sa. mms. set_solver. } { by constructor. }
  assert (calm fuel (with_segs m sa)) as Hcalm.
  { destruct Q as [(? & ? & ? & ?) ?]. unfold calm, list_fits, sa in *. mms. split_and!; try done; set_solver. }
  exists m, last'. split; [|split; [by exists x|]].
  - change (with_segs m s) with (with_held (held s) (with_segs m sa)).
    apply (scoped_ok fuel _ _ s 0 (with_segs m sa) Hlock); [cbn in Hlen; lia| |done]. unfold get_space. fold sa.
    rewrite (bind_ok _ _ _ x sa) by (cbn; by rewrite Hx). rewrite (bind_ok _ _ _ _ _ Hadd).
    unfold map_pages. destruct fuel as [|k] eqn:Hk; [cbn in Hlen; lia|]. apply loop_done. zcase (0 <? size).
    by rewrite (bind_ok _ _ _ _ _ (pop_empty _ _ own K (with_segs m sa) I Hcalm Hempty)).
  - intros p Hp Hcov. apply (f_unmapped _ _ _ F p Hp). intros e He Hce. exfalso. rewrite Forall_forall in Hdis.
    fold new in Hdis. unfold covers in *. destruct (Hdis e He); lia.
Qed.

(** ** Unmapping pages one by one *)

(** The temporary page translates to the frame just mapped there. *)
Lemma temp_walk own K s t f k o :
  inv own K s → temp_table own K s t → f mod 4096 = 0 → (k = 1 ∨ k = 3) → 0 <= o < 4096 →
  let m := <[t + 4 * 1023 := f + k]> (phys s) in
  walk m (cr3 s) (page_va 1021 1023 + o) = Some (f + o, Z.testbit k 1).
Proof.
  intros I [Ht Htr] Hf Hk Ho m. destruct (changes_temp own K s t (f + k) I Ht Htr) as (I' & _ & HO).
  destruct (i_frame _ _ _ _ _ _ _ I t _ Htr) as (_ & Hta & _).
  change (walk (phys (with_phys m s)) (cr3 (with_phys m s)) (page_va 1021 1023 + o) = Some (f + o, Z.testbit k 1)).
  rewrite (walk_cur own K _ _ _ _ _ I') by lia.
  rewrite (walk_table _ K 1021 1023 o t 3 (f + k)); try (done || lia).
  - rewrite !testbit_add, pte_frame_add by lia. by destruct Hk as [-> | ->].
  - rewrite (HO K (Directory kernelSpace)); [done|apply (i_dir_K _ _ _ _ _ _ _ I)|done|lia].
  - apply lookup_insert_eq.
Qed.

(** Mapping at the temporary page when its table exists. *)
Lemma map_temp own K s n t f protection :
  inv own K s → temp_table own K s t → 0 <= f < 2 ^ 32 → f mod 4096 = 0 → 0 <= protection < 8 →
  mapTemporarily (mapAtWithFlags fuel (Datatypes.S n)) f protection s =
    Ok (page_va 1021 1023, with_phys (<[t + 4 * 1023 := f + if Z.testbit protection 1 then 3 else 1]> (phys s)) s).
Proof.
  intros I [Ht Htr] Hf Ha Hp. unfold mapTemporarily. change 0xFF7FF000 with (page_va 1021 1023).
  rewrite mapAt_kernel by (done || lia). apply (kernel_present fuel own K); try (done || lia). by destruct (Z.testbit _ _).
Qed.

Lemma unmap_temp own K s n t :
  inv own K s → temp_table own K s t →
  unMap (mapAtWithFlags fuel (Datatypes.S n)) kernelSpace (page_va 1021 1023) s =
    Ok (tt, with_phys (<[t + 4 * 1023 := 0]> (phys s)) s).
Proof.
  intros I [Ht Htr]. apply (unMap_kernel _ 1021 1023 _ _ (page_va 1021 1023)); [lia|lia|].
  by rewrite (kernel_present fuel own K s n 1021 1023 t 0 0).
Qed.

Section present.
Context (own : gmap Z role) (K : Z) (s : mm) (a : Z) (x : aspace) (i j f t : Z).
Hypothesis I : inv own K s.
Hypothesis Q : steady fuel s.
Hypothesis Hx : spaces s !! a = Some x.
Hypothesis Ha : a ≠ kernelSpace.
Hypothesis Hi : 0 <= i < 768.
Hypothesis Hj : 0 <= j < 1024.
Hypothesis He : phys s !! (pageDir x + 4 * i) = Some (f + 7).
Hypothesis Hf : own !! f = Some (Table a i).
Hypothesis Htemp : temp_table own K s t.

Lemma present_frame : 0 < f < 2 ^ 32 ∧ f mod 4096 = 0.
Proof using I Hf. by destruct (i_frame _ _ _ _ _ _ _ I f _ Hf) as (? & ? & _). Qed.

Lemma present_words k : 0 <= k < 1024 → t + 4 * 1023 ≠ f + 4 * k.
Proof using I Ha Hf Htemp.
  intros Hk. destruct Htemp as [_ Htr].
  apply (role_words _ _ _ _ _ _ _ I t f _ _ 1023 k Htr Hf); [congruence|lia|done].
Qed.

(** The entry of the page's table, read through the temporary page. *)
Lemma getPhysicalAddress_user n e :
  phys s !! (f + 4 * j) = Some e →
  getPhysicalAddress fuel (mapAtWithFlags fuel (Datatypes.S n)) a (page_va i j) s =
    Ok (pte_frame e, with_phys (<[t + 4 * 1023 := 0]> (phys s)) s).
Proof using I Q Hx Ha Hi Hj He Hf Htemp.
  intros Hw. destruct present_frame as [Hf32 Hfa]. destruct Q as (_ & Hk & Hfuel).
  unfold getPhysicalAddress. rewrite address_index, bind_ret by lia.
  assert (get_space a s = Ok (x, s)) as Hg by (unfold get_space; by rewrite Hx).
  rewrite (bind_ok _ _ _ _ _ Hg).
  erewrite bind_ok; [|eapply vload_ok; [by apply (walk_user_dir own K s a x i I Hx Ha); lia|exact He]]. cbv beta.
  rewrite (proj2 (Z.eqb_neq (f + 7) 0)), (proj2 (Z.eqb_neq a kernelSpace)) by (done || lia).
  change (Z.land (f + 7) (Z.lnot 0xFFF)) with (pte_frame (f + 7)). rewrite pte_frame_add by lia.
  set (sl := with_held ({[spaceMutex kernelSpace]} ∪ held s) s). set (m := <[t + 4 * 1023 := f + 1]> (phys s)).
  assert ((lock fuel (spaceMutex kernelSpace);; mapTemporarily (mapAtWithFlags fuel (Datatypes.S n)) f PROT_READ) s =
    Ok (page_va 1021 1023, with_phys m sl)) as Hmap.
  { rewrite (bind_ok _ _ _ _ _ (lock_ok fuel _ s Hk Hfuel)). apply (map_temp own K sl n t f PROT_READ I Htemp); [lia|done|by unfold PROT_READ; cbn]. }
  rewrite (bind_ok _ _ _ _ _ Hmap).
  erewrite bind_ok; [|eapply vload_ok; [apply (temp_walk own K sl t f 1 (4 * j) I Htemp); [done|by left|lia]|
    unfold sl; mms; unfold m; rewrite lookup_insert_ne by (by apply present_words); exact Hw]]. cbv beta.
  destruct (changes_temp own K sl t (f + 1) I (proj1 Htemp) (proj2 Htemp)) as (I' & _ & HO).
  assert (temp_table own K (with_phys m sl) t) as Htemp'.
  { split; [|apply Htemp]. rewrite <-(proj1 Htemp). apply (HO K (Directory kernelSpace)); [apply (i_dir_K _ _ _ _ _ _ _ I)|done|lia]. }
  erewrite bind_ok; [|rewrite (bind_ok _ _ _ _ _ (unmap_temp own K (with_phys m sl) n t I' Htemp')), (bind_ok _ _ _ _ _ (unlock_ok _ _)); reflexivity].
  unfold m, sl. mms. rewrite insert_insert_eq, held_restored by done. by destruct s.
Qed.

(** An entry of an existing table is written in place. *)
Definition entry_written (w : Z) : mm := with_phys (<[t + 4 * 1023 := 0]> (<[f + 4 * j := w]> (phys s))) s.

Lemma map_user_present n pa flags :
  0 <= pa < 2 ^ 32 → pa mod 4096 = 0 → 0 <= flags < 4096 →
  mapAtWithFlags fuel (Datatypes.S (Datatypes.S n)) a i j pa flags s = Ok (page_va i j, entry_written (pa + flags)).
Proof using I Q Hx Ha Hi Hj He Hf Htemp.
  intros Hpa Hpaa Hfl. destruct present_frame as [Hf32 Hfa]. destruct Q as (_ & Hk & Hfuel).
  set (sl := with_held ({[spaceMutex kernelSpace]} ∪ held s) s). set (m := <[t + 4 * 1023 := f + 3]> (phys s)).
  remember (Datatypes.S n) as n1 eqn:Hn1. cbn [mapAtWithFlags]. unfold mapAtWithFlags_body.
  rewrite small_flags by done. cbn [negb].
  assert (find_page_table fuel (mapAtWithFlags fuel n1) a i s = Ok (page_va 1021 1023, with_phys m sl)) as Hfind.
  { unfold find_page_table. assert (get_space a s = Ok (x, s)) as Hg by (unfold get_space; by rewrite Hx).
    rewrite (bind_ok _ _ _ _ _ Hg), (proj2 (Z.eqb_neq a kernelSpace)) by done.
    erewrite bind_ok; [|eapply vload_ok; [by apply (walk_user_dir own K s a x i I Hx Ha); lia|exact He]]. cbv beta.
    rewrite (proj2 (Z.eqb_neq (f + 7) 0)) by lia. change (Z.land (f + 7) (Z.lnot 0xFFF)) with (pte_frame (f + 7)).
    rewrite pte_frame_add by lia. rewrite (bind_ok _ _ _ _ _ (lock_ok fuel _ s Hk Hfuel)). subst n1.
    apply (map_temp own K sl n t f (Z.lor PROT_READ PROT_WRITE) I Htemp); [lia|done|by unfold PROT_READ; cbn]. }
  rewrite (bind_ok _ _ _ _ _ Hfind), (lor_aligned pa flags) by done.
  destruct (changes_temp own K sl t (f + 3) I (proj1 Htemp) (proj2 Htemp)) as (I' & _ & HO).
  destruct (i_frame _ _ _ _ _ _ _ I' f _ Hf) as (_ & _ & Hfb).
  assert (0 <= pa + flags < 2 ^ 32) by (Z.to_euclidean_division_equations; lia).
  erewrite bind_ok; [|apply (vstore_ok _ _ (f + 4 * j)); [apply (temp_walk own K sl t f 3 (4 * j) I Htemp); [done|by right|lia]|by apply Hfb|done]].
  rewrite (proj2 (Z.eqb_neq a kernelSpace)) by done.
  set (m2 := <[f + 4 * j := pa + flags]> (phys (with_phys m sl))).
  assert (inv own K (with_phys m2 (with_phys m sl))) as I2.
  { apply (inv_user_table own K (with_phys m sl) f a i); [exact I'|done|done|]. apply agree_insert. by exists j. }
  assert (temp_table own K (with_held (held s) (with_phys m2 (with_phys m sl))) t) as Htemp2.
  { split; [|apply Htemp]. mms. rewrite <-(proj1 Htemp). unfold m2. rewrite lookup_insert_ne.
    - apply (HO K (Directory kernelSpace)); [apply (i_dir_K _ _ _ _ _ _ _ I)|done|lia].
    - apply (role_words _ _ _ _ _ _ _ I f K _ _ j 1021 Hf (i_dir_K _ _ _ _ _ _ _ I)); [done|done|lia]. }
  erewrite bind_ok; [|rewrite (bind_ok _ _ _ _ _ (unlock_ok _ _)); mms;
    replace ((held sl) ∖ {[spaceMutex kernelSpace]}) with (held s) by (unfold sl; mms; by rewrite held_restored);
    subst n1; exact (unmap_temp own K (with_held (held s) (with_phys m2 (with_phys m sl))) n t I2 Htemp2)].
  rewrite kernel_index by lia. unfold entry_written, m2, m, sl. mms.
  rewrite (insert_insert_ne _ (f + 4 * j)), insert_insert_eq by (apply not_eq_sym; by apply present_words). by destruct s.
Qed.

Lemma entry_written_ok w :
  inv own K (entry_written w) ∧ temp_table own K (entry_written w) t ∧ one_page_changed own K s (entry_written w) a i j ∧
  frames_left (entry_written w) = frames_left s ∧ phys (entry_written w) !! (pageDir x + 4 * i) = Some (f + 7) ∧
  ∀ o, 0 <= o < 4096 → walk (phys (entry_written w)) (pageDir x) (page_va i j + o) =
    if Z.testbit w 0 then Some (pte_frame w + o, Z.testbit w 1) else None.
Proof using I Q Hx Ha Hi Hj He Hf Htemp.
  destruct present_frame as [Hf32 Hfa]. pose proof Htemp as [Ht Htr]. pose proof (i_dir _ _ _ _ _ _ _ I a x Hx) as Hd.
  pose proof (i_dir_K _ _ _ _ _ _ _ I) as HdK. set (s1 := with_phys (<[f + 4 * j := w]> (phys s)) s).
  assert (inv own K s1) as I1 by (apply (inv_user_table own K s f a i); [exact I|done|done|]; apply agree_insert; by exists j).
  assert (∀ g r k, own !! g = Some r → r ≠ Table a i → 0 <= k < 1024 → phys s1 !! (g + 4 * k) = phys s !! (g + 4 * k)) as Hs1.
  { intros g r k Hg Hr Hk. apply lookup_insert_ne. by apply (role_words _ _ _ _ _ _ _ I f g _ r j k Hf Hg). }
  assert (phys s1 !! (K + 4 * 1021) = Some (t + 3)) as Ht1 by (rewrite (Hs1 K (Directory kernelSpace)); done || lia).
  destruct (changes_temp own K s1 t 0 I1 Ht1 Htr) as (I2 & C2 & HO). change (with_phys _ s1) with (entry_written w) in *.
  assert (changes (entry_words x i f) K own s own (entry_written w)) as C.
  { eapply changes_trans; [|eapply changes_weaken; [|exact C2]; by intros ? _ []].
    apply (changes_store _ own K s f (Table a i)); try done. right. by exists j. }
  assert (∀ k, 0 <= k < 1024 → phys (entry_written w) !! (f + 4 * k) = phys s1 !! (f + 4 * k)) as HsT.
  { intros k Hk. apply (HO f (Table a i)); [done|congruence|done]. }
  assert (phys (entry_written w) !! (pageDir x + 4 * i) = Some (f + 7)) as He2.
  { rewrite <-He, (HO _ (Directory a)) by (done || lia). by apply (Hs1 _ (Directory a)); [| |lia]. }
  split; [exact I2|]. split; [split; [|done]; rewrite (HO K (Directory kernelSpace)); done || lia|]. split; [|split; [done|split; [exact He2|]]].
  - split; [done|]. split; [|split; [apply (c_kernel _ _ _ _ _ _ C)|]].
    + apply (user_walks_kept own K s own (entry_written w) a x i j f); try done.
      * rewrite He. intros [=]. lia.
      * intros _. split; [done|]. intros k Hk Hkj. rewrite HsT by done. apply lookup_insert_ne. lia.
    + intros g k Hg Hn Hk. apply (c_user _ _ _ _ _ _ C); [left; by exists g, k|]. intros [Hw|(z & Hz & Hw)]; revert Hw.
      * by apply (unowned_words own K _ _ _ _ _ I g (pageDir x) (Directory a) k i Hg Hn); [| |lia].
      * by apply (unowned_words own K _ _ _ _ _ I g f (Table a i) k z Hg Hn).
  - intros o Ho. rewrite (walk_table _ _ i j o f 7 w); try (done || lia). rewrite HsT by done. apply lookup_insert_eq.
Qed.
End present.

(** Pushing a frame that is no process's changes no translation. *)
Lemma pushed_kept own K s f s' :
  inv own K s → frames_left s < 1024 * 1024 → own !! f = None → 0 < f < 2 ^ 32 → f mod 4096 = 0 → backed (phys s) f →
  pushed own K s f s' →
  ∃ r, available r ∧ inv (<[f := r]> own) K s' ∧ frames_left s' = frames_left s + 1 ∧ kept (λ _ _, False) K own s (<[f := r]> own) s' ∧
    ∀ t, temp_table own K s t → temp_table (<[f := r]> own) K s' t.
Proof.
  intros I Hl Hn Hf Hfa Hb Hpush. destruct (i_count _ _ _ _ _ _ _ I) as (? & ? & ? & ?).
  destruct (pushed_ok own K s f s' I) as (r & Hr & I' & O & Hl' & _ & U & V); try done.
  { unfold frames_left in Hl. Z.to_euclidean_division_equations. lia. }
  exists r. do 3 (split; [done|]). pose proof (i_dir_K _ _ _ _ _ _ _ I) as HdK.
  assert (∀ g r', own !! g = Some r' → <[f := r]> own !! g = Some r') as Hkeep by (intros g r' Hg; rewrite lookup_insert_ne; congruence).
  assert (∀ g r' k, own !! g = Some r' → r' ≠ Table kernelSpace 1022 → ¬ available r' → 0 <= k < 1024 →
    phys s' !! (g + 4 * k) = phys s !! (g + 4 * k)) as HV.
  { intros g r' k Hg Hr1 Hr2 Hk. apply V. intros g' k' r'' Hg' Hcase Hk'.
    apply (role_words _ _ _ _ _ _ _ I g g' r' r'' k k' Hg Hg'); [|done|done]. intros ->. by destruct Hcase. }
  split; [|intros t [Ht Htr]; split; [|by apply Hkeep]; rewrite (HV K (Directory kernelSpace)); done || lia || by intros []].
  split; [done| | |].
  - intros b q Hk Hq _. pose proof O as (_ & _ & _ & Hsp & _). destruct (page_range q Hq) as [Hi Hj].
    destruct (spaces s !! b) as [y|] eqn:Hy; [|unfold page_at; by rewrite Hsp, Hy].
    rewrite (page_at_space s b y), (page_at_space s' b y) by congruence. pose proof (i_dir _ _ _ _ _ _ _ I b y Hy) as Hd.
    assert (phys s' !! (pageDir y + 4 * (q / 1024)) = phys s !! (pageDir y + 4 * (q / 1024))) as Hent
      by (apply (HV _ (Directory b)); [done|done|by intros []|lia]).
    destruct (walk_user own K s b y _ _ 0 I Hy Hk Hi Hj) as [[Hz ->]|(t & pte & Ht & Htr & Hp & ->)]; [lia| |].
    + apply walk_absent; [lia..|by rewrite Hent].
    + destruct (i_frame _ _ _ _ _ _ _ I t _ Htr) as (_ & Ha & _).
      apply (walk_table _ _ _ _ 0 t 7 pte); try (done || lia); [congruence|].
      rewrite (HV _ (Table b (q / 1024))); [done|done|congruence|by intros []|done].
  - intros i j o Hi Hj Ho _. apply (walk_cong own K s); [done|lia|done|done| |].
    + apply (HV K (Directory kernelSpace)); [done|done|by intros []|lia].
    + intros g Hg. apply (HV g (Table kernelSpace i)); [done|intros [=]; lia|by intros []|done].
  - intros g j Hg Hng Hng' Hj. apply U. left. by exists g, j.
Qed.

Lemma push_kept own K s n f :
  inv own K s → steady fuel s → frames_left s < 1024 * 1024 → own !! f = None → 0 < f < 2 ^ 32 → f mod 4096 = 0 → backed (phys s) f →
  ∃ r s', pushPageFrame fuel (mapAtWithFlags fuel (Datatypes.S n)) f s = Ok (tt, s') ∧ available r ∧
    inv (<[f := r]> own) K s' ∧ frames_left s' = frames_left s + 1 ∧ kept (λ _ _, False) K own s (<[f := r]> own) s' ∧
    ∀ t, temp_table own K s t → temp_table (<[f := r]> own) K s' t.
Proof.
  intros I (Hpm & _ & Hfuel) Hl Hn Hf Hfa Hb. destruct (i_count _ _ _ _ _ _ _ I) as (? & ? & ? & ?).
  destruct (push_runs fuel own K s n f I Hfuel Hpm) as (s' & Hrun & Hp); try done.
  { unfold frames_left in Hl. Z.to_euclidean_division_equations. lia. }
  destruct (pushed_kept own K s f s' I Hl Hn Hf Hfa Hb Hp) as (r & Hr). by exists r, s'.
Qed.

(** A page that is no longer translated, its frame back with the manager. *)
Lemma isolated_remove own K s s' a p g w r :
  isolated own s → a ≠ kernelSpace → 0 <= p < USER_PAGES → page_at s a p = Some (g, w) →
  kept (one_page a p) K own s (<[g := r]> own) s' → page_at s' a p = None → isolated (<[g := r]> own) s'.
Proof.
  intros [F D] Ha Hp Hg Hk Hnone.
  assert (∀ b q h w', b ≠ kernelSpace → 0 <= q < USER_PAGES → page_at s' b q = Some (h, w') →
    page_at s b q = Some (h, w') ∧ h ≠ g) as Hold.
  { intros b q h w' Hb Hq Hh. assert (¬ one_page a p b q) as Hne by (intros [-> ->]; congruence).
    rewrite (k_pages _ _ _ _ _ _ Hk) in Hh by done. split; [done|]. intros ->.
    by destruct (D _ _ _ _ _ _ _ Hb Ha Hq Hp Hh Hg) as [-> ->]; destruct Hne. }
  split.
  - intros b q h w' Hb Hq Hh. destruct (Hold _ _ _ _ Hb Hq Hh) as [Hh' Hne].
    destruct (F _ _ _ _ Hb Hq Hh') as (H1 & H2 & H3 & H4). assert (<[g := r]> own !! h = None) by (by rewrite lookup_insert_ne).
    split; [done|]. split; [done|]. split; [done|]. eapply kept_backed; eauto.
  - intros b q w1 b' q' w2 h Hb Hb' Hq Hq' H1 H2.
    exact (D _ _ _ _ _ _ _ Hb Hb' Hq Hq' (proj1 (Hold _ _ _ _ Hb Hq H1)) (proj1 (Hold _ _ _ _ Hb' Hq' H2))).
Qed.

Lemma release_page own K s a p g w t :
  inv own K s → steady fuel s → (2 <= fuel)%nat → a ≠ kernelSpace → 0 <= p < USER_PAGES → page_at s a p = Some (g, w) →
  isolated own s → temp_table own K s t → frames_left s < 1024 * 1024 →
  ∃ s1 s2 r s', getPhysicalAddress fuel map a (4096 * p) s = Ok (g, s1) ∧ unMap map a (4096 * p) s1 = Ok (tt, s2) ∧
    pushPageFrame fuel map g s2 = Ok (tt, s') ∧ available r ∧ inv (<[g := r]> own) K s' ∧ isolated (<[g := r]> own) s' ∧
    kept (one_page a p) K own s (<[g := r]> own) s' ∧ page_at s' a p = None ∧ temp_table (<[g := r]> own) K s' t ∧
    frames_left s' = frames_left s + 1.
Proof.
  intros I Q Hfuel Ha Hp Hpage Hiso Htemp Hl. destruct (page_range p Hp) as [Hi Hj].
  destruct (iso_frame _ _ Hiso a p g w Ha Hp Hpage) as (Hgn & Hg32 & Hga & Hgb).
  destruct (spaces s !! a) as [x|] eqn:Hx; [|unfold page_at in Hpage; by rewrite Hx in Hpage].
  pose proof Hpage as Hpage'. rewrite (page_at_space s a x p Hx) in Hpage'.
  destruct (walk_user own K s a x _ _ 0 I Hx Ha Hi Hj) as [[_ Hw]|(f & e & He & Hf & Hpte & Hw)]; [lia|congruence|].
  rewrite Hpage' in Hw. destruct (Z.testbit e 0) eqn:Hbit; [|done]. injection Hw as Hge _. rewrite Z.add_0_r in Hge.
  set (i := p / 1024) in *. set (j := p mod 1024) in *. set (s1 := entry_written s j f t e).
  destruct (entry_written_ok own K s a x i j f t I Q Hx Ha Hi Hj He Hf Htemp e) as (I1 & T1 & P1 & L1 & He1 & _). fold s1 in I1, T1, P1, L1, He1.
  pose proof (proj1 P1) as O1. assert (steady fuel s1) as Q1 by (by eapply steady_objects).
  assert (spaces s1 !! a = Some x) as Hx1 by done. set (s2 := entry_written s1 j f t 0).
  destruct (entry_written_ok own K s1 a x i j f t I1 Q1 Hx1 Ha Hi Hj He1 Hf T1 0) as (I2 & T2 & P2 & L2 & _ & W2). fold s2 in I2, T2, P2, L2, W2.
  assert (kept (one_page a p) K own s own s2) as K2.
  { eapply kept_trans; [by apply one_page_kept; [|exact P1]|by apply one_page_kept; [|exact P2]|done|]. by intros b q [|]. }
  destruct (push_kept own K s2 (fuel - 1) g I2) as (r & s' & Hpush & Hr & I' & L' & K' & T'); try (done || lia).
  { by eapply kept_backed. }
  assert (kept (one_page a p) K own s (<[g := r]> own) s') as KK by (eapply kept_trans; [exact K2|exact K'|done|by intros b q [|[]]]).
  assert (page_at s' a p = None) as Hnone.
  { rewrite (k_pages _ _ _ _ _ _ K'), (page_at_space s2 a x p Hx1) by (done || by intros []). by rewrite W2. }
  exists s1, s2, r, s'. split; [|split; [|split]].
  - rewrite <-page_number. fold i j. replace map with (mapAtWithFlags fuel (Datatypes.S (fuel - 1))) by (f_equal; lia).
    rewrite (getPhysicalAddress_user own K s a x i j f t I Q Hx Ha Hi Hj He Hf Htemp (fuel - 1) e Hpte), Hge.
    do 2 f_equal. unfold s1, entry_written. by rewrite (insert_id _ _ _ Hpte).
  - rewrite <-page_number. fold i j. apply (unMap_user _ a i j _ _ (page_va i j)); [lia|lia|].
    replace map with (mapAtWithFlags fuel (Datatypes.S (Datatypes.S (fuel - 2)))) by (f_equal; lia).
    by apply (map_user_present own K s1 a x i j f t I1 Q1 Hx1 Ha Hi Hj He1 Hf T1 (fuel - 2) 0 0).
  - replace map with (mapAtWithFlags fuel (Datatypes.S (fuel - 1))) by (f_equal; lia). exact Hpush.
  - do 2 (split; [done|]). split; [by eapply isolated_remove|]. do 2 (split; [done|]). split; [by apply T'|lia].
Qed.

Lemma unmap_pages_ok a size p n own K s t i m :
  inv own K s → steady fuel s → (2 <= fuel)%nat → a ≠ kernelSpace → isolated own s → temp_table own K s t →
  0 <= i → i mod 4096 = 0 → 0 <= p → 4096 * p + size <= 4096 * USER_PAGES → size = i + 4096 * Z.of_nat n →
  frames_left s + Z.of_nat n <= 1024 * 1024 → (n < m)%nat →
  (∀ k, p + i / 4096 <= k < p + i / 4096 + Z.of_nat n → is_Some (page_at s a k)) →
  ∃ own' s', loop m (λ i : Z,
      if i <? size then
        physicalAddress ← getPhysicalAddress fuel map a (u32 (4096 * p + i));
        unMap map a (u32 (4096 * p + i));;
        pushPageFrame fuel map physicalAddress;;
        mret (Next (u32 (i + PAGESIZE)))
      else mret (Done tt)) i s = Ok (tt, s') ∧
    inv own' K s' ∧ isolated own' s' ∧ (∀ g r, own !! g = Some r → own' !! g = Some r) ∧
    kept (λ b q, b = a ∧ p + i / 4096 <= q < p + i / 4096 + Z.of_nat n) K own s own' s' ∧
    (∀ k, p + i / 4096 <= k < p + i / 4096 + Z.of_nat n → page_at s' a k = None ∧
      ∀ g w, page_at s a k = Some (g, w) → ∃ r, own' !! g = Some r ∧ available r) ∧
    temp_table own' K s' t ∧ frames_left s' = frames_left s + Z.of_nat n.
Proof.
  intros I Q Hfuel Ha Hiso Ht Hi Hia Hp Hend Hsize Hpos Hm Hmapped.
  revert own s i m I Q Hiso Ht Hi Hia Hsize Hpos Hm Hmapped.
  induction n as [|n IH]; intros own s i [|m] I Q Hiso Ht Hi Hia Hsize Hpos Hm Hmapped; try lia.
  - exists own, s. split; [apply loop_done; by zcase (i <? size)|]. do 3 (split; [done|]). split; [by split|].
    split; [intros k Hk; lia|]. split; [done|lia].
  - unfold USER_PAGES in Hend. set (q := p + i / 4096) in *.
    assert (4096 * p + i = 4096 * q) as Hq by (unfold q; Z.to_euclidean_division_equations; lia).
    assert (0 <= q < USER_PAGES) as Hqr by (unfold USER_PAGES; lia).
    destruct (Hmapped q ltac:(lia)) as [[g w] Hg].
    destruct (release_page own K s a q g w t I Q Hfuel Ha Hqr Hg Hiso Ht) as
      (s1 & s2 & r & s3 & Hget & Hun & Hpush & Hr & I3 & Hiso3 & K3 & Hnone & Ht3 & Hl3); [lia|].
    assert (p + (i + 4096) / 4096 = q + 1) as Hq1 by (unfold q; Z.to_euclidean_division_equations; lia).
    assert (own !! g = None) as Hgn by (by destruct (iso_frame _ _ Hiso a q g w Ha Hqr Hg)).
    assert (∀ k, q + 1 <= k < q + Z.of_nat (Datatypes.S n) → page_at s3 a k = page_at s a k) as Hrest.
    { intros k Hk. apply (k_pages _ _ _ _ _ _ K3); [done|unfold USER_PAGES; lia|]. intros [_ ?]. lia. }
    destruct (IH (<[g := r]> own) s3 (i + 4096) m) as (own' & s' & Hrun & I' & Hiso' & HR & K' & Hpages & Ht' & Hl'); try (done || lia).
    { eapply steady_objects; [apply K3|done]. } { Z.to_euclidean_division_equations; lia. }
    { rewrite Hq1. intros k Hk. rewrite Hrest by lia. apply Hmapped. lia. }
    rewrite Hq1 in *. assert (∀ h r', own !! h = Some r' → <[g := r]> own !! h = Some r') as HR1
      by (intros h r' Hh; rewrite lookup_insert_ne; congruence).
    exists own', s'. split; [|split; [done|split; [done|split; [auto|split; [|split; [|split; [done|lia]]]]]]].
    + erewrite loop_next; [exact Hrun|]. zcase (i <? size). rewrite !(u32_small (4096 * p + i)), Hq by lia.
      rewrite (bind_ok _ _ _ _ _ Hget), (bind_ok _ _ _ _ _ Hun), (bind_ok _ _ _ _ _ Hpush). unfold PAGESIZE. by rewrite u32_small by lia.
    + eapply kept_trans; [exact K3|exact K'| |].
      * intros h _ Hh. destruct (<[g := r]> own !! h) as [r'|] eqn:E; [|done]. rewrite (HR h r' E) in Hh. done.
      * intros b z [[-> ->]|[-> Hz]]; (split; [done|lia]).
    + intros k Hk. destruct (decide (k = q)) as [->|Hne].
      * split; [rewrite (k_pages _ _ _ _ _ _ K'); [done|done|done|]; intros [_ ?]; lia|].
        intros g' w' Hg'. rewrite Hg in Hg'. simplify_eq. exists r. split; [apply HR, lookup_insert_eq|done].
      * destruct (Hpages k ltac:(lia)) as [H1 H2]. split; [done|]. by rewrite Hrest in H2 by lia.
Qed.

(** ** Taking a segment out of the list *)
Lemma process_list_remove l1 e l2 :
  process_list (l1 ++ e :: l2) → reserved e = false →
  process_list (l1 ++ l2) ∧ e_addr e mod 4096 = 0 ∧ e_size e mod 4096 = 0 ∧
  ∃ l0 y e2 l3, l1 = l0 ++ [y] ∧ l2 = e2 :: l3.
Proof.
  intros (p0 & mid & pl & Hl & Hmid) Hr.
  destruct l1 as [|y l1]; injection Hl as He Hl; [by subst e|]. subst y.
  destruct l2 as [|e2 l2]; [apply app_inj_tail in Hl as [_ ->]; done|].
  destruct (exists_last (l := e2 :: l2)) as (m2 & z & Hz); [done|].
  rewrite Hz, app_comm_cons, app_assoc in Hl. apply app_inj_tail in Hl as [<- ->].
  apply Forall_app in Hmid as [H1 [(H2 & H3 & _) H4]%Forall_cons]. rewrite Hz. split; [|split; [done|split; [done|]]].
  - exists p0, (l1 ++ m2), pl. split; [by rewrite <-app_assoc|]. by apply Forall_app.
  - destruct (exists_last (l := Entry p0 0 PAGESIZE SEG_NOUNMAP :: l1)) as (l0 & y & Hy); [done|].
    rewrite <-Hz. by exists l0, y, e2, l2.
Qed.

Lemma sorted_apart l1 e l2 x p : sorted_from 0 (l1 ++ e :: l2) → x ∈ l1 ++ l2 → covers x p → covers e p → False.
Proof.
  intros Hs Hx Hcx Hce. unfold covers in *. apply elem_of_app in Hx as [Hx|Hx].
  - pose proof (sorted_before 0 l1 e l2 x Hs Hx). lia.
  - apply list_elem_of_split in Hx as (m1 & m2 & ->). rewrite app_comm_cons, app_assoc in Hs.
    pose proof (sorted_before 0 (l1 ++ e :: m1) x m2 e Hs ltac:(set_solver)). lia.
Qed.

(** The list and the translations agree after a segment was removed and its
    pages unmapped. *)
Lemma faithful_remove s s' a l1 e l2 :
  faithful s a (l1 ++ e :: l2) → process_list (l1 ++ e :: l2) → sorted_from 0 (l1 ++ e :: l2) → reserved e = false →
  (∀ p, covers e p → page_at s' a p = None) →
  (∀ p, 0 <= p < USER_PAGES → ¬ covers e p → page_at s' a p = page_at s a p) → faithful s' a (l1 ++ l2).
Proof.
  intros [F1 F2] Hl Hs Hr Hnone Hother. split.
  - intros x p Hx Hxr Hc. assert (x ∈ l1 ++ e :: l2) as Hx' by set_solver.
    rewrite Hother; [by apply F1| |].
    + pose proof (process_covers _ _ _ Hl Hs Hx' Hxr Hc). lia.
    + intros Hce. by eapply sorted_apart.
  - intros p Hp Hn. destruct (decide (e_addr e <= 4096 * p < e_end e)) as [Hc|Hc]; [by apply Hnone|].
    rewrite Hother by done. apply F2; [done|]. intros x Hx Hcx. apply Hn; [|done].
    apply elem_of_app in Hx as [Hx|[->|Hx]%elem_of_cons]; [set_solver|done|set_solver].
Qed.

(** What is left when the segment [e] between [l1] and [l2] has been taken away:
    no page of it is translated, its frames are free again, its slot too. *)
Definition memory_taken own K s own' s' a l1 e l2 t : Prop :=
  process_ok own' K s' a (l1 ++ l2) ∧
  (∀ p, covers e p → page_at s' a p = None ∧
    ∃ g r, page_at s a p = Some (g, Z.testbit (e_flags e) 1) ∧ own' !! g = Some r ∧ available r) ∧
  frames_left s' = frames_left s + e_size e / 4096 ∧ (∀ g r, own !! g = Some r → own' !! g = Some r) ∧
  (∀ b l', b ≠ a → b ≠ kernelSpace → process_ok own K s b l' →
    (∀ x, x ∈ l' → e_ptr x ∉ e_ptr <$> (l1 ++ e :: l2)) → process_ok own' K s' b l') ∧
  slot_free <$> segs s' !! e_ptr e = Some true ∧ temp_table own' K s' t ∧ memory_kept (λ b p, b = a ∧ covers e p) s s'.

(** AddressSpace::unmapMemory. *)
Lemma unmapMemory_ok own K s a l1 e l2 slots slast t :
  let l := l1 ++ e :: l2 in
  process_ok own K s a l → a ≠ kernelSpace → steady fuel s → spaceMutex a ∉ held s → segMutex ∉ held s →
  reserved e = false → slot_list (segs s) (nextPages s) segmentsPage slots slast → (length slots <= fuel)%nat →
  e_ptr e ∈ slots → NoDup slots → count_free (segs s) slots ≠ 0 → (length l < fuel)%nat → (2 <= fuel)%nat →
  e_size e / 4096 < Z.of_nat fuel → temp_table own K s t → frames_left s + e_size e / 4096 <= 1024 * 1024 →
  ∃ own' s', unmapMemory fuel a (e_addr e) (e_size e) s = Ok (tt, s') ∧ held s' = held s ∧
    memory_taken own K s own' s' a l1 e l2 t ∧ slot_list (segs s') (nextPages s') segmentsPage slots slast ∧
    kept (λ b p, b = a ∧ covers e p) K own (with_segs (segs s') s) own' s'.
Proof.
  intros l Hok Ha Q Hlock Hsl Hr Hslots Hslen Hin Hnds Hcount Hlen Hfuel Hn Ht Hpos.
  pose proof Hok as [I Hiso (x & last & Hx & Hc) Hs Hnd Hl F].
  destruct (process_list_remove l1 e l2 Hl Hr) as (Hl' & Ham & Hsm & l0 & y & e2 & l3 & -> & ->).
  assert (e ∈ l) as He by (unfold l; set_solver). pose proof (sorted_all _ _ e Hs He) as (_ & Hse & _).
  assert (∀ p, covers e p ↔ e_addr e / 4096 <= p < e_addr e / 4096 + e_size e / 4096) as Hcov.
  { intros p. unfold covers, e_end. Z.to_euclidean_division_equations. lia. }
  assert (∀ p, covers e p → 0 < p < USER_PAGES) as Hcr by (intros p Hp; exact (process_covers l e p Hl Hs He Hr Hp)).
  pose proof (Hcr (e_addr e / 4096) ltac:(apply Hcov; Z.to_euclidean_division_equations; lia)) as Hlow.
  pose proof (Hcr ((e_addr e + e_size e) / 4096 - 1) ltac:(apply Hcov; Z.to_euclidean_division_equations; lia)) as Hhigh.
  unfold USER_PAGES in Hlow, Hhigh. set (sa := with_held ({[spaceMutex a]} ∪ held s) s). set (n := Z.to_nat (e_size e / 4096)).
  assert (e_size e = 4096 * Z.of_nat n) as Hsn by (unfold n; Z.to_euclidean_division_equations; lia).
  destruct (unmap_pages_ok a (e_size e) (e_addr e / 4096) n own K sa t 0 fuel) as
    (own' & s1 & Hrun & I' & Hiso' & HR & Hk & Hpages & Ht' & Hl1); try (done || lia).
  { destruct Q as (? & ? & ?). unfold steady, sa in *. mms. split_and!; try done; set_solver. }
  { by destruct Hiso. } { unfold USER_PAGES. Z.to_euclidean_division_equations; lia. }
  { change (frames_left sa) with (frames_left s). Z.to_euclidean_division_equations; lia. }
  { intros p Hp. rewrite Z.add_0_r in Hp. destruct F as [F1 _].
    destruct (F1 e p He Hr) as [g Hg]; [apply Hcov; lia|]. exists (g, Z.testbit (e_flags e) 1). exact Hg. }
  rewrite Z.add_0_r in *. replace (4096 * (e_addr e / 4096)) with (e_addr e) in Hrun by (Z.to_euclidean_division_equations; lia).
  pose proof (k_objects _ _ _ _ _ _ Hk) as (Hcr3 & Hheld & Hfirst & Hsp & Hsg & Hnp). cbn in Hheld, Hsp, Hsg, Hnp, Hcr3, Hfirst.
  assert (l = l0 ++ y :: e :: e2 :: l3) as Hle by (unfold l; by rewrite <-app_assoc).
  assert ((l0 ++ [y]) ++ e2 :: l3 = l0 ++ y :: e2 :: l3) as Hle' by (by rewrite <-app_assoc).
  destruct (removeSegment_whole fuel s1 0 (firstSegment x) l0 y e e2 l3 0 last slots slast) as
    (m & Hrem & Hcm & Hsm' & Hfree & Hslm & Hom); rewrite <-?Hle; try (done || lia || by rewrite ?Hsg, ?Hnp).
  { rewrite Hheld. set_solver. }
  { Z.to_euclidean_division_equations; lia. }
  rewrite <-Hle in Hom. rewrite <-Hle' in Hcm, Hsm'.
  set (s' := with_held (held s) (with_segs m s1)).
  assert (∀ p, covers e p → page_at s1 a p = None ∧
      ∃ g r, page_at s a p = Some (g, Z.testbit (e_flags e) 1) ∧ own' !! g = Some r ∧ available r) as Hrel.
  { intros p Hp. pose proof (proj1 (Hcov p) Hp). destruct (Hpages p) as [H1 H2]; [lia|]. split; [done|].
    destruct (f_mapped _ _ _ F e p He Hr Hp) as [g Hg]. destruct (H2 g _ Hg) as (r & Hrr & Hav). by exists g, r. }
  assert (kept (λ b p, b = a ∧ covers e p) K own (with_segs m s) own' s') as Hkk.
  { destruct Hk as [_ P KK D]. split; [by unfold same_objects; split_and!| |done|done].
    intros b q Hb Hq Hne. apply P; [done..|]. intros [? ?]. apply Hne. split; [done|]. apply Hcov. lia. }
  exists own', s'. split; [|split; [done|split; [|split; [exact Hslm|exact Hkk]]]]; [|split; [|split; [exact Hrel|split; [|split; [done|split; [|split; [done|split; [done|]]]]]]]].
  - apply (scoped_ok fuel _ _ s tt (with_segs m s1) Hlock); [lia| |done]. fold sa. unfold get_space.
    rewrite (bind_ok _ _ _ _ _ Hrun). rewrite (bind_ok _ _ _ x s1) by (by rewrite Hsp, Hx). exact Hrem.
  - split; try done.
    + by destruct Hiso'.
    + exists x, last. cbn. by rewrite Hsp.
    + assert (NoDup (e_ptr <$> e :: (l0 ++ [y]) ++ e2 :: l3)) as [_ Hnd']%NoDup_cons; [|exact Hnd'].
      rewrite Permutation_middle. exact Hnd.
    + assert (faithful s1 a ((l0 ++ [y]) ++ e2 :: l3)) as HF; [|by destruct HF].
      apply (faithful_remove s s1 a _ e); try done; [intros p Hp; by apply Hrel|].
      intros p Hp Hnc. apply (k_pages _ _ _ _ _ _ Hk); [done..|]. intros [_ Hc']. apply Hnc, Hcov. lia.
  - change (frames_left s') with (frames_left s1). rewrite Hl1. change (frames_left sa) with (frames_left s). lia.
  - intros b lb Hb Hbk Hokb Hptr.
    eapply (process_ok_other own K s own' s' b lb m (λ z _, z = a)); try done.
    + by destruct Hiso'.
    + destruct Hk as [_ P KK D]. split; [by unfold same_objects; split_and!| |done|done].
      intros z w Hz Hw Hne. apply P; [done..|]. tauto.
    + intros z Hz. rewrite Hom by auto. by rewrite Hsg.
  - apply (kept_memory _ _ K own _ s own' s' s' Hkk Hiso); [by destruct Hiso'|done..].
Qed.
End spaces.
