(* ===== verification/SpaceDemo.v ===== *)
(** * A concrete process

    The process of PagingDemo.v with the segment list its constructor makes:
    the state at which the theorems on the memory of processes are
    instantiated. *)
From S2P Require Import Prelude Kthread Paging PagingLaws PagingMap PagingDemo Segments SegmentLaws SegmentDemo AddressSpace SpaceLaws.

Notation demo_slot := 0xC0021000.
Definition demo_null : entry := Entry 0x5000 0 PAGESIZE SEG_NOUNMAP.
Definition demo_high : entry := Entry demo_slot 0xC0000000 0x40000000 SEG_NOUNMAP.

(** The segments of a list of entries, and the free slots behind. *)
Fixpoint chain_of (prv : Z) (l : list entry) : list (Z * segment) :=
  match l with
  | [] => []
  | e :: l => (e_ptr e, e_segment e prv (if l is x :: _ then e_ptr x else 0)) :: chain_of (e_ptr e) l
  end.
Definition demo_process_mm (l : list entry) : mm :=
  with_nextPages {[segmentsPage + slots_end := 0]} (with_segs (list_to_map (chain_of 0 l ++
    map (λ p, (p, MemorySegment 0 0 0 0 0)) (drop (length l - 1) demo_slots))) demo_mm).

Lemma demo_process_inv l : inv demo_own 0x100000 (demo_process_mm l).
Proof. exact demo_inv. Qed.

Lemma demo_process_quiet l : quiet 300 (demo_process_mm l).
Proof.
  destruct demo_quiet as [(H1 & H2 & _ & H4) H5]. split; [|done]. split; [done|]. split; [done|]. split; [lia|].
  destruct H4 as (l' & Hl & Hin & Hlen). exists l'. split; [done|]. split; [done|lia].
Qed.

Lemma demo_no_tables : forallb (λ '(_, r), match r with Table a _ => bool_decide (a = kernelSpace) | _ => true end)
  (map_to_list demo_own) = true.
Proof. vm_compute. reflexivity. Qed.

(** No page of the process is translated yet. *)
Lemma demo_untranslated l b p : b ≠ kernelSpace → 0 <= p < USER_PAGES → page_at (demo_process_mm l) b p = None.
Proof.
  intros Hb Hp. destruct (spaces (demo_process_mm l) !! b) as [x|] eqn:Hx; [|unfold page_at; by rewrite Hx].
  rewrite (page_at_space _ b x) by done. destruct (page_range p Hp) as [Hi Hj].
  destruct (walk_user demo_own 0x100000 (demo_process_mm l) b x _ _ 0 (demo_process_inv l) Hx Hb Hi Hj ltac:(lia)) as [[_ Hw]|(f & e & _ & Hf & _)]; [done|].
  apply elem_of_map_to_list, list_elem_of_In in Hf. pose proof (proj1 (forallb_forall _ _) demo_no_tables _ Hf) as Hk. cbn in Hk.
  apply bool_decide_eq_true in Hk. destruct (Hb Hk).
Qed.

Lemma demo_isolated l : isolated demo_own (demo_process_mm l).
Proof.
  split.
  - intros a p g w Ha Hp H. by rewrite demo_untranslated in H.
  - intros a p w b q w' g Ha _ Hp _ H. by rewrite demo_untranslated in H.
Qed.

(** ** Mapping a page *)
Definition demo_fresh : list entry := [demo_null; demo_high].

Lemma demo_fresh_ok : process_ok demo_own 0x100000 (demo_process_mm demo_fresh) demo_process demo_fresh.
Proof.
  split.
  - apply demo_process_inv.
  - apply demo_isolated.
  - exists (Space 0x107000 (page_va 768 512) 0x5000 0 0), demo_slot. split; [vm_compute; reflexivity|].
    repeat (split; [done|]; split; [done|]; eexists; split; [vm_compute; reflexivity|]). done.
  - by vm_compute.
  - apply (bool_decide_eq_true_1 _). vm_compute. reflexivity.
  - exists 0x5000, [], demo_slot. split; [done|constructor].
  - split.
    + intros e p He Hr _. apply elem_of_cons in He as [->|He%list_elem_of_singleton]; [done|by subst].
    + intros p Hp _. by apply demo_untranslated.
Qed.

Lemma demo_slots_for l used q rest :
  slot_list_b (segs (demo_process_mm l)) (nextPages (demo_process_mm l)) segmentsPage demo_slots (segmentsPage + slots_end) = true →
  demo_slots = used ++ q :: rest → forallb (λ p, if segs (demo_process_mm l) !! p is Some g then negb (slot_usable g) else true) used = true →
  slot_free <$> segs (demo_process_mm l) !! q = Some true → count_free (segs (demo_process_mm l)) demo_slots =? 2 = false →
  slot_for 300 (demo_process_mm l) demo_slots q.
Proof.
  intros Hl Hs Hu Hq Hc. exists (segmentsPage + slots_end), used, rest. split; [by apply slot_list_check|].
  split; [done|]. split; [exact demo_slots_nodup|]. split; [vm_compute; lia|]. split; [|split; [done|by apply Z.eqb_neq]].
  intros p g Hp Hg. rewrite forallb_forall in Hu. specialize (Hu p (proj1 (list_elem_of_In _ _) Hp)).
  rewrite Hg in Hu. by apply negb_true_iff.
Qed.

(** ** Unmapping it again

    The page is mapped as [mapMemory] maps it, the segment already in the
    list. *)
Definition demo_page : entry := Entry 0xC0021014 0x1000 0x1000 3.
Definition demo_used : list entry := [demo_null; demo_page; demo_high].

Lemma demo_frames_after :
  match popPageFrame 300 (mapAtWithFlags 300 300) (demo_process_mm demo_used) with
  | Ok (f, s1) =>
      match mapAt (mapAtWithFlags 300 300) demo_process (4096 * 1) f 3 s1 with
      | Ok (_, s') => frames_left s'
      | Fault | NoFuel => 0
      end
  | Fault | NoFuel => 0
  end = 2.
Proof. unfold demo_process_mm, demo_mm. by_memory. Qed.

Lemma demo_used_ok : ∃ own s t, process_ok own 0x100000 s demo_process demo_used ∧ temp_table own 0x100000 s t ∧
  held s = ∅ ∧ segs s = segs (demo_process_mm demo_used) ∧ nextPages s = nextPages (demo_process_mm demo_used) ∧
  quiet 300 s ∧ frames_left s = 2.
Proof.
  set (s0 := demo_process_mm demo_used).
  assert (demo_process ≠ kernelSpace) as Ha by (apply (bool_decide_eq_true_1 _); vm_compute; reflexivity).
  assert (spaces s0 !! demo_process = Some (Space 0x107000 (page_va 768 512) 0x5000 0 0)) as Hx by (vm_compute; reflexivity).
  destruct (alloc_page 300 demo_own 0x100000 s0 demo_process 1 3 (demo_process_inv _) (demo_process_quiet _) ltac:(lia)
    (ex_intro _ _ Hx) Ha ltac:(unfold USER_PAGES; lia) ltac:(lia) ltac:(change (frames_left s0) with 5; lia) (demo_isolated _))
    as (f & r & own & s1 & s & Hpop & Hmap & _ & _ & _ & _ & I & Hiso & _ & K & Hpage & [t Ht] & _).
  pose proof (k_objects _ _ _ _ _ _ K) as (_ & Hheld & _ & Hsp & Hsg & Hnp). exists own, s, t.
  split; [|split; [exact Ht|split; [exact Hheld|split; [exact Hsg|split; [exact Hnp|split]]]]].
  - split; [exact I|exact Hiso| | | | |].
    + exists (Space 0x107000 (page_va 768 512) 0x5000 0 0), demo_slot. rewrite Hsp, Hsg. split; [exact Hx|].
      repeat (split; [done|]; split; [done|]; eexists; split; [vm_compute; reflexivity|]). done.
    + by vm_compute.
    + apply (bool_decide_eq_true_1 _). vm_compute. reflexivity.
    + exists 0x5000, [demo_page], demo_slot. split; [done|]. apply Forall_singleton. by split.
    + assert (∀ p, 0 <= p < USER_PAGES → p ≠ 1 → page_at s demo_process p = None) as Hother.
      { intros p Hp Hne. rewrite (k_pages _ _ _ _ _ _ K) by (done || by intros [_ ?]). by apply demo_untranslated. }
      split.
      * intros e p He Hr Hc. unfold demo_used in He. rewrite !elem_of_cons in He. destruct He as [->|[->|[->|He%elem_of_nil]]]; try done.
        assert (p = 1) as -> by (unfold covers, e_end in Hc; cbn in Hc; lia). by exists f.
      * intros p Hp Hn. apply Hother; [done|]. intros ->. by specialize (Hn demo_page ltac:(right; left) ltac:(unfold covers, e_end; cbn; lia)).
  - eapply quiet_objects; [apply K|apply demo_process_quiet].
  - pose proof demo_frames_after as Hl. fold s0 in Hl. rewrite Hpop, Hmap in Hl. exact Hl.
Qed.
