(* ===== verification/Vfs.v ===== *)
(** * The virtual file system (kernel/src/vnode.cpp, directory.cpp, file.cpp,
    filedescription.cpp)

    Nodes and file descriptions are objects at addresses; the virtual calls of
    [Vnode] dispatch on the kind of the object.  The state is the store of the
    objects beside the rest [E] of the machine, which holds the memory the
    buffers of read and write are in and the terminal.  Kernel allocations of
    objects come from the interface [Kernel_heap]; a cast of a node to a class
    it does not have is a [Fault]. *)
From S2P Require Import Prelude Memory Errno Vga Kthread Terminal.

(** ** stat.h, fcntl.h *)
Definition S_IFMT : Z := 0xF000.
Definition S_IFREG : Z := 0x8000.
Definition S_IFDIR : Z := 0x4000.
Definition S_IFCHR : Z := 0x2000.
Definition S_IWGRP : Z := 0x10.
Definition S_IWOTH : Z := 0x2.
Definition S_ISREG (m : Z) : bool := Z.land m S_IFMT =? S_IFREG.
Definition S_ISDIR (m : Z) : bool := Z.land m S_IFMT =? S_IFDIR.
Definition O_CREAT : Z := Z.shiftl 1 5.
Definition O_TRUNC : Z := Z.shiftl 1 12.
Definition AT_FDCWD : Z := -1.
Definition sizeof_dirent : Z := 16.

(** ** Objects *)
Inductive vnode_class : Type :=
| DirectoryVnode (parent : Z) (children : list (list Z * Z))   (* fileNames, childNodes *)
| FileVnode (data : list Z)                                    (* data, fileSize *)
| TerminalVnode.

Record vnode : Type := Vnode { dev : Z; ino : Z; mode : Z; class : vnode_class }.
Record filedesc : Type := FileDescription { fd_vnode : Z; fd_offset : Z }.

Record vfs : Type := Vfs {
  nodes : gmap Z vnode;
  fds : gmap Z filedesc;
  locked : gset Z;             (* the nodes whose mutex is set *)
  nextIno : Z;
  errno : Z;
}.

Definition with_nodes (m : gmap Z vnode) (v : vfs) : vfs := Vfs m (fds v) (locked v) (nextIno v) (errno v).
Definition with_fds (m : gmap Z filedesc) (v : vfs) : vfs := Vfs (nodes v) m (locked v) (nextIno v) (errno v).
Definition with_locked (l : gset Z) (v : vfs) : vfs := Vfs (nodes v) (fds v) l (nextIno v) (errno v).
Definition with_nextIno (i : Z) (v : vfs) : vfs := Vfs (nodes v) (fds v) (locked v) i (errno v).
Definition with_errno (e : Z) (v : vfs) : vfs := Vfs (nodes v) (fds v) (locked v) (nextIno v) e.

(** What the file system needs of the heap of the kernel: [new] yields an
    unused address, [realloc] keeps the bytes up to the smaller size (what it
    adds is not specified) or fails. *)
Class Kernel_heap : Type := {
  new_object : vfs → Z;
  realloc_data : vfs → list Z → Z → option (list Z);
  new_object_fresh v : new_object v ≠ 0 ∧ nodes v !! new_object v = None ∧ fds v !! new_object v = None;
  realloc_length v d n d' : realloc_data v d n = Some d' → length d' = Z.to_nat n;
  realloc_keeps v d n d' i : realloc_data v d n = Some d' → (i < length d)%nat → (i < Z.to_nat n)%nat →
    d' !! i = d !! i;
}.

(** What it needs of the terminal. *)
Class Device (E : Type) : Type := {
  dev_read : Z → Z → ST E Z;
  dev_write : Z → Z → ST E Z;
  dev_tcgetattr : ST E (Z * termios);
  dev_tcsetattr : Z → termios → ST E Z;
}.

(** The mutex of a node as a component of the state. *)
Lemma with_locked_eq l l' v : l ≡ l' → with_locked l v = with_locked l' v.
Proof. intros H. by apply leibniz_equiv in H as ->. Qed.

#[refine] Definition Lens_node_lock (n : Z) : Lens vfs bool := {|
  get v := bool_decide (n ∈ locked v);
  set b v := with_locked (if b : bool then {[n]} ∪ locked v else locked v ∖ {[n]}) v |}.
Proof.
  - intros [] v; cbn; [apply bool_decide_eq_true|apply bool_decide_eq_false]; set_solver.
  - intros v. trans (with_locked (locked v) v); [|by destruct v]. apply with_locked_eq.
    case_bool_decide; set_solver.
  - intros a b v. apply (with_locked_eq _ _ v). destruct a, b; cbn [locked with_locked].
    all: intros x; destruct (decide (x = n)); set_solver.
Defined.

(** ** Strings *)
Definition SLASH : Z := 47.

(** The first (strchr) and the last (strrchr) slash of a string. *)
Fixpoint split_slash (s : list Z) : option (list Z * list Z) :=
  match s with
  | [] => None
  | c :: s =>
      if c =? SLASH then Some ([], s)
      else match split_slash s with
           | Some (before, after) => Some (c :: before, after)
           | None => None
           end
  end.

Fixpoint split_last_slash (s : list Z) : option (list Z * list Z) :=
  match s with
  | [] => None
  | c :: s =>
      match split_last_slash s with
      | Some (before, after) => Some (c :: before, after)
      | None => if c =? SLASH then Some ([], s) else None
      end
  end.

(** The loop over [fileNames] in getChildNode. *)
Fixpoint find_child (path : list Z) (children : list (list Z * Z)) : option Z :=
  match children with
  | [] => None
  | (name, child) :: children =>
      if bool_decide (path = name) then Some child else find_child path children
  end.

Section operations.
Context {E : Type} `{LE : !Lens E mem} `{D : !Device E}.
Notation ST A := (ST (vfs * E) A).
Context `{Y : !Sched (vfs * E)} `{H : !Kernel_heap} (fuel : nat).

Definition get_vfs : ST vfs := λ s, Ok (s.1, s).
Definition modify_vfs (f : vfs → vfs) : ST unit := λ s, Ok (tt, (f s.1, s.2)).
Definition device {A : Type} (c : Prelude.ST E A) : ST A := zoom (Lens_snd vfs E E (Lens_id E)) c.

Definition fail (e : Z) : ST Z := modify_vfs (with_errno e);; mret (-1).
Definition fail_null (e : Z) : ST Z := modify_vfs (with_errno e);; mret 0.

Definition get_node (this : Z) : ST vnode := λ s,
  match nodes s.1 !! this with Some n => Ok (n, s) | None => Fault end.
Definition put_class (this : Z) (c : vnode_class) : ST unit :=
  n ← get_node this;
  modify_vfs (λ v, with_nodes (<[this := Vnode (dev n) (ino n) (mode n) c]> (nodes v)) v).
Definition get_fd (this : Z) : ST filedesc := λ s,
  match fds s.1 !! this with Some d => Ok (d, s) | None => Fault end.
Definition put_fd (this : Z) (d : filedesc) : ST unit :=
  modify_vfs (λ v, with_fds (<[this := d]> (fds v)) v).

Definition scoped {A : Type} (this : Z) (block : ST A) : ST A :=
  ScopedLock (Lens_left vfs E bool (Lens_node_lock this)) fuel block.

(** ** Constructors *)
Definition new_vnode (c : vnode_class) (mode dev ino : Z) : ST Z :=
  v ← get_vfs;
  let this := new_object v in
  modify_vfs (λ v,
    with_nextIno (if ino =? 0 then u64 (nextIno v + 1) else nextIno v)
      (with_nodes (<[this := Vnode dev (if ino =? 0 then nextIno v else ino) mode c]> (nodes v)) v));;
  mret this.

Definition new_DirectoryVnode (parent mode dev ino : Z) : ST Z :=
  new_vnode (DirectoryVnode parent []) (Z.lor S_IFDIR mode) dev ino.
Definition new_FileVnode (data : list Z) (mode dev ino : Z) : ST Z :=
  new_vnode (FileVnode data) (Z.lor S_IFREG mode) dev ino.
Definition new_FileDescription (d : filedesc) : ST Z :=
  v ← get_vfs;
  let this := new_object v in
  put_fd this d;;
  mret this.

(** ** Directories *)
Definition addChildNode (this : Z) (path : list Z) (vnode : Z) : ST unit :=
  n ← get_node this;
  match class n with
  | DirectoryVnode _ _ =>
      scoped this (
        n ← get_node this;
        match class n with
        | DirectoryVnode parent children => put_class this (DirectoryVnode parent (children ++ [(path, vnode)]))
        | _ => fault
        end)
  | _ => fault
  end.

Definition getChildNode (this : Z) (path : list Z) : ST Z :=
  n ← get_node this;
  match class n with
  | DirectoryVnode _ _ =>
      scoped this (
        n ← get_node this;
        match class n with
        | DirectoryVnode parent children =>
            if bool_decide (path = str ".") then mret this
            else if bool_decide (path = str "..") then mret (if parent =? 0 then this else parent)
            else match find_child path children with
                 | Some child => mret child
                 | None => fail_null ENOENT
                 end
        | _ => fault
        end)
  | _ => fail_null EBADF
  end.

Fixpoint store_list (p : Z) (bs : list Z) : ST unit :=
  match bs with
  | [] => mret tt
  | b :: bs => store p b;; store_list (p + 1) bs
  end.
Definition store64 (p v : Z) : ST unit := store32 p (u32 v);; store32 (p + 4) (v / 2 ^ 32).

(** The end of readdir: the entry [name], [vnode]. *)
Definition readdir_entry (name : list Z) (vnode buffer size : Z) : ST Z :=
  let structSize := u32 (sizeof_dirent + Z.of_nat (length name) + 1) in
  (if structSize <=? size then
     child ← get_node vnode;
     store32 buffer (dev child);;
     store64 (buffer + 4) (ino child);;
     store32 (buffer + 12) size;;
     store_list (buffer + 16) (name ++ [0])
   else mret tt);;
  mret (s32 structSize).

Definition readdir (this offset buffer size : Z) : ST Z :=
  n ← get_node this;
  match class n with
  | DirectoryVnode parent children =>
      scoped this (
        let childCount := Z.of_nat (length children) in
        if offset =? 0 then readdir_entry (str ".") this buffer size
        else if offset =? 1 then readdir_entry (str "..") (if parent =? 0 then this else parent) buffer size
        else if offset - 2 <? childCount then
          match children !! Z.to_nat (offset - 2) with
          | Some (name, vnode) => readdir_entry name vnode buffer size
          | None => fault
          end
        else if offset - 2 =? childCount then mret 0
        else mret (-1))
  | _ => fail EBADF
  end.

(** ** Files *)
Definition get_data (this : Z) : ST (list Z) :=
  n ← get_node this;
  match class n with FileVnode data => mret data | _ => fault end.

Definition ftruncate (this length : Z) : ST Z :=
  n ← get_node this;
  match class n with
  | FileVnode _ =>
      if (length <? 0) || (2 ^ 32 - 1 <? length) then fail EINVAL else
      scoped this (
        data ← get_data this;
        v ← get_vfs;
        match realloc_data v data length with
        | None => fail ENOSPC
        | Some newData =>
            let fileSize := Z.of_nat (List.length data) in
            let zeroed := if fileSize <? length
                          then take (List.length data) newData ++ replicate (Z.to_nat (length - fileSize)) 0
                          else newData in
            put_class this (FileVnode zeroed);;
            mret 0
        end)
  | _ => fail EBADF
  end.

Definition isSeekable (this : Z) : ST bool :=
  n ← get_node this;
  mret (match class n with FileVnode _ => true | _ => false end).

Definition pread (this buffer size offset : Z) : ST Z :=
  n ← get_node this;
  match class n with
  | FileVnode _ =>
      scoped this (
        loop (Datatypes.S (Z.to_nat size)) (λ i : Z,
          if i <? size then
            data ← get_data this;
            if Z.of_nat (length data) <=? offset + i then mret (Done (s32 i)) else
            if offset + i <? 0 then fault else
            store (buffer + i) (default 0 (data !! Z.to_nat (offset + i)));;
            mret (Next (i + 1))
          else mret (Done (s32 size))) 0)
  | _ => fail EBADF
  end.

Fixpoint load_list (n : nat) (p : Z) : ST (list Z) :=
  match n with
  | O => mret []
  | Datatypes.S n => b ← load p; bs ← load_list n (p + 1); mret (b :: bs)
  end.

Definition pwrite (this buffer size offset : Z) : ST Z :=
  n ← get_node this;
  match class n with
  | FileVnode _ =>
      if offset <? 0 then fail EINVAL else
      scoped this (
        let newSize := offset + size in
        if 2 ^ 32 - 1 <? newSize then fail ENOSPC else
        data ← get_data this;
        v ← get_vfs;
        grown ← (if Z.of_nat (length data) <? newSize then
                   match realloc_data v data newSize with
                   | None => mret None
                   | Some newData => put_class this (FileVnode newData);; mret (Some newData)
                   end
                 else mret (Some data));
        match grown with
        | None => fail ENOSPC
        | Some data =>
            bs ← load_list (Z.to_nat size) buffer;
            put_class this (FileVnode (list_inserts (Z.to_nat offset) bs data));;
            mret (s32 size)
        end)
  | _ => fail EBADF
  end.

(** ** Vnode: the calls the terminal overrides, and stat *)
Definition read (this buffer size : Z) : ST Z :=
  n ← get_node this;
  match class n with TerminalVnode => device (dev_read buffer size) | _ => fail EBADF end.
Definition write (this buffer size : Z) : ST Z :=
  n ← get_node this;
  match class n with TerminalVnode => device (dev_write buffer size) | _ => fail EBADF end.
Definition tcgetattr (this : Z) : ST (Z * option termios) :=
  n ← get_node this;
  match class n with
  | TerminalVnode => '(r, t) ← device dev_tcgetattr; mret (r, Some t)
  | _ => r ← fail ENOTTY; mret (r, None)
  end.
Definition tcsetattr (this flags : Z) (termio : termios) : ST Z :=
  n ← get_node this;
  match class n with TerminalVnode => device (dev_tcsetattr flags termio) | _ => fail ENOTTY end.

Definition stat (this result : Z) : ST Z :=
  n ← get_node this;
  store32 result (dev n);;
  store64 (result + 4) (ino n);;
  store32 (result + 12) (u32 (mode n));;
  mret 0.

(** The copy of the path is the list itself.  The branch for a strdup that returns
    the null pointer (ENFILE) is left out: strdup does not test what malloc
    returns, and malloc does not return when it gets no memory. *)
Definition resolvePath (vnode : Z) (path : list Z) : ST Z :=
  if bool_decide (path = []) then fail_null ENOENT else
  loop (Datatypes.S (length path)) (λ '(currentVnode, currentName),
    match split_slash currentName with
    | Some (name, rest) =>
        if bool_decide (name = []) then mret (Next (currentVnode, rest)) else
        child ← getChildNode currentVnode name;
        if child =? 0 then mret (Done 0) else
        n ← get_node child;
        if negb (S_ISDIR (mode n)) then r ← fail_null ENOTDIR; mret (Done r)
        else mret (Next (child, rest))
    | None =>
        if bool_decide (currentName = []) then mret (Done currentVnode) else
        child ← getChildNode currentVnode currentName; mret (Done child)
    end) (vnode, path).

(** ** File descriptions *)
Definition openat (this : Z) (path : list Z) (flags mode : Z) : ST Z :=
  d ← get_fd this;
  let vnode := fd_vnode d in
  node ← resolvePath vnode path;
  node ← (if node =? 0 then
            if negb (Z_bool (Z.land flags O_CREAT)) then mret None else
            '(node, newFileName) ←
              (match split_last_slash path with
               | None => mret (vnode, path)
               | Some ([], after) => mret (vnode, after)
               | Some (before, after) => node ← resolvePath vnode before; mret (node, after)
               end);
            if node =? 0 then mret None else
            n ← get_node vnode;
            file ← new_FileVnode [] (Z.land mode 0x1FF) (dev n) 0;
            addChildNode node newFileName file;;
            mret (Some file)
          else mret (Some node));
  match node with
  | None => mret 0
  | Some node =>
      (if Z_bool (Z.land flags O_TRUNC) then ftruncate node 0;; mret tt else mret tt);;
      new_FileDescription (FileDescription node 0)
  end.

Definition fd_advance (this result : Z) : ST unit :=
  d ← get_fd this;
  put_fd this (FileDescription (fd_vnode d) (s64 (fd_offset d + result))).

Definition fd_read (this buffer size : Z) : ST Z :=
  d ← get_fd this;
  seekable ← isSeekable (fd_vnode d);
  if seekable : bool then
    result ← pread (fd_vnode d) buffer size (fd_offset d);
    (if negb (result =? -1) then fd_advance this result else mret tt);;
    mret result
  else read (fd_vnode d) buffer size.

Definition fd_readdir (this offset buffer size : Z) : ST Z :=
  d ← get_fd this; readdir (fd_vnode d) offset buffer size.

Definition fd_write (this buffer size : Z) : ST Z :=
  d ← get_fd this;
  seekable ← isSeekable (fd_vnode d);
  if seekable : bool then
    result ← pwrite (fd_vnode d) buffer size (fd_offset d);
    (if negb (result =? -1) then fd_advance this result else mret tt);;
    mret result
  else write (fd_vnode d) buffer size.

Definition fd_tcgetattr (this : Z) : ST (Z * option termios) := d ← get_fd this; tcgetattr (fd_vnode d).
Definition fd_tcsetattr (this flags : Z) (termio : termios) : ST Z :=
  d ← get_fd this; tcsetattr (fd_vnode d) flags termio.

(** [delete] of a file description, and its copy constructor. *)
Definition delete_FileDescription (this : Z) : ST unit :=
  modify_vfs (λ v, with_fds (delete this (fds v)) v).
Definition copy_FileDescription (this : Z) : ST Z := d ← get_fd this; new_FileDescription d.
End operations.

(** The terminal as the device of the file system. *)
Section terminal_device.
Context {E : Type} `{L : !Lens E mem} `{V : !Lens E vga_st} `{T : !Lens E term_st}.
Context `{P : !Ports E} `{Y : !Sched E} (fuel : nat).
Definition terminal_device : Device E := {|
  dev_read := Terminal.read fuel;
  dev_write := Terminal.write fuel;
  dev_tcgetattr := Terminal.tcgetattr;
  dev_tcsetattr := Terminal.tcsetattr;
|}.
End terminal_device.
