(* ===== verification/VfsLaws.v ===== *)
(** * The file system: path walks, files, and the invariant of the store

    The reference notion of a path walk, the run of every operation of Vfs on
    a well-formed store, and the properties built from them. *)
From S2P Require Import Prelude Memory CString Errno Kthread Terminal Vfs.

(** ** Reference walk *)

(** The strings between the slashes. *)
Fixpoint split_path (s : list Z) : list (list Z) :=
  match s with
  | [] => [[]]
  | c :: s =>
      if c =? SLASH then [] :: split_path s
      else match split_path s with
           | w :: ws => (c :: w) :: ws
           | [] => [[c]]
           end
  end.

Definition is_directory (v : vfs) (n : Z) : bool :=
  match nodes v !! n with Some (Vnode _ _ _ (DirectoryVnode _ _)) => true | _ => false end.

(** An entry of a directory, or the error number. *)
Definition child (v : vfs) (n : Z) (name : list Z) : Z + Z :=
  match nodes v !! n with
  | Some (Vnode _ _ _ (DirectoryVnode parent children)) =>
      if bool_decide (name = str ".") then inr n
      else if bool_decide (name = str "..") then inr (if parent =? 0 then n else parent)
      else match find_child name children with Some c => inr c | None => inl ENOENT end
  | _ => inl EBADF
  end.

(** Every component but the last one must be a directory; empty ones are skipped. *)
Fixpoint walk (v : vfs) (n : Z) (names : list (list Z)) : Z + Z :=
  match names with
  | [] => inr n
  | name :: rest =>
      if bool_decide (name = []) then walk v n rest
      else match child v n name with
           | inl e => inl e
           | inr c =>
               match rest with
               | [] => inr c
               | _ => if is_directory v c then walk v c rest else inl ENOTDIR
               end
           end
  end.

Definition lookup_path (v : vfs) (n : Z) (path : list Z) : Z + Z :=
  if bool_decide (path = []) then inl ENOENT else walk v n (split_path path).

(** ** The invariant *)
Definition is_dir (c : vnode_class) : bool := match c with DirectoryVnode _ _ => true | _ => false end.
Definition class_bits (c : vnode_class) : Z :=
  match c with DirectoryVnode _ _ => S_IFDIR | FileVnode _ => S_IFREG | TerminalVnode => S_IFCHR end.

Record fs_ok (v : vfs) : Prop := {
  fs_unlocked : locked v = ∅;
  fs_null : nodes v !! 0 = None;
  fs_class : ∀ n x, nodes v !! n = Some x → Z.land (mode x) S_IFMT = class_bits (class x);
  fs_children : ∀ n x parent children name c,
    nodes v !! n = Some x → class x = DirectoryVnode parent children →
    (name, c) ∈ children → is_Some (nodes v !! c);
  fs_parent : ∀ n x parent children,
    nodes v !! n = Some x → class x = DirectoryVnode parent children →
    parent = 0 ∨ is_directory v parent = true;
  fs_next : 0 <= nextIno v;
  fs_ino : ∀ n x, nodes v !! n = Some x → 0 <= ino x < nextIno v;
  fs_ino_inj : ∀ n m x y, nodes v !! n = Some x → nodes v !! m = Some y → ino x = ino y → n = m;
  fs_fds : ∀ a d, fds v !! a = Some d → is_Some (nodes v !! fd_vnode d) ∧ 0 <= fd_offset d < 2 ^ 32;
  fs_size : ∀ n x data, nodes v !! n = Some x → class x = FileVnode data → Z.of_nat (length data) < 2 ^ 32;
}.

Lemma fs_isdir v n x : fs_ok v → nodes v !! n = Some x → S_ISDIR (mode x) = is_dir (class x).
Proof.
  intros F Hx. unfold S_ISDIR. rewrite (fs_class _ F _ _ Hx). by destruct (class x).
Qed.

Lemma is_directory_class v n x : nodes v !! n = Some x → is_directory v n = is_dir (class x).
Proof. intros H. unfold is_directory. rewrite H. by destruct x as [? ? ? []]. Qed.

Lemma find_child_elem name children c : find_child name children = Some c → (name, c) ∈ children.
Proof.
  induction children as [|[name' c'] children IH]; [done|]. cbn.
  case_bool_decide as Hn; [intros [= <-]; subst; left|intros ?; right; auto].
Qed.

Lemma find_child_app name children more c :
  find_child name children = Some c → find_child name (children ++ more) = Some c.
Proof. induction children as [|[name' c'] children IH]; [done|]. cbn. by case_bool_decide. Qed.

Lemma find_child_snoc name children c :
  find_child name children = None → find_child name (children ++ [(name, c)]) = Some c.
Proof.
  induction children as [|[name' c'] children IH]; cbn; [by rewrite bool_decide_eq_true_2|].
  by case_bool_decide.
Qed.

Lemma child_exists v n name c :
  fs_ok v → is_Some (nodes v !! n) → child v n name = inr c → is_Some (nodes v !! c).
Proof.
  intros F [x Hx]. unfold child. rewrite Hx. destruct x as [d i m [parent children|data|]]; [|done..].
  repeat case_bool_decide.
  - by intros [= <-].
  - intros [= <-]. destruct (fs_parent _ F _ _ _ _ Hx eq_refl) as [->|Hp]; [done|].
    zcase (parent =? 0); [done|]. unfold is_directory in Hp. destruct (nodes v !! parent); [done|].
    done.
  - destruct (find_child name children) as [c'|] eqn:Hc; [|done]. intros [= <-].
    eapply (fs_children _ F); [exact Hx|reflexivity|by apply find_child_elem].
Qed.

Lemma walk_exists v names n r :
  fs_ok v → is_Some (nodes v !! n) → walk v n names = inr r → is_Some (nodes v !! r).
Proof.
  intros F. revert n. induction names as [|name rest IH]; intros n Hn; cbn; [by intros [= <-]|].
  case_bool_decide; [by apply IH|]. destruct (child v n name) as [|c] eqn:Hc; [done|].
  pose proof (child_exists _ _ _ _ F Hn Hc) as Hex.
  destruct rest; [by intros [= <-]|]. destruct (is_directory v c); [by apply IH|done].
Qed.

Lemma nonnull v n : fs_ok v → is_Some (nodes v !! n) → (n =? 0) = false.
Proof. intros F [x Hx]. apply Z.eqb_neq. intros ->. by rewrite (fs_null _ F) in Hx. Qed.

Lemma split_path_some s before after :
  split_slash s = Some (before, after) → split_path s = before :: split_path after.
Proof.
  revert before. induction s as [|c s IH]; intros before; [done|]. cbn.
  destruct (c =? SLASH); [by intros [= <- <-]|].
  destruct (split_slash s) as [[b a]|]; [|done]. intros [= <- <-]. by rewrite (IH b).
Qed.

Lemma split_path_none s : split_slash s = None → split_path s = [s].
Proof.
  induction s as [|c s IH]; [done|]. cbn. destruct (c =? SLASH); [done|].
  destruct (split_slash s) as [[b a]|]; [done|]. intros _. by rewrite IH.
Qed.

Lemma split_slash_length s before after :
  split_slash s = Some (before, after) → (length after < length s)%nat.
Proof.
  revert before. induction s as [|c s IH]; intros before; [done|]. cbn.
  destruct (c =? SLASH); [intros [= <- <-]; lia|].
  destruct (split_slash s) as [[b a]|]; [|done]. intros [= <- <-]. specialize (IH b eq_refl). lia.
Qed.

Lemma split_path_nonempty s : split_path s ≠ [].
Proof. destruct s as [|c s]; [done|]. cbn. destruct (c =? SLASH); [done|]. by destruct (split_path s). Qed.

Lemma split_last_path s before after :
  split_last_slash s = Some (before, after) → split_path s = split_path before ++ [after].
Proof.
  revert before after. induction s as [|c s IH]; intros before after; [done|]. cbn.
  destruct (split_last_slash s) as [[b a]|] eqn:Hs.
  - intros [= <- <-]. specialize (IH b a eq_refl). cbn. rewrite IH.
    destruct (c =? SLASH); [done|]. pose proof (split_path_nonempty b). by destruct (split_path b).
  - zcase (c =? SLASH); [|done]. intros [= <- <-]. cbn. f_equal. clear IH.
    induction s as [|c' s IH]; [done|]. cbn in *. destruct (split_last_slash s) as [[]|]; [done|].
    destruct (c' =? SLASH); [done|]. by rewrite IH.
Qed.

Lemma split_last_none s : split_last_slash s = None → split_path s = [s].
Proof.
  induction s as [|c s IH]; [done|]. cbn. destruct (split_last_slash s) as [[]|]; [done|].
  destruct (c =? SLASH); [done|]. intros _. by rewrite IH.
Qed.

(** The last component of a path below a directory. *)
Lemma walk_snoc v n names name p :
  names ≠ [] → walk v n names = inr p → is_directory v p = true →
  walk v n (names ++ [name]) = if bool_decide (name = []) then inr p else child v p name.
Proof.
  assert (∀ q, walk v q [name] = if bool_decide (name = []) then inr q else child v q name) as Hlast.
  { intros q. cbn. case_bool_decide; [done|]. by destruct (child v q name). }
  intros Hn. revert n Hn. induction names as [|w names IH]; intros n Hn Hw Hp; [done|].
  destruct names as [|w' names].
  - change ([w] ++ [name]) with (w :: [name]). cbn [walk] in Hw |- *. case_bool_decide.
    + injection Hw as ->. apply Hlast.
    + destruct (child v n w) as [|c]; [done|]. injection Hw as ->. rewrite Hp. apply Hlast.
  - change ((w :: w' :: names) ++ [name]) with (w :: ((w' :: names) ++ [name])).
    set (tl := w' :: names) in *. cbn [walk] in Hw |- *.
    assert (∀ A (x y : A), match tl ++ [name] with [] => x | _ => y end = y) as Htl by done.
    case_bool_decide; [by apply IH|]. destruct (child v n w) as [|c]; [done|]. rewrite Htl. clear Htl.
    subst tl. cbv iota in Hw. destruct (is_directory v c); [by apply IH|done].
Qed.

(** ** Updates of a well-formed store *)
Lemma fs_ok_errno v er : fs_ok v → fs_ok (with_errno er v).
Proof. intros []. by constructor. Qed.

Lemma fs_ok_put_fd v a n off :
  fs_ok v → is_Some (nodes v !! n) → 0 <= off < 2 ^ 32 → fs_ok (with_fds (<[a := FileDescription n off]> (fds v)) v).
Proof.
  intros [] Hn Ho. constructor; cbn [fds nodes locked nextIno with_fds]; try done.
  intros b d. destruct (decide (a = b)) as [->|].
  - rewrite lookup_insert_eq. by intros [= <-].
  - rewrite lookup_insert_ne by done. eauto.
Qed.

Lemma fs_ok_delete_fd v a : fs_ok v → fs_ok (with_fds (delete a (fds v)) v).
Proof.
  intros []. constructor; cbn [fds nodes locked nextIno with_fds]; try done.
  intros b d [_ Hd]%lookup_delete_Some. eauto.
Qed.

Definition set_class (n : Z) (x : vnode) (c : vnode_class) (v : vfs) : vfs :=
  with_nodes (<[n := Vnode (dev x) (ino x) (mode x) c]> (nodes v)) v.

Lemma class_bits_dir c c' : class_bits c = class_bits c' → is_dir c = is_dir c'.
Proof. by destruct c, c'. Qed.

Lemma is_directory_insert v n x y m :
  nodes v !! n = Some x → class_bits (class y) = class_bits (class x) →
  is_directory (with_nodes (<[n := y]> (nodes v)) v) m = is_directory v m.
Proof.
  intros Hx Hc. apply class_bits_dir in Hc. destruct (decide (n = m)) as [->|].
  - rewrite (is_directory_class v m x), (is_directory_class _ m y); [done|apply lookup_insert_eq|done].
  - unfold is_directory. cbn. by rewrite lookup_insert_ne.
Qed.

Definition class_valid (v : vfs) (c : vnode_class) : Prop :=
  match c with
  | DirectoryVnode parent children =>
      (∀ name c, (name, c) ∈ children → is_Some (nodes v !! c)) ∧ (parent = 0 ∨ is_directory v parent = true)
  | FileVnode data => Z.of_nat (length data) < 2 ^ 32
  | TerminalVnode => True
  end.

Lemma fs_valid v n x : fs_ok v → nodes v !! n = Some x → class_valid v (class x).
Proof.
  intros F Hx. destruct (class x) as [parent children|data|] eqn:Hc; [split| |done].
  - intros name c. by apply (fs_children _ F n x parent).
  - by apply (fs_parent _ F n x _ children).
  - by apply (fs_size _ F n x).
Qed.

Lemma fs_ok_set_class v n x c :
  fs_ok v → nodes v !! n = Some x → class_bits c = class_bits (class x) → class_valid v c →
  fs_ok (set_class n x c v).
Proof.
  intros F Hx Hb Hv. unfold set_class. set (y := Vnode (dev x) (ino x) (mode x) c).
  assert (∀ m, is_directory (with_nodes (<[n := y]> (nodes v)) v) m = is_directory v m) as Hd
    by (intros m; by apply (is_directory_insert v n x)).
  assert (∀ m, is_Some (<[n := y]> (nodes v) !! m) ↔ is_Some (nodes v !! m)) as Hs.
  { intros m. rewrite lookup_insert_is_Some. destruct (decide (n = m)) as [->|]; [|tauto].
    split; [intros _; by eexists|by left]. }
  assert (∀ m z, <[n := y]> (nodes v) !! m = Some z →
    ∃ z', nodes v !! m = Some z' ∧ ino z = ino z' ∧ mode z = mode z' ∧ class_bits (class z) = class_bits (class z') ∧
      class_valid v (class z)) as Hl.
  { intros m z [[<- <-]|[Hne Hz]]%lookup_insert_Some; [by exists x|].
    exists z. pose proof (fs_valid _ _ _ F Hz). by repeat split. }
  destruct F. constructor; cbn [fds nodes locked nextIno with_nodes]; try done.
  - apply eq_None_not_Some. rewrite Hs, fs_null0. by intros [].
  - intros m z Hz. destruct (Hl _ _ Hz) as (z' & Hz' & ? & -> & -> & ?). eauto.
  - intros m z parent children name c' Hz Hc Hin. destruct (Hl _ _ Hz) as (z' & Hz' & ? & ? & ? & Hval).
    rewrite Hc in Hval. apply Hs. by apply (proj1 Hval) in Hin.
  - intros m z parent children Hz Hc. destruct (Hl _ _ Hz) as (z' & Hz' & ? & ? & ? & Hval).
    rewrite Hc in Hval. rewrite Hd. apply Hval.
  - intros m z Hz. destruct (Hl _ _ Hz) as (z' & Hz' & -> & ?). eauto.
  - intros m k z w Hz Hw. destruct (Hl _ _ Hz) as (z' & Hz' & -> & ?), (Hl _ _ Hw) as (w' & Hw' & -> & ?). eauto.
  - intros a d Ha. rewrite Hs. eauto.
  - intros m z data Hz Hc. destruct (Hl _ _ Hz) as (z' & ? & ? & ? & ? & Hval). by rewrite Hc in Hval.
Qed.

(** A new node with the next inode number. *)
Definition add_node (f : Z) (x : vnode) (v : vfs) : vfs :=
  with_nextIno (nextIno v + 1) (with_nodes (<[f := x]> (nodes v)) v).

Lemma fs_ok_add_node v f d m c :
  fs_ok v → f ≠ 0 → nodes v !! f = None → Z.land m S_IFMT = class_bits c → class_valid v c →
  fs_ok (add_node f (Vnode d (nextIno v) m c) v).
Proof.
  intros F Hf Hfresh Hm Hv. unfold add_node. set (x := Vnode d (nextIno v) m c).
  assert (∀ n, is_Some (nodes v !! n) → is_Some (<[f := x]> (nodes v) !! n)) as Hs
    by (intros n ?; apply lookup_insert_is_Some'; by right).
  assert (∀ n, is_directory v n = true → is_directory (add_node f x v) n = true) as Hd.
  { intros n Hn. unfold is_directory in *. cbn. rewrite lookup_insert_ne; [done|]. intros <-. by rewrite Hfresh in Hn. }
  assert (class_valid (add_node f x v) c) as Hv'.
  { destruct c as [parent children| |]; [|done..]. destruct Hv as [Hc Hp]. split; [eauto|].
    destruct Hp; auto. }
  pose proof (fs_valid v) as Hval. specialize (λ n y, Hval n y F).
  destruct F. constructor; cbn [fds nodes locked nextIno with_nodes with_nextIno]; try done.
  - by rewrite lookup_insert_ne.
  - intros n y [[<- <-]|[? Hy]]%lookup_insert_Some; [done|eauto].
  - intros n y parent children name c' [[<- <-]|[? Hy]]%lookup_insert_Some Hc Hin; [|eauto].
    subst x. cbn in Hc. subst c. by apply (proj1 Hv') in Hin.
  - intros n y parent children [[<- <-]|[? Hy]]%lookup_insert_Some Hc.
    + subst x. cbn in Hc. subst c. apply Hv'.
    + specialize (Hval _ _ Hy). rewrite Hc in Hval. destruct Hval as [_ [?|?%Hd]]; auto.
  - lia.
  - intros n y [[<- <-]|[? Hy]]%lookup_insert_Some; [cbn; lia|]. specialize (fs_ino0 _ _ Hy). lia.
  - intros n k y z [[<- <-]|[? Hy]]%lookup_insert_Some [[<- <-]|[? Hz]]%lookup_insert_Some Heq; [done|..|eauto].
    + specialize (fs_ino0 _ _ Hz). cbn in Heq. lia.
    + specialize (fs_ino0 _ _ Hy). cbn in Heq. lia.
  - intros a b Hb. destruct (fs_fds0 _ _ Hb). eauto.
  - intros n y data [[<- <-]|[? Hy]]%lookup_insert_Some Hc; [|eauto]. subst x. cbn in Hc. by subst c.
Qed.

Lemma file_mode m : Z.land (Z.lor S_IFREG (Z.land m 0x1FF)) S_IFMT = S_IFREG.
Proof. rewrite Z.land_lor_distr_l, <-Z.land_assoc, Z.land_0_r. done. Qed.

(** The new node [y] at [f] entered as [name] in the directory [p]. *)
Definition file_node (v : vfs) (d mode : Z) : vnode :=
  Vnode d (nextIno v) (Z.lor S_IFREG (Z.land mode 0x1FF)) (FileVnode []).
Definition enter (v : vfs) (p : Z) (x : vnode) (name : list Z) (f : Z) (y : vnode) : vfs :=
  match class x with
  | DirectoryVnode parent children =>
      set_class p x (DirectoryVnode parent (children ++ [(name, f)])) (add_node f y v)
  | _ => v
  end.

Lemma fs_ok_enter v p x name f y :
  fs_ok v → ino y = nextIno v → Z.land (mode y) S_IFMT = class_bits (class y) → class_valid v (class y) → f ≠ 0 → nodes v !! f = None → nodes v !! p = Some x → is_dir (class x) = true →
  fs_ok (enter v p x name f y).
Proof.
  intros F Hi Hm Hv Hf Hfresh Hx Hdir. unfold enter. destruct (class x) as [parent children| |] eqn:Hc; [|done..].
  assert (f ≠ p) as Hne by congruence.
  assert (fs_ok (add_node f y v)) as F' by (destruct y as [d i m c]; cbn in Hi; subst i; by apply fs_ok_add_node).
  assert (nodes (add_node f y v) !! p = Some x) as Hx' by (cbn; by rewrite lookup_insert_ne).
  apply fs_ok_set_class; [done|done|by rewrite Hc|].
  pose proof (fs_valid _ _ _ F' Hx') as Hval. rewrite Hc in Hval. destruct Hval as [Hch Hp]. split; [|done].
  intros n c [Hin|Hin]%elem_of_app; [eauto|]. apply list_elem_of_singleton in Hin as [= -> ->].
  cbn. rewrite lookup_insert_eq. by eexists.
Qed.

(** Entering a node changes no path that resolved before. *)
Section enter.
Variables (v : vfs) (p : Z) (x : vnode) (name : list Z) (f : Z) (y : vnode).
Hypothesis (Hx : nodes v !! p = Some x) (Hdir : is_dir (class x) = true) (Hfresh : nodes v !! f = None).

Lemma enter_other n : n ≠ p → n ≠ f → nodes (enter v p x name f y) !! n = nodes v !! n.
Proof using Hdir.
  intros Hp Hf. unfold enter. destruct (class x); [|done..]. cbn. by rewrite !lookup_insert_ne.
Qed.

Lemma enter_file : nodes (enter v p x name f y) !! f = Some y.
Proof using Hx Hdir Hfresh.
  assert (f ≠ p) by congruence. unfold enter. destruct (class x); [|done..]. cbn.
  by rewrite lookup_insert_ne, lookup_insert_eq.
Qed.

Lemma enter_directory parent children :
  class x = DirectoryVnode parent children →
  nodes (enter v p x name f y) !! p =
  Some (Vnode (dev x) (ino x) (mode x) (DirectoryVnode parent (children ++ [(name, f)]))).
Proof using Hx. intros Hc. unfold enter. rewrite Hc. cbn. apply lookup_insert_eq. Qed.

Lemma enter_is_directory n : is_directory v n = true → is_directory (enter v p x name f y) n = true.
Proof using Hx Hdir Hfresh.
  intros Hn. destruct (decide (n = p)) as [->|Hp].
  - destruct (class x) as [parent children| |] eqn:Hc; [|done..].
    unfold is_directory. by rewrite (enter_directory _ _ Hc).
  - unfold is_directory in *. rewrite enter_other; [done|done|intros ->; by rewrite Hfresh in Hn].
Qed.

Lemma child_enter n c r : child v n c = inr r → child (enter v p x name f y) n c = inr r.
Proof using Hx Hdir Hfresh.
  intros Hch. destruct (decide (n = p)) as [->|Hp].
  - unfold child in *. rewrite Hx in Hch. destruct (class x) as [parent children| |] eqn:Hc; [|done..].
    rewrite (enter_directory _ _ Hc). destruct x as [? ? ? cl]. cbn in Hc. subst cl.
    repeat case_bool_decide; [done..|]. destruct (find_child c children) eqn:Hf; [|done].
    by rewrite (find_child_app _ _ _ _ Hf).
  - unfold child in *. rewrite enter_other; [done|done|intros ->; by rewrite Hfresh in Hch].
Qed.

Lemma walk_enter names n r : walk v n names = inr r → walk (enter v p x name f y) n names = inr r.
Proof using Hx Hdir Hfresh.
  revert n. induction names as [|c names IH]; intros n; [done|]. cbn [walk]. case_bool_decide; [apply IH|].
  destruct (child v n c) as [|q] eqn:Hc; [done|]. rewrite (child_enter _ _ _ Hc).
  destruct names; [done|]. destruct (is_directory v q) eqn:Hq; [|done].
  rewrite enter_is_directory by done. apply IH.
Qed.

(** The new name is found. *)
Lemma child_enter_new er : child v p name = inl er → child (enter v p x name f y) p name = inr f.
Proof using Hx Hdir.
  unfold child. rewrite Hx. destruct (class x) as [parent children| |] eqn:Hc; [|done..].
  rewrite (enter_directory _ _ Hc). destruct x as [? ? ? cl]. cbn in Hc. subst cl.
  repeat case_bool_decide; [done..|]. destruct (find_child name children) eqn:Hf; [done|].
  by rewrite (find_child_snoc _ _ _ Hf).
Qed.
End enter.

Lemma fs_ok_enter_file v p x name f d m :
  fs_ok v → f ≠ 0 → nodes v !! f = None → nodes v !! p = Some x → is_dir (class x) = true →
  fs_ok (enter v p x name f (file_node v d m)).
Proof. intros. apply fs_ok_enter; try done. apply file_mode. Qed.

(** Where openat with O_CREAT puts a file: the node it takes for the directory
    and the name. *)
Definition create_target (v : vfs) (n : Z) (path : list Z) : Z + (Z * list Z) :=
  match split_last_slash path with
  | None => inr (n, path)
  | Some ([], after) => inr (n, after)
  | Some (before, after) => match lookup_path v n before with inr p => inr (p, after) | inl e => inl e end
  end.

Lemma target_walk v n path p name :
  fs_ok v → create_target v n path = inr (p, name) → is_directory v p = true →
  walk v n (split_path path) = (if bool_decide (name = []) then inr p else child v p name) ∧
  ∀ v', (∀ names r, walk v n names = inr r → walk v' n names = inr r) → is_directory v' p = true →
    walk v' n (split_path path) = (if bool_decide (name = []) then inr p else child v' p name).
Proof.
  intros F Ht Hp. assert (∀ u q, walk u q [name] = if bool_decide (name = []) then inr q else child u q name) as Hlast.
  { intros u q. cbn. case_bool_decide; [done|]. by destruct (child u q name). }
  unfold create_target in Ht. destruct (split_last_slash path) as [[before after]|] eqn:Hs.
  - rewrite (split_last_path _ _ _ Hs). destruct before as [|b before].
    + injection Ht as -> ->. cbn. split; [apply Hlast|]. intros v' _ _. apply Hlast.
    + unfold lookup_path in Ht. rewrite bool_decide_eq_false_2 in Ht by done.
      destruct (walk v n (split_path (b :: before))) as [|q] eqn:Hw; [done|]. injection Ht as -> ->.
      split; [apply walk_snoc; [apply split_path_nonempty|done..]|].
      intros v' Hv' Hp'. apply walk_snoc; [apply split_path_nonempty|by apply Hv'|done].
  - injection Ht as -> <-. rewrite (split_last_none _ Hs). split; [apply Hlast|]. intros v' _ _. apply Hlast.
Qed.

Section laws.
Context {E : Type} `{LE : !Lens E mem} `{D : !Device E}.
Context `{Y : !Sched (vfs * E)} `{H : !Kernel_heap} (fuel : nat) (Hfuel : (0 < fuel)%nat).
Implicit Types (v : vfs) (e : E).

Lemma run_get_vfs {A} (k : vfs → ST (vfs * E) A) s : (get_vfs ≫= k) s = k s.1 s.
Proof. done. Qed.
Lemma run_modify_vfs {A} f (k : unit → ST (vfs * E) A) s : (modify_vfs f ≫= k) s = k tt (f s.1, s.2).
Proof. done. Qed.
Lemma get_node_ok v e n x : nodes v !! n = Some x → get_node n (v, e) = Ok (x, (v, e)).
Proof. intros Hx. unfold get_node. cbn. by rewrite Hx. Qed.
Lemma get_fd_ok v e a d : fds v !! a = Some d → get_fd a (v, e) = Ok (d, (v, e)).
Proof. intros Hx. unfold get_fd. cbn. by rewrite Hx. Qed.

Lemma node_scoped_ok {A} this (block : ST (vfs * E) A) v e a v' e' :
  locked v = ∅ →
  block (with_locked {[this]} v, e) = Ok (a, (with_locked {[this]} v', e')) →
  scoped fuel this block (v, e) = Ok (a, (with_locked ∅ v', e')).
Proof.
  intros Hl Hb. unfold scoped, ScopedLock, kthread_mutex_lock. destruct fuel as [|n]; [lia|].
  assert ({[this]} ∪ locked v = {[this]}) as Hset by (rewrite Hl; set_solver).
  erewrite bind_ok.
  2: { apply loop_done. unfold atomic_test_and_set, mbind, ST_bind. cbn.
       rewrite Hl, bool_decide_eq_false_2 by set_solver. rewrite <-Hl, Hset. reflexivity. }
  rewrite (bind_ok _ _ _ _ _ Hb). unfold kthread_mutex_unlock, mbind, ST_bind. cbn.
  assert ({[this]} ∖ {[this]} = (∅ : gset Z)) as -> by (apply leibniz_equiv; set_solver). done.
Qed.

Lemma unlocked_id v : locked v = ∅ → with_locked ∅ v = v.
Proof. intros Hl. destruct v. cbn in *. by rewrite Hl. Qed.

Definition run_lookup (r : Z + Z) (v : vfs) (e : E) : res (Z * (vfs * E)) :=
  match r with
  | inr c => Ok (c, (v, e))
  | inl er => Ok (0, (with_errno er v, e))
  end.

Lemma getChildNode_ok v e n name :
  fs_ok v → is_Some (nodes v !! n) → getChildNode fuel n name (v, e) = run_lookup (child v n name) v e.
Proof.
  intros F [x Hx]. unfold getChildNode. rewrite (bind_ok _ _ _ _ _ (get_node_ok _ e _ _ Hx)).
  unfold child. rewrite Hx. destruct x as [d i m [parent children|data|]]; cbn [class]; [|done..].
  pose proof (fs_unlocked _ F) as Hl.
  set (r := if bool_decide (name = str ".") then _ else _).
  assert (∃ v', run_lookup r v e = Ok (match r with inr c => c | inl _ => 0 end, (v', e)) ∧
            v' = match r with inr _ => v | inl er => with_errno er v end) as (v' & -> & Hv') by (destruct r; eauto).
  assert (v' = with_locked ∅ v') as -> by (subst v'; destruct r; by rewrite unlocked_id). subst v'.
  apply node_scoped_ok; [done|].
  rewrite (bind_ok _ _ _ _ _ (get_node_ok (with_locked {[n]} v) e _ _ Hx)). cbn [class]. subst r.
  repeat case_bool_decide; try done. by destruct (find_child name children).
Qed.

Lemma resolvePath_ok v e n path :
  fs_ok v → is_Some (nodes v !! n) →
  resolvePath fuel n path (v, e) = run_lookup (lookup_path v n path) v e.
Proof.
  intros F Hn. unfold resolvePath, lookup_path. case_bool_decide as Hp; [done|]. clear Hp.
  assert (length path < Datatypes.S (length path))%nat as Hf by lia. revert Hf.
  generalize (Datatypes.S (length path)) as f. intros f. revert n path Hn.
  induction f as [|f IH]; intros n path Hn Hf; [lia|].
  destruct (split_slash path) as [[name rest]|] eqn:Hs.
  - rewrite (split_path_some _ _ _ Hs). apply split_slash_length in Hs as Hlen. cbn [walk].
    case_bool_decide as He.
    + erewrite loop_next; [|rewrite Hs; by rewrite bool_decide_eq_true_2]. apply IH; [done|lia].
    + pose proof (split_path_nonempty rest) as Hne.
      pose proof (getChildNode_ok v e n name F Hn) as Hc.
      destruct (child v n name) as [er|c] eqn:Hch; cbn [run_lookup] in Hc.
      * apply loop_done. rewrite Hs, bool_decide_eq_false_2 by done.
        rewrite (bind_ok _ _ _ _ _ Hc). done.
      * pose proof (child_exists _ _ _ _ F Hn Hch) as Hex. destruct Hex as [x Hx].
        assert (∀ A (a b : A), match split_path rest with [] => a | _ => b end = b) as -> by
          (intros; by destruct (split_path rest)).
        assert (is_directory v c = S_ISDIR (mode x)) as -> by
          (by rewrite (is_directory_class _ _ _ Hx), (fs_isdir _ _ _ F Hx)).
        destruct (S_ISDIR (mode x)) eqn:Hd.
        -- erewrite loop_next; [apply IH; [by eexists|lia]|].
           rewrite Hs, bool_decide_eq_false_2, (bind_ok _ _ _ _ _ Hc) by done.
           rewrite (nonnull v c F) by by eexists. cbv iota.
           rewrite (bind_ok _ _ _ _ _ (get_node_ok _ e _ _ Hx)), Hd. done.
        -- apply loop_done. rewrite Hs, bool_decide_eq_false_2, (bind_ok _ _ _ _ _ Hc) by done.
           rewrite (nonnull v c F) by by eexists. cbv iota.
           rewrite (bind_ok _ _ _ _ _ (get_node_ok _ e _ _ Hx)), Hd. done.
  - rewrite (split_path_none _ Hs). cbn [walk]. case_bool_decide as He.
    + apply loop_done. rewrite Hs, bool_decide_eq_true_2 by done. done.
    + pose proof (getChildNode_ok v e n path F Hn) as Hc.
      destruct (child v n path) as [er|c]; cbn [run_lookup] in *; apply loop_done;
        rewrite Hs, bool_decide_eq_false_2, (bind_ok _ _ _ _ _ Hc) by done; done.
Qed.
(** ** Files *)
Lemma put_class_ok v e n x c : nodes v !! n = Some x → put_class n c (v, e) = Ok (tt, (set_class n x c v, e)).
Proof. intros Hx. unfold put_class. by rewrite (bind_ok _ _ _ _ _ (get_node_ok _ _ _ _ Hx)). Qed.

Lemma get_data_ok v e n x data :
  nodes v !! n = Some x → class x = FileVnode data → get_data n (v, e) = Ok (data, (v, e)).
Proof. intros Hx Hc. unfold get_data. by rewrite (bind_ok _ _ _ _ _ (get_node_ok _ _ _ _ Hx)), Hc. Qed.

Lemma set_class_twice n x c c' v :
  set_class n (Vnode (dev x) (ino x) (mode x) c) c' (set_class n x c v) = set_class n x c' v.
Proof. unfold set_class, with_nodes. cbn. by rewrite insert_insert_eq. Qed.

(** realloc and the memset behind it. *)
Definition resized (data newData : list Z) (size : Z) : list Z :=
  if Z.of_nat (length data) <? size
  then take (length data) newData ++ replicate (Z.to_nat (size - Z.of_nat (length data))) 0 else newData.

Lemma ftruncate_ok v e n x data size :
  fs_ok v → nodes v !! n = Some x → class x = FileVnode data → 0 <= size < 2 ^ 32 →
  ftruncate fuel n size (v, e) =
  match realloc_data (with_locked {[n]} v) data size with
  | None => Ok (-1, (with_errno ENOSPC v, e))
  | Some newData => Ok (0, (set_class n x (FileVnode (resized data newData size)) v, e))
  end.
Proof.
  intros F Hx Hc Hs. pose proof (fs_unlocked _ F) as Hl. unfold ftruncate.
  rewrite (bind_ok _ _ _ _ _ (get_node_ok _ _ _ _ Hx)), Hc.
  rewrite (proj2 (Z.ltb_ge size 0)), (proj2 (Z.ltb_ge (2 ^ 32 - 1) size)) by lia. cbn [orb].
  set (blk := mbind _ _). set (v1 := with_locked {[n]} v) in *.
  assert (blk (v1, e) = match realloc_data v1 data size with
    | None => Ok (-1, (with_errno ENOSPC v1, e))
    | Some newData => Ok (0, (set_class n x (FileVnode (resized data newData size)) v1, e)) end) as Hb.
  { subst blk. rewrite (bind_ok _ _ _ _ _ (get_data_ok v1 e n x data Hx Hc)), run_get_vfs. cbn [fst].
    destruct (realloc_data v1 data size) as [d|]; [|done].
    by rewrite (bind_ok _ _ _ _ _ (put_class_ok v1 e n x _ Hx)). }
  destruct (realloc_data v1 data size) as [d|].
  - rewrite <-(unlocked_id v Hl) at 2. by apply (node_scoped_ok n blk v e 0 (set_class n x _ v)).
  - rewrite <-(unlocked_id v Hl) at 2. by apply (node_scoped_ok n blk v e (-1) (with_errno ENOSPC v)).
Qed.

Lemma store_byte_ok v e p b :
  is_Some (memory e !! p) → byte_ok b → store p b (v, e) = Ok (tt, (v, with_memory e (<[p := b]> (memory e)))).
Proof. intros Hp Hb. exact (store_byte (L := Lens_snd vfs E mem LE) (v, e) p b Hp Hb). Qed.

Lemma pread_ok v e n x data buffer size offset :
  fs_ok v → nodes v !! n = Some x → class x = FileVnode data → Forall byte_ok data →
  0 <= offset → 0 <= size < 2 ^ 31 → mapped (memory e) buffer size →
  let bs := take (Z.to_nat size) (drop (Z.to_nat offset) data) in
  pread fuel n buffer size offset (v, e) =
  Ok (Z.of_nat (length bs), (v, with_memory e (write_bytes (memory e) buffer bs))).
Proof.
  intros F Hx Hc Hd Ho Hs Hm bs. pose proof (fs_unlocked _ F) as Hl. unfold pread.
  rewrite (bind_ok _ _ _ _ _ (get_node_ok _ _ _ _ Hx)), Hc. rewrite <-(unlocked_id v Hl) at 2.
  apply node_scoped_ok; [done|]. set (v1 := with_locked {[n]} v).
  assert (length bs = Nat.min (Z.to_nat size) (length data - Z.to_nat offset)) as Hlen
    by (unfold bs; rewrite length_take, length_drop; lia).
  assert (Forall byte_ok bs) as Hbs by (by apply Forall_take, Forall_drop).
  rewrite <-(with_memory_id e) at 1.
  apply (loop_trace (λ j, Z.of_nat j) (λ j, (v1, with_memory e (write_bytes (memory e) buffer (take j bs)))) _ (length bs)).
  - intros j Hj. destruct (lookup_lt_is_Some_2 bs j Hj) as [c Hj'].
    assert (data !! Z.to_nat (offset + Z.of_nat j) = Some c) as Hdj.
    { unfold bs in Hj'. rewrite lookup_take_Some, lookup_drop in Hj'. destruct Hj' as [Hj' _]. rewrite <-Hj'. f_equal. lia. }
    rewrite (proj2 (Z.ltb_lt _ _)) by lia.
    rewrite (bind_ok _ _ _ _ _ (get_data_ok v1 _ n x data Hx Hc)).
    apply lookup_lt_Some in Hdj as Hlt. zcase (Z.of_nat (length data) <=? offset + Z.of_nat j).
    zcase (offset + Z.of_nat j <? 0). rewrite Hdj. cbn [default from_option].
    erewrite bind_ok; [|apply store_byte_ok; [|by eapply Forall_lookup_1]].
    2: { rewrite memory_with. apply mapped_write with (n := size) (q := buffer); [done|lia]. }
    rewrite memory_with, with_memory_with, (write_bytes_snoc _ _ _ _ _ Hj').
    by replace (Z.of_nat j + 1) with (Z.of_nat (Datatypes.S j)) by lia.
  - rewrite take_ge by lia. zcase (Z.of_nat (length bs) <? size).
    + rewrite (bind_ok _ _ _ _ _ (get_data_ok v1 _ n x data Hx Hc)).
      zcase (Z.of_nat (length data) <=? offset + Z.of_nat (length bs)). by rewrite s32_small by lia.
    + rewrite s32_small by lia. by replace size with (Z.of_nat (length bs)) by lia.
  - lia.
Qed.

Lemma load_list_ok v e p bs : bytes_at (memory e) p bs → load_list (length bs) p (v, e) = Ok (bs, (v, e)).
Proof.
  revert p. induction bs as [|b bs IH]; intros p; [done|]. intros [Hb Hbs]%bytes_at_cons. cbn [length load_list].
  rewrite (bind_ok _ _ _ _ _ (load_ok (L := Lens_snd vfs E mem LE) (v, e) p b Hb)). by rewrite (bind_ok _ _ _ _ _ (IH _ Hbs)).
Qed.

(** The data after the growth of pwrite. *)
Definition grown (v : vfs) (n : Z) (data : list Z) (size : Z) : option (list Z) :=
  if Z.of_nat (length data) <? size then realloc_data (with_locked {[n]} v) data size else Some data.

Lemma pwrite_ok v e n x data buffer bs offset :
  fs_ok v → nodes v !! n = Some x → class x = FileVnode data → bytes_at (memory e) buffer bs →
  0 <= offset → offset + Z.of_nat (length bs) < 2 ^ 32 → Z.of_nat (length bs) < 2 ^ 31 →
  pwrite fuel n buffer (Z.of_nat (length bs)) offset (v, e) =
  match grown v n data (offset + Z.of_nat (length bs)) with
  | None => Ok (-1, (with_errno ENOSPC v, e))
  | Some data' =>
      Ok (Z.of_nat (length bs), (set_class n x (FileVnode (list_inserts (Z.to_nat offset) bs data')) v, e))
  end.
Proof.
  intros F Hx Hc Hbs Ho Hn Hs. pose proof (fs_unlocked _ F) as Hl. unfold pwrite.
  rewrite (bind_ok _ _ _ _ _ (get_node_ok _ _ _ _ Hx)), Hc. zcase (offset <? 0).
  set (new := offset + Z.of_nat (length bs)) in *. zcase (2 ^ 32 - 1 <? new).
  set (blk := mbind _ _). set (v1 := with_locked {[n]} v).
  assert (blk (v1, e) = match grown v n data new with
    | None => Ok (-1, (with_errno ENOSPC v1, e))
    | Some d' => Ok (Z.of_nat (length bs), (set_class n x (FileVnode (list_inserts (Z.to_nat offset) bs d')) v1, e)) end) as Hb.
  { subst blk. unfold grown. fold v1.
    rewrite (bind_ok _ _ _ _ _ (get_data_ok v1 e n x data Hx Hc)), run_get_vfs. cbn [fst].
    destruct (Z.of_nat (length data) <? new).
    - destruct (realloc_data v1 data new) as [d'|]; [|done].
      erewrite bind_ok by (by rewrite (bind_ok _ _ _ _ _ (put_class_ok v1 e n x _ Hx))). cbv beta iota.
      rewrite Nat2Z.id, (bind_ok _ _ _ _ _ (load_list_ok _ e _ _ Hbs)).
      erewrite bind_ok by (apply put_class_ok, lookup_insert_eq). rewrite set_class_twice, s32_small by lia. done.
    - rewrite bind_ret, Nat2Z.id, (bind_ok _ _ _ _ _ (load_list_ok _ e _ _ Hbs)).
      rewrite (bind_ok _ _ _ _ _ (put_class_ok v1 e n x _ Hx)), s32_small by lia. done. }
  destruct (grown v n data new) as [d'|]; rewrite <-(unlocked_id v Hl) at 2.
  - by apply (node_scoped_ok n blk v e _ (set_class n x _ v)).
  - by apply (node_scoped_ok n blk v e (-1) (with_errno ENOSPC v)).
Qed.
End laws.
