(* ===== verification/FileSystem.v ===== *)
(** * Properties of the file system

    Paths, creation, reading back what was written, and the invariant of the
    store under every operation. *)
From S2P Require Import Prelude Memory CString Errno Kthread Terminal Vfs VfsLaws.

Lemma child_ext v v' n name : nodes v = nodes v' → child v n name = child v' n name.
Proof. intros Hn. unfold child. by rewrite Hn. Qed.

Lemma walk_ext v v' names n : nodes v = nodes v' → walk v n names = walk v' n names.
Proof.
  intros Hn. revert n. induction names as [|name rest IH]; intros n; [done|]. cbn [walk].
  rewrite (child_ext v v') by done. unfold is_directory. rewrite Hn. case_bool_decide; [apply IH|].
  destruct (child v' n name); [done|]. destruct rest; [done|].
  by destruct (nodes v' !! z) as [[? ? ? []]|]; try apply IH.
Qed.

Lemma lookup_path_ext v v' n path : nodes v = nodes v' → lookup_path v n path = lookup_path v' n path.
Proof. intros Hn. unfold lookup_path. by rewrite (walk_ext v v'). Qed.

Lemma enter_errno er v p x name f y : enter (with_errno er v) p x name f y = with_errno er (enter v p x name f y).
Proof. unfold enter. by destruct (class x). Qed.

Section theorems.
Context {E : Type} `{LE : !Lens E mem} `{D : !Device E}.
Context `{Y : !Sched (vfs * E)} `{H : !Kernel_heap} (fuel : nat) (Hfuel : (0 < fuel)%nat).
Implicit Types (v : vfs) (e : E).

Lemma new_fd_ok v e d :
  new_FileDescription d (v, e) = Ok (new_object v, (with_fds (<[new_object v := d]> (fds v)) v, e)).
Proof. done. Qed.

Lemma new_file_ok v e m d :
  nextIno v + 1 < 2 ^ 64 → 0 <= nextIno v →
  new_FileVnode [] (Z.land m 0x1FF) d 0 (v, e) = Ok (new_object v, (add_node (new_object v) (file_node v d m) v, e)).
Proof.
  intros Hn H0. unfold new_FileVnode, new_vnode. rewrite run_get_vfs, run_modify_vfs. cbn [fst snd].
  unfold add_node, file_node. cbn [Z.eqb]. by rewrite u64_small by lia.
Qed.

Lemma addChildNode_ok v e p x parent children name f :
  fs_ok v → nodes v !! p = Some x → class x = DirectoryVnode parent children →
  addChildNode fuel p name f (v, e) = Ok (tt, (set_class p x (DirectoryVnode parent (children ++ [(name, f)])) v, e)).
Proof.
  intros F Hx Hc. pose proof (fs_unlocked _ F) as Hl. unfold addChildNode.
  rewrite (bind_ok _ _ _ _ _ (get_node_ok _ _ _ _ Hx)), Hc. rewrite <-(unlocked_id v Hl) at 2.
  apply (node_scoped_ok fuel Hfuel p _ v e tt (set_class p x _ v)); [done|].
  rewrite (bind_ok _ _ _ _ _ (get_node_ok (with_locked {[p]} v) e p x Hx)), Hc.
  exact (put_class_ok (with_locked {[p]} v) e p x _ Hx).
Qed.

(** Truncating a file to nothing; the new contents and errno. *)
Lemma truncate_ok v e n x data :
  fs_ok v → nodes v !! n = Some x → class x = FileVnode data →
  ∃ r v', ftruncate fuel n 0 (v, e) = Ok (r, (v', e)) ∧
    (r = 0 ∧ v' = set_class n x (FileVnode []) v ∨ r = -1 ∧ v' = with_errno ENOSPC v).
Proof.
  intros F Hx Hc. rewrite (ftruncate_ok fuel Hfuel v e n x data 0 F Hx Hc) by lia.
  destruct (realloc_data _ data 0) as [d|] eqn:Hr; [|eauto 6].
  apply realloc_length in Hr. destruct d; [|done].
  assert (resized data [] 0 = []) as -> by (unfold resized; by zcase (Z.of_nat (length data) <? 0)). eauto 6.
Qed.

(** The parent directory openat finds, as the code computes it. *)
Definition target_code (n : Z) (path : list Z) : ST (vfs * E) (Z * list Z) :=
  match split_last_slash path with
  | None => mret (n, path)
  | Some ([], after) => mret (n, after)
  | Some (before, after) => node ← resolvePath fuel n before; mret (node, after)
  end.

Lemma target_code_ok v e n path :
  fs_ok v → is_Some (nodes v !! n) →
  match create_target v n path with
  | inr t => target_code n path (v, e) = Ok (t, (v, e))
  | inl er => ∃ name, target_code n path (v, e) = Ok ((0, name), (with_errno er v, e))
  end.
Proof.
  intros F Hn. unfold create_target, target_code. destruct (split_last_slash path) as [[[|b before] after]|]; try done.
  pose proof (resolvePath_ok fuel Hfuel v e n (b :: before) F Hn) as Hr.
  destruct (lookup_path v n (b :: before)) as [er|p]; cbn [run_lookup] in Hr; rewrite (bind_ok _ _ _ _ _ Hr); eauto.
Qed.

Lemma openat_creates_ok v e a d path flags m er p name x y :
  fs_ok v → fds v !! a = Some d → nodes v !! fd_vnode d = Some y → nextIno v + 1 < 2 ^ 64 →
  Z_bool (Z.land flags O_CREAT) = true →
  lookup_path v (fd_vnode d) path = inl er → create_target v (fd_vnode d) path = inr (p, name) →
  nodes v !! p = Some x → is_dir (class x) = true →
  ∃ fd f v', openat fuel a path flags m (v, e) = Ok (fd, (v', e)) ∧
    fs_ok v' ∧ nodes v' = nodes (enter v p x name f (file_node v (dev y) m)) ∧ fds v' = <[fd := FileDescription f 0]> (fds v) ∧
    fd ≠ 0 ∧ fds v !! fd = None ∧ nodes v !! f = None ∧ f ≠ 0.
Proof.
  intros F Ha Hy Hino Hcr Hlk Ht Hx Hdir. set (u := with_errno er v).
  destruct (new_object_fresh u) as (Hf0 & Hfn & Hff). set (f := new_object u) in *.
  assert (fs_ok u) as Fu by by apply fs_ok_errno.
  pose proof (fs_ok_enter_file u p x name f (dev y) m Fu Hf0 Hfn Hx Hdir) as Fe. set (w := enter u p x name f (file_node v (dev y) m)) in *.
  assert (nodes w !! f = Some (file_node u (dev y) m)) as Hwf by by apply enter_file.
  assert (∃ w', (if Z_bool (Z.land flags O_TRUNC) then ftruncate fuel f 0;; mret tt else mret tt) (w, e) =
     Ok (tt, (w', e)) ∧ nodes w' = nodes w ∧ fds w' = fds w ∧ fs_ok w') as (w' & Htr & Hnw & Hfw & Fw).
  { destruct (Z_bool (Z.land flags O_TRUNC)); [|by exists w].
    destruct (truncate_ok w e f _ [] Fe Hwf eq_refl) as (r & w' & Hr & Hw').
    exists w'. rewrite (bind_ok _ _ _ _ _ Hr). split; [done|].
    destruct Hw' as [[_ ->]|[_ ->]]; [|split_and!; [done|done|by apply fs_ok_errno]].
    split_and!; [|done|by apply fs_ok_set_class]. unfold set_class. cbn. by apply insert_id. }
  destruct (new_object_fresh w') as (Hg0 & _ & Hgf). set (fd := new_object w') in *.
  assert (fds w' = fds v) as Hfv by (rewrite Hfw; unfold w, enter; by destruct (class x)).
  exists fd, f, (with_fds (<[fd := FileDescription f 0]> (fds w')) w').
  split; [|split_and!; [|by cbn; rewrite Hnw; unfold w, u; rewrite enter_errno|cbn; by rewrite Hfv|done|by rewrite <-Hfv|done|done]].
  2: { apply fs_ok_put_fd; [done|rewrite Hnw, Hwf; by eexists|done]. }
  unfold openat. rewrite (bind_ok _ _ _ _ _ (get_fd_ok _ _ _ _ Ha)).
  pose proof (resolvePath_ok fuel Hfuel v e (fd_vnode d) path F (mk_is_Some _ _ Hy)) as Hr.
  rewrite Hlk in Hr. cbn [run_lookup] in Hr. fold u in Hr. rewrite (bind_ok _ _ _ _ _ Hr). change (0 =? 0) with true. cbv iota.
  rewrite Hcr. cbn [negb].
  assert (create_target u (fd_vnode d) path = inr (p, name)) as Htu.
  { rewrite <-Ht. unfold create_target. destruct (split_last_slash path) as [[[|b before] after]|]; try done.
    by rewrite (lookup_path_ext u v). }
  pose proof (target_code_ok u e (fd_vnode d) path Fu (mk_is_Some _ _ Hy)) as Htc. rewrite Htu in Htc.
  unfold target_code in Htc.
  erewrite bind_ok; [|rewrite (bind_ok _ _ _ _ _ Htc); cbv beta iota].
  2: { rewrite (nonnull u p Fu) by by eexists. cbv iota.
       rewrite (bind_ok _ _ _ _ _ (get_node_ok u e _ _ Hy)).
       rewrite (bind_ok _ _ _ _ _ (new_file_ok u e m (dev y) Hino (fs_next _ F))). fold f.
       destruct (class x) as [parent children| |] eqn:Hc; [|done..].
       erewrite bind_ok; [reflexivity|]. assert (f ≠ p) by (intros Heq; rewrite Heq in Hfn; cbn in Hfn; by rewrite Hx in Hfn).
       erewrite addChildNode_ok; [| |by rewrite <-Hx; cbn; by apply lookup_insert_ne|exact Hc].
       - f_equal. f_equal. f_equal. instantiate (1 := w). unfold w, enter. by rewrite Hc.
       - apply fs_ok_add_node; try done. apply file_mode. }
  cbv beta iota. rewrite (bind_ok _ _ _ _ _ Htr), new_fd_ok. done.
Qed.
(** ** Reading and writing through file descriptions *)
Lemma seekable_ok v e n x data :
  nodes v !! n = Some x → class x = FileVnode data → isSeekable n (v, e) = Ok (true, (v, e)).
Proof. intros Hx Hc. unfold isSeekable. by rewrite (bind_ok _ _ _ _ _ (get_node_ok _ _ _ _ Hx)), Hc. Qed.

Lemma fd_advance_ok v e a d k :
  fds v !! a = Some d → 0 <= fd_offset d + k < 2 ^ 63 →
  fd_advance a k (v, e) =
  Ok (tt, (with_fds (<[a := FileDescription (fd_vnode d) (fd_offset d + k)]> (fds v)) v, e)).
Proof. intros Ha Hk. unfold fd_advance. by rewrite (bind_ok _ _ _ _ _ (get_fd_ok _ _ _ _ Ha)), s64_small by lia. Qed.

Lemma fd_write_ok v e a d x data buffer bs data' :
  fs_ok v → fds v !! a = Some d → nodes v !! fd_vnode d = Some x → class x = FileVnode data →
  bytes_at (memory e) buffer bs → fd_offset d + Z.of_nat (length bs) < 2 ^ 32 → Z.of_nat (length bs) < 2 ^ 31 →
  grown v (fd_vnode d) data (fd_offset d + Z.of_nat (length bs)) = Some data' →
  fd_write fuel a buffer (Z.of_nat (length bs)) (v, e) =
  Ok (Z.of_nat (length bs),
      (with_fds (<[a := FileDescription (fd_vnode d) (fd_offset d + Z.of_nat (length bs))]> (fds v))
         (set_class (fd_vnode d) x (FileVnode (list_inserts (Z.to_nat (fd_offset d)) bs data')) v), e)).
Proof.
  intros F Ha Hx Hc Hbs Hn Hs Hg. destruct (fs_fds _ F _ _ Ha) as [_ Ho]. unfold fd_write.
  rewrite (bind_ok _ _ _ _ _ (get_fd_ok _ _ _ _ Ha)), (bind_ok _ _ _ _ _ (seekable_ok _ e _ _ _ Hx Hc)).
  erewrite bind_ok; [|rewrite (pwrite_ok fuel Hfuel v e _ x data buffer bs) by (done || lia); by rewrite Hg].
  zcase (Z.of_nat (length bs) =? -1). cbn [negb].
  erewrite bind_ok; [|apply fd_advance_ok; [exact Ha|lia]]. done.
Qed.

Lemma fd_read_ok v e a d x data buffer size :
  fs_ok v → fds v !! a = Some d → nodes v !! fd_vnode d = Some x → class x = FileVnode data →
  Forall byte_ok data → 0 <= size < 2 ^ 31 → mapped (memory e) buffer size →
  let bs := take (Z.to_nat size) (drop (Z.to_nat (fd_offset d)) data) in
  fd_read fuel a buffer size (v, e) =
  Ok (Z.of_nat (length bs),
      (with_fds (<[a := FileDescription (fd_vnode d) (fd_offset d + Z.of_nat (length bs))]> (fds v)) v,
       with_memory e (write_bytes (memory e) buffer bs))).
Proof.
  intros F Ha Hx Hc Hd Hs Hm bs. destruct (fs_fds _ F _ _ Ha) as [_ Ho]. unfold fd_read.
  assert (length bs <= Z.to_nat size)%nat as Hl by (unfold bs; rewrite length_take; lia).
  rewrite (bind_ok _ _ _ _ _ (get_fd_ok _ _ _ _ Ha)), (bind_ok _ _ _ _ _ (seekable_ok _ e _ _ _ Hx Hc)).
  erewrite bind_ok; [|apply (pread_ok fuel Hfuel v e _ x data buffer size (fd_offset d)); (done || lia)]. fold bs.
  zcase (Z.of_nat (length bs) =? -1). cbn [negb].
  erewrite bind_ok; [|apply fd_advance_ok; [exact Ha|lia]]. done.
Qed.

Lemma grown_spec v n data size data' :
  grown v n data size = Some data' →
  Z.of_nat (length data') = Z.max size (Z.of_nat (length data)) ∧ data `prefix_of` data'.
Proof.
  unfold grown. zcase (Z.of_nat (length data) <? size).
  - intros Hr. pose proof (realloc_length _ _ _ _ Hr) as Hl. split; [lia|].
    exists (drop (length data) data'). apply list_eq. intros i. rewrite lookup_app.
    destruct (data !! i) as [b|] eqn:Hb.
    + rewrite <-Hb. apply lookup_lt_Some in Hb. eapply realloc_keeps; [done|done|lia].
    + apply lookup_ge_None in Hb. rewrite lookup_drop. f_equal. lia.
  - intros [= <-]. split; [lia|done].
Qed.

Lemma slice_inserts o (bs data : list Z) :
  (o + length bs <= length data)%nat → take (length bs) (drop o (list_inserts o bs data)) = bs.
Proof.
  intros Hl. apply list_eq. intros i. destruct (decide (i < length bs)%nat).
  - rewrite lookup_take_lt, lookup_drop by done. rewrite list_lookup_inserts by lia. f_equal. lia.
  - rewrite !lookup_ge_None_2; [done|lia|]. rewrite length_take. lia.
Qed.

(** C24. What is written through one file description is read back through
    another one of the same file at the same offset: write grows the file if
    it must, returns the number of bytes, keeps every byte of the file outside
    the range, and moves only its own offset; read then returns the bytes into
    its buffer and touches no other memory. *)
Theorem write_then_read v e w r dw dr x data p q bs data' :
  fs_ok v → w ≠ r → fds v !! w = Some dw → fds v !! r = Some dr →
  fd_vnode dw = fd_vnode dr → fd_offset dw = fd_offset dr →
  nodes v !! fd_vnode dw = Some x → class x = FileVnode data → Forall byte_ok data →
  bytes_at (memory e) p bs → Forall byte_ok bs →
  fd_offset dw + Z.of_nat (length bs) < 2 ^ 32 → Z.of_nat (length bs) < 2 ^ 31 →
  mapped (memory e) q (Z.of_nat (length bs)) →
  grown v (fd_vnode dw) data (fd_offset dw + Z.of_nat (length bs)) = Some data' → Forall byte_ok data' →
  let n := Z.of_nat (length bs) in
  ∃ v1 v2 content,
    fd_write fuel w p n (v, e) = Ok (n, (v1, e)) ∧
    fd_read fuel r q n (v1, e) = Ok (n, (v2, with_memory e (write_bytes (memory e) q bs))) ∧
    fs_ok v2 ∧ nodes v2 = nodes (set_class (fd_vnode dw) x (FileVnode content) v) ∧
    Z.of_nat (length content) = Z.max (fd_offset dw + n) (Z.of_nat (length data)) ∧
    (∀ i, (i < length data)%nat → ¬ fd_offset dw <= Z.of_nat i < fd_offset dw + n → content !! i = data !! i) ∧
    fds v2 = <[r := FileDescription (fd_vnode dr) (fd_offset dr + n)]>
              (<[w := FileDescription (fd_vnode dw) (fd_offset dw + n)]> (fds v)).
Proof using Hfuel.
  intros F Hwr Hw Hr Hn Ho Hx Hc Hd Hp Hbs Hsize Hsz Hq Hg Hd' n. subst n.
  destruct (grown_spec _ _ _ _ _ Hg) as [Hlen Hpre]. destruct (fs_fds _ F _ _ Hw) as [_ Hoff].
  set (content := list_inserts (Z.to_nat (fd_offset dw)) bs data').
  set (v1 := with_fds (<[w := FileDescription (fd_vnode dw) (fd_offset dw + Z.of_nat (length bs))]> (fds v))
         (set_class (fd_vnode dw) x (FileVnode content) v)).
  pose proof (fd_write_ok v e w dw x data p bs data' F Hw Hx Hc Hp Hsize Hsz Hg) as Hwrite. fold content v1 in Hwrite.
  assert (length content = length data') as Hlc by apply length_inserts.
  pose proof (fs_size _ F _ _ _ Hx Hc).
  assert (fs_ok (set_class (fd_vnode dw) x (FileVnode content) v)) as F0.
  { apply fs_ok_set_class; [done|done|by rewrite Hc|]. cbn. lia. }
  assert (nodes v1 !! fd_vnode dw = Some (Vnode (dev x) (ino x) (mode x) (FileVnode content))) as Hx1
    by apply lookup_insert_eq.
  assert (fs_ok v1) as F1.
  { apply (fs_ok_put_fd (set_class (fd_vnode dw) x (FileVnode content) v)); [done|exact (mk_is_Some _ _ Hx1)|lia]. }
  assert (fds v1 !! r = Some dr) as Hr1 by (cbn; by rewrite lookup_insert_ne).
  rewrite Hn in Hx1.
  assert (Forall byte_ok content) as Hbc.
  { apply Forall_lookup_2. intros i b Hi. unfold content in Hi.
    apply list_lookup_inserts_Some in Hi as [[_ Hi]|(_ & _ & Hi)];
      (eapply Forall_lookup_1; [|exact Hi]); done. }
  pose proof (fd_read_ok v1 e r dr _ content q (Z.of_nat (length bs)) F1 Hr1 Hx1 eq_refl Hbc ltac:(lia) Hq) as Hread.
  cbv zeta in Hread. rewrite Nat2Z.id, <-Ho in Hread. unfold content in Hread. rewrite slice_inserts in Hread by lia.
  eexists v1, _, content. split; [exact Hwrite|]. split; [exact Hread|]. split; [|split; [done|split; [lia|split]]].
  - apply (fs_ok_put_fd v1); [done|exact (mk_is_Some _ _ Hx1)|lia].
  - intros i Hi Hout. destruct Hpre as [more ->]. rewrite <-(lookup_app_l data more) by done. unfold content.
    destruct (decide (i < Z.to_nat (fd_offset dw))%nat);
      [apply list_lookup_inserts_lt|apply list_lookup_inserts_ge]; lia.
  - cbn. by rewrite Ho.
Qed.

(** C22. resolvePath is the reference walk: the components between the slashes
    are followed one by one, empty ones skipped, each but the last must be a
    directory (ENOTDIR), "." and ".." are the directory and its parent (the
    root is its own), a missing name is ENOENT, and the empty path too.  It
    changes nothing but errno and always returns. *)
Theorem resolvePath_walks v e n path :
  fs_ok v → is_Some (nodes v !! n) →
  resolvePath fuel n path (v, e) =
  match (if bool_decide (path = []) then inl ENOENT else walk v n (split_path path)) with
  | inr r => Ok (r, (v, e))
  | inl er => Ok (0, (with_errno er v, e))
  end.
Proof using Hfuel. apply resolvePath_ok, Hfuel. Qed.

(** C23. openat with O_CREAT of a path whose last name is missing in an existing
    directory creates an empty regular file of that name with the next inode
    number and the permissions asked for, and returns a fresh description of it
    at offset 0; afterwards the path leads to the file, every path that
    resolved before still leads to the same node, and the store is well
    formed.  No other flag is looked at: with O_DIRECTORY, which fcntl.h says
    fails when the target is no directory, it is a regular file all the same. *)
Theorem openat_creates v e a d path flags m er p name x y :
  fs_ok v → fds v !! a = Some d → nodes v !! fd_vnode d = Some y → nextIno v + 1 < 2 ^ 64 →
  Z_bool (Z.land flags O_CREAT) = true → path ≠ [] →
  lookup_path v (fd_vnode d) path = inl er → create_target v (fd_vnode d) path = inr (p, name) →
  nodes v !! p = Some x → is_dir (class x) = true →
  ∃ fd f v', openat fuel a path flags m (v, e) = Ok (fd, (v', e)) ∧ fs_ok v' ∧
    fd ≠ 0 ∧ fds v !! fd = None ∧ fds v' = <[fd := FileDescription f 0]> (fds v) ∧
    nodes v !! f = None ∧
    nodes v' !! f = Some (Vnode (dev y) (nextIno v) (Z.lor S_IFREG (Z.land m 0x1FF)) (FileVnode [])) ∧
    lookup_path v' (fd_vnode d) path = inr f ∧
    ∀ n names r, walk v n names = inr r → walk v' n names = inr r.
Proof using Hfuel.
  intros F Ha Hy Hino Hcr Hpath Hlk Ht Hx Hdir.
  destruct (openat_creates_ok v e a d path flags m er p name x y F Ha Hy Hino Hcr Hlk Ht Hx Hdir)
    as (fd & f & v' & Hrun & F' & Hnodes & Hfds & Hfd & Hfd' & Hf & Hf0).
  set (w := enter v p x name f (file_node v (dev y) m)) in *.
  assert (is_directory v p = true) as Hp by by rewrite (is_directory_class _ _ _ Hx).
  unfold lookup_path in Hlk |- *. rewrite bool_decide_eq_false_2 in * by done.
  destruct (target_walk v _ path p name F Ht Hp) as [Hw Hw'].
  assert (name ≠ [] ∧ child v p name = inl er) as [Hname Hch].
  { rewrite Hlk in Hw. case_bool_decide; [done|]. by split. }
  exists fd, f, v'. split; [done|]. split; [done|]. split; [done|]. split; [done|]. split; [done|]. split; [done|].
  split; [rewrite Hnodes; by apply enter_file|]. split.
  - rewrite (walk_ext v' w), Hw' by (done || (intros; by apply walk_enter) || by apply enter_is_directory).
    rewrite bool_decide_eq_false_2 by done. by eapply child_enter_new.
  - intros n names r Hwalk. rewrite (walk_ext v' w) by done. by apply walk_enter.
Qed.

(** openat with O_CREAT takes whatever node it finds in front of the last
    name for a directory: below a file, the terminal, or with a description of
    one, the node is used as a DirectoryVnode, which it is not. *)
Theorem create_below_file v e a d path flags m er p name x :
  fs_ok v → fds v !! a = Some d → is_Some (nodes v !! fd_vnode d) → nextIno v + 1 < 2 ^ 64 →
  Z_bool (Z.land flags O_CREAT) = true →
  lookup_path v (fd_vnode d) path = inl er → create_target v (fd_vnode d) path = inr (p, name) →
  nodes v !! p = Some x → is_dir (class x) = false →
  openat fuel a path flags m (v, e) = Fault.
Proof using Hfuel.
  intros F Ha [y Hy] Hino Hcr Hlk Ht Hx Hdir. set (u := with_errno er v).
  assert (fs_ok u) as Fu by by apply fs_ok_errno. destruct (new_object_fresh u) as (_ & Hfn & _).
  unfold openat. rewrite (bind_ok _ _ _ _ _ (get_fd_ok _ _ _ _ Ha)).
  pose proof (resolvePath_ok fuel Hfuel v e (fd_vnode d) path F (mk_is_Some _ _ Hy)) as Hr.
  rewrite Hlk in Hr. cbn [run_lookup] in Hr. fold u in Hr. rewrite (bind_ok _ _ _ _ _ Hr). change (0 =? 0) with true. cbv iota.
  rewrite Hcr. cbn [negb].
  assert (create_target u (fd_vnode d) path = inr (p, name)) as Htu.
  { rewrite <-Ht. unfold create_target. destruct (split_last_slash path) as [[[|b before] after]|]; try done.
    by rewrite (lookup_path_ext u v). }
  pose proof (target_code_ok u e (fd_vnode d) path Fu (mk_is_Some _ _ Hy)) as Htc. rewrite Htu in Htc.
  unfold target_code in Htc. apply bind_fault. rewrite (bind_ok _ _ _ _ _ Htc). cbv beta iota.
  rewrite (nonnull u p Fu) by by eexists. cbv iota.
  rewrite (bind_ok _ _ _ _ _ (get_node_ok u e _ _ Hy)), (bind_ok _ _ _ _ _ (new_file_ok u e m (dev y) Hino (fs_next _ F))).
  apply bind_fault. unfold addChildNode.
  assert (new_object u ≠ p) as Hne by (intros Heq; rewrite Heq in Hfn; cbn in Hfn; by rewrite Hx in Hfn).
  assert (nodes (add_node (new_object u) (file_node u (dev y) m) u) !! p = Some x) as Hx'
    by (cbn; by rewrite lookup_insert_ne).
  rewrite (bind_ok _ _ _ _ _ (get_node_ok _ e _ _ Hx')). by destruct (class x).
Qed.
End theorems.
