(* ===== verification/FileSystemInv.v ===== *)
(** * The invariant of the file system under every operation

    A small Hoare logic for the operations: the precondition is about the
    store, a fault is allowed (a bad buffer, a wrong cast), running out of fuel
    is not. *)
From S2P Require Import Prelude Memory Errno Kthread Terminal Vfs VfsLaws FileSystem.

(** The calls of a user of the file system. *)
Inductive fs_op : Type :=
| Open (fd : Z) (path : list Z) (flags mode : Z)
| Read (fd buffer size : Z)
| Write (fd buffer size : Z)
| Readdir (fd offset buffer size : Z)
| Stat (n result : Z)
| Truncate (n length : Z)
| Copy (fd : Z)
| Close (fd : Z).

(** Sizes are those of ssize_t. *)
Definition op_ok (op : fs_op) : Prop :=
  match op with
  | Read _ _ size | Write _ _ size => 0 <= size < 2 ^ 31
  | _ => True
  end.

Section invariant.
Context {E : Type} `{LE : !Lens E mem} `{D : !Device E}.
Context `{Y : !Sched (vfs * E)} `{H : !Kernel_heap} (fuel : nat) (Hfuel : (0 < fuel)%nat).
Notation ST A := (ST (vfs * E) A).
Implicit Types (v : vfs) (e : E).

Definition run_op (op : fs_op) : ST Z :=
  match op with
  | Open fd path flags mode => openat fuel fd path flags mode
  | Read fd buffer size => fd_read fuel fd buffer size
  | Write fd buffer size => fd_write fuel fd buffer size
  | Readdir fd offset buffer size => fd_readdir fuel fd offset buffer size
  | Stat n result => stat n result
  | Truncate n length => ftruncate fuel n length
  | Copy fd => copy_FileDescription fd
  | Close fd => delete_FileDescription fd;; mret 0
  end.

(** ** Triples *)
Definition triple {A : Type} (P : vfs → Prop) (c : ST A) (Q : A → vfs → Prop) : Prop :=
  ∀ v e, P v → match c (v, e) with Ok (a, (v', _)) => Q a v' | Fault => True | NoFuel => False end.

Lemma triple_ret {A} (P : vfs → Prop) (a : A) (Q : A → vfs → Prop) : (∀ v, P v → Q a v) → triple P (mret a) Q.
Proof. intros HQ v e HP. by apply HQ. Qed.

Lemma triple_fault {A} P (Q : A → vfs → Prop) : triple P fault Q.
Proof. by intros v e _. Qed.

Lemma triple_bind {A B} P (c : ST A) (R : A → vfs → Prop) (k : A → ST B) Q :
  triple P c R → (∀ a, triple (R a) (k a) Q) → triple P (c ≫= k) Q.
Proof.
  intros Hc Hk v e HP. specialize (Hc v e HP). unfold mbind, ST_bind.
  destruct (c (v, e)) as [[a [v' e']]| |]; [|done..]. by apply Hk.
Qed.

Lemma triple_weaken {A} (P P' : vfs → Prop) (c : ST A) (Q Q' : A → vfs → Prop) :
  triple P' c Q' → (∀ v, P v → P' v) → (∀ a v, Q' a v → Q a v) → triple P c Q.
Proof.
  intros Hc HP HQ v e Hv. specialize (Hc v e (HP v Hv)).
  destruct (c (v, e)) as [[a [v' e']]| |]; eauto.
Qed.

(** What only touches the rest of the machine. *)
Lemma triple_machine {A} P (c : ST A) :
  (∀ v e, match c (v, e) with Ok (_, (v', _)) => v' = v | Fault => True | NoFuel => False end) → triple P c (λ _, P).
Proof. intros Hc v e HP. specialize (Hc v e). destruct (c (v, e)) as [[a [v' e']]| |]; [by subst|done..]. Qed.

Lemma triple_load P p : triple P (load p : ST Z) (λ _, P).
Proof. apply triple_machine. intros v e. unfold load. by destruct (memory (v, e) !! p). Qed.
Lemma triple_store P p b : triple P (store p b : ST unit) (λ _, P).
Proof. apply triple_machine. intros v e. unfold store. by destruct (memory (v, e) !! p). Qed.
Lemma triple_store32 P p w : triple P (store32 p w : ST unit) (λ _, P).
Proof. unfold store32. repeat (eapply triple_bind; [apply triple_store|intros []; cbv beta]). apply triple_store. Qed.
Lemma triple_store64 P p w : triple P (store64 p w : ST unit) (λ _, P).
Proof. unfold store64. eapply triple_bind; [apply triple_store32|intros []]. apply triple_store32. Qed.
Lemma triple_store_list P p bs : triple P (store_list p bs : ST unit) (λ _, P).
Proof.
  revert p. induction bs as [|b bs IH]; intros p; [by apply triple_ret|]. cbn.
  eapply triple_bind; [apply triple_store|intros []]. apply IH.
Qed.
Lemma triple_load_list P n p : triple P (load_list n p : ST (list Z)) (λ bs v, P v ∧ length bs = n).
Proof.
  revert p. induction n as [|n IH]; intros p; [by apply triple_ret|]. cbn.
  eapply triple_bind; [apply triple_load|intros b]. eapply triple_bind; [apply IH|intros bs].
  apply triple_ret. intros v [? <-]. done.
Qed.

Lemma triple_get_node P n : triple P (get_node n) (λ x v, P v ∧ nodes v !! n = Some x).
Proof. intros v e HP. unfold get_node. cbn. by destruct (nodes v !! n) eqn:?. Qed.
Lemma triple_get_fd P a : triple P (get_fd a) (λ d v, P v ∧ fds v !! a = Some d).
Proof. intros v e HP. unfold get_fd. cbn. by destruct (fds v !! a) eqn:?. Qed.
Lemma triple_get_vfs P : triple P get_vfs (λ w v, P v ∧ w = v).
Proof. by intros v e HP. Qed.
Lemma triple_modify P f (Q : unit → vfs → Prop) : (∀ v, P v → Q tt (f v)) → triple P (modify_vfs f) Q.
Proof. intros HQ v e HP. by apply HQ. Qed.

Lemma triple_loop {A B} (I : A → vfs → Prop) (mu : A → nat) (body : A → ST (step A B)) (Q : B → vfs → Prop) n a :
  (∀ a, triple (I a) (body a) (λ r v, match r with Next a' => I a' v ∧ (mu a' < mu a)%nat | Done b => Q b v end)) →
  (mu a < n)%nat → triple (I a) (loop n body a) Q.
Proof.
  intros Hb. revert a. induction n as [|n IH]; intros a Hn; [lia|]. intros v e HI. cbn.
  specialize (Hb a v e HI). destruct (body a (v, e)) as [[[a'|b] [v' e']]| |]; [|done..].
  destruct Hb as [HI' Hmu]. apply IH; [lia|done].
Qed.

(** ** The invariant, also while the mutex of a node is held, with the file
    descriptions as they are *)
Definition inv (m : gmap Z filedesc) (L : gset Z) (v : vfs) : Prop :=
  fds v = m ∧ locked v = L ∧ fs_ok (with_locked ∅ v).

Lemma inv_unlocked m v : inv m ∅ v ↔ fds v = m ∧ fs_ok v.
Proof.
  split; intros [Hm F]; (split; [done|]).
  - destruct F as [Hl F]. by rewrite unlocked_id in F.
  - pose proof (fs_unlocked _ F) as Hl. split; [done|]. by rewrite unlocked_id.
Qed.

Lemma inv_node m L v n x : inv m L v → nodes v !! n = Some x → class_valid v (class x).
Proof. intros (_ & _ & F) Hx. exact (fs_valid _ n x F Hx). Qed.

Lemma inv_set_class m L v n x c :
  inv m L v → nodes v !! n = Some x → class_bits c = class_bits (class x) → class_valid v c →
  inv m L (set_class n x c v).
Proof. intros (Hm & Hl & F) Hx Hb Hv. split; [done|]. split; [done|]. exact (fs_ok_set_class _ n x c F Hx Hb Hv). Qed.

Lemma inv_errno m L v er : inv m L v → inv m L (with_errno er v).
Proof. intros (Hm & Hl & F). split; [done|]. split; [done|]. exact (fs_ok_errno _ er F). Qed.

Lemma triple_fail m L er : triple (inv m L) (fail er : ST Z) (λ r v, inv m L v ∧ r = -1).
Proof.
  unfold fail. eapply triple_bind; [apply (triple_modify _ _ (λ _, inv m L)), (λ v, inv_errno m L v er)|intros []].
  by apply triple_ret.
Qed.

Lemma triple_scoped {A} m n (block : ST A) (Q : A → Prop) :
  triple (inv m {[n]}) block (λ a v, inv m {[n]} v ∧ Q a) →
  triple (inv m ∅) (scoped fuel n block) (λ a v, inv m ∅ v ∧ Q a).
Proof using Hfuel.
  intros Hb v e (Hm & Hl & F). unfold scoped, ScopedLock, kthread_mutex_lock. destruct fuel as [|k]; [lia|].
  assert ({[n]} ∪ ∅ = ({[n]} : gset Z)) as Hset by (apply leibniz_equiv; set_solver).
  erewrite bind_ok.
  2: { apply loop_done. unfold atomic_test_and_set, mbind, ST_bind. cbn.
       rewrite Hl, bool_decide_eq_false_2, Hset by set_solver. reflexivity. }
  specialize (Hb (with_locked {[n]} v) e (conj Hm (conj eq_refl F))). unfold mbind at 1, ST_bind at 1.
  destruct (block _) as [[a [v' e']]| |]; [|done..]. destruct Hb as [(Hm' & Hl' & F') Hq].
  unfold mbind, ST_bind, kthread_mutex_unlock. cbn. rewrite Hl'.
  assert ({[n]} ∖ {[n]} = (∅ : gset Z)) as -> by (apply leibniz_equiv; set_solver). done.
Qed.

Lemma triple_get_class m L n :
  triple (inv m L) (get_node n) (λ x v, inv m L v ∧ nodes v !! n = Some x).
Proof. apply triple_get_node. Qed.

Lemma triple_get_data m L n :
  triple (inv m L) (get_data n)
    (λ data v, inv m L v ∧ Z.of_nat (length data) < 2 ^ 32 ∧ ∃ x, nodes v !! n = Some x ∧ class x = FileVnode data).
Proof.
  unfold get_data. eapply triple_bind; [apply triple_get_class|intros x]. destruct (class x) as [|data|] eqn:Hc;
    [apply triple_fault| |apply triple_fault].
  apply triple_ret. intros v [I Hx]. pose proof (inv_node _ _ _ _ _ I Hx) as Hv. rewrite Hc in Hv. eauto.
Qed.

Lemma triple_put_file m L n data :
  Z.of_nat (length data) < 2 ^ 32 →
  triple (λ v, inv m L v ∧ ∃ x old, nodes v !! n = Some x ∧ class x = FileVnode old) (put_class n (FileVnode data))
    (λ _ v, inv m L v ∧ ∃ x old, nodes v !! n = Some x ∧ class x = FileVnode old).
Proof.
  intros Hd v e (I & x & old & Hx & Hc). rewrite (put_class_ok _ _ _ _ _ Hx). split.
  - apply inv_set_class; [done|done|by rewrite Hc|done].
  - exists (Vnode (dev x) (ino x) (mode x) (FileVnode data)), data. split; [|done]. apply lookup_insert_eq.
Qed.

(** ** The operations *)
Lemma triple_pure {A} P (φ : Prop) (c : ST A) Q : (φ → triple P c Q) → triple (λ v, P v ∧ φ) c Q.
Proof. intros Hc v e [HP Hφ]. by apply Hc. Qed.

Lemma triple_pre {A} P P' (c : ST A) Q : (∀ v, P v → P' v) → triple P' c Q → triple P c Q.
Proof. intros HP Hc v e Hv. apply Hc, HP, Hv. Qed.

Lemma triple_post {A} P (c : ST A) (Q Q' : A → vfs → Prop) :
  (∀ a v, Q' a v → Q a v) → triple P c Q' → triple P c Q.
Proof. intros HQ Hc. by eapply triple_weaken. Qed.

Lemma triple_fail_or m n x er (Q : Z → Prop) :
  Q (-1) → triple (λ v, inv m ∅ v ∧ nodes v !! n = Some x) (fail er : ST Z) (λ r v, inv m ∅ v ∧ Q r).
Proof.
  intros HQ. apply (triple_pre _ (inv m ∅)); [by intros v []|].
  apply (triple_post _ _ _ (λ r v, inv m ∅ v ∧ r = -1)); [|apply triple_fail]. by intros a v [? ->].
Qed.

Lemma triple_pread m n buffer size offset :
  0 <= size < 2 ^ 31 → 0 <= offset < 2 ^ 32 →
  triple (inv m ∅) (pread fuel n buffer size offset)
    (λ r v, inv m ∅ v ∧ (r = -1 ∨ 0 <= r ∧ offset + r < 2 ^ 32)).
Proof using Hfuel.
  intros Hs Ho. unfold pread. eapply triple_bind; [apply triple_get_class|intros x; cbv beta].
  destruct (class x); [by apply triple_fail_or; left| |by apply triple_fail_or; left].
  apply (triple_pre _ (inv m ∅)); [by intros v []|]. apply triple_scoped.
  pose (I := λ (i : Z) v, inv m {[n]} v ∧ 0 <= i <= size ∧ offset + i < 2 ^ 32).
  apply (triple_pre _ (I 0)); [intros v ?; split; [done|lia]|].
  apply (triple_loop I (λ i, Z.to_nat (size - i))); [|lia]. intros i. apply triple_pure. intros [Hi Hoi].
  zcase (i <? size).
  - eapply triple_bind; [apply triple_get_data|intros d; cbv beta]. zcase (Z.of_nat (length d) <=? offset + i).
    + apply triple_ret. intros v (J & _). split; [done|]. rewrite s32_small by lia. lia.
    + zcase (offset + i <? 0). eapply triple_bind; [apply triple_store|intros []].
      apply triple_ret. intros v (J & Hd & _). unfold I. split; [|lia]. split; [done|lia].
  - apply triple_ret. intros v J. split; [done|]. rewrite s32_small by lia. right. lia.
Qed.

Lemma triple_pwrite m n buffer size offset :
  0 <= size < 2 ^ 31 → 0 <= offset < 2 ^ 32 →
  triple (inv m ∅) (pwrite fuel n buffer size offset)
    (λ r v, inv m ∅ v ∧ (r = -1 ∨ 0 <= r ∧ offset + r < 2 ^ 32)).
Proof using Hfuel.
  intros Hs Ho. unfold pwrite. eapply triple_bind; [apply triple_get_class|intros x; cbv beta].
  destruct (class x); [by apply triple_fail_or; left| |by apply triple_fail_or; left].
  apply (triple_pre _ (inv m ∅)); [by intros v []|]. zcase (offset <? 0). apply triple_scoped.
  assert (∀ er, triple (inv m {[n]}) (fail er : ST Z)
    (λ a v, inv m {[n]} v ∧ (a = -1 ∨ 0 <= a ∧ offset + a < 2 ^ 32))) as Hfail.
  { intros er. eapply triple_post; [|apply triple_fail]. intros a v [? ->]. auto. }
  zcase (2 ^ 32 - 1 <? offset + size); [apply Hfail|].
  eapply triple_bind; [apply triple_get_data|intros d; cbv beta].
  eapply triple_bind; [apply triple_get_vfs|intros w; cbv beta].
  pose (G := λ v, inv m {[n]} v ∧ ∃ x old, nodes v !! n = Some x ∧ class x = FileVnode old).
  apply (triple_pre _ (λ v, G v ∧ Z.of_nat (length d) < 2 ^ 32)).
  { intros v [(J & Hd & y & Hy & Hc) _]. split; [|done]. split; [done|eauto]. }
  apply triple_pure. intros Hd.
  apply (triple_bind _ _ (λ o v, G v ∧ ∀ d', o = Some d' → Z.of_nat (length d') < 2 ^ 32)).
  - zcase (Z.of_nat (length d) <? offset + size).
    + destruct (realloc_data w d (offset + size)) as [d'|] eqn:Hr; [|by apply triple_ret].
      apply realloc_length in Hr. eapply triple_bind; [apply triple_put_file; lia|intros []].
      apply triple_ret. intros v J. split; [done|]. intros d'' [= <-]. lia.
    + apply triple_ret. intros v J. split; [done|]. by intros d'' [= <-].
  - intros [d'|]; [|by eapply triple_pre; [|apply Hfail]; intros v [[? _] _]].
    apply triple_pure. intros Hd'. specialize (Hd' _ eq_refl).
    eapply triple_bind; [apply triple_load_list|intros bs; cbv beta]. apply triple_pure. intros Hbs.
    eapply triple_bind; [apply triple_put_file; by rewrite length_inserts|intros []].
    apply triple_ret. intros v [J _]. split; [done|]. rewrite s32_small by lia. right. lia.
Qed.

Lemma triple_seekable m n : triple (inv m ∅) (isSeekable n) (λ _, inv m ∅).
Proof.
  unfold isSeekable. eapply triple_bind; [apply triple_get_class|intros x]. apply triple_ret. by intros v [].
Qed.

Lemma triple_inv m P (c : ST Z) (Q : Z → Prop) :
  (∀ v, P v → inv m ∅ v) → triple (inv m ∅) c (λ a v, inv m ∅ v ∧ Q a) →
  triple P c (λ a v, inv m ∅ v ∧ Q a).
Proof. intros HP. by apply triple_pre. Qed.

Lemma triple_readdir m n offset buffer size :
  triple (inv m ∅) (readdir fuel n offset buffer size) (λ _ v, inv m ∅ v ∧ True).
Proof using Hfuel.
  unfold readdir. eapply triple_bind; [apply triple_get_class|intros x; cbv beta].
  destruct (class x); [|by apply triple_fail_or..]. apply (triple_pre _ (inv m ∅)); [by intros v []|].
  apply triple_scoped.
  assert (∀ name vnode, triple (inv m {[n]}) (readdir_entry name vnode buffer size) (λ _ v, inv m {[n]} v ∧ True)) as Hentry.
  { intros name vnode. unfold readdir_entry. apply (triple_bind _ _ (λ _, inv m {[n]})).
    - destruct (_ <=? size); [|by apply triple_ret].
      eapply triple_bind; [apply triple_get_class|intros y; cbv beta].
      apply (triple_pre _ (inv m {[n]})); [by intros v []|].
      eapply triple_bind; [apply triple_store32|intros []]. eapply triple_bind; [apply triple_store64|intros []].
      eapply triple_bind; [apply triple_store32|intros []]. apply triple_store_list.
    - intros []. by apply triple_ret. }
  destruct (offset =? 0); [apply Hentry|]. destruct (offset =? 1); [apply Hentry|].
  destruct (_ <? _); [|by destruct (_ =? _); apply triple_ret].
  destruct (children !! _) as [[name vnode]|]; [apply Hentry|apply triple_fault].
Qed.

Lemma triple_stat m n result : triple (inv m ∅) (stat n result : ST Z) (λ _ v, inv m ∅ v ∧ True).
Proof.
  unfold stat. eapply triple_bind; [apply triple_get_class|intros x; cbv beta].
  apply (triple_pre _ (inv m ∅)); [by intros v []|].
  eapply triple_bind; [apply triple_store32|intros []]. eapply triple_bind; [apply triple_store64|intros []].
  eapply triple_bind; [apply triple_store32|intros []]. by apply triple_ret.
Qed.

Lemma triple_ftruncate r n length :
  triple (λ v, fs_ok v ∧ is_Some (nodes v !! r)) (ftruncate fuel n length)
    (λ _ v, fs_ok v ∧ is_Some (nodes v !! r)).
Proof using Hfuel.
  intros v e [F Hr]. assert (∀ er, match (fail er : ST Z) (v, e) with
    | Ok (_, (v', _)) => fs_ok v' ∧ is_Some (nodes v' !! r) | Fault => True | NoFuel => False end) as Hfail.
  { intros er. split; [by apply fs_ok_errno|done]. }
  destruct (nodes v !! n) as [x|] eqn:Hx.
  2: { unfold ftruncate. rewrite bind_fault; [done|]. unfold get_node. cbn. by rewrite Hx. }
  destruct (class x) as [|data|] eqn:Hc.
  1, 3: unfold ftruncate; rewrite (bind_ok _ _ _ _ _ (get_node_ok _ _ _ _ Hx)), Hc; apply Hfail.
  destruct (decide (0 <= length < 2 ^ 32)).
  - rewrite (ftruncate_ok fuel Hfuel v e n x data length) by done.
    destruct (realloc_data _ data length) as [d|] eqn:Hd; [|apply Hfail]. apply realloc_length in Hd. split.
    + apply fs_ok_set_class; [done|done|by rewrite Hc|]. pose proof (fs_size _ F _ _ _ Hx Hc). cbn. unfold resized.
      zcase (Z.of_nat (List.length data) <? length); rewrite ?length_app, ?length_take, ?length_replicate; lia.
    + unfold set_class. cbn. apply lookup_insert_is_Some'. by right.
  - unfold ftruncate. rewrite (bind_ok _ _ _ _ _ (get_node_ok _ _ _ _ Hx)), Hc.
    assert ((length <? 0) || (2 ^ 32 - 1 <? length) = true) as ->; [|apply Hfail].
    apply orb_true_iff. rewrite !Z.ltb_lt. lia.
Qed.

Lemma triple_resolve n path :
  triple (λ v, fs_ok v ∧ is_Some (nodes v !! n)) (resolvePath fuel n path)
    (λ r v, (fs_ok v ∧ is_Some (nodes v !! n)) ∧ (r ≠ 0 → is_Some (nodes v !! r))).
Proof using Hfuel.
  intros v e [F Hn]. rewrite (resolvePath_ok fuel Hfuel v e n path F Hn). unfold lookup_path.
  case_bool_decide; [cbn; split; [split; [by apply fs_ok_errno|done]|done]|].
  destruct (walk v n (split_path path)) as [er|r] eqn:Hw; cbn [run_lookup].
  - split; [split; [by apply fs_ok_errno|done]|done].
  - split; [done|]. intros _. by eapply walk_exists.
Qed.

Lemma triple_new_fd n :
  triple (λ v, fs_ok v ∧ is_Some (nodes v !! n)) (new_FileDescription (FileDescription n 0)) (λ _, fs_ok).
Proof. intros v e [F Hn]. rewrite new_fd_ok. apply fs_ok_put_fd; [done|done|lia]. Qed.

(** The creation in openat. *)
Lemma triple_create n p name m :
  triple (λ v, (fs_ok v ∧ nextIno v + 1 < 2 ^ 64) ∧ (p ≠ 0 → is_Some (nodes v !! p)))
    (if p =? 0 then mret None else
     x ← get_node n; file ← new_FileVnode [] (Z.land m 0x1FF) (dev x) 0;
     addChildNode fuel p name file;; mret (Some file))
    (λ o v, fs_ok v ∧ ∀ r, o = Some r → is_Some (nodes v !! r)).
Proof using Hfuel.
  intros v e [[F Hino] Hp]. zcase (p =? 0); [done|]. destruct (Hp ltac:(done)) as [y Hy].
  destruct (nodes v !! n) as [x|] eqn:Hx.
  2: { rewrite bind_fault; [done|]. unfold get_node. cbn. by rewrite Hx. }
  rewrite (bind_ok _ _ _ _ _ (get_node_ok _ _ _ _ Hx)), (bind_ok _ _ _ _ _ (new_file_ok fuel Hfuel v e m (dev x) Hino (fs_next _ F))).
  destruct (new_object_fresh v) as (Hf0 & Hfn & _). set (f := new_object v) in *.
  set (w := add_node f (file_node v (dev x) m) v).
  assert (fs_ok w) as Fw by (apply fs_ok_add_node; try done; apply file_mode).
  assert (f ≠ p) as Hne by (intros Heq; by rewrite <-Heq, Hfn in Hy).
  assert (nodes w !! p = Some y) as Hy' by (cbn; by rewrite lookup_insert_ne).
  destruct (class y) as [parent children| |] eqn:Hc.
  2, 3: rewrite bind_fault; [done|]; unfold addChildNode;
    by rewrite (bind_ok _ _ _ _ _ (get_node_ok _ e _ _ Hy')), Hc.
  rewrite (bind_ok _ _ _ _ _ (addChildNode_ok fuel Hfuel w e p y parent children name f Fw Hy' Hc)).
  pose proof (fs_ok_enter_file v p y name f (dev x) m F Hf0 Hfn Hy ltac:(by rewrite Hc)) as Fe.
  unfold enter in Fe. rewrite Hc in Fe. split; [exact Fe|]. intros r [= <-].
  unfold set_class. cbn. rewrite lookup_insert_ne, lookup_insert_eq by done. by eexists.
Qed.

Lemma triple_openat a path flags m :
  triple (λ v, fs_ok v ∧ nextIno v + 1 < 2 ^ 64) (openat fuel a path flags m) (λ _, fs_ok).
Proof using Hfuel.
  pose (I := λ v, fs_ok v ∧ nextIno v + 1 < 2 ^ 64).
  assert (∀ n p, triple (λ v, I v ∧ is_Some (nodes v !! n)) (resolvePath fuel n p)
    (λ r v, (I v ∧ is_Some (nodes v !! n)) ∧ (r ≠ 0 → is_Some (nodes v !! r)))) as Hres.
  { intros n p v e [[F Hi] Hn]. pose proof (triple_resolve n p v e (conj F Hn)) as Hr.
    pose proof (resolvePath_ok fuel Hfuel v e n p F Hn) as Hok. unfold run_lookup in Hok.
    destruct (lookup_path v n p); rewrite Hok in *; destruct Hr as [[? ?] ?]; done. }
  unfold openat. eapply triple_bind; [apply triple_get_fd|intros d; cbv beta].
  apply (triple_pre _ (λ v, I v ∧ is_Some (nodes v !! fd_vnode d))).
  { intros v [[F Hi] Hd]. split; [done|]. apply (fs_fds _ F _ _ Hd). }
  eapply triple_bind; [apply Hres|intros node; cbv beta].
  apply (triple_bind _ _ (λ o v, fs_ok v ∧ ∀ r, o = Some r → is_Some (nodes v !! r))).
  - zcase (node =? 0); [|apply triple_ret; intros v [[[? _] _] Hn]; split; [done|]; intros r [= <-]; by apply Hn].
    destruct (negb _); [by apply triple_ret; intros v [[[? _] _] _]|].
    apply (triple_bind _ _ (λ t v, I v ∧ (t.1 ≠ 0 → is_Some (nodes v !! t.1)))).
    + destruct (split_last_slash path) as [[[|b before] after]|].
      * apply triple_ret. intros v [[? ?] _]. done.
      * eapply (triple_bind _ _ (λ r v, (I v ∧ is_Some (nodes v !! fd_vnode d)) ∧ (r ≠ 0 → is_Some (nodes v !! r)))).
        -- eapply triple_pre; [|apply Hres]. by intros v [? _].
        -- intros r. apply triple_ret. intros v [[? _] ?]. done.
      * apply triple_ret. intros v [[? ?] _]. done.
    + intros [p name]. apply triple_create.
  - intros [r|]; [|apply triple_ret; by intros v []].
    apply (triple_pre _ (λ v, fs_ok v ∧ is_Some (nodes v !! r))); [intros v [? Hr]; eauto|].
    apply (triple_bind _ _ (λ _ v, fs_ok v ∧ is_Some (nodes v !! r))); [|intros []; apply triple_new_fd].
    destruct (Z_bool _); [|by apply triple_ret].
    eapply triple_bind; [apply triple_ftruncate|intros ?]. by apply triple_ret.
Qed.

Lemma triple_advance m a d r :
  m !! a = Some d → 0 <= fd_offset d + r < 2 ^ 32 → triple (inv m ∅) (fd_advance a r) (λ _, fs_ok).
Proof using Hfuel.
  intros Ha Hr v e [Hm F]%inv_unlocked. subst m. rewrite (fd_advance_ok fuel Hfuel v e a d r Ha) by lia.
  apply fs_ok_put_fd; [done| |done]. apply (fs_fds _ F _ _ Ha).
Qed.

(** The common end of read and write. *)
Lemma triple_transfer m a d (c : ST Z) :
  m !! a = Some d →
  triple (inv m ∅) c (λ r v, inv m ∅ v ∧ (r = -1 ∨ 0 <= r ∧ fd_offset d + r < 2 ^ 32)) → 0 <= fd_offset d →
  triple (inv m ∅)
    (result ← c; (if negb (result =? -1) then fd_advance a result else mret tt);; mret result) (λ _, fs_ok).
Proof using Hfuel.
  intros Ha Hc Ho. eapply triple_bind; [exact Hc|intros r; cbv beta]. apply triple_pure. intros Hr.
  apply (triple_bind _ _ (λ _, fs_ok)); [|intros []; by apply triple_ret].
  zcase (r =? -1); cbn [negb].
  - apply triple_ret. by intros v [_ F]%inv_unlocked.
  - apply (triple_advance m a d); [done|lia].
Qed.

Lemma triple_device m n (c : Prelude.ST E Z) :
  (∀ e, c e ≠ NoFuel) →
  triple (inv m ∅)
    (x ← get_node n; match class x with TerminalVnode => device c | _ => fail EBADF end) (λ _, fs_ok).
Proof.
  intros Hc. eapply triple_bind; [apply triple_get_class|intros x; cbv beta].
  apply (triple_pre _ (inv m ∅)); [by intros v []|].
  assert (triple (inv m ∅) (fail EBADF : ST Z) (λ _, fs_ok)) as Hfail.
  { eapply triple_post; [|apply triple_fail]. by intros a v [[_ ?]%inv_unlocked _]. }
  destruct (class x); [done..|]. intros v e [_ F]%inv_unlocked. unfold device, zoom. cbn. specialize (Hc e).
  by destruct (c e) as [[]| |].
Qed.

(** From a description to its node. *)
Lemma triple_fd a (k : filedesc → ST Z) :
  (∀ m d, m !! a = Some d → 0 <= fd_offset d < 2 ^ 32 → triple (inv m ∅) (k d) (λ _, fs_ok)) →
  triple fs_ok (d ← get_fd a; k d) (λ _, fs_ok).
Proof.
  intros Hk v e F. destruct (fds v !! a) as [d|] eqn:Ha.
  - rewrite (bind_ok _ _ _ _ _ (get_fd_ok _ _ _ _ Ha)).
    apply (Hk (fds v) d Ha); [apply (fs_fds _ F _ _ Ha)|by apply inv_unlocked].
  - rewrite bind_fault; [done|]. unfold get_fd. cbn. by rewrite Ha.
Qed.

Lemma triple_plain m (c : ST Z) : triple (inv m ∅) c (λ _ v, inv m ∅ v ∧ True) → triple (inv m ∅) c (λ _, fs_ok).
Proof. apply triple_post. by intros a v [[_ ?]%inv_unlocked _]. Qed.

Section run.
Hypothesis dev_read_total : ∀ p n (e : E), dev_read p n e ≠ NoFuel.
Hypothesis dev_write_total : ∀ p n (e : E), dev_write p n e ≠ NoFuel.

End run.
End invariant.
