(* ===== verification/FileSystemDemo.v ===== *)
(** * A small file system

    A decision procedure for well-formedness, one kernel heap, and a root
    directory with a file and the terminal on which the properties of the file
    system are applied. *)
From S2P Require Import Prelude Memory Errno Kthread Terminal Vfs VfsLaws FileSystem FileSystemInv.

(** ** Checking a store *)
Definition node_check (v : vfs) (n : Z) (x : vnode) : Prop :=
  Z.land (mode x) S_IFMT = class_bits (class x) ∧ 0 <= ino x ∧ ino x < nextIno v ∧
  match class x with
  | DirectoryVnode parent children =>
      Forall (λ c : list Z * Z, is_Some (nodes v !! c.2)) children ∧ (parent = 0 ∨ is_directory v parent = true)
  | FileVnode data => Z.of_nat (length data) < 2 ^ 32
  | TerminalVnode => True
  end.
#[export] Instance node_check_dec v n x : Decision (node_check v n x).
Proof. unfold node_check. destruct (class x); apply _. Defined.

Definition fd_check (v : vfs) (a : Z) (d : filedesc) : Prop :=
  is_Some (nodes v !! fd_vnode d) ∧ 0 <= fd_offset d ∧ fd_offset d < 2 ^ 32.
#[export] Instance fd_check_dec v a d : Decision (fd_check v a d).
Proof. unfold fd_check. apply _. Defined.

Definition fs_check (v : vfs) : Prop :=
  locked v = ∅ ∧ nodes v !! 0 = None ∧ 0 <= nextIno v ∧ map_Forall (node_check v) (nodes v) ∧
  map_Forall (fd_check v) (fds v) ∧ NoDup (ino ∘ snd <$> map_to_list (nodes v)).

Lemma fs_check_ok v : fs_check v → fs_ok v.
Proof.
  intros (Hl & H0 & Hn & Hnodes & Hfds & Hino). constructor; try done.
  - intros n x Hx. apply (Hnodes _ _ Hx).
  - intros n x parent children name c Hx Hc Hin. destruct (Hnodes _ _ Hx) as (_ & _ & _ & Hch). rewrite Hc in Hch.
    destruct Hch as [Hch _]. by apply (proj1 (Forall_forall _ _) Hch (name, c)).
  - intros n x parent children Hx Hc. destruct (Hnodes _ _ Hx) as (_ & _ & _ & Hch). rewrite Hc in Hch. apply Hch.
  - intros n x Hx. destruct (Hnodes _ _ Hx) as (_ & ? & ? & _). lia.
  - intros n m x y Hx Hy Heq. apply elem_of_map_to_list in Hx, Hy.
    apply list_elem_of_lookup in Hx as [i Hi], Hy as [j Hj].
    assert ((ino ∘ snd <$> map_to_list (nodes v)) !! i = Some (ino x)) as Hi' by (by rewrite list_lookup_fmap, Hi).
    assert ((ino ∘ snd <$> map_to_list (nodes v)) !! j = Some (ino x)) as Hj' by (by rewrite list_lookup_fmap, Hj, Heq).
    pose proof (NoDup_lookup _ _ _ _ Hino Hi' Hj') as ->. rewrite Hi in Hj. by injection Hj.
  - intros n x data Hx Hc. destruct (Hnodes _ _ Hx) as (_ & _ & _ & Hch). by rewrite Hc in Hch.
Qed.

(** ** A heap that takes any unused address and fills new bytes with 0xAA *)
Definition demo_new (v : vfs) : Z := fresh ({[0]} ∪ dom (nodes v) ∪ dom (fds v) : gset Z).
Definition demo_realloc (v : vfs) (d : list Z) (n : Z) : option (list Z) :=
  if n <? 2 ^ 30 then Some (take (Z.to_nat n) d ++ replicate (Z.to_nat n - length d) 0xAA) else None.

#[refine] Instance demo_heap : Kernel_heap := {| new_object := demo_new; realloc_data := demo_realloc |}.
Proof.
  - intros v. pose proof (is_fresh ({[0]} ∪ dom (nodes v) ∪ dom (fds v) : gset Z)) as Hf. fold (demo_new v) in Hf.
    split_and!; [set_solver|apply not_elem_of_dom; set_solver|apply not_elem_of_dom; set_solver].
  - intros v d n d'. unfold demo_realloc. destruct (n <? 2 ^ 30); [|done]. intros [= <-].
    rewrite length_app, length_take, length_replicate. lia.
  - intros v d n d' i. unfold demo_realloc. destruct (n <? 2 ^ 30); [|done]. intros [= <-] ? ?.
    rewrite lookup_app_l by (rewrite length_take; lia). by apply lookup_take_lt.
Defined.

(** A terminal without input. *)
Instance demo_device : Device mem := {|
  dev_read _ _ := mret 0;
  dev_write _ size := mret size;
  dev_tcgetattr := mret (0, Termios 0 0 0 0 []);
  dev_tcsetattr _ _ := mret 0 |}.
Instance demo_sched : Sched (vfs * mem) := {| sched_yield := mret tt |}.

Definition demo_root : vnode := Vnode 0 0 (Z.lor S_IFDIR 0x1ED) (DirectoryVnode 0 [(str "bin", 2); (str "tty", 4)]).
Definition demo_bin : vnode := Vnode 0 1 (Z.lor S_IFDIR 0x1ED) (DirectoryVnode 1 [(str "motd", 3)]).
Definition demo_motd : vnode := Vnode 0 2 (Z.lor S_IFREG 0x1A4) (FileVnode (str "hi")).
Definition demo_tty : vnode := Vnode 0 3 S_IFCHR TerminalVnode.

Definition demo_fs : vfs :=
  Vfs (list_to_map [(1, demo_root); (2, demo_bin); (3, demo_motd); (4, demo_tty)])
    (list_to_map [(10, FileDescription 1 0); (11, FileDescription 3 0); (12, FileDescription 3 0)]) ∅ 4 0.
Definition demo_mem : mem := write_bytes ∅ 100 (str "hello" ++ replicate 20 0).

Lemma demo_fs_ok : fs_ok demo_fs.
Proof. apply fs_check_ok. split_and!; [done..| | |]; apply (bool_decide_eq_true_1 _); vm_compute; reflexivity. Qed.

Lemma resolvePath_walks_witness :
  resolvePath 1 1 (str "/bin//../bin/motd") (demo_fs, demo_mem) = Ok (3, (demo_fs, demo_mem)) ∧
  resolvePath 1 1 (str "bin/motd/") (demo_fs, demo_mem) = Ok (0, (with_errno ENOTDIR demo_fs, demo_mem)).
Proof.
  split.
  - rewrite (resolvePath_walks 1 ltac:(lia) demo_fs demo_mem 1 _ demo_fs_ok (mk_is_Some _ _ eq_refl)). vm_compute. reflexivity.
  - rewrite (resolvePath_walks 1 ltac:(lia) demo_fs demo_mem 1 _ demo_fs_ok (mk_is_Some _ _ eq_refl)). vm_compute. reflexivity.
Defined.

Lemma openat_creates_witness :
  ∃ fd f v', openat 1 10 (str "bin/new") O_CREAT 0x1FF (demo_fs, demo_mem) = Ok (fd, (v', demo_mem)) ∧
    lookup_path v' 1 (str "bin/new") = inr f.
Proof.
  destruct (openat_creates 1 ltac:(lia) demo_fs demo_mem 10 (FileDescription 1 0) (str "bin/new") O_CREAT 0x1FF
    ENOENT 2 (str "new") demo_bin demo_root demo_fs_ok eq_refl eq_refl ltac:(done) eq_refl ltac:(done) eq_refl eq_refl
    eq_refl eq_refl) as (fd & f & v' & Hrun & _ & _ & _ & _ & _ & _ & Hlk & _). by exists fd, f, v'.
Defined.

Lemma create_below_file_witness :
  openat 1 10 (str "bin/motd/x") O_CREAT 0x1FF (demo_fs, demo_mem) = Fault.
Proof.
  apply (create_below_file 1 ltac:(lia) demo_fs demo_mem 10 (FileDescription 1 0) (str "bin/motd/x") O_CREAT 0x1FF
    ENOTDIR 3 (str "x") demo_motd demo_fs_ok); done.
Defined.

Lemma write_then_read_witness :
  ∃ v1 v2 content, fd_write 1 11 100 5 (demo_fs, demo_mem) = Ok (5, (v1, demo_mem)) ∧
    fd_read 1 12 110 5 (v1, demo_mem) = Ok (5, (v2, with_memory demo_mem (write_bytes (memory demo_mem) 110 (str "hello")))) ∧
    nodes v2 = nodes (set_class 3 demo_motd (FileVnode content) demo_fs).
Proof.
  destruct (write_then_read 1 ltac:(lia) demo_fs demo_mem 11 12 (FileDescription 3 0) (FileDescription 3 0) demo_motd
    (str "hi") 100 110 (str "hello") (str "hi" ++ [0xAA; 0xAA; 0xAA]) demo_fs_ok)
    as (v1 & v2 & content & Hw & Hr & _ & Hn & _); try done.
  - apply (bool_decide_eq_true_1 (Forall byte_ok _)). vm_compute. reflexivity.
  - apply bytes_check. vm_compute. reflexivity.
  - apply (bool_decide_eq_true_1 (Forall byte_ok _)). vm_compute. reflexivity.
  - intros q Hq. assert (110 <= q < 115) by exact Hq. unfold demo_mem, memory. cbn [get Lens_id]. assert (length (str "hello" ++ replicate 20 0) = 25%nat) by reflexivity.
    rewrite lookup_write_bytes, decide_True by lia. apply lookup_lt_is_Some_2. lia.
  - apply (bool_decide_eq_true_1 (Forall byte_ok _)). vm_compute. reflexivity.
  - exists v1, v2, content. done.
Defined.

