(* ===== verification/Process.v ===== *)
(** * Processes (kernel/src/process.cpp, kernel/include/inwox/kernel/elf.h)

    The process table is a typed map of the process objects, linked into the
    list of running processes by [prev] and [next].  The state of the kernel is
    the memory manager, the processes, the file system and the rest of the
    machine; the contexts of processes and the arguments of programs are
    written through the pages the memory manager maps. *)
From S2P Require Import Prelude Memory Errno Kthread Terminal Paging Segments AddressSpace Vfs.

Definition OPEN_MAX : Z := 20.

(** ** State *)
Record process : Type := Process {
  interruptContext : Z; prev : Z; next : Z; kstack : Z;
  contextChanged : bool; fdInitialized : bool; terminated : bool;
  parent : Z; children : list Z;
  addressSpace : Z; fd : list Z; rootFd : Z; cwdFd : Z;
  pid : Z; status : Z; umask : Z;
}.

(** The constructor. *)
Definition new_process : process :=
  Process 0 0 0 0 false false false 0 [] 0 (replicate (Z.to_nat OPEN_MAX) 0) 0 0 0 0 (Z.lor S_IWGRP S_IWOTH).

Definition set_interruptContext (c : Z) (p : process) : process :=
  Process c (prev p) (next p) (kstack p) (contextChanged p) (fdInitialized p) (terminated p) (parent p) (children p)
    (addressSpace p) (fd p) (rootFd p) (cwdFd p) (pid p) (status p) (umask p).
Definition set_links (prev next : Z) (p : process) : process :=
  Process (interruptContext p) prev next (kstack p) (contextChanged p) (fdInitialized p) (terminated p) (parent p) (children p)
    (addressSpace p) (fd p) (rootFd p) (cwdFd p) (pid p) (status p) (umask p).
Definition set_kstack (k : Z) (p : process) : process :=
  Process (interruptContext p) (prev p) (next p) k (contextChanged p) (fdInitialized p) (terminated p) (parent p) (children p)
    (addressSpace p) (fd p) (rootFd p) (cwdFd p) (pid p) (status p) (umask p).
Definition set_contextChanged (b : bool) (p : process) : process :=
  Process (interruptContext p) (prev p) (next p) (kstack p) b (fdInitialized p) (terminated p) (parent p) (children p)
    (addressSpace p) (fd p) (rootFd p) (cwdFd p) (pid p) (status p) (umask p).
Definition set_terminated (st : Z) (p : process) : process :=
  Process (interruptContext p) (prev p) (next p) (kstack p) (contextChanged p) (fdInitialized p) true (parent p) (children p)
    (addressSpace p) (fd p) (rootFd p) (cwdFd p) (pid p) st (umask p).
Definition set_parent (q : Z) (p : process) : process :=
  Process (interruptContext p) (prev p) (next p) (kstack p) (contextChanged p) (fdInitialized p) (terminated p) q (children p)
    (addressSpace p) (fd p) (rootFd p) (cwdFd p) (pid p) (status p) (umask p).
Definition set_children (l : list Z) (p : process) : process :=
  Process (interruptContext p) (prev p) (next p) (kstack p) (contextChanged p) (fdInitialized p) (terminated p) (parent p) l
    (addressSpace p) (fd p) (rootFd p) (cwdFd p) (pid p) (status p) (umask p).
Definition set_addressSpace (a : Z) (p : process) : process :=
  Process (interruptContext p) (prev p) (next p) (kstack p) (contextChanged p) (fdInitialized p) (terminated p) (parent p) (children p)
    a (fd p) (rootFd p) (cwdFd p) (pid p) (status p) (umask p).
(** The descriptors, the root and the working directory. *)
Definition set_files (l : list Z) (root cwd : Z) (p : process) : process :=
  Process (interruptContext p) (prev p) (next p) (kstack p) (contextChanged p) (fdInitialized p) (terminated p) (parent p) (children p)
    (addressSpace p) l root cwd (pid p) (status p) (umask p).
Definition set_fdInitialized (p : process) : process :=
  Process (interruptContext p) (prev p) (next p) (kstack p) (contextChanged p) true (terminated p) (parent p) (children p)
    (addressSpace p) (fd p) (rootFd p) (cwdFd p) (pid p) (status p) (umask p).
Definition set_pid (n : Z) (p : process) : process :=
  Process (interruptContext p) (prev p) (next p) (kstack p) (contextChanged p) (fdInitialized p) (terminated p) (parent p) (children p)
    (addressSpace p) (fd p) (rootFd p) (cwdFd p) n (status p) (umask p).

Record ps : Type := Ps {
  procs : gmap Z process;
  current : Z; firstProcess : Z; idleProcess : Z; nextPid : Z;
  childLocks : gset Z;         (* the processes whose childrenMutex is set *)
  interrupts : bool;           (* the interrupt flag *)
  esp0 : Z;                    (* tss.esp0 *)
}.

Definition with_procs (m : gmap Z process) (s : ps) : ps :=
  Ps m (current s) (firstProcess s) (idleProcess s) (nextPid s) (childLocks s) (interrupts s) (esp0 s).
Definition with_current (c : Z) (s : ps) : ps :=
  Ps (procs s) c (firstProcess s) (idleProcess s) (nextPid s) (childLocks s) (interrupts s) (esp0 s).
Definition with_firstProcess (f : Z) (s : ps) : ps :=
  Ps (procs s) (current s) f (idleProcess s) (nextPid s) (childLocks s) (interrupts s) (esp0 s).
Definition with_idleProcess (i : Z) (s : ps) : ps :=
  Ps (procs s) (current s) (firstProcess s) i (nextPid s) (childLocks s) (interrupts s) (esp0 s).
Definition with_nextPid (n : Z) (s : ps) : ps :=
  Ps (procs s) (current s) (firstProcess s) (idleProcess s) n (childLocks s) (interrupts s) (esp0 s).
Definition with_childLocks (l : gset Z) (s : ps) : ps :=
  Ps (procs s) (current s) (firstProcess s) (idleProcess s) (nextPid s) l (interrupts s) (esp0 s).
Definition with_interrupts (b : bool) (s : ps) : ps :=
  Ps (procs s) (current s) (firstProcess s) (idleProcess s) (nextPid s) (childLocks s) b (esp0 s).
Definition with_esp0 (e : Z) (s : ps) : ps :=
  Ps (procs s) (current s) (firstProcess s) (idleProcess s) (nextPid s) (childLocks s) (interrupts s) e.

Lemma with_childLocks_eq l l' s : l ≡ l' → with_childLocks l s = with_childLocks l' s.
Proof. intros H. by apply leibniz_equiv in H as ->. Qed.

#[refine] Definition Lens_child_lock (p : Z) : Lens ps bool := {|
  get s := bool_decide (p ∈ childLocks s);
  set b s := with_childLocks (if b : bool then {[p]} ∪ childLocks s else childLocks s ∖ {[p]}) s |}.
Proof.
  - intros [] s; cbn; [apply bool_decide_eq_true|apply bool_decide_eq_false]; set_solver.
  - intros s. trans (with_childLocks (childLocks s) s); [|by destruct s]. apply with_childLocks_eq.
    case_bool_decide; set_solver.
  - intros a b s. apply (with_childLocks_eq _ _ s). destruct a, b; cbn [childLocks with_childLocks].
    all: intros x; destruct (decide (x = p)); set_solver.
Defined.

(** The objects of the kernel the processes need: unused addresses for process
    objects, and the node of the terminal. *)
Class Process_heap : Type := {
  new_process_address : ps → Z;
  terminal : Z;
  new_process_fresh s : new_process_address s ≠ 0 ∧ procs s !! new_process_address s = None;
}.

(** ** ELF images *)
Definition PT_LOAD : Z := 1.
Definition sizeof_program_header : Z := 32.

(** A little-endian field of a file's data; [None] behind its end. *)
Fixpoint field (n : nat) (data : list Z) (offset : Z) : option Z :=
  match n with
  | O => Some 0
  | Datatypes.S n =>
      if offset <? 0 then None else
      b ← data !! Z.to_nat offset; r ← field n data (offset + 1); Some (b + 2 ^ 8 * r)
  end.

Definition check_elf_magic (data : list Z) : option bool :=
  m0 ← field 1 data 0; m1 ← field 1 data 1; m2 ← field 1 data 2; m3 ← field 1 data 3;
  Some (negb ((m0 =? 0x7F) && (m1 =? ch "E") && (m2 =? ch "L") && (m3 =? ch "F"))).

Definition e_entry (data : list Z) : option Z := field 4 data 24.
Definition e_phoff (data : list Z) : option Z := field 4 data 28.
Definition e_phnum (data : list Z) : option Z := field 2 data 44.

Record program_header : Type := ProgramHeader {
  p_type : Z; p_offset : Z; p_paddr : Z; p_filesz : Z; p_memsz : Z }.
Definition get_program_header (data : list Z) (at_ : Z) : option program_header :=
  t ← field 4 data at_; o ← field 4 data (at_ + 4); a ← field 4 data (at_ + 12);
  f ← field 4 data (at_ + 16); m ← field 4 data (at_ + 20);
  Some (ProgramHeader t o a f m).

(** ** struct context: the offsets of the fields *)
Definition sizeof_context : Z := 60.
Definition ctx_edi : Z := 0.
Definition ctx_esi : Z := 4.
Definition ctx_ebp : Z := 8.
Definition ctx_esp : Z := 12.
Definition ctx_ebx : Z := 16.
Definition ctx_edx : Z := 20.
Definition ctx_ecx : Z := 24.
Definition ctx_eax : Z := 28.
Definition ctx_int_no : Z := 32.
Definition ctx_err_code : Z := 36.
Definition ctx_eip : Z := 40.
Definition ctx_cs : Z := 44.
Definition ctx_eflags : Z := 48.
Definition ctx_useresp : Z := 52.
Definition ctx_ss : Z := 56.

(** struct regfork *)
Record regfork_regs : Type := Regfork {
  rf_esp : Z; rf_eip : Z; rf_eax : Z; rf_ebx : Z; rf_ecx : Z; rf_edx : Z; rf_esi : Z; rf_edi : Z; rf_ebp : Z }.

Section operations.
Context {E : Type} `{LE : !Lens E mem} `{D : !Device E} `{Img : !Image}.
Context `{Ym : !Sched mm} `{Yf : !Sched (vfs * E)} `{KH : !Kheap} `{FH : !Kernel_heap} `{PH : !Process_heap}.
Notation kstate := (mm * (ps * (vfs * E)))%type.
Notation ST A := (ST kstate A).
Context `{Y : !Sched kstate} (fuel : nat).

Definition in_mm {A} (c : Prelude.ST mm A) : ST A := zoom (Lens_fst mm (ps * (vfs * E))) c.
Definition in_fs {A} (c : Prelude.ST (vfs * E) A) : ST A :=
  zoom (Lens_snd mm (ps * (vfs * E)) (vfs * E) (Lens_snd ps (vfs * E) (vfs * E) (Lens_id (vfs * E)))) c.
Definition Lens_ps : Lens kstate ps := Lens_snd mm (ps * (vfs * E)) ps (Lens_fst ps (vfs * E)).
Definition in_ps {A} (c : Prelude.ST ps A) : ST A := zoom Lens_ps c.

Definition get_ps : ST ps := in_ps (λ s, Ok (s, s)).
Definition modify_ps (f : ps → ps) : ST unit := in_ps (λ s, Ok (tt, f s)).
Definition set_errno (e : Z) : ST unit := in_fs (modify_vfs (with_errno e)).
(** What the code asks of the parameters that can be missing. *)
Definition some {A} (o : option A) : ST A := match o with Some a => mret a | None => fault end.

Definition get_process (this : Z) : ST process :=
  in_ps (λ s, match procs s !! this with Some p => Ok (p, s) | None => Fault end).
Definition upd (this : Z) (f : process → process) : ST unit :=
  in_ps (λ s, match procs s !! this with
              | Some p => Ok (tt, with_procs (<[this := f p]> (procs s)) s)
              | None => Fault
              end).

Definition enable : ST unit := modify_ps (with_interrupts true).
Definition disable : ST unit := modify_ps (with_interrupts false).
Definition setKernelStack (kstack : Z) : ST unit := modify_ps (with_esp0 kstack).

(** ** Creation and destruction *)
Definition make_process : ST Z :=
  s ← get_ps;
  let this := new_process_address s in
  modify_ps (λ s, with_procs (<[this := new_process]> (procs s)) s);;
  mret this.

Definition delete_process (this : Z) : ST unit :=
  p ← get_process this;
  if negb (terminated p) then fault else
  in_mm (unmapMemory fuel kernelSpace (kstack p) PAGESIZE);;
  modify_ps (λ s, with_procs (base.delete this (procs s)) s).

Definition new_AddressSpace : ST Z := in_mm (a ← new 24; AddressSpace fuel a;; mret a).
Definition delete_AddressSpace (a : Z) : ST unit :=
  if a =? 0 then mret tt else in_mm (destroy fuel a;; delete a).

(** [Process::initialize] *)
Definition initialize (root : Z) : ST unit :=
  idle ← make_process;
  modify_ps (with_idleProcess idle);;
  upd idle (set_addressSpace kernelSpace);;
  upd idle (λ p, set_files (fd p) root (cwdFd p) p);;
  context ← in_mm (new sizeof_context);
  upd idle (set_interruptContext context);;
  modify_ps (λ s, with_firstProcess 0 (with_current idle s)).

Definition addProcess (process : Z) : ST unit :=
  s ← get_ps;
  modify_ps (with_nextPid (s32 (nextPid s + 1)));;
  upd process (λ p, set_links (prev p) (firstProcess s) (set_pid (nextPid s) p));;
  (if firstProcess s =? 0 then mret tt
   else upd (firstProcess s) (λ q, set_links process (next q) q));;
  modify_ps (with_firstProcess process).

(** ** Scheduling *)
Definition schedule (context : Z) : ST Z :=
  s ← get_ps;
  c ← get_process (current s);
  (if negb (contextChanged c) then upd (current s) (set_interruptContext context)
   else upd (current s) (set_contextChanged false));;
  (if negb (next c =? 0) then modify_ps (with_current (next c))
   else if negb (firstProcess s =? 0) then modify_ps (with_current (firstProcess s))
   else modify_ps (with_current (idleProcess s)));;
  s ← get_ps;
  c ← get_process (current s);
  setKernelStack (u32 (kstack c + PAGESIZE));;
  in_mm (activate (addressSpace c));;
  mret (interruptContext c).

(** ** Loading a program *)

(** memset and memcpy into mapped pages; the source is the data of the file. *)
Definition clear_bytes (dest size : Z) : ST unit :=
  in_mm (for_n (Z.to_nat size) 0 (λ i, vstore8 (dest + i) 0)).
Definition write_list (dest : Z) (bs : list Z) : ST unit :=
  in_mm ((fix go (dest : Z) (bs : list Z) : Prelude.ST mm unit :=
            match bs with
            | [] => mret tt
            | b :: bs => vstore8 dest b;; go (dest + 1) bs
            end) dest bs).
(** [size] bytes of the file at [offset]; none when they run behind its end. *)
Definition slice (data : list Z) (offset size : Z) : option (list Z) :=
  if offset + size <=? Z.of_nat (length data)
  then Some (take (Z.to_nat size) (drop (Z.to_nat offset) data)) else None.

Definition load_segment (data : list Z) (newAddressSpace : Z) (h : program_header) : ST unit :=
  let loadAddressAligned := Z.land (p_paddr h) (Z.lnot 0xFFF) in
  let offset := p_paddr h - loadAddressAligned in
  let size := ALIGN_UP (u32 (p_memsz h + offset)) PAGESIZE in
  in_mm (mapMemoryAt fuel newAddressSpace loadAddressAligned size (Z.lor (Z.lor PROT_READ PROT_WRITE) PROT_EXEC));;
  dest ← in_mm (mapFromOtherAddressSpace fuel kernelSpace newAddressSpace loadAddressAligned size PROT_WRITE);
  clear_bytes (dest + offset) (p_memsz h);;
  src ← some (slice data (p_offset h) (p_filesz h));
  write_list (dest + offset) src;;
  in_mm (unmapPhysical fuel kernelSpace dest size).

Definition loadELF (data : list Z) (newAddressSpace : Z) : ST Z :=
  bad ← some (check_elf_magic data);
  if bad : bool then set_errno EACCES;; mret (2 ^ 32 - 1) else
  phoff ← some (e_phoff data);
  phnum ← some (e_phnum data);
  for_n (Z.to_nat phnum) 0 (λ i,
    h ← some (get_program_header data (phoff + sizeof_program_header * i));
    if negb (p_type h =? PT_LOAD) then mret tt else load_segment data newAddressSpace h);;
  some (e_entry data).

(** [n] strings and the pointers to them: the pointer of string [i] goes to
    [table + 4 * i], its bytes to [nextString]. *)
Fixpoint store_strings (page pageMapped table nextString : Z) (strings : list (list Z)) : ST Z :=
  match strings with
  | [] => mret nextString
  | s :: strings =>
      in_mm (vstore table (nextString - pageMapped + page));;
      write_list nextString (s ++ [0]);;
      store_strings page pageMapped (table + 4) (nextString + Z.of_nat (length s) + 1) strings
  end.

Definition string_sizes (strings : list (list Z)) : Z :=
  foldr (λ s n, Z.of_nat (length s) + 1 + n) 0 strings.

Definition copyArguments (argv envp : list (list Z)) (newAddressSpace : Z) : ST (Z * Z * Z) :=
  let argc := Z.of_nat (length argv) in
  let envc := Z.of_nat (length envp) in
  let stringSizes := ALIGN_UP (u32 (string_sizes argv + string_sizes envp)) 4 in
  let size := ALIGN_UP (u32 (stringSizes + (argc + envc + 2) * 4)) PAGESIZE in
  page ← in_mm (mapMemory fuel newAddressSpace size (Z.lor PROT_READ PROT_WRITE));
  pageMapped ← in_mm (mapFromOtherAddressSpace fuel kernelSpace newAddressSpace page size PROT_WRITE);
  let argvMapped := pageMapped + stringSizes in
  let envpMapped := argvMapped + 4 * (argc + 1) in
  nextString ← store_strings page pageMapped argvMapped pageMapped argv;
  store_strings page pageMapped envpMapped nextString envp;;
  in_mm (vstore (argvMapped + 4 * argc) 0);;
  in_mm (vstore (envpMapped + 4 * envc) 0);;
  in_mm (unmapPhysical fuel kernelSpace pageMapped size);;
  mret (argc, page + stringSizes, page + stringSizes + (argc + 1) * 4).

(** A field of a context. *)
Definition put (context field value : Z) : ST unit := in_mm (vstore (context + field) value).

(** The three standard descriptors and the directories of a first program. *)
Definition initialize_fds (this : Z) : ST unit :=
  s ← get_ps;
  fd0 ← in_fs (new_FileDescription (FileDescription terminal 0));
  fd1 ← in_fs (new_FileDescription (FileDescription terminal 0));
  fd2 ← in_fs (new_FileDescription (FileDescription terminal 0));
  idle ← get_process (idleProcess s);
  root ← in_fs (copy_FileDescription (rootFd idle));
  cwd ← in_fs (copy_FileDescription root);
  upd this (λ p, set_fdInitialized (set_files (<[0%nat := fd0]> (<[1%nat := fd1]> (<[2%nat := fd2]> (fd p)))) root cwd p)).

Definition execute (this vnode : Z) (argv envp : list (list Z)) : ST Z :=
  n ← in_fs (get_node vnode);
  if negb (S_ISREG (mode n)) then set_errno EACCES;; mret (-1) else
  data ← in_fs (get_data vnode);
  newAddressSpace ← new_AddressSpace;
  entry ← loadELF data newAddressSpace;
  if s32 entry =? -1 then set_errno ENOEXEC;; mret (-1) else
  newkstack ← in_mm (mapMemory fuel kernelSpace PAGESIZE (Z.lor PROT_READ PROT_WRITE));
  stack ← in_mm (mapMemory fuel newAddressSpace PAGESIZE (Z.lor PROT_READ PROT_WRITE));
  let context := newkstack + PAGESIZE - sizeof_context in
  in_mm (for_n 15 0 (λ i, vstore (context + 4 * i) 0));;
  '(argc, newArgv, newEnvp) ← copyArguments argv envp newAddressSpace;
  put context ctx_eax argc;;
  put context ctx_ebx newArgv;;
  put context ctx_ecx newEnvp;;
  put context ctx_eip entry;;
  put context ctx_cs 0x1B;;
  put context ctx_eflags 0x200;;
  put context ctx_useresp (stack + PAGESIZE);;
  put context ctx_ss 0x23;;
  p ← get_process this;
  (if fdInitialized p then mret tt else initialize_fds this);;
  s ← get_ps;
  upd this (set_addressSpace newAddressSpace);;
  (if this =? current s then in_mm (activate newAddressSpace) else mret tt);;
  delete_AddressSpace (addressSpace p);;
  disable;;
  (if this =? current s then upd this (set_contextChanged true) else mret tt);;
  upd this (set_kstack newkstack);;
  upd this (set_interruptContext context);;
  (if this =? current s then enable else mret tt);;
  mret 0.

(** ** The end of a process *)
Definition delete_fd (d : Z) : ST unit := if d =? 0 then mret tt else in_fs (delete_FileDescription d).

Fixpoint close_all (fds : list Z) : ST unit :=
  match fds with
  | [] => mret tt
  | d :: fds => delete_fd d;; close_all fds
  end.

(** Takes the process out of the list. *)
Definition unlink (this : Z) : ST unit :=
  p ← get_process this;
  (if next p =? 0 then mret tt else upd (next p) (λ q, set_links (prev p) (next q) q));;
  (if prev p =? 0 then mret tt else upd (prev p) (λ q, set_links (prev q) (next p) q));;
  s ← get_ps;
  if this =? firstProcess s then modify_ps (with_firstProcess (next p)) else mret tt.

Definition exit (this st : Z) : ST unit :=
  disable;;
  unlink this;;
  p ← get_process this;
  delete_AddressSpace (addressSpace p);;
  close_all (fd p);;
  delete_fd (rootFd p);;
  delete_fd (cwdFd p);;
  upd this (set_terminated st);;
  enable.

(** ** Fork and wait *)
Definition Lens_children (this : Z) : Lens kstate bool := Lens_comp Lens_ps (Lens_child_lock this).

Fixpoint copy_fds (fds : list Z) : ST (list Z) :=
  match fds with
  | [] => mret []
  | d :: fds =>
      d' ← (if d =? 0 then mret 0 else in_fs (copy_FileDescription d));
      fds' ← copy_fds fds;
      mret (d' :: fds')
  end.

Definition regfork (this flags : Z) (r : regfork_regs) : ST Z :=
  process ← make_process;
  upd process (set_parent this);;
  kthread_mutex_lock (Lens_children this) fuel;;
  upd this (λ p, set_children (children p ++ [process]) p);;
  kthread_mutex_unlock (Lens_children this);;
  kstack ← in_mm (mapMemory fuel kernelSpace PAGESIZE (Z.lor PROT_READ PROT_WRITE));
  let context := kstack + PAGESIZE - sizeof_context in
  upd process (λ p, set_interruptContext context (set_kstack kstack p));;
  put context ctx_eax (rf_eax r);;
  put context ctx_ebx (rf_ebx r);;
  put context ctx_ecx (rf_ecx r);;
  put context ctx_edx (rf_edx r);;
  put context ctx_esi (rf_esi r);;
  put context ctx_edi (rf_edi r);;
  put context ctx_ebp (rf_ebp r);;
  put context ctx_eip (rf_eip r);;
  put context ctx_esp (rf_esp r);;
  put context ctx_int_no 0;;
  put context ctx_err_code 0;;
  put context ctx_cs 0x1B;;
  put context ctx_eflags 0x200;;
  put context ctx_ss 0x23;;
  self ← get_process this;
  space ← in_mm (fork fuel (addressSpace self));
  upd process (set_addressSpace space);;
  fds ← copy_fds (fd self);
  root ← in_fs (copy_FileDescription (rootFd self));
  cwd ← in_fs (copy_FileDescription (cwdFd self));
  upd process (λ p, set_fdInitialized (set_files fds root cwd p));;
  disable;;
  addProcess process;;
  enable;;
  mret process.

(** The lowest free descriptor. *)
Definition registerFileDescriptor (this descr : Z) : ST Z :=
  loop 21 (λ i : Z,
    if i <? 20 then
      p ← get_process this;
      match fd p !! Z.to_nat i with
      | Some d =>
          if d =? 0 then
            upd this (λ p, set_files (<[Z.to_nat i := descr]> (fd p)) (rootFd p) (cwdFd p) p);;
            mret (Done i)
          else mret (Next (i + 1))
      | None => fault
      end
    else set_errno EMFILE;; mret (Done (-1))) 0.

Definition waitpid (this wanted flags : Z) : ST Z :=
  if negb (flags =? 0) then set_errno EINVAL;; mret 0 else
  ScopedLock (Lens_children this) fuel (
    self ← get_process this;
    loop (Datatypes.S (length (children self))) (λ i : nat,
      self ← get_process this;
      match children self !! i with
      | None => set_errno ECHILD;; mret (Done 0)
      | Some result =>
          q ← get_process result;
          if negb (pid q =? wanted) then mret (Next (Datatypes.S i)) else
          kthread_mutex_unlock (Lens_children this);;
          loop fuel (λ _ : unit,
            q ← get_process result;
            if terminated q then mret (Done tt) else sched_yield;; mret (Next tt)) tt;;
          kthread_mutex_lock (Lens_children this) fuel;;
          upd this (λ p,
            let n := length (children p) in
            let last := default 0 (children p !! (n - 1)%nat) in
            let moved := if bool_decide (i < n - 1)%nat then <[i := last]> (children p) else children p in
            set_children (take (n - 1)%nat moved) p);;
          mret (Done result)
      end) 0%nat).
End operations.
