(* ===== verification/Syscall.v ===== *)
(** * System calls (kernel/src/syscall.cpp)

    The table of the calls and their implementations on the current process.
    Path names and argument lists are the strings the pointers point to;
    buffers are addresses. *)
From S2P Require Import Prelude Memory Errno Kthread Terminal Paging Segments AddressSpace Vfs Process.

(** ** The table *)
Inductive handler : Type :=
| SysPad | SysExit | SysWrite | SysRead | SysMmap | SysMunmap | SysOpenat | SysClose | SysRegfork | SysExecve
| SysWaitpid | SysFstatat | SysReaddir | SysNanosleep | SysTcgetattr | SysTcsetattr | SysFchdirat | SysUname
| SysFstat | SysBad.
#[export] Instance handler_eq_dec : EqDecision handler.
Proof. solve_decision. Defined.

Definition NUM_SYSCALLS : Z := 19.
Definition syscallList : list handler :=
  [SysPad; SysExit; SysWrite; SysRead; SysMmap; SysMunmap; SysOpenat; SysClose; SysRegfork; SysExecve; SysWaitpid;
   SysFstatat; SysReaddir; SysNanosleep; SysTcgetattr; SysTcsetattr; SysFchdirat; SysUname; SysFstat].

(** [interruptNum] is unsigned; the entry behind the end cannot be read. *)
Definition getSyscallHandler (interruptNum : Z) : option handler :=
  if NUM_SYSCALLS <=? interruptNum then Some SysBad else syscallList !! Z.to_nat interruptNum.

Definition SYSCALL_number (h : handler) : Z :=
  match h with
  | SysPad => 0 | SysExit => 1 | SysWrite => 2 | SysRead => 3 | SysMmap => 4 | SysMunmap => 5 | SysOpenat => 6
  | SysClose => 7 | SysRegfork => 8 | SysExecve => 9 | SysWaitpid => 10 | SysFstatat => 11 | SysReaddir => 12
  | SysNanosleep => 13 | SysTcgetattr => 14 | SysTcsetattr => 15 | SysFchdirat => 16 | SysUname => 17
  | SysFstat => 18 | SysBad => NUM_SYSCALLS
  end.

(** The number pad prints: the letters of INWOX added up. *)
Definition pad_number : Z := foldr (λ c n, c - ch "A" + 1 + n) 0 (str "INWOX").

(** ** fork.h, mman.h *)
Definition RFPROC : Z := Z.shiftl 1 0.
Definition RFFDG : Z := Z.shiftl 1 1.
Definition MAP_PRIVATE : Z := Z.shiftl 1 0.
Definition MAP_ANONYMOUS : Z := Z.shiftl 1 1.
Definition MAP_FAILED : Z := 0.

Record mmapRequest : Type := MmapRequest { _addr : Z; _size : Z; _protection : Z; _flags : Z; _fd : Z; _offset : Z }.

Section syscalls.
Context {E : Type} `{LE : !Lens E mem} `{D : !Device E} `{Img : !Image}.
Context `{Ym : !Sched mm} `{Yf : !Sched (vfs * E)} `{KH : !Kheap} `{FH : !Kernel_heap} `{PH : !Process_heap}.
Notation kstate := (mm * (ps * (vfs * E)))%type.
Notation ST A := (ST kstate A).
Context `{Y : !Sched kstate} (fuel : nat).

Definition current_process : ST process := s ← get_ps; get_process (current s).

(** [Process::current->fd[fd]]; the index is not checked. *)
Definition get_descriptor (n : Z) : ST Z :=
  p ← current_process;
  if n <? 0 then fault else some (fd p !! Z.to_nat n).

Definition getRootFd (n : Z) (path : list Z) : ST Z :=
  p ← current_process;
  if bool_decide (head path = Some SLASH) then mret (rootFd p)
  else if n =? AT_FDCWD then mret (cwdFd p)
  else get_descriptor n.

Definition exit (st : Z) : ST unit := s ← get_ps; Process.exit fuel (current s) st;; sched_yield.

Definition read (n buffer size : Z) : ST Z := d ← get_descriptor n; in_fs (fd_read fuel d buffer size).
Definition write (n buffer size : Z) : ST Z := d ← get_descriptor n; in_fs (fd_write fuel d buffer size).

Definition openat (n : Z) (path : list Z) (flags mode : Z) : ST Z :=
  d ← getRootFd n path;
  p ← current_process;
  result ← in_fs (Vfs.openat fuel d path flags (Z.land mode (Z.lnot (umask p))));
  if result =? 0 then mret (-1) else
  s ← get_ps;
  registerFileDescriptor (current s) result.

Definition set_fd (n d : Z) : ST unit :=
  s ← get_ps;
  upd (current s) (λ p, set_files (<[Z.to_nat n := d]> (fd p)) (rootFd p) (cwdFd p) p).

Definition close (n : Z) : ST Z :=
  d ← get_descriptor n;
  if d =? 0 then set_errno EBADF;; mret (-1) else
  in_fs (delete_FileDescription d);;
  set_fd n 0;;
  mret 0.

Definition regfork (flags : Z) (registers : regfork_regs) : ST Z :=
  if negb (Z_bool (Z.land flags RFPROC) && Z_bool (Z.land flags RFFDG)) then set_errno EINVAL;; mret (-1) else
  s ← get_ps;
  newProcess ← Process.regfork fuel (current s) flags registers;
  q ← get_process newProcess;
  mret (pid q).

(** [None]: the call does not return. *)
Definition execve (path : option (list Z)) (argv envp : list (list Z)) : ST (option Z) :=
  match path with
  | None | Some [] => mret (Some (-1))
  | Some path =>
      d ← getRootFd AT_FDCWD path;
      descr ← in_fs (get_fd d);
      vnode ← in_fs (resolvePath fuel (fd_vnode descr) path);
      if vnode =? 0 then mret (Some (-1)) else
      s ← get_ps;
      r ← execute fuel (current s) vnode argv envp;
      if r =? -1 then mret (Some (-1)) else sched_yield;; mret None
  end.

Definition waitpid (wanted statusp flags : Z) : ST Z :=
  s ← get_ps;
  process ← Process.waitpid fuel (current s) wanted flags;
  if process =? 0 then mret (-1) else
  q ← get_process process;
  in_fs (store32 statusp (u32 (status q)));;
  delete_process fuel process;;
  mret wanted.

Definition fstat (n result : Z) : ST Z :=
  d ← get_descriptor n;
  descr ← in_fs (get_fd d);
  in_fs (stat (fd_vnode descr) result).

Definition fstatat (n : Z) (path : list Z) (result flags : Z) : ST Z :=
  d ← getRootFd n path;
  descr ← in_fs (get_fd d);
  vnode ← in_fs (resolvePath fuel (fd_vnode descr) path);
  if vnode =? 0 then mret (-1) else in_fs (stat vnode result).

Definition readdir (n offset buffer size : Z) : ST Z :=
  d ← get_descriptor n; in_fs (fd_readdir fuel d offset buffer size).
Definition tcgetattr (n : Z) : ST (Z * option termios) := d ← get_descriptor n; in_fs (fd_tcgetattr d).
Definition tcsetattr (n flags : Z) (termio : termios) : ST Z :=
  d ← get_descriptor n; in_fs (fd_tcsetattr d flags termio).

Definition fchdirat (dirfd : Z) (path : list Z) : ST Z :=
  d ← getRootFd dirfd path;
  newCwd ← in_fs (Vfs.openat fuel d path 0 0);
  if newCwd =? 0 then mret (-1) else
  descr ← in_fs (get_fd newCwd);
  n ← in_fs (get_node (fd_vnode descr));
  if negb (S_ISDIR (mode n)) then set_errno ENOTDIR;; mret (-1) else
  s ← get_ps;
  p ← get_process (current s);
  delete_fd (cwdFd p);;
  upd (current s) (λ p, set_files (fd p) (rootFd p) newCwd p);;
  mret 0.

Definition mmapImplementation (size protection flags : Z) : ST Z :=
  if (size <=? 0) || negb (Z_bool (Z.land flags MAP_PRIVATE)) then set_errno EINVAL;; mret MAP_FAILED else
  if Z_bool (Z.land flags MAP_ANONYMOUS) then
    p ← current_process;
    in_mm (mapMemory fuel (addressSpace p) size protection)
  else set_errno ENOTSUP;; mret MAP_FAILED.

Definition mmap (request : mmapRequest) : ST Z :=
  mmapImplementation (_size request) (_protection request) (_flags request).

Definition munmap (addr size : Z) : ST Z :=
  if (size =? 0) || negb (Z.land addr 0xFFF =? 0) then set_errno EINVAL;; mret (-1) else
  p ← current_process;
  in_mm (unmapMemory fuel (addressSpace p) addr size);;
  mret 0.
End syscalls.
