(* ===== verification/MemoryCalls.v ===== *)
(** * mmap and munmap

    The system calls through which a process gets memory and gives it back, on
    the whole state of the kernel: the current process, its address space, its
    segment list, the page tables and the page frames. *)
From S2P Require Import Prelude Errno Kthread Paging PagingLaws PagingMap PagingDemo Segments SegmentLaws SegmentDemo AddressSpace SpaceLaws SpaceDemo Vfs Process Syscall.

Section calls.
Context {E : Type} `{Img : !Image} `{Y : !Sched mm} (fuel : nat).
Notation kstate := (mm * (ps * (vfs * E)))%type.

(** The current process has the address space [a]. *)
Definition runs_in (s : ps) (a : Z) : Prop := ∃ p, procs s !! current s = Some p ∧ addressSpace p = a.

Lemma run_in_space {A} (m : mm) s (f : vfs * E) a (call : Z → Prelude.ST mm A) (r : A) m' :
  runs_in s a → call a m = Ok (r, m') →
  (p ← current_process; in_mm (call (addressSpace p))) (m, (s, f)) = Ok (r, (m', (s, f))).
Proof.
  intros (p & Hp & <-) Hc. unfold current_process, get_ps, get_process, in_ps, in_mm, mbind, ST_bind, zoom. cbn.
  rewrite Hp. cbn. by rewrite Hc.
Qed.


(** C20. munmap of a segment takes its memory away from the running process: no
    page of it is translated any more, the frame behind each is among the free
    frames again and no other leaves them, the segment is out of the list and
    its slot free.  Segment list and page tables of the process agree
    afterwards, and every other page of this and of the other processes is
    translated as before and holds what it held. *)
Theorem munmap_takes_memory own K m s v (e : E) a l1 x l2 slots slast t :
  let l := l1 ++ x :: l2 in
  process_ok own K m a l → runs_in s a → a ≠ kernelSpace → quiet fuel m → spaceMutex a ∉ held m → segMutex ∉ held m →
  reserved x = false → slot_list (segs m) (nextPages m) segmentsPage slots slast → (length slots <= fuel)%nat →
  e_ptr x ∈ slots → NoDup slots → count_free (segs m) slots ≠ 0 → (length l < fuel)%nat → (2 <= fuel)%nat →
  e_size x / 4096 < Z.of_nat fuel → temp_table own K m t → frames_left m + e_size x / 4096 <= 1024 * 1024 →
  ∃ own' m', Syscall.munmap fuel (e_addr x) (e_size x) (m, (s, (v, e))) = Ok (0, (m', (s, (v, e)))) ∧ held m' = held m ∧
    memory_taken own K m own' m' a l1 x l2 t.
Proof.
  intros l Hok Hrun Ha Q Hlock Hsl Hr Hslots Hslen Hin Hnds Hcount Hlen Hfuel Hn Ht Hpos.
  destruct (process_list_remove l1 x l2 (po_list _ _ _ _ _ Hok) Hr) as (_ & Ham & _).
  pose proof (sorted_all _ _ x (po_sorted _ _ _ _ _ Hok) ltac:(set_solver)) as (_ & Hsz & _).
  destruct (unmapMemory_ok fuel own K m a l1 x l2 slots slast t) as (own' & m' & Hun & Hheld & Htaken & _); try done.
  { by apply quiet_steady. }
  exists own', m'. split; [|done]. unfold Syscall.munmap. change 0xFFF with (Z.ones 12). rewrite Z.land_ones by lia.
  change (2 ^ 12) with 4096. rewrite Ham. zcase (e_size x =? 0). cbn [orb negb Z.eqb].
  destruct Hrun as (p & Hp & <-). unfold current_process, get_ps, get_process, in_ps, in_mm, mbind, ST_bind, zoom. cbn.
  rewrite Hp. cbn. by rewrite Hun.
Qed.
End calls.

(** ** On the process of SpaceDemo.v *)
Definition demo_running : ps := Ps (list_to_map
  [(22, Process 1002 0 0 0x5000 false true false 0 [] demo_process [] 10 0 2 0 0x12)]) 22 22 20 6 ∅ true 0.
Definition demo_no_files : vfs := Vfs ∅ ∅ ∅ 0 0.
Definition demo_request (size prot : Z) : mmapRequest := MmapRequest 0 size prot (Z.lor MAP_PRIVATE MAP_ANONYMOUS) (-1) 0.

Lemma demo_runs_in : runs_in demo_running demo_process.
Proof. eexists. by split. Qed.


Lemma munmap_takes_memory_witness :
  ∃ m m', page_at m demo_process 1 ≠ None ∧
    Syscall.munmap 300 0x1000 0x1000 (m, (demo_running, (demo_no_files, tt))) = Ok (0, (m', (demo_running, (demo_no_files, tt)))) ∧
    page_at m' demo_process 1 = None ∧ frames_left m = 2 ∧ frames_left m' = 3.
Proof.
  destruct demo_used_ok as (own & s & t & Hok & Ht & Hheld & Hsg & Hnp & Q & Hl).
  destruct (munmap_takes_memory 300 own 0x100000 s demo_running demo_no_files tt demo_process [demo_null] demo_page [demo_high]
    demo_slots (segmentsPage + slots_end) t Hok demo_runs_in) as (own' & s' & Hrun & _ & _ & Hpages & Hl' & _).
  - apply (bool_decide_eq_true_1 _). vm_compute. reflexivity.
  - exact Q.
  - rewrite Hheld. apply not_elem_of_empty.
  - rewrite Hheld. apply not_elem_of_empty.
  - reflexivity.
  - rewrite Hsg, Hnp. apply slot_list_check. vm_compute. reflexivity.
  - vm_compute. lia.
  - apply (bool_decide_eq_true_1 _). vm_compute. reflexivity.
  - exact demo_slots_nodup.
  - rewrite Hsg. apply Z.eqb_neq. vm_compute. reflexivity.
  - cbn. lia.
  - lia.
  - by vm_compute.
  - exact Ht.
  - rewrite Hl. by vm_compute.
  - destruct (Hpages 1) as (Hnone & g & r & Hg & _); [unfold covers, e_end; cbn; lia|].
    exists s, s'. split; [congruence|]. split; [exact Hrun|]. split; [exact Hnone|]. split; [exact Hl|].
    rewrite Hl', Hl. reflexivity.
Defined.

(** ** What mmap does not promise

    The comment of [mmapImplementation] calls the address a hint near which the
    mapping is placed, and says that anonymous memory is filled with zeros.  The
    address is not looked at, and [map_pages] maps the frames as they are: here
    one with the word 42 of its last owner. *)
Example mmap_hint_and_zeros :
  let stale := with_phys (<[0x108000 + 8 := 42]> (phys (demo_process_mm demo_fresh))) (demo_process_mm demo_fresh) in
  match Syscall.mmap 300 (MmapRequest 0x40000000 0x1000 3 (Z.lor MAP_PRIVATE MAP_ANONYMOUS) (-1) 0)
          (stale, (demo_running, (demo_no_files, tt))) with
  | Ok (addr, (m, _)) => addr = 0x1000 ∧ (x ← page_at m demo_process 1; phys m !! (x.1 + 8)) = Some 42
  | Fault | NoFuel => False
  end.
Proof. unfold demo_process_mm, demo_mm. rewrite demo_phys_eq. vm_compute. by split. Qed.

(** ** What mmap does not check

    mmap hands size and protection on as the program passes them.  A size that
    is not whole pages makes the next gap start inside a page, and the next
    mmap fails the assertion of [addressToIndex]; so does a protection with
    other bits in [mapAt].  A failed assertion stops the kernel. *)
Example mmap_twice_unaligned :
  (Syscall.mmap 300 (demo_request 100 3);; Syscall.mmap 300 (demo_request 100 3))
    (demo_process_mm demo_fresh, (demo_running, (demo_no_files, tt))) = Fault.
Proof. unfold demo_process_mm, demo_mm. by_memory. Qed.

Example mmap_any_protection :
  Syscall.mmap 300 (demo_request 0x1000 8) (demo_process_mm demo_fresh, (demo_running, (demo_no_files, tt))) = Fault.
Proof. unfold demo_process_mm, demo_mm. by_memory. Qed.

(** munmap of a length that is not whole pages unmaps the last page as a whole
    but leaves the rest of the segment in the list, from inside the page on. *)
Example munmap_unaligned :
  match (Syscall.mmap 300 (demo_request 0x1000 3);; Syscall.munmap 300 0x1000 100)
          (demo_process_mm demo_fresh, (demo_running, (demo_no_files, tt))) with
  | Ok (_, (m, _)) =>
      page_at m demo_process 1 = None ∧
      seg_address <$> segs m !! 0xC0021014 = Some (0x1000 + 100) ∧ seg_size <$> segs m !! 0xC0021014 = Some (0x1000 - 100)
  | Fault | NoFuel => False
  end.
Proof. unfold demo_process_mm, demo_mm. rewrite demo_phys_eq. vm_compute. by split_and!. Qed.
