(* ===== verification/ProcessLaws.v ===== *)
(** * Properties of processes: the run list, scheduling, descriptors, waiting *)
From S2P Require Import Prelude Links Memory Errno Kthread Terminal Paging Segments AddressSpace Vfs Process.

(** ** The list of running processes *)
(** [l] is the list from [firstProcess], linked in both directions. *)
Record run_list (s : ps) (l : list Z) : Prop := {
  rl_first : firstProcess s = head0 l;
  rl_nodup : NoDup l;
  rl_null : 0 ∉ l;
  rl_links : ∀ l1 q l2, l = l1 ++ q :: l2 →
    ∃ x, procs s !! q = Some x ∧ prev x = last0 l1 ∧ next x = head0 l2;
}.

(** The pids of the processes that exist are distinct and below the next one. *)
Record pids_ok (s : ps) : Prop := {
  pid_range : ∀ p x, procs s !! p = Some x → pid x < nextPid s;
}.

Section laws.
Context {E : Type} `{LE : !Lens E mem} `{D : !Device E} `{Img : !Image}.
Context `{Ym : !Sched mm} `{Yf : !Sched (vfs * E)} `{KH : !Kheap} `{FH : !Kernel_heap} `{PH : !Process_heap}.
Notation kstate := (mm * (ps * (vfs * E)))%type.
Notation ST A := (ST kstate A).
Context `{Y : !Sched kstate} (fuel : nat).
Implicit Types (m : mm) (s : ps) (f : vfs * E).

Lemma run_get_ps {A} (k : ps → ST A) m s f : (get_ps ≫= k) (m, (s, f)) = k s (m, (s, f)).
Proof. done. Qed.
Lemma run_modify_ps {A} g (k : unit → ST A) m s f : (modify_ps g ≫= k) (m, (s, f)) = k tt (m, (g s, f)).
Proof. done. Qed.
Lemma get_process_ok m s f p x :
  procs s !! p = Some x → get_process p (m, (s, f)) = Ok (x, (m, (s, f))).
Proof. intros Hp. unfold get_process, in_ps, zoom. cbn. by rewrite Hp. Qed.

Definition update (p : Z) (x : process) (s : ps) : ps := with_procs (<[p := x]> (procs s)) s.

Lemma upd_ok m s f p x g :
  procs s !! p = Some x → upd p g (m, (s, f)) = Ok (tt, (m, (update p (g x) s, f))).
Proof. intros Hp. unfold upd, in_ps, zoom. cbn. by rewrite Hp. Qed.

(** Two tables that differ in the links only. *)
Definition same_but_links (s s' : ps) : Prop :=
  ∀ p, match procs s !! p, procs s' !! p with
       | Some x, Some x' => x' = set_links (prev x') (next x') x
       | None, None => True
       | _, _ => False
       end.

Lemma same_refl s : same_but_links s s.
Proof. intros p. destruct (procs s !! p) as [[]|]; done. Qed.

Lemma same_update s p x a b :
  procs s !! p = Some x → same_but_links s (update p (set_links a b x) s).
Proof.
  intros Hp q. unfold update. cbn. destruct (decide (p = q)) as [->|Hne].
  - by rewrite Hp, lookup_insert_eq.
  - rewrite lookup_insert_ne by done. apply (same_refl s q).
Qed.

Lemma same_trans s1 s2 s3 : same_but_links s1 s2 → same_but_links s2 s3 → same_but_links s1 s3.
Proof.
  intros H1 H2 p. specialize (H1 p). specialize (H2 p).
  destruct (procs s1 !! p) as [x1|], (procs s2 !! p) as [x2|], (procs s3 !! p) as [x3|]; try done.
  rewrite H2, H1. by destruct x1.
Qed.

(** *** addProcess *)
Lemma addProcess_ok m s f l p x :
  run_list s l → procs s !! p = Some x → prev x = 0 → p ∉ l → p ≠ 0 → 0 <= nextPid s < 2 ^ 31 - 1 →
  ∃ s', addProcess p (m, (s, f)) = Ok (tt, (m, (s', f))) ∧ run_list s' (p :: l) ∧
    procs s' !! p = Some (set_links 0 (head0 l) (set_pid (nextPid s) x)) ∧
    nextPid s' = nextPid s + 1 ∧ current s' = current s ∧ idleProcess s' = idleProcess s ∧
    ∀ q, q ≠ p → match procs s !! q, procs s' !! q with
                 | Some y, Some y' => y' = set_links (prev y') (next y') y
                 | None, None => True
                 | _, _ => False
                 end.
Proof.
  intros R Hp Hprev Hnot H0 Hpid. unfold addProcess. rewrite run_get_ps, run_modify_ps.
  rewrite s32_small by lia. set (s1 := with_nextPid (nextPid s + 1) s).
  rewrite (bind_ok _ _ _ _ _ (upd_ok m s1 f p x _ Hp)). rewrite Hprev, (rl_first _ _ R).
  set (s2 := update p _ s1).
  destruct l as [|h l].
  - change (head0 []) with 0 in *. change (0 =? 0) with true. cbv iota. rewrite bind_ret.
    eexists. split; [reflexivity|]. split_and!; try done.
    + constructor; cbn [firstProcess with_firstProcess]; [done|apply NoDup_singleton|set_solver|].
      intros l1 q l2 Heq. destruct l1 as [|? l1]; [|by destruct l1]. injection Heq as <- <-.
      eexists. split; [apply lookup_insert_eq|done].
    + apply lookup_insert_eq.
    + intros q Hq. cbn. rewrite lookup_insert_ne by done. apply (same_refl s q).
  - destruct (rl_links _ _ R [] h l eq_refl) as (y & Hy & Hyp & Hyn).
    assert (h ≠ p) as Hhp by set_solver. assert (h ≠ 0) as Hh0 by (intros ->; apply (rl_null _ _ R); left).
    change (head0 (h :: l)) with h in *. zcase (h =? 0).
    assert (procs s2 !! h = Some y) as Hy2 by (cbn; by rewrite lookup_insert_ne).
    rewrite (bind_ok _ _ _ _ _ (upd_ok m s2 f h y _ Hy2)).
    eexists. split; [reflexivity|]. pose proof (rl_nodup _ _ R) as Hnd. split_and!; try done.
    + constructor; cbn [firstProcess with_firstProcess]; [done|by constructor|pose proof (rl_null _ _ R); set_solver|].
      intros l1 q l2 Heq. destruct l1 as [|p' l1]; cbn in Heq.
      * injection Heq as <- <-. exists (set_links 0 h (set_pid (nextPid s) x)). split; [|done].
        cbn. by rewrite lookup_insert_ne, lookup_insert_eq.
      * injection Heq as <- Heq. destruct l1 as [|h' l1]; cbn in Heq.
        -- injection Heq as -> ->. eexists. split; [apply lookup_insert_eq|done].
        -- injection Heq as -> Heq. destruct (rl_links _ _ R (h' :: l1) q l2) as (z & Hz & Hzp & Hzn); [by rewrite Heq|].
           assert (q ∈ l) by (rewrite Heq; apply elem_of_app; right; left).
           exists z. split; [|split; [rewrite Hzp; symmetry; exact (last0_app [p] _ l1)|done]].
           apply NoDup_cons in Hnd as [Hnd _]. cbn. rewrite !lookup_insert_ne by set_solver. done.
    + cbn. by rewrite lookup_insert_ne, lookup_insert_eq.
    + intros q Hq. cbn. destruct (decide (h = q)) as [->|].
      * by rewrite Hy, lookup_insert_eq.
      * rewrite !lookup_insert_ne by done. apply (same_refl s q).
Qed.

(** *** Taking a process out of the list *)
Lemma procs_update s p x q :
  procs (update p x s) !! q = if decide (p = q) then Some x else procs s !! q.
Proof. cbn. case_decide as Hpq; [subst; apply lookup_insert_eq|by apply lookup_insert_ne]. Qed.

(** The neighbours after the removal of what is between [l1] and [l2]. *)
Definition joined (l1 l2 : list Z) (q : Z) (x : process) : process :=
  set_links (if decide (l2 ≠ [] ∧ q = head0 l2) then last0 l1 else prev x)
            (if decide (l1 ≠ [] ∧ q = last0 l1) then head0 l2 else next x) x.

Lemma set_links_id x : set_links (prev x) (next x) x = x.
Proof. by destruct x. Qed.

Lemma joined_list s l1 p l2 s' :
  run_list s (l1 ++ p :: l2) → firstProcess s' = head0 (l1 ++ l2) →
  (∀ q x, q ≠ p → procs s !! q = Some x → procs s' !! q = Some (joined l1 l2 q x)) →
  run_list s' (l1 ++ l2).
Proof.
  intros R Hfirst Hj. destruct (links_remove prev next (procs s) (procs s') l1 p l2) as [Hnd Hnull Hlinks].
  - by destruct R.
  - intros q x Hq Hx. exists (joined l1 l2 q x). auto.
  - by constructor.
Qed.

Lemma unlink_ok m s f l1 p l2 :
  run_list s (l1 ++ p :: l2) →
  ∃ s', unlink p (m, (s, f)) = Ok (tt, (m, (s', f))) ∧ run_list s' (l1 ++ l2) ∧
    current s' = current s ∧ idleProcess s' = idleProcess s ∧ nextPid s' = nextPid s ∧
    interrupts s' = interrupts s ∧ procs s' !! p = procs s !! p ∧ same_but_links s s'.
Proof.
  intros R. pose proof (rl_nodup _ _ R) as Hnd. pose proof (rl_null _ _ R) as Hnull.
  assert (p ∉ l1 ∧ p ∉ l2) as [Hp1 Hp2].
  { rewrite <-Permutation_middle in Hnd. apply NoDup_cons in Hnd as [? ?]. set_solver. }
  destruct (rl_links _ _ R l1 p l2 eq_refl) as (x & Hx & Hxp & Hxn).
  unfold unlink. rewrite (bind_ok _ _ _ _ _ (get_process_ok m s f p x Hx)).
  (* the successor *)
  assert (∃ s1, (if next x =? 0 then mret tt else upd (next x) (λ q, set_links (prev x) (next q) q)) (m, (s, f)) =
      Ok (tt, (m, (s1, f))) ∧ s1 = with_procs (procs s1) s ∧ same_but_links s s1 ∧
      ∀ q y, procs s !! q = Some y → procs s1 !! q =
        Some (set_links (if decide (l2 ≠ [] ∧ q = head0 l2) then last0 l1 else prev y) (next y) y))
    as (s1 & Hrun1 & Hs1 & Hsame1 & Hq1).
  { destruct l2 as [|n l2].
    - rewrite Hxn. change (head0 [] =? 0) with true. exists s. split_and!; [done|by destruct s|apply same_refl|].
      intros q y Hy. rewrite decide_False by tauto. by rewrite set_links_id.
    - rewrite Hxn. change (head0 (n :: l2)) with n. assert (n ≠ 0) by set_solver. zcase (n =? 0).
      destruct (rl_links _ _ R (l1 ++ [p]) n l2) as (y & Hy & _); [by rewrite <-app_assoc|].
      rewrite (upd_ok m s f n y _ Hy). eexists. split_and!; [done|done|by apply same_update|].
      intros q z Hz. rewrite procs_update, Hxp. destruct (decide (n = q)) as [Hnq|Hnq].
      + subst q. rewrite Hy in Hz. injection Hz as ->. by rewrite decide_True.
      + rewrite decide_False by (intros [_ Hq]; by apply Hnq). by rewrite set_links_id. }
  (* the predecessor *)
  assert (∃ s2, (if prev x =? 0 then mret tt else upd (prev x) (λ q, set_links (prev q) (next x) q)) (m, (s1, f)) =
      Ok (tt, (m, (s2, f))) ∧ s2 = with_procs (procs s2) s ∧ same_but_links s s2 ∧
      ∀ q y, procs s !! q = Some y → procs s2 !! q = Some (joined l1 l2 q y))
    as (s2 & Hrun2 & Hs2 & Hsame2 & Hq2).
  { destruct l1 as [|v l1 _] using rev_ind.
    - rewrite Hxp. change (last0 [] =? 0) with true. exists s1. split_and!; [done|done|done|].
      intros q y Hy. rewrite (Hq1 _ _ Hy). unfold joined. by rewrite (decide_False (P := [] ≠ [] ∧ _)) by tauto.
    - rewrite Hxp, last0_snoc. assert (v ≠ 0) by set_solver. zcase (v =? 0).
      destruct (rl_links _ _ R l1 v (p :: l2)) as (y & Hy & _); [by rewrite <-app_assoc|].
      pose proof (Hq1 _ _ Hy) as Hy1. rewrite (upd_ok m s1 f v _ _ Hy1).
      eexists. split_and!; [done|by rewrite Hs1|eapply same_trans; [exact Hsame1|by apply same_update]|].
      intros q z Hz. rewrite procs_update, Hxn. unfold joined. rewrite last0_snoc. destruct (decide (v = q)) as [Hvq|Hvq].
      + subst q. rewrite Hy in Hz. injection Hz as ->. rewrite (decide_True (P := l1 ++ [v] ≠ [] ∧ v = v)); [done|].
        split; [by destruct l1|done].
      + rewrite (decide_False (P := l1 ++ [v] ≠ [] ∧ q = v)) by (intros [_ Hq]; by apply Hvq).
        rewrite (Hq1 _ _ Hz). by rewrite last0_snoc. }
  assert (procs s2 !! p = procs s !! p) as Hpp.
  { rewrite (Hq2 _ _ Hx), Hx. unfold joined. rewrite !decide_False.
    - by rewrite set_links_id.
    - intros [Hne Hq]. apply Hp1. destruct l1 as [|v l1 _] using rev_ind; [done|]. rewrite last0_snoc in Hq. set_solver.
    - intros [Hne Hq]. apply Hp2. destruct l2; [done|]. rewrite Hq. set_solver. }
  rewrite (bind_ok _ _ _ _ _ Hrun1), (bind_ok _ _ _ _ _ Hrun2).
  rewrite run_get_ps. rewrite Hs2. cbn [firstProcess with_procs]. rewrite (rl_first _ _ R). rewrite <-Hs2.
  zcase (p =? head0 (l1 ++ p :: l2)).
  - assert (l1 = []) as ->.
    { destruct l1 as [|v l1]; [done|]. exfalso. apply Hp1. change (head0 ((v :: l1) ++ p :: l2)) with v in *. set_solver. }
    exists (with_firstProcess (next x) s2). split; [done|]. split.
    + apply (joined_list s [] p l2); [done|done|]. intros q y _ Hy. by apply Hq2.
    + rewrite Hs2. split_and!; try done; by rewrite <-Hs2.
  - exists s2. split; [done|]. split.
    + apply (joined_list s l1 p l2); [done| |intros q y _ Hy; by apply Hq2].
      rewrite Hs2. cbn [firstProcess with_procs]. rewrite (rl_first _ _ R). destruct l1; [done|]. done.
    + rewrite Hs2. split_and!; try done; by rewrite <-Hs2.
Qed.

(** ** Scheduling *)
Definition next_current (s : ps) (c : process) : Z :=
  if next c =? 0 then (if firstProcess s =? 0 then idleProcess s else firstProcess s) else next c.

(** The record of the process the CPU is taken from. *)
Definition saved (context : Z) (c : process) : process :=
  if contextChanged c then set_contextChanged false c else set_interruptContext context c.

Definition switched (context : Z) (c d : process) (s : ps) : ps :=
  with_esp0 (u32 (kstack d + PAGESIZE)) (with_current (next_current s c) (update (current s) (saved context c) s)).

Lemma schedule_ok m s f context c d sp :
  procs s !! current s = Some c →
  procs (update (current s) (saved context c) s) !! next_current s c = Some d →
  spaces m !! addressSpace d = Some sp →
  schedule context (m, (s, f)) =
  Ok (interruptContext d, (with_cr3 (pageDir sp) m, (switched context c d s, f))).
Proof.
  intros Hc Hd Hsp. unfold schedule. rewrite run_get_ps, (bind_ok _ _ _ _ _ (get_process_ok m s f _ c Hc)).
  set (s1 := update (current s) (saved context c) s) in *.
  assert ((if negb (contextChanged c) then upd (current s) (set_interruptContext context)
           else upd (current s) (set_contextChanged false)) (m, (s, f)) = Ok (tt, (m, (s1, f)))) as H1.
  { unfold s1, saved. destruct (contextChanged c); by apply upd_ok. }
  rewrite (bind_ok _ _ _ _ _ H1). set (s2 := with_current (next_current s c) s1).
  assert ((if negb (next c =? 0) then modify_ps (with_current (next c))
           else if negb (firstProcess s =? 0) then modify_ps (with_current (firstProcess s))
           else modify_ps (with_current (idleProcess s))) (m, (s1, f)) = Ok (tt, (m, (s2, f)))) as H2.
  { unfold s2, next_current. destruct (next c =? 0); [|done]. by destruct (firstProcess s =? 0). }
  rewrite (bind_ok _ _ _ _ _ H2), run_get_ps.
  rewrite (bind_ok _ _ _ _ _ (get_process_ok m s2 f _ d Hd)). unfold setKernelStack. rewrite run_modify_ps.
  unfold in_mm, zoom, mbind, ST_bind, activate, get_space, get_mm, modify_mm. cbn. unfold mbind, ST_bind. by rewrite Hsp.
Qed.

Lemma saved_fields context c :
  prev (saved context c) = prev c ∧ next (saved context c) = next c ∧ addressSpace (saved context c) = addressSpace c.
Proof. unfold saved. by destruct (contextChanged c). Qed.

(** The list does not change. *)
Lemma run_list_saved s l context c d :
  run_list s l → procs s !! current s = Some c → run_list (switched context c d s) l.
Proof.
  intros R Hc. destruct R as [Hf Hnd Hnull Hlinks]. constructor; [done..|].
  intros l1 q l2 Heq. destruct (Hlinks l1 q l2 Heq) as (x & Hx & Hp & Hn).
  unfold switched. cbn. destruct (decide (current s = q)) as [<-|Hne].
  - rewrite lookup_insert_eq. rewrite Hc in Hx. injection Hx as ->. eexists. split; [done|].
    destruct (saved_fields context x) as (-> & -> & _). done.
  - rewrite lookup_insert_ne by done. eauto.
Qed.

(** [context] at every tick. *)
Fixpoint ticks (contexts : list Z) : ST unit :=
  match contexts with
  | [] => mret tt
  | context :: contexts => schedule context;; ticks contexts
  end.

(** Every process of the list has an address space. *)
Definition runnable (m : mm) (s : ps) (l : list Z) : Prop :=
  ∀ p, p ∈ l → ∃ x sp, procs s !! p = Some x ∧ spaces m !! addressSpace x = Some sp.

Lemma ticks_ok m s f l i contexts :
  run_list s l → runnable m s l → l !! i = Some (current s) →
  ∃ m' s', ticks contexts (m, (s, f)) = Ok (tt, (m', (s', f))) ∧ run_list s' l ∧ runnable m' s' l ∧
    l !! ((i + length contexts) mod length l)%nat = Some (current s').
Proof.
  intros R Hrun Hi. revert m s i R Hrun Hi. induction contexts as [|context contexts IH]; intros m s i R Hrun Hi.
  - exists m, s. split; [done|]. split; [done|]. split; [done|]. cbn [length]. rewrite Nat.add_0_r, Nat.mod_small; [done|].
    by eapply lookup_lt_Some.
  - apply list_elem_of_split_length in Hi as Hsplit. destruct Hsplit as (l1 & l2 & Hl & Hlen).
    destruct (rl_links _ _ R l1 (current s) l2 Hl) as (c & Hc & _ & Hn).
    assert (∃ i', l !! i' = Some (next_current s c) ∧
      ((i' + length contexts) mod length l = (i + length (context :: contexts)) mod length l)%nat) as (i' & Hi' & Hmod).
    { unfold next_current. rewrite Hn. pose proof (rl_null _ _ R) as Hnull. destruct l2 as [|n l2].
      - change (head0 [] =? 0) with true. cbv iota. rewrite (rl_first _ _ R).
        assert (head0 l ∈ l) as Hin by (rewrite Hl; destruct l1; left).
        zcase (head0 l =? 0); [by rewrite Heqb in Hin|]. exists 0%nat. split; [rewrite Hl; by destruct l1|].
        assert (length l = Datatypes.S i) as -> by (rewrite Hl, length_app; cbn; lia). cbn [length].
        replace (i + Datatypes.S (length contexts))%nat with (length contexts + 1 * Datatypes.S i)%nat by lia.
        by rewrite Nat.Div0.mod_add.
      - change (head0 (n :: l2)) with n. assert (n ≠ 0) by (intros ->; apply Hnull; rewrite Hl; set_solver).
        zcase (n =? 0). exists (Datatypes.S i). split; [|cbn [length]; f_equal; lia].
        rewrite Hl, lookup_app_r by lia. by replace (Datatypes.S i - length l1)%nat with 1%nat by lia. }
    assert (next_current s c ∈ l) as Hin by by eapply list_elem_of_lookup_2.
    destruct (Hrun _ Hin) as (x & sp & Hx & Hsp).
    assert (∃ d, procs (update (current s) (saved context c) s) !! next_current s c = Some d ∧
                 addressSpace d = addressSpace x) as (d & Hd & Hda).
    { rewrite procs_update. case_decide as Heq; [|eauto]. rewrite <-Heq, Hc in Hx. injection Hx as ->.
      eexists. split; [done|]. apply saved_fields. }
    rewrite <-Hda in Hsp. cbn [ticks].
    rewrite (bind_ok _ _ _ _ _ (schedule_ok m s f context c d sp Hc Hd Hsp)).
    destruct (IH (with_cr3 (pageDir sp) m) (switched context c d s) i') as (m' & s' & Hrest & R' & Hrun' & Hcur).
    + by apply run_list_saved.
    + intros p Hp. destruct (Hrun p Hp) as (y & spy & Hy & Hspy). cbn. destruct (decide (current s = p)) as [<-|].
      * rewrite lookup_insert_eq. rewrite Hc in Hy. injection Hy as ->. eexists _, spy. split; [done|].
        by rewrite (proj2 (proj2 (saved_fields context y))).
      * rewrite lookup_insert_ne by done. eauto.
    + done.
    + exists m', s'. rewrite <-Hmod. done.
Qed.
End laws.
