(* ===== verification/RunList.v ===== *)
(** * What the process operations promise

    Scheduling, the end of a process, descriptors and waiting, stated on the
    list of running processes. *)
From S2P Require Import Prelude Links Memory Errno Kthread Terminal Paging Segments AddressSpace Vfs Process ProcessLaws.

Section theorems.
Context {E : Type} `{LE : !Lens E mem} `{D : !Device E} `{Img : !Image}.
Context `{Ym : !Sched mm} `{Yf : !Sched (vfs * E)} `{KH : !Kheap} `{FH : !Kernel_heap} `{PH : !Process_heap}.
Notation kstate := (mm * (ps * (vfs * E)))%type.
Notation ST A := (ST kstate A).
Context `{Y : !Sched kstate} (fuel : nat).
Implicit Types (m : mm) (s : ps) (f : vfs * E).

(** C27. schedule saves the context it is given in the current process, which is
    in the list, is the idle process or has just left the list (unless the program of the process was just replaced, when the new context is kept
    and only the mark is cleared), goes on to the next process of the list, to
    the first one from the end, or to the idle process when the list is empty,
    sets the kernel stack and the page directory of the process it goes to, and
    returns that process's saved context. *)
Theorem schedule_switches m s f l l1 l2 context c :
  run_list s l → procs s !! current s = Some c → next c = head0 l2 →
  (l = l1 ++ current s :: l2 ∨ l = l1 ++ l2) →
  let target := match l2 with n :: _ => n | [] => match l with n :: _ => n | [] => idleProcess s end end in
  let c' := if contextChanged c then set_contextChanged false c else set_interruptContext context c in
  ∀ d sp, (if decide (target = current s) then d = c' else procs s !! target = Some d) →
  spaces m !! addressSpace d = Some sp →
  ∃ m' s', schedule context (m, (s, f)) = Ok (interruptContext d, (m', (s', f))) ∧
    cr3 m' = pageDir sp ∧ current s' = target ∧ esp0 s' = u32 (kstack d + PAGESIZE) ∧
    procs s' = <[current s := c']> (procs s) ∧ run_list s' l.
Proof using.
  intros R Hc Hn Hl target c' d sp Hd Hsp.
  assert (next_current s c = target) as Ht.
  { unfold next_current, target. rewrite Hn, (rl_first _ _ R). pose proof (rl_null _ _ R) as Hnull.
    destruct l2 as [|n l2].
    - change (head0 [] =? 0) with true. cbv iota. destruct l as [|n l]; [done|].
      change (head0 (n :: l)) with n. assert (n ≠ 0) by set_solver. by zcase (n =? 0).
    - change (head0 (n :: l2)) with n. assert (n ∈ l) by (destruct Hl as [->| ->]; set_solver).
      assert (n ≠ 0) by set_solver. by zcase (n =? 0). }
  assert (procs (update (current s) (saved context c) s) !! next_current s c = Some d) as Hd'.
  { rewrite procs_update, Ht. destruct (decide (current s = target)) as [He|He].
    - rewrite decide_True in Hd by done. by rewrite Hd.
    - by rewrite decide_False in Hd by (by intros ->). }
  rewrite (schedule_ok m s f context c d sp Hc Hd' Hsp). eexists _, _. split; [done|].
  split_and!; try done. by apply run_list_saved.
Qed.

(** C26. Scheduling is fair: with the list unchanged, every process of it has the
    CPU after at most as many ticks as there are processes, whatever contexts
    are saved meanwhile. *)
Theorem round_robin m s f l p :
  run_list s l → runnable m s l → current s ∈ l → p ∈ l →
  ∃ k, (0 < k <= length l)%nat ∧ ∀ contexts, length contexts = k →
    ∃ m' s', ticks contexts (m, (s, f)) = Ok (tt, (m', (s', f))) ∧ current s' = p ∧ run_list s' l.
Proof using.
  intros R Hrun [i Hi]%list_elem_of_lookup_1 [j Hj]%list_elem_of_lookup_1.
  apply lookup_lt_Some in Hi as Hil. apply lookup_lt_Some in Hj as Hjl.
  assert (∃ k, (0 < k <= length l)%nat ∧ ((i + k) mod length l = j)%nat) as (k & Hk & Hm).
  { destruct (decide (i < j)%nat).
    - exists (j - i)%nat. split; [lia|]. rewrite Nat.mod_small; lia.
    - exists (j + length l - i)%nat. split; [lia|].
      replace (i + (j + length l - i))%nat with (j + 1 * length l)%nat by lia.
      rewrite Nat.Div0.mod_add. by apply Nat.mod_small. }
  exists k. split; [done|]. intros contexts Hlen.
  destruct (ticks_ok m s f l i contexts R Hrun Hi) as (m' & s' & Ht & R' & _ & Hcur).
  exists m', s'. split; [done|]. split; [|done]. rewrite Hlen, Hm, Hj in Hcur. by injection Hcur.
Qed.

(** ** Descriptors *)

(** registerFileDescriptor gives a description the lowest free descriptor
    and changes no other; with all twenty in use it fails with EMFILE and
    changes none. *)
Theorem registerFileDescriptor_lowest m s v (e : E) this p descr :
  procs s !! this = Some p → length (fd p) = Z.to_nat OPEN_MAX →
  registerFileDescriptor this descr (m, (s, (v, e))) =
  match list_find (λ d, d = 0) (fd p) with
  | Some (i, _) =>
      Ok (Z.of_nat i,
          (m, (update this (set_files (<[i := descr]> (fd p)) (rootFd p) (cwdFd p) p) s, (v, e))))
  | None => Ok (-1, (m, (s, (with_errno EMFILE v, e))))
  end.
Proof using.
  intros Hp Hlen. unfold registerFileDescriptor. change (Z.to_nat OPEN_MAX) with 20%nat in Hlen.
  match goal with |- loop _ ?b _ _ = _ => set (body := b) end.
  assert (∀ k, (k <= 20)%nat → (∀ j d, (j < k)%nat → fd p !! j = Some d → d ≠ 0) → ∀ n, (k < n)%nat →
    ∀ r, (∀ n', loop (Datatypes.S n') body (Z.of_nat k) (m, (s, (v, e))) = r) →
    loop n body 0 (m, (s, (v, e))) = r) as Hskip.
  { intros k Hk Hne n Hn r Hr. rewrite (loop_skip body 0 (m, (s, (v, e))) k n); [|lia|].
    - rewrite Z.add_0_l. replace (n - k)%nat with (Datatypes.S (n - k - 1)) by lia. apply Hr.
    - intros j Hj. rewrite !Z.add_0_l. subst body. cbv beta. zcase (Z.of_nat j <? 20).
      rewrite (bind_ok _ _ _ _ _ (get_process_ok m s (v, e) this p Hp)), Nat2Z.id.
      destruct (lookup_lt_is_Some_2 (fd p) j) as [d Hd]; [lia|]. rewrite Hd. specialize (Hne j d Hj Hd).
      by zcase (d =? 0). }
  destruct (list_find (λ d, d = 0) (fd p)) as [[i d]|] eqn:Hf.
  - apply list_find_Some in Hf as (Hi & -> & Hbefore). pose proof (lookup_lt_Some _ _ _ Hi).
    apply (Hskip i); [lia|intros j d Hj Hd; by apply (Hbefore j d)|lia|]. intros n'.
    apply loop_done. subst body. cbv beta. zcase (Z.of_nat i <? 20).
    rewrite (bind_ok _ _ _ _ _ (get_process_ok m s (v, e) this p Hp)), Nat2Z.id, Hi. change (0 =? 0) with true. cbv iota.
    by rewrite (bind_ok _ _ _ _ _ (upd_ok m s (v, e) this p _ Hp)).
  - apply list_find_None in Hf. rewrite Forall_lookup in Hf.
    apply (Hskip 20%nat); [lia|intros j d _ Hd; by apply (Hf j d)|lia|]. intros n'. by apply loop_done.
Qed.

(** ** The end of a process *)
Lemma close_all_ok m s v (e : E) l :
  close_all l (m, (s, (v, e))) =
  Ok (tt, (m, (s, (with_fds (foldl (λ t d, if d =? 0 then t else base.delete d t) (fds v) l) v, e)))).
Proof.
  revert v. induction l as [|d l IH]; intros v; cbn [close_all foldl]; [by destruct v|]. unfold delete_fd.
  destruct (d =? 0); [rewrite bind_ret|].
  - apply IH.
  - unfold in_fs, delete_FileDescription, modify_vfs. unfold mbind at 1, ST_bind at 1. unfold zoom. cbn [get set fst snd].
    cbn. rewrite IH. done.
Qed.

Lemma foldl_delete_lookup l (t : gmap Z filedesc) d :
  foldl (λ t d, if d =? 0 then t else base.delete d t) t l !! d = if decide (d ∈ l ∧ d ≠ 0) then None else t !! d.
Proof.
  revert t. induction l as [|a l IH]; intros t; cbn [foldl].
  - rewrite decide_False; [done|]. by intros [Hd _]; apply elem_of_nil in Hd.
  - rewrite IH. repeat case_decide; try done; try set_solver.
    + zcase (a =? 0); [set_solver|]. destruct (decide (a = d)) as [->|]; [apply lookup_delete_eq|set_solver].
    + zcase (a =? 0); [done|]. rewrite lookup_delete_ne; [done|]. intros ->. set_solver.
Qed.

(** C28. exit takes the process out of the list, whose others keep their order,
    gives back its address space, closes its descriptors and directories and no
    others, and leaves it terminated with its status for its parent, still
    pointing to its successor, with interrupts on. *)
Theorem exit_ends m s v (e : E) l1 p l2 x st m' :
  run_list s (l1 ++ p :: l2) → procs s !! p = Some x →
  (if addressSpace x =? 0 then Ok (tt, m) else (destroy fuel (addressSpace x);; delete (addressSpace x)) m) = Ok (tt, m') →
  ∃ s' v' x', exit fuel p st (m, (s, (v, e))) = Ok (tt, (m', (s', (v', e)))) ∧
    run_list s' (l1 ++ l2) ∧ current s' = current s ∧ interrupts s' = true ∧
    procs s' !! p = Some x' ∧ terminated x' = true ∧ status x' = st ∧ pid x' = pid x ∧ next x' = head0 l2 ∧
    nodes v' = nodes v ∧
    ∀ d, fds v' !! d = if decide (d ∈ fd x ++ [rootFd x; cwdFd x] ∧ d ≠ 0) then None else fds v !! d.
Proof using.
  intros R Hx Hdel. unfold exit, disable. rewrite run_modify_ps. set (s0 := with_interrupts false s).
  assert (run_list s0 (l1 ++ p :: l2)) as R0 by (destruct R; by constructor).
  destruct (unlink_ok m s0 (v, e) l1 p l2 R0) as (s1 & Hun & R1 & Hcur & _ & _ & _ & Hp & _).
  rewrite (bind_ok _ _ _ _ _ Hun). change (procs s0) with (procs s) in Hp. rewrite Hx in Hp.
  rewrite (bind_ok _ _ _ _ _ (get_process_ok m s1 (v, e) p x Hp)).
  assert (delete_AddressSpace fuel (addressSpace x) (m, (s1, (v, e))) = Ok (tt, (m', (s1, (v, e))))) as Hd.
  { unfold delete_AddressSpace. destruct (addressSpace x =? 0); [by injection Hdel as ->|]. unfold in_mm, zoom. cbn [get Lens_fst fst].
    by rewrite Hdel. }
  rewrite (bind_ok _ _ _ _ _ Hd), (bind_ok _ _ _ _ _ (close_all_ok m' s1 v e (fd x))).
  set (t := foldl _ _ _).
  assert (∀ w d, delete_fd d (m', (s1, (with_fds w v, e))) =
    Ok (tt, (m', (s1, (with_fds (if d =? 0 then w else base.delete d w) v, e))))) as Hdf.
  { intros w d. unfold delete_fd. by destruct (d =? 0). }
  rewrite (bind_ok _ _ _ _ _ (Hdf _ _)), (bind_ok _ _ _ _ _ (Hdf _ _)).
  rewrite (bind_ok _ _ _ _ _ (upd_ok m' s1 _ p x _ Hp)).
  destruct (rl_links _ _ R l1 p l2 eq_refl) as (x0 & Hx0 & _ & Hn). rewrite Hx in Hx0. injection Hx0 as <-.
  eexists _, _, (set_terminated st x). split; [reflexivity|]. split; [|split_and!].
  - destruct R1 as [Hf Hnd Hnull Hlinks]. constructor; [done..|]. intros a q b Heq.
    destruct (Hlinks a q b Heq) as (y & Hy & Hyp & Hyn). exists y. split; [|done]. cbn.
    rewrite lookup_insert_ne; [done|]. intros ->. pose proof (rl_nodup _ _ R) as Hnd'.
    rewrite <-Permutation_middle in Hnd'. apply NoDup_cons in Hnd' as [Hnot _]. apply Hnot. rewrite Heq. set_solver.
  - exact Hcur.
  - done.
  - apply lookup_insert_eq.
  - done.
  - done.
  - done.
  - done.
  - done.
  - intros d. cbn [fds with_fds].
    change (if cwdFd x =? 0 then _ else _) with (foldl (λ t d, if d =? 0 then t else base.delete d t) t [rootFd x; cwdFd x]).
    unfold t. rewrite <-foldl_app. apply foldl_delete_lookup.
Qed.

(** ** Waiting *)
Lemma child_lock_ok m s f this :
  this ∉ childLocks s → (0 < fuel)%nat →
  kthread_mutex_lock (Lens_children this) fuel (m, (s, f)) =
  Ok (0, (m, (with_childLocks ({[this]} ∪ childLocks s) s, f))).
Proof.
  intros Hl Hf. unfold kthread_mutex_lock. destruct fuel as [|n]; [lia|].
  apply loop_done. unfold atomic_test_and_set, mbind, ST_bind. cbn. by rewrite bool_decide_eq_false_2.
Qed.

Lemma child_unlock_ok m s f this :
  kthread_mutex_unlock (Lens_children this) (m, (s, f)) =
  Ok (0, (m, (with_childLocks (childLocks s ∖ {[this]}) s, f))).
Proof. done. Qed.

Lemma lock_restored (this : Z) (L : gset Z) : this ∉ L → ({[this]} ∪ L) ∖ {[this]} = L.
Proof. intros HL. apply leibniz_equiv. set_solver. Qed.

(** The array of children without the one at [i]: the last one takes its place. *)
Definition drop_child (i : nat) (l : list Z) : list Z :=
  let n := length l in
  let last := default 0 (l !! (n - 1)%nat) in
  take (n - 1)%nat (if bool_decide (i < n - 1)%nat then <[i := last]> l else l).

Lemma drop_child_perm l1 c l2 : drop_child (length l1) (l1 ++ c :: l2) ≡ₚ l1 ++ l2.
Proof.
  unfold drop_child. rewrite length_app. cbn [length].
  replace (length l1 + Datatypes.S (length l2) - 1)%nat with (length l1 + length l2)%nat by lia.
  destruct l2 as [|z l2 _] using rev_ind.
  - rewrite bool_decide_eq_false_2 by (cbn; lia). cbn [length]. by rewrite Nat.add_0_r, take_app_length, app_nil_r.
  - rewrite length_app. cbn [length]. rewrite bool_decide_eq_true_2 by lia.
    assert ((l1 ++ c :: l2 ++ [z]) !! (length l1 + (length l2 + 1))%nat = Some z) as ->.
    { change (l1 ++ c :: l2 ++ [z]) with (l1 ++ (c :: l2) ++ [z]). rewrite app_assoc, lookup_app_r by (rewrite length_app; cbn; lia).
      rewrite length_app. cbn [length]. by replace (_ - _)%nat with 0%nat by lia. }
    assert (<[length l1 := z]> (l1 ++ c :: l2 ++ [z]) = (l1 ++ z :: l2) ++ [z]) as Hins.
    { rewrite <-(Nat.add_0_r (length l1)), insert_app_r. cbn. by rewrite <-app_assoc. }
    cbn [default from_option id]. rewrite Hins.
    replace (length l1 + (length l2 + 1))%nat with (length (l1 ++ z :: l2)) by (rewrite length_app; cbn; lia).
    rewrite take_app_length. apply Permutation_app_head, Permutation_cons_append.
Qed.

(** The scan over the children that are not the one waited for. *)
Definition not_wanted (s : ps) (wanted q : Z) : Prop := ∃ y, procs s !! q = Some y ∧ pid y ≠ wanted.

Lemma scoped_children_ok {A} m s f this (block : ST A) a m' s' f' :
  this ∉ childLocks s → (0 < fuel)%nat →
  block (m, (with_childLocks ({[this]} ∪ childLocks s) s, f)) =
    Ok (a, (m', (with_childLocks ({[this]} ∪ childLocks s) s', f'))) →
  ScopedLock (Lens_children this) fuel block (m, (s, f)) = Ok (a, (m', (with_childLocks (childLocks s) s', f'))).
Proof.
  intros Hl Hf Hb. unfold ScopedLock. rewrite (bind_ok _ _ _ _ _ (child_lock_ok m s f this Hl Hf)), (bind_ok _ _ _ _ _ Hb).
  rewrite (bind_ok _ _ _ _ _ (child_unlock_ok m' _ f' this)). cbn [childLocks with_childLocks].
  by rewrite lock_restored.
Qed.

(** C29. waitpid returns a terminated child with the pid asked for and takes it,
    and only it, out of the children; flags are refused with EINVAL and a pid
    that is no child's with ECHILD, returning null.  The mutex of the children
    is free again in each case. *)
Theorem waitpid_reaps m s v (e : E) this p wanted :
  procs s !! this = Some p → this ∉ childLocks s → (0 < fuel)%nat →
  (∀ flags, flags ≠ 0 → waitpid fuel this wanted flags (m, (s, (v, e))) = Ok (0, (m, (s, (with_errno EINVAL v, e))))) ∧
  (Forall (not_wanted s wanted) (children p) →
     waitpid fuel this wanted 0 (m, (s, (v, e))) = Ok (0, (m, (s, (with_errno ECHILD v, e))))) ∧
  (∀ l1 c l2 z, children p = l1 ++ c :: l2 → Forall (not_wanted s wanted) l1 →
     procs s !! c = Some z → pid z = wanted → terminated z = true →
     ∃ rest, rest ≡ₚ l1 ++ l2 ∧
       waitpid fuel this wanted 0 (m, (s, (v, e))) = Ok (c, (m, (update this (set_children rest p) s, (v, e))))).
Proof using.
  intros Hp Hl Hf. set (s1 := with_childLocks ({[this]} ∪ childLocks s) s).
  assert (with_childLocks (childLocks s) s = s) as Hid by by destruct s.
  split; [|split].
  - intros flags Hfl. unfold waitpid. by zcase (flags =? 0).
  - intros Hall. unfold waitpid. change (negb (0 =? 0)) with false. cbv iota.
    rewrite <-Hid at 2. apply (scoped_children_ok m s (v, e) this _ 0 m s (with_errno ECHILD v, e)); [done|done|].
    fold s1. rewrite (bind_ok _ _ _ _ _ (get_process_ok m s1 (v, e) this p Hp)).
    apply (loop_trace (λ j, j) (λ _, (m, (s1, (v, e)))) _ (length (children p))); [| |lia].
    + intros j Hj. rewrite (bind_ok _ _ _ _ _ (get_process_ok m s1 (v, e) this p Hp)).
      destruct (lookup_lt_is_Some_2 (children p) j Hj) as [q Hq]. rewrite Hq.
      rewrite Forall_lookup in Hall. destruct (Hall _ _ Hq) as (y & Hy & Hpid).
      rewrite (bind_ok _ _ _ _ _ (get_process_ok m s1 (v, e) q y Hy)). by zcase (pid y =? wanted).
    + rewrite (bind_ok _ _ _ _ _ (get_process_ok m s1 (v, e) this p Hp)).
      by rewrite lookup_ge_None_2 by lia.
  - intros l1 c l2 z Hch Hall Hz Hpid Hterm. exists (drop_child (length l1) (children p)).
    split; [rewrite Hch; apply drop_child_perm|]. unfold waitpid. change (negb (0 =? 0)) with false. cbv iota.
    set (s2 := update this (set_children (drop_child (length l1) (children p)) p) s).
    assert (with_childLocks (childLocks s) s2 = s2) as Hid2 by by destruct s. rewrite <-Hid2.
    apply (scoped_children_ok m s (v, e) this _ c m s2 (v, e)); [done|done|]. fold s1.
    rewrite (bind_ok _ _ _ _ _ (get_process_ok m s1 (v, e) this p Hp)).
    apply (loop_trace (λ j, j) (λ _, (m, (s1, (v, e)))) _ (length l1)); [| |rewrite Hch, length_app; cbn; lia].
    + intros j Hj. rewrite (bind_ok _ _ _ _ _ (get_process_ok m s1 (v, e) this p Hp)).
      destruct (lookup_lt_is_Some_2 l1 j Hj) as [q Hq]. rewrite Hch, lookup_app_l, Hq by done.
      rewrite Forall_lookup in Hall. destruct (Hall _ _ Hq) as (y & Hy & Hpid').
      rewrite (bind_ok _ _ _ _ _ (get_process_ok m s1 (v, e) q y Hy)). by zcase (pid y =? wanted).
    + rewrite (bind_ok _ _ _ _ _ (get_process_ok m s1 (v, e) this p Hp)). rewrite Hch, list_lookup_middle by done.
      rewrite (bind_ok _ _ _ _ _ (get_process_ok m s1 (v, e) c z Hz)). zcase (pid z =? wanted). cbn [negb].
      rewrite (bind_ok _ _ _ _ _ (child_unlock_ok m s1 (v, e) this)). cbn [s1 childLocks with_childLocks].
      rewrite lock_restored by done. change (with_childLocks (childLocks s) s1) with (with_childLocks (childLocks s) s). rewrite Hid.
      erewrite bind_ok.
      2: { rewrite <-(Nat.succ_pred_pos fuel Hf). apply loop_done.
           rewrite (bind_ok _ _ _ _ _ (get_process_ok m s (v, e) c z Hz)), Hterm. done. }
      rewrite (bind_ok _ _ _ _ _ (child_lock_ok m s (v, e) this Hl Hf)).
      rewrite (bind_ok _ _ _ _ _ (upd_ok m s1 (v, e) this p _ Hp)). unfold s2, drop_child. rewrite Hch. done.
Qed.
End theorems.
