(* ===== verification/ProcessDemo.v ===== *)
(** * Three processes

    The properties of the process operations on a small run list. *)
From S2P Require Import Prelude Links Memory Errno Kthread Terminal Paging Segments AddressSpace Vfs VfsLaws FileSystemDemo Process ProcessLaws RunList.

Notation kstate := (mm * (ps * (vfs * mem)))%type.

Definition demo_image : Image :=
  Build_Image 0 0 0 0 0xC0001000 0xC0002000 0xC0003000 0x1000 700 800 801 802 803 804 805 806 807.
Definition demo_kheap : Kheap := {| new _ := mret 900; delete _ := mret tt |}.
Definition demo_sched_mm : Sched mm := {| sched_yield := mret tt |}.
Definition demo_sched_k : Sched kstate := {| sched_yield := mret tt |}.

#[refine] Definition demo_process_heap : Process_heap :=
  {| new_process_address s := fresh ({[0]} ∪ dom (procs s) : gset Z); terminal := 4 |}.
Proof.
  intros s. pose proof (is_fresh ({[0]} ∪ dom (procs s) : gset Z)) as Hf.
  set (a := fresh _) in *. clearbody a. split; [set_solver|apply not_elem_of_dom; set_solver].
Defined.
#[local] Existing Instances demo_image demo_kheap demo_sched_mm demo_sched_k demo_process_heap.

(** The processes 21, 22 and 23, 22 running; 23 is a terminated child of 22
    that is still in the list of another run. *)
Definition demo_proc (pv nx sp n : Z) (chld : list Z) (tm : bool) : process :=
  Process (1000 + n) pv nx 0x5000 false true tm 0 chld sp
    (<[0%nat := 11]> (<[2%nat := 12]> (replicate 20 0))) 10 0 n 0 0x12.
Definition demo_ps : ps :=
  Ps (list_to_map [(21, demo_proc 0 22 500 3 [] false); (22, demo_proc 21 23 500 2 [24; 25] false);
                   (23, demo_proc 22 0 0 1 [] false); (24, demo_proc 0 0 0 4 [] false); (25, demo_proc 0 0 0 5 [] true)])
    22 21 20 6 ∅ true 0.
Definition demo_mm0 : mm := MM ∅ 0 ∅ 0 0 0 (list_to_map [(0, Space 0x2000 0 0 0 0); (500, Space 0x3000 0 0 0 0)]) ∅ ∅.
Definition demo_f : vfs * mem := (demo_fs, demo_mem).

(** A list is checked node by node. *)
Definition links_check (s : ps) (l : list Z) : bool :=
  forallb (λ i : nat,
    match l !! i with
    | Some q =>
        match procs s !! q with
        | Some x => (prev x =? last0 (take i l)) && (next x =? head0 (drop (Datatypes.S i) l))
        | None => false
        end
    | None => true
    end) (seq 0 (length l)).

Lemma run_list_check s l :
  firstProcess s = head0 l → NoDup l → 0 ∉ l → links_check s l = true → run_list s l.
Proof.
  intros Hf Hnd H0 Hc. constructor; [done..|]. intros l1 q l2 ->. unfold links_check in Hc.
  rewrite forallb_forall in Hc. specialize (Hc (length l1)).
  rewrite list_lookup_middle in Hc by done. rewrite take_app_length in Hc.
  assert (drop (Datatypes.S (length l1)) (l1 ++ q :: l2) = l2) as Hd.
  { rewrite drop_app_ge by lia. by replace (Datatypes.S (length l1) - length l1)%nat with 1%nat by lia. }
  rewrite Hd in Hc. destruct (procs s !! q) as [x|].
  - exists x. split; [done|]. apply andb_true_iff in Hc; [|apply in_seq; rewrite length_app; cbn; lia].
    destruct Hc as [?%Z.eqb_eq ?%Z.eqb_eq]. done.
  - discriminate Hc. apply in_seq. rewrite length_app. cbn. lia.
Qed.

Lemma demo_run_list : run_list demo_ps [21; 22; 23].
Proof.
  apply run_list_check; [done| | |vm_compute; reflexivity].
  - apply (bool_decide_eq_true_1 _). vm_compute. reflexivity.
  - apply (bool_decide_eq_true_1 _). vm_compute. reflexivity.
Qed.

Lemma schedule_switches_witness :
  ∃ m' s', schedule 77 (demo_mm0, (demo_ps, demo_f)) = Ok (1001, (m', (s', demo_f))) ∧ current s' = 23 ∧ cr3 m' = 0x2000.
Proof.
  destruct (schedule_switches demo_mm0 demo_ps demo_f [21; 22; 23] [21] [23] 77 (demo_proc 21 23 500 2 [24; 25] false)
    demo_run_list eq_refl eq_refl (or_introl eq_refl) (demo_proc 22 0 0 1 [] false) (Space 0x2000 0 0 0 0) eq_refl eq_refl)
    as (m' & s' & Hrun & Hcr3 & Hcur & _). exists m', s'. done.
Defined.

Lemma round_robin_witness :
  ∃ k, (0 < k <= 3)%nat ∧ ∀ contexts, length contexts = k →
    ∃ m' s', ticks contexts (demo_mm0, (demo_ps, demo_f)) = Ok (tt, (m', (s', demo_f))) ∧ current s' = 21 ∧
      run_list s' [21; 22; 23].
Proof.
  apply (round_robin demo_mm0 demo_ps demo_f [21; 22; 23] 21 demo_run_list).
  - intros p Hp. apply elem_of_cons in Hp as [->|Hp]; [by eexists _, _|].
    apply elem_of_cons in Hp as [->|Hp]; [by eexists _, _|].
    apply elem_of_cons in Hp as [->|Hp]; [by eexists _, _|]. by apply elem_of_nil in Hp.
  - right. left.
  - left.
Defined.

Lemma registerFileDescriptor_lowest_witness :
  registerFileDescriptor 22 55 (demo_mm0, (demo_ps, demo_f)) =
  Ok (1, (demo_mm0, (update 22 (set_files (<[1%nat := 55]> (fd (demo_proc 21 23 500 2 [24; 25] false))) 10 0
                                  (demo_proc 21 23 500 2 [24; 25] false)) demo_ps, demo_f))).
Proof.
  exact (registerFileDescriptor_lowest demo_mm0 demo_ps demo_fs demo_mem 22 (demo_proc 21 23 500 2 [24; 25] false) 55
    eq_refl eq_refl).
Defined.

Lemma exit_ends_witness :
  ∃ s' v' x', exit 9 23 7 (demo_mm0, (demo_ps, demo_f)) = Ok (tt, (demo_mm0, (s', (v', demo_mem)))) ∧
    run_list s' [21; 22] ∧ procs s' !! 23 = Some x' ∧ status x' = 7.
Proof.
  destruct (exit_ends 9 demo_mm0 demo_ps demo_fs demo_mem [21; 22] 23 [] (demo_proc 22 0 0 1 [] false) 7 demo_mm0
    demo_run_list eq_refl eq_refl) as (s' & v' & x' & Hrun & R & _ & _ & Hp & _ & Hst & _).
  by exists s', v', x'.
Defined.

Lemma waitpid_reaps_witness :
  ∃ rest, rest ≡ₚ [24] ∧
    waitpid 1 22 5 0 (demo_mm0, (demo_ps, demo_f)) =
    Ok (25, (demo_mm0, (update 22 (set_children rest (demo_proc 21 23 500 2 [24; 25] false)) demo_ps, demo_f))).
Proof.
  apply (waitpid_reaps 1 demo_mm0 demo_ps demo_fs demo_mem 22 (demo_proc 21 23 500 2 [24; 25] false) 5 eq_refl
    ltac:(done) ltac:(lia)) with (l1 := [24]) (l2 := []) (z := demo_proc 0 0 0 5 [] true); try done.
  apply Forall_singleton. by eexists.
Defined.
