(* ===== verification/Print.v ===== *)
(** * Kernel messages (kernel/src/print.cpp)

    Print::printf formats with vcbprintf and writes every piece to the
    terminal.  Its clients see it as a [Console]: a format and its arguments. *)
From S2P Require Import Prelude Memory Errno CString Printf Kthread Vga Keyboard Terminal.

(** What the rest of the kernel uses of print.h; [literal] gives the addresses
    of the string literals that are arguments. *)
Class Console (S : Type) : Type := {
  printf : string → list Z → ST S unit;
  literal : string → Z;
}.

(** The newline of the format strings. *)
Definition newline : string := String (Ascii.ascii_of_nat 10) EmptyString.

Section print.
Context {S : Type} `{L : !Lens S mem} `{E : !Lens S errno_st} `{V : !Lens S vga_st} `{T : !Lens S term_st}.
Context `{P : !Ports S} `{Y : !Sched S} (fuel : nat) (buffer : Z) (literals : string → Z).

(** The bytes are those of the buffer whose address vcbprintf passes. *)
Fixpoint print_characters (bs : list Z) : ST S unit :=
  match bs with
  | [] => mret tt
  | c :: bs => printCharacter (s8 c);; print_characters bs
  end.

Definition print_callback (bs : list Z) : ST S Z :=
  ScopedLock (mutex_of S T) fuel (print_characters bs;; updateCursorPosition;; mret (Z.of_nat (length bs))).

Definition terminal_console : Console S := {|
  printf format vl := (vcbprintf print_callback buffer fuel (str format) vl;; mret tt);
  literal := literals;
|}.
End print.

(** ** Failed assertions (kernel/src/assert.cpp)

    The message, and an endless loop with interrupts off.  A failed assertion
    of the kernel is [Fault] in the other files. *)
Section assertion.
Context {S : Type} `{L : !Lens S mem} `{V : !Lens S vga_st} `{W : !Console S} (fuel : nat).

Definition __assert (e file line function : Z) : ST S unit :=
  Terminal.warnTerminal;;
  printf ("Assertion failed: (%s), function %s, file %s, line %u." +:+ newline) [e; function; file; line];;
  loop fuel (λ _ : unit, mret (Next tt)) tt.

(** It never returns. *)
Lemma assert_diverges e file line function s r : __assert e file line function s ≠ Ok r.
Proof.
  assert (∀ s', loop fuel (λ _ : unit, mret (Next tt)) tt s' = NoFuel (A := unit * S)) as Hloop.
  { intros s'. apply (loop_diverges (λ _ _, True)); [|done]. intros [] s1 _. by exists tt, s1. }
  intros H. unfold __assert, mbind, ST_bind in H.
  destruct (Terminal.warnTerminal s) as [[[] s1]| |]; [|done|done]. case_match; [|done|done]. case_match. by rewrite Hloop in H.
Qed.
End assertion.
