(* ===== verification/Initrd.v ===== *)
(** * The initial file system (kernel/src/initrd.cpp, libc/include/tar.h)

    loadInitrd unpacks a tar archive that lies in memory into nodes of the file
    system.  Strings are read from the archive; the copies strdup and malloc
    make of them are values, and dirname and basename are the functions Libgen
    proves them to compute on such a copy. *)
From S2P Require Import Prelude AddressSpace Memory CString Libgen Errno Strtol Kthread Terminal Vfs Print.

(** ** tar.h *)
Definition TMAGIC : list Z := str "ustar".
Definition REGTYPE : Z := ch "0".
Definition AREGTYPE : Z := 0.
Definition DIRTYPE : Z := ch "5".

(** [struct tar_header]: the offsets of the fields. *)
Definition tar_name : Z := 0.
Definition tar_mode : Z := 100.
Definition tar_size : Z := 124.
Definition tar_typeflag : Z := 156.
Definition tar_magic : Z := 257.
Definition tar_prefix : Z := 345.
Definition sizeof_tar_header : Z := 512.

(** The variable errno of the kernel. *)
#[refine] Definition Lens_vfs_errno : Lens vfs errno_st := {|
  get v := Errno (Vfs.errno v); set e v := with_errno (errno_val e) v |}.
Proof. all: [> by intros [] | by intros [] | done]. Defined.

Section loadInitrd.
Context {E : Type} `{LE : !Lens E mem} `{D : !Device E}.
Notation ST A := (ST (vfs * E) A).
Context `{Y : !Sched (vfs * E)} `{H : !Kernel_heap} `{W : !Console (vfs * E)} (fuel : nat).
(** The address of the copy of a string on the heap. *)
Context (copy_of : list Z → Z).
#[local] Instance errno_lens : Lens (vfs * E) errno_st := Lens_left vfs E errno_st Lens_vfs_errno.

(** [strcmp(p, literal) == 0] *)
Fixpoint equals_literal (p : Z) (literal : list Z) : ST bool :=
  c ← load p;
  match literal with
  | [] => mret (c =? 0)
  | x :: literal => if c =? x then equals_literal (p + 1) literal else mret false
  end.

Fixpoint read_string (n : nat) (p : Z) : ST (list Z) :=
  match n with
  | O => λ _, NoFuel
  | Datatypes.S n =>
      c ← load p;
      if c =? 0 then mret [] else s ← read_string n (p + 1); mret (c :: s)
  end.

Definition read_path (header : Z) : ST (list Z) :=
  c ← load (header + tar_prefix);
  if Z_bool c then
    prefix ← read_string fuel (header + tar_prefix);
    name ← read_string fuel (header + tar_name);
    mret (prefix ++ [Libgen.SLASH] ++ name)
  else read_string fuel (header + tar_name).

(** The body of the loop; [Done]: the function returns. *)
Definition load_entry (root header : Z) : ST (step Z Z) :=
  ustar ← equals_literal (header + tar_magic) TMAGIC;
  if negb ustar then mret (Done root) else
  size ← strtoul fuel (header + tar_size) 0 8;
  path ← read_path header;
  let dirName := dir_name path in
  let fileName := base_name path in
  directory ← resolvePath fuel root dirName;
  if directory =? 0 then
    printf ("Could not add '%s' to nonexistent directory '%s'." +:+ newline) [copy_of fileName; copy_of dirName];;
    mret (Done root)
  else
    mode ← strtol fuel (header + tar_mode) 0 8;
    typeflag ← load (header + tar_typeflag);
    if (typeflag =? REGTYPE) || (typeflag =? AREGTYPE) then
      n ← get_node directory;
      data ← load_list (Z.to_nat size) (header + sizeof_tar_header);
      newFile ← new_FileVnode data mode (dev n) 0;
      addChildNode fuel directory fileName newFile;;
      mret (Next (header + sizeof_tar_header * (1 + AddressSpace.ALIGN_UP size 512 / 512)))
    else if typeflag =? DIRTYPE then
      n ← get_node directory;
      newFile ← new_DirectoryVnode directory mode (dev n) 0;
      addChildNode fuel directory fileName newFile;;
      mret (Next (header + sizeof_tar_header))
    else
      printf ("Unknown typeflag '%c'" +:+ newline) [typeflag];;
      mret (Done root).

Definition loadInitrd (initrd : Z) : ST Z :=
  root ← new_DirectoryVnode 0 0x1ED 0 0;
  loop fuel (load_entry root) initrd.
End loadInitrd.
