(* ===== verification/InitrdLaws.v ===== *)
(** * Unpacking an archive

    What an archive in memory says, the store its entries make one after the
    other, and the proof that loadInitrd builds that store. *)
From S2P Require Import Prelude AddressSpace Memory CString Heap HeapSpec Libgen Errno Strtol Kthread Terminal Vfs VfsLaws FileSystem Print Initrd.

(** ** Archives *)
(** A file with its contents, or a directory. *)
Record entry : Type := Entry { e_path : list Z; e_mode : Z; e_data : option (list Z) }.

Definition contents (a : entry) : list Z := default [] (e_data a).

Definition number_at (m : mem) (p v : Z) : Prop :=
  ∃ txt, cstr m p txt ∧ (length txt < 12)%nat ∧
    let P := parse_number 8 txt in p_minus P = false ∧ numeral (p_base P) (p_digits P) = v.

(** The path is the name, behind the prefix if there is one. *)
Definition path_at (m : mem) (h : Z) (path : list Z) : Prop :=
  ∃ prefix name, cstr m (h + tar_prefix) prefix ∧ cstr m (h + tar_name) name ∧
    (length prefix < 155)%nat ∧ (length name < 100)%nat ∧
    path = match prefix with [] => name | _ => prefix ++ [Libgen.SLASH] ++ name end.

Definition typeflag_ok (a : entry) (c : Z) : Prop :=
  if e_data a then c = REGTYPE ∨ c = AREGTYPE else c = DIRTYPE.

Record header_at (m : mem) (h : Z) (a : entry) : Prop := {
  h_magic : bytes_at m (h + tar_magic) (TMAGIC ++ [0]);
  h_size : ∃ size, number_at m (h + tar_size) size ∧ 0 <= size < 2 ^ 31 ∧
    (is_Some (e_data a) → size = Z.of_nat (length (contents a)));
  h_mode : number_at m (h + tar_mode) (e_mode a) ∧ 0 <= e_mode a < 0x1000;
  h_type : ∃ c, m !! (h + tar_typeflag) = Some c ∧ typeflag_ok a c;
  h_path : path_at m h (e_path a);
  h_data : bytes_at m (h + sizeof_tar_header) (contents a);
}.

(** Contents fill blocks of 512 bytes. *)
Definition blocks (a : entry) : Z := (Z.of_nat (length (contents a)) + 511) / 512.

Fixpoint archive_at (m : mem) (h : Z) (l : list entry) : Prop :=
  match l with
  | [] => ∃ c, m !! (h + tar_magic) = Some c ∧ c ≠ ch "u"
  | a :: l => header_at m h a ∧ archive_at m (h + 512 + 512 * blocks a) l
  end.

(** ** The store an archive makes *)
Definition entry_node (v : vfs) (d p : Z) (a : entry) : vnode :=
  match e_data a with
  | Some data => Vnode d (nextIno v) (Z.lor S_IFREG (e_mode a)) (FileVnode data)
  | None => Vnode d (nextIno v) (Z.lor S_IFDIR (e_mode a)) (DirectoryVnode p [])
  end.

(** An entry goes into the directory its path names, where its name is new. *)
Definition place `{H : !Kernel_heap} (root : Z) (a : entry) (v : vfs) : option vfs :=
  match lookup_path v root (dir_name (e_path a)) with
  | inl _ => None
  | inr p =>
      match nodes v !! p, child v p (base_name (e_path a)) with
      | Some x, inl _ =>
          if is_dir (class x)
          then Some (enter v p x (base_name (e_path a)) (new_object v) (entry_node v (dev x) p a))
          else None
      | _, _ => None
      end
  end.

Fixpoint place_all `{H : !Kernel_heap} (root : Z) (l : list entry) (v : vfs) : option vfs :=
  match l with
  | [] => Some v
  | a :: l => place root a v ≫= place_all root l
  end.

(** The store with the root directory alone. *)
Definition new_root `{H : !Kernel_heap} (v : vfs) : vfs :=
  add_node (new_object v) (Vnode 0 (nextIno v) (Z.lor S_IFDIR 0x1ED) (DirectoryVnode 0 [])) v.

(** The entry can be found under its path. *)
Definition installed (v : vfs) (root : Z) (a : entry) : Prop :=
  ∃ p f x, lookup_path v root (dir_name (e_path a)) = inr p ∧ child v p (base_name (e_path a)) = inr f ∧
    nodes v !! f = Some x ∧ Z.land (mode x) 0xFFF = e_mode a ∧
    match e_data a with Some data => class x = FileVnode data | None => is_dir (class x) = true end.

Definition entry_ok (a : entry) : Prop := 0 <= e_mode a < 0x1000 ∧ Z.of_nat (length (contents a)) < 2 ^ 32.

Lemma mode_split kind m : 0 <= m < 0x1000 → kind ∈ [S_IFREG; S_IFDIR] →
  Z.land (Z.lor kind m) S_IFMT = kind ∧ Z.land (Z.lor kind m) 0xFFF = m.
Proof.
  intros Hm Hk. assert (Z.land m 0xFFF = m) as Hlow by (change 0xFFF with (Z.ones 12); rewrite Z.land_ones by lia; by apply Z.mod_small).
  assert (Z.land m S_IFMT = 0) as Hhigh.
  { rewrite <-Hlow, <-Z.land_assoc. change (Z.land 0xFFF S_IFMT) with 0. apply Z.land_0_r. }
  rewrite !Z.land_lor_distr_l, Hlow, Hhigh, Z.lor_0_r.
  apply list_elem_of_In in Hk as [<-|[<-|[]]]; split; try reflexivity.
Qed.

Lemma entry_node_ok v d p a :
  entry_ok a → is_directory v p = true →
  let y := entry_node v d p a in
  ino y = nextIno v ∧ Z.land (mode y) S_IFMT = class_bits (class y) ∧ class_valid v (class y) ∧
  Z.land (mode y) 0xFFF = e_mode a ∧
  match e_data a with Some data => class y = FileVnode data | None => is_dir (class y) = true end.
Proof.
  intros [Hm Hl] Hp. unfold entry_node, contents in *. destruct (e_data a) as [data|]; cbn in *.
  - destruct (mode_split S_IFREG (e_mode a) Hm) as [? ?]; [left|]. done.
  - destruct (mode_split S_IFDIR (e_mode a) Hm) as [? ?]; [right; left|]. split_and!; try done.
    + intros ? ? ?%list_elem_of_In. done.
    + by right.
Qed.

Section place.
Context `{H : !Kernel_heap}.

Lemma place_inv root a v v' :
  place root a v = Some v' →
  ∃ p x er, lookup_path v root (dir_name (e_path a)) = inr p ∧ nodes v !! p = Some x ∧ is_dir (class x) = true ∧
    child v p (base_name (e_path a)) = inl er ∧
    v' = enter v p x (base_name (e_path a)) (new_object v) (entry_node v (dev x) p a).
Proof.
  unfold place. destruct (lookup_path v root _) as [|p]; [done|].
  destruct (nodes v !! p) as [x|] eqn:Hx; [|done]. destruct (child v p _) as [er|] eqn:Hc; [|done].
  destruct (is_dir (class x)) eqn:Hd; [|done]. intros [= <-]. by exists p, x, er.
Qed.

Lemma place_fs_ok root a v v' : fs_ok v → entry_ok a → place root a v = Some v' → fs_ok v'.
Proof.
  intros F Ha (p & x & er & _ & Hx & Hd & _ & ->)%place_inv.
  destruct (entry_node_ok v (dev x) p a Ha) as (? & ? & ? & _); [by rewrite (is_directory_class _ _ _ Hx)|].
  destruct (new_object_fresh v) as (? & ? & _). by apply fs_ok_enter.
Qed.

Lemma place_ino root a v v' : place root a v = Some v' → nextIno v' = nextIno v + 1.
Proof. intros (p & x & er & _ & Hx & Hd & _ & ->)%place_inv. unfold enter. by destruct (class x). Qed.

Lemma lookup_enter v p x name f y n path r :
  nodes v !! p = Some x → is_dir (class x) = true → nodes v !! f = None →
  lookup_path v n path = inr r → lookup_path (enter v p x name f y) n path = inr r.
Proof. intros ? ? ?. unfold lookup_path. case_bool_decide; [done|]. by apply walk_enter. Qed.

(** What is installed stays installed, and a placed entry is installed. *)
Lemma place_keeps root a v v' b : place root a v = Some v' → installed v root b → installed v' root b.
Proof.
  intros (p & x & er & _ & Hx & Hd & _ & ->)%place_inv (q & f & z & Hq & Hf & Hz & Hm & Hk).
  destruct (new_object_fresh v) as (_ & Hn & _). set (g := new_object v) in *.
  exists q, f. destruct (class x) as [parent children| |] eqn:Hc; [|done..].
  assert (is_dir (class x) = true) as Hd' by by rewrite Hc.
  destruct (decide (f = p)) as [->|].
  - rewrite Hx in Hz. injection Hz as <-. eexists. split; [by apply lookup_enter|]. split; [by apply child_enter|].
    split; [by apply (enter_directory _ _ _ _ _ _ Hx _ _ Hc)|]. split; [done|]. rewrite Hc in Hk. by destruct (e_data b).
  - exists z. split; [by apply lookup_enter|]. split; [by apply child_enter|]. split; [|done].
    rewrite enter_other; [done|done|done|]. intros ->. by rewrite Hn in Hz.
Qed.

Lemma place_installs root a v v' : entry_ok a → place root a v = Some v' → installed v' root a.
Proof.
  intros Ha (p & x & er & Hp & Hx & Hd & Hc & ->)%place_inv.
  destruct (entry_node_ok v (dev x) p a Ha) as (_ & _ & _ & ? & ?); [by rewrite (is_directory_class _ _ _ Hx)|].
  destruct (new_object_fresh v) as (_ & Hn & _).
  exists p, (new_object v), (entry_node v (dev x) p a). split; [by apply lookup_enter|].
  split; [by eapply child_enter_new|]. split; [by apply enter_file|done].
Qed.

Lemma place_all_installs root l v v' :
  Forall entry_ok l → place_all root l v = Some v' →
  (∀ a, a ∈ l ∨ installed v root a → installed v' root a).
Proof.
  revert v. induction l as [|a l IH]; intros v Hl; cbn [place_all].
  - intros [= ->] a [[]%list_elem_of_In|]; done.
  - intros (v1 & Hv1 & Hv')%bind_Some b Hb. apply Forall_cons in Hl as [Ha Hl]. apply (IH v1 Hl Hv').
    destruct Hb as [[->|Hb]%elem_of_cons|Hb]; [right; by eapply place_installs|by left|right; by eapply place_keeps].
Qed.

Lemma place_all_ok root l v v' :
  Forall entry_ok l → fs_ok v → place_all root l v = Some v' → fs_ok v'.
Proof.
  revert v. induction l as [|a l IH]; intros v Hl F; cbn [place_all]; [by intros [= <-]|].
  intros (v1 & Hv1 & Hv')%bind_Some. apply Forall_cons in Hl as [Ha Hl]. eapply (IH v1); [done| |done].
  by eapply place_fs_ok.
Qed.

Lemma new_root_ok v : fs_ok v → fs_ok (new_root v).
Proof.
  intros F. destruct (new_object_fresh v) as (? & ? & _). apply fs_ok_add_node; try done.
  split; [by intros ? ? ?%list_elem_of_In|by left].
Qed.
End place.

Lemma header_entry_ok m h a : header_at m h a → entry_ok a.
Proof.
  intros []. split; [apply h_mode0|]. destruct h_size0 as (size & _ & Hs & Heq).
  unfold contents in *. destruct (e_data a); [rewrite <-Heq by done; lia|done].
Qed.

Lemma archive_entries_ok m h l : archive_at m h l → Forall entry_ok l.
Proof.
  revert h. induction l as [|a l IH]; intros h; [done|]. intros [Ha Hl]. constructor; [by eapply header_entry_ok|eauto].
Qed.

(** ** Running loadInitrd *)
Section run.
Context {E : Type} `{LE : !Lens E mem} `{D : !Device E}.
Context `{Y : !Sched (vfs * E)} `{H : !Kernel_heap} (fuel : nat).
Hypothesis Hfuel : (300 < fuel)%nat.
Implicit Types (v : vfs) (e : E).
#[local] Existing Instance errno_lens.

#[local] Instance indep_errno : Indep (Lens_snd vfs E mem LE) errno_lens.
Proof. split; done. Qed.

Lemma load_mem v e p b : memory e !! p = Some b → load p (v, e) = Ok (b, (v, e)).
Proof. exact (load_ok (L := Lens_snd vfs E mem LE) (v, e) p b). Qed.

Lemma equals_literal_ok v e p lit :
  bytes_at (memory e) p (lit ++ [0]) → equals_literal p lit (v, e) = Ok (true, (v, e)).
Proof.
  revert p. induction lit as [|x lit IH]; intros p [Hx Hb]%bytes_at_cons; cbn [equals_literal];
    rewrite (bind_ok _ _ _ _ _ (load_mem v e p _ Hx)); [done|]. rewrite Z.eqb_refl. by apply IH.
Qed.

Lemma equals_literal_not v e p x lit c :
  memory e !! p = Some c → c ≠ x → equals_literal p (x :: lit) (v, e) = Ok (false, (v, e)).
Proof.
  intros Hc Hne. cbn [equals_literal]. rewrite (bind_ok _ _ _ _ _ (load_mem v e p _ Hc)).
  by rewrite (proj2 (Z.eqb_neq _ _)).
Qed.

Lemma read_string_ok v e p s n :
  cstr (memory e) p s → (length s < n)%nat → read_string n p (v, e) = Ok (s, (v, e)).
Proof.
  revert p n. induction s as [|c s IH]; intros p [|n] Hs Hn; cbn [length] in Hn; [lia| |lia|]; cbn [read_string].
  - apply cstr_nil in Hs. by rewrite (bind_ok _ _ _ _ _ (load_mem v e p _ Hs)).
  - apply cstr_cons in Hs as (Hc & Hp & Hs). rewrite (bind_ok _ _ _ _ _ (load_mem v e p _ Hp)), nz_char by done.
    by rewrite (bind_ok _ _ _ _ _ (IH (p + 1) n Hs ltac:(lia))).
Qed.

Lemma read_path_ok v e h path :
  path_at (memory e) h path → read_path fuel h (v, e) = Ok (path, (v, e)).
Proof using Hfuel.
  intros (prefix & name & Hp & Hn & Hlp & Hln & ->). unfold read_path.
  assert (∃ c, memory e !! (h + tar_prefix) = Some c ∧ Z_bool c = bool_decide (prefix ≠ [])) as (c & Hc & Hz).
  { destruct prefix as [|c prefix]; [apply cstr_nil in Hp; by eexists|]. apply cstr_cons in Hp as (Hc & Hp & _).
    exists c. split; [done|]. by rewrite nz_bool. }
  rewrite (bind_ok _ _ _ _ _ (load_mem v e _ _ Hc)), Hz. destruct prefix as [|b prefix]; cbn [bool_decide].
  - rewrite bool_decide_eq_false_2 by tauto. apply read_string_ok; [done|lia].
  - rewrite bool_decide_eq_true_2 by done.
    rewrite (bind_ok _ _ _ _ _ (read_string_ok v e _ _ fuel Hp ltac:(lia))).
    by rewrite (bind_ok _ _ _ _ _ (read_string_ok v e _ _ fuel Hn ltac:(lia))).
Qed.

Lemma number_unsigned v e p n :
  number_at (memory e) p n → 0 <= n < 2 ^ 31 → strtoul fuel p 0 8 (v, e) = Ok (n, (v, e)).
Proof using Hfuel.
  intros (txt & Ht & Hl & Hm & Hv) Hn.
  rewrite (strtoul_ok (v, e) fuel p 0 8 txt) by (done || lia). rewrite Hv, Hm.
  rewrite (proj2 (Z.leb_le n ULONG_MAX)) by (unfold ULONG_MAX; lia). done.
Qed.

Lemma number_signed v e p n :
  number_at (memory e) p n → 0 <= n < 2 ^ 31 → strtol fuel p 0 8 (v, e) = Ok (n, (v, e)).
Proof using Hfuel.
  intros (txt & Ht & Hl & Hm & Hv) Hn.
  rewrite (strtol_nonneg (v, e) fuel p 0 8 txt) by (done || lia). rewrite Hv.
  rewrite (proj2 (Z.leb_le n LONG_MAX)) by (unfold LONG_MAX; lia). done.
Qed.

Lemma new_vnode_ok v e c m d :
  0 <= nextIno v → nextIno v + 1 < 2 ^ 64 →
  new_vnode c m d 0 (v, e) = Ok (new_object v, (add_node (new_object v) (Vnode d (nextIno v) m c) v, e)).
Proof.
  intros H0 Hn. unfold new_vnode. rewrite run_get_vfs, run_modify_vfs. cbn [fst snd Z.eqb].
  unfold add_node. by rewrite u64_small by lia.
Qed.

(** Making a node and entering it. *)
Lemma enter_ok {A} v e p x name c m (k : ST (vfs * E) A) :
  fs_ok v → nextIno v + 1 < 2 ^ 64 → nodes v !! p = Some x → is_dir (class x) = true →
  Z.land m S_IFMT = class_bits c → class_valid v c →
  (f ← new_vnode c m (dev x) 0; addChildNode fuel p name f;; k) (v, e) =
  k (enter v p x name (new_object v) (Vnode (dev x) (nextIno v) m c), e).
Proof using Hfuel.
  intros F Hi Hx Hd Hm Hc. destruct (new_object_fresh v) as (Hf0 & Hfn & _).
  rewrite (bind_ok _ _ _ _ _ (new_vnode_ok v e c m (dev x) (fs_next _ F) Hi)).
  unfold enter. destruct (class x) as [parent children| |] eqn:Hcl; [|done..].
  erewrite bind_ok; [reflexivity|]. apply (addChildNode_ok fuel ltac:(lia) _ e p x parent children).
  - by apply fs_ok_add_node.
  - cbn. rewrite lookup_insert_ne; [done|]. intros Heq. by rewrite Heq, Hx in Hfn.
  - done.
Qed.

Lemma land_u32 a b : Z.land (u32 a) (u32 b) = Z.land (u32 a) b.
Proof.
  unfold u32. rewrite <-!Z.land_ones by lia.
  by rewrite (Z.land_comm b), Z.land_assoc, <-(Z.land_assoc a), Z.land_diag.
Qed.

Lemma align_blocks n : 0 <= n < 2 ^ 31 → AddressSpace.ALIGN_UP n 512 / 512 = (n + 511) / 512.
Proof.
  intros Hn. unfold AddressSpace.ALIGN_UP. rewrite land_u32. zcase (n =? 0); [subst; done|].
  destruct (align_up 9 n 512) as [Hb Hm]; [done|done|lia|lia|]. unfold Heap.ALIGN_UP in *.
  Z.to_euclidean_division_equations. lia.
Qed.

(** One turn of the loop places one entry. *)
Lemma load_entry_ok `{W : !Console (vfs * E)} (copy_of : list Z → Z) root h a v e v' :
  fs_ok v → is_Some (nodes v !! root) → nextIno v + 1 < 2 ^ 64 →
  header_at (memory e) h a → place root a v = Some v' →
  load_entry fuel copy_of root h (v, e) = Ok (Next (h + 512 + 512 * blocks a), (v', e)).
Proof using Hfuel.
  intros F Hroot Hino Ha Hp. pose proof (header_entry_ok _ _ _ Ha) as Hok.
  destruct (place_inv _ _ _ _ Hp) as (p & x & er & Hlk & Hx & Hd & _ & ->).
  destruct Ha as [Hmagic (size & Hsize & Hs & Hlen) [Hmode Hm] (c & Hc & Ht) Hpath Hdata].
  destruct (entry_node_ok v (dev x) p a Hok) as (_ & Hbits & Hval & _); [by rewrite (is_directory_class _ _ _ Hx)|].
  unfold load_entry. rewrite (bind_ok _ _ _ _ _ (equals_literal_ok v e _ _ Hmagic)). cbn [negb].
  rewrite (bind_ok _ _ _ _ _ (number_unsigned v e _ _ Hsize Hs)), (bind_ok _ _ _ _ _ (read_path_ok v e _ _ Hpath)).
  pose proof (resolvePath_ok fuel ltac:(lia) v e root (dir_name (e_path a)) F Hroot) as Hr. rewrite Hlk in Hr.
  rewrite (bind_ok _ _ _ _ _ Hr), (nonnull v p F) by by eexists. cbv iota.
  rewrite (bind_ok _ _ _ _ _ (number_signed v e _ _ Hmode ltac:(lia))), (bind_ok _ _ _ _ _ (load_mem v e _ _ Hc)).
  unfold typeflag_ok, entry_node, blocks, contents in *. destruct (e_data a) as [data|].
  - assert ((c =? REGTYPE) || (c =? AREGTYPE) = true) as -> by (destruct Ht as [->| ->]; done).
    rewrite (bind_ok _ _ _ _ _ (get_node_ok v e p x Hx)). rewrite Hlen, Nat2Z.id by done.
    cbn [default] in Hdata. unfold id in Hdata.
    rewrite (bind_ok _ _ _ _ _ (load_list_ok v e _ _ Hdata)).
    unfold new_FileVnode. rewrite (enter_ok v e p x (base_name (e_path a)) (FileVnode data) _ _ F Hino Hx Hd Hbits Hval).
    unfold mret, ST_ret. cbn [default]. unfold id. cbn [default] in Hlen. unfold id in Hlen.
    rewrite align_blocks by (rewrite <-Hlen by done; done). do 3 f_equal. unfold sizeof_tar_header. lia.
  - subst c. change ((DIRTYPE =? REGTYPE) || (DIRTYPE =? AREGTYPE)) with false. change (DIRTYPE =? DIRTYPE) with true.
    cbv iota. rewrite (bind_ok _ _ _ _ _ (get_node_ok v e p x Hx)).
    unfold new_DirectoryVnode.
    rewrite (enter_ok v e p x (base_name (e_path a)) (DirectoryVnode p []) _ _ F Hino Hx Hd Hbits Hval).
    unfold mret, ST_ret. do 3 f_equal. unfold sizeof_tar_header.
    assert ((Z.of_nat (length (default [] (@None (list Z)))) + 511) / 512 = 0) as -> by done. lia.
Qed.

(** At the end of the archive the loop leaves. *)
Lemma load_end_ok `{W : !Console (vfs * E)} (copy_of : list Z → Z) root h v e c :
  memory e !! (h + tar_magic) = Some c → c ≠ ch "u" →
  load_entry fuel copy_of root h (v, e) = Ok (Done root, (v, e)).
Proof.
  intros Hc Hne. unfold load_entry.
  by rewrite (bind_ok _ _ _ _ _ (equals_literal_not v e _ (ch "u") (str "star") c Hc Hne)).
Qed.

Lemma load_entries_ok `{W : !Console (vfs * E)} (copy_of : list Z → Z) root l n h v e v' :
  fs_ok v → is_directory v root = true → nextIno v + Z.of_nat (length l) < 2 ^ 64 →
  archive_at (memory e) h l → place_all root l v = Some v' → (length l < n)%nat →
  loop n (load_entry fuel copy_of root) h (v, e) = Ok (root, (v', e)).
Proof using Hfuel.
  revert n h v. induction l as [|a l IH]; intros [|n] h v F Hroot Hino Harch Hp Hn; cbn [length] in *; [lia| |lia|].
  - destruct Harch as (c & Hc & Hne). injection Hp as <-. apply loop_done. by apply load_end_ok with c.
  - destruct Harch as [Ha Hl]. cbn [place_all] in Hp. apply bind_Some in Hp as (v1 & Hv1 & Hp).
    pose proof (place_fs_ok root a v v1 F (header_entry_ok _ _ _ Ha) Hv1) as F1.
    assert (is_Some (nodes v !! root)) as Hex by (unfold is_directory in Hroot; destruct (nodes v !! root); done).
    erewrite loop_next by (apply load_entry_ok; [done|done|lia|done|done]).
    apply IH; [done| |rewrite (place_ino _ _ _ _ Hv1); lia|done|done|lia].
    destruct (place_inv _ _ _ _ Hv1) as (p & x & er & _ & Hx & Hd & _ & ->).
    apply enter_is_directory; [done|done|apply new_object_fresh|done].
Qed.

(** C32. loadInitrd unpacks an archive: it makes a root directory and enters one
    node for every header, files with the mode and the contents that follow
    the header, leaves the store well formed and the memory as it was;
    afterwards the directory part of every path of the archive leads, from the
    root, to a directory in which the last name is that file or directory. *)
Theorem loadInitrd_unpacks `{W : !Console (vfs * E)} (copy_of : list Z → Z) initrd l v e v' :
  fs_ok v → nextIno v + 1 + Z.of_nat (length l) < 2 ^ 64 → (length l < fuel)%nat →
  archive_at (memory e) initrd l → place_all (new_object v) l (new_root v) = Some v' →
  loadInitrd fuel copy_of initrd (v, e) = Ok (new_object v, (v', e)) ∧ fs_ok v' ∧
  ∀ a, a ∈ l → installed v' (new_object v) a.
Proof using Hfuel.
  intros F Hino Hl Harch Hp. pose proof (new_root_ok v F) as F1. pose proof (archive_entries_ok _ _ _ Harch) as Hok.
  split; [|split; [by eapply place_all_ok|intros a Ha; eapply place_all_installs; eauto]].
  unfold loadInitrd, new_DirectoryVnode.
  rewrite (bind_ok _ _ _ _ _ (new_vnode_ok v e (DirectoryVnode 0 []) (Z.lor S_IFDIR 0x1ED) 0 (fs_next _ F) ltac:(lia))).
  apply (load_entries_ok copy_of _ l fuel initrd (new_root v) e v' F1); [|cbn; lia|done..].
  unfold is_directory. cbn. by rewrite lookup_insert_eq.
Qed.
End run.
