(* ===== verification/InitrdDemo.v ===== *)
(** * A small archive

    A directory and a file in it, as tar writes them, unpacked into the small
    file system. *)
From S2P Require Import Prelude Memory CString Libgen Strtol Environ Kthread Vfs VfsLaws FileSystemDemo Print Initrd InitrdLaws.

Instance demo_console : Console (vfs * mem) := {| printf _ _ := mret tt; literal _ := 0 |}.

Definition demo_header (m : mem) (h : Z) (name mode size typeflag : string) : mem :=
  let m := write_bytes m h (replicate 512 0) in
  let m := write_bytes m h (str name) in
  let m := write_bytes m (h + tar_mode) (str mode) in
  let m := write_bytes m (h + tar_size) (str size) in
  let m := write_bytes m (h + tar_typeflag) (str typeflag) in
  write_bytes m (h + tar_magic) TMAGIC.

Definition demo_archive : mem :=
  let m := demo_header ∅ 4096 "bin/" "0000755" "00000000000" "5" in
  let m := demo_header m 4608 "bin/hi" "0000644" "00000000005" "0" in
  write_bytes m 5120 (str "hello" ++ replicate 1019 0).

Definition demo_entries : list entry :=
  [Entry (str "bin/") 0x1ED None; Entry (str "bin/hi") 0x1A4 (Some (str "hello"))].

Lemma demo_number m p txt v :
  bytes_b m p (txt ++ [0]) = true →
  bool_decide (Forall char_ok txt) = true → (length txt <? 12)%nat = true →
  p_minus (parse_number 8 txt) = false → numeral (p_base (parse_number 8 txt)) (p_digits (parse_number 8 txt)) = v →
  number_at m p v.
Proof.
  intros Hb Hc Hl Hm Hv. exists txt. split; [split; [by apply (bool_decide_eq_true_1 _)|by apply bytes_check]|].
  split; [by apply Nat.ltb_lt|done].
Qed.

#[local] Ltac demo_path :=
  split; [apply cstr_check; vm_compute; done|split; [apply cstr_check; vm_compute; done|split; [cbn; lia|split; [cbn; lia|]]]].

Lemma demo_archive_at : archive_at demo_archive 4096 demo_entries.
Proof.
  split; [|split; [|by exists 0]].
  - constructor.
    + apply bytes_check. vm_compute. reflexivity.
    + exists 0. split; [by apply (demo_number _ _ (str "00000000000")); vm_compute|]. split; [done|]. by intros [].
    + split; [by apply (demo_number _ _ (str "0000755")); vm_compute|done].
    + by exists (ch "5").
    + exists [], (str "bin/"). by demo_path.
    + by apply bytes_check.
  - constructor.
    + apply bytes_check. vm_compute. reflexivity.
    + exists 5. split; [by apply (demo_number _ _ (str "00000000005")); vm_compute|]. done.
    + split; [by apply (demo_number _ _ (str "0000644")); vm_compute|done].
    + exists (ch "0"). split; [done|by left].
    + exists [], (str "bin/hi"). by demo_path.
    + apply bytes_check. vm_compute. reflexivity.
Qed.

Lemma loadInitrd_unpacks_witness :
  match loadInitrd 301 (λ _, 0) 4096 (demo_fs, demo_archive) with
  | Ok (root, (v, m)) => m = demo_archive ∧ installed v root (Entry (str "bin/hi") 0x1A4 (Some (str "hello")))
  | _ => False
  end.
Proof.
  destruct (place_all (new_object demo_fs) demo_entries (new_root demo_fs)) as [v'|] eqn:Hv;
    [|apply (f_equal (λ o, bool_decide (is_Some o))) in Hv; vm_compute in Hv; discriminate Hv].
  destruct (loadInitrd_unpacks 301 ltac:(lia) (λ _, 0) 4096 demo_entries demo_fs demo_archive v' demo_fs_ok
    ltac:(done) ltac:(cbn; lia) demo_archive_at Hv) as (-> & _ & Hin).
  split; [done|]. apply Hin. right. left.
Defined.
