(* ===== verification/Interrupt.v ===== *)
(** * Descriptor tables and interrupts (kernel/src/gdt.cpp, idt.cpp, pic.cpp,
    interrupt.cpp)

    The encodings of the descriptor tables, the programming of the interrupt
    controllers, and the handler every interrupt goes through.  The assembly
    stubs are the addresses [isr]; the saved registers, which the stubs push,
    are read through the interface [Contexts]. *)
From S2P Require Import Prelude Memory Vga Process Print.

(** ** gdt.h *)
Record gdt_entry : Type := GdtEntry {
  limit_low : Z; base_low : Z; base_middle : Z; access : Z; limit_high_flags : Z; base_high : Z }.

Definition GDT_ENTRY (base limit access flags : Z) : gdt_entry :=
  GdtEntry (Z.land limit 0xFFFF) (Z.land base 0xFFFF) (Z.land (Z.shiftr base 16) 0xFF) (Z.land access 0xFF)
    (Z.lor (Z.land (Z.shiftr limit 16) 0x0F) (Z.land flags 0xF0)) (Z.land (Z.shiftr base 24) 0xFF).

Definition GDT_ACCESSED : Z := Z.shiftl 1 0.
Definition GDT_READ_WRITE : Z := Z.shiftl 1 1.
Definition GDT_EXECUTABLE : Z := Z.shiftl 1 3.
Definition GDT_SEGMENT : Z := Z.shiftl 1 4.
Definition GDT_RING0 : Z := Z.shiftl 0 5.
Definition GDT_RING3 : Z := Z.shiftl 3 5.
Definition GDT_PRESENT : Z := Z.shiftl 1 7.
Definition GDT_GRANULARITY_4K : Z := Z.shiftl 1 7.
Definition GDT_PROTECTED_MODE : Z := Z.shiftl 1 6.
Definition sizeof_tss : Z := 104.

Definition gdt : list gdt_entry :=
  let flags := Z.lor GDT_GRANULARITY_4K GDT_PROTECTED_MODE in
  let code ring := Z.lor (Z.lor (Z.lor (Z.lor GDT_PRESENT GDT_SEGMENT) ring) GDT_EXECUTABLE) GDT_READ_WRITE in
  let data ring := Z.lor (Z.lor (Z.lor GDT_PRESENT GDT_SEGMENT) ring) GDT_READ_WRITE in
  [GDT_ENTRY 0 0 0 0;
   GDT_ENTRY 0 0xFFFFFFFF (code GDT_RING0) flags;
   GDT_ENTRY 0 0xFFFFFFFF (data GDT_RING0) flags;
   GDT_ENTRY 0 0xFFFFFFFF (code GDT_RING3) flags;
   GDT_ENTRY 0 0xFFFFFFFF (data GDT_RING3) flags;
   GDT_ENTRY 0 (sizeof_tss - 1) (Z.lor (Z.lor GDT_PRESENT GDT_EXECUTABLE) GDT_ACCESSED) 0].

(** The task state segment; of its fields only esp0 changes (Process.v). *)
Record tss_entry : Type := Tss {
  tss_prev_tss : Z; tss_esp0 : Z; tss_ss0 : Z; tss_esp1 : Z; tss_ss1 : Z; tss_esp2 : Z; tss_ss2 : Z; tss_cr3 : Z;
  tss_eip : Z; tss_eflags : Z; tss_eax : Z; tss_ecx : Z; tss_edx : Z; tss_ebx : Z; tss_esp : Z; tss_ebp : Z;
  tss_esi : Z; tss_edi : Z; tss_es : Z; tss_cs : Z; tss_ss : Z; tss_ds : Z; tss_fs : Z; tss_gs : Z; tss_ldtr : Z;
  tss_reserved : Z; tss_iomapBase : Z }.
Definition tss : tss_entry := Tss 0 0 0x10 0 0 0 0 0 0 0 0 0 0 0 0 0 0 0 0 0 0 0 0 0 0 0 0.

(** What lgdt and lidt load: the size of a table less one, and its address. *)
Record table_desc : Type := TableDesc { desc_size : Z; desc_offset : Z }.
Definition sizeof_gdt_entry : Z := 8.
Definition gdt_descriptor (address : Z) : table_desc :=
  TableDesc (sizeof_gdt_entry * Z.of_nat (length gdt) - 1) address.
Definition sizeof_idt_entry : Z := 8.
Definition idt_descriptor (address : Z) : table_desc := TableDesc (sizeof_idt_entry * 256 - 1) address.

(** ** idt.h *)
Definition IDT_INTERRUPT_GATE : Z := 0xE.
Definition IDT_TRAP_GATE : Z := 0xF.
Definition IDT_RING0 : Z := Z.shiftl 0 5.
Definition IDT_RING3 : Z := Z.shiftl 3 5.
Definition IDT_PRESENT : Z := Z.shiftl 1 7.

Record idt_entry : Type := IdtEntry {
  offset_low : Z; selector : Z; unused : Z; attr : Z; offset_high : Z }.

(** The state of the interrupt system: the gates and the handlers (0: none). *)
Record irq_st : Type := Irq { idt : list idt_entry; isrRoutines : list Z }.
Definition irq_start : irq_st := Irq (replicate 256 (IdtEntry 0 0 0 0 0)) (replicate 256 0).

Definition idtSetGate (num offset selector attr : Z) (st : irq_st) : irq_st :=
  Irq (<[Z.to_nat (u8 num) :=
        IdtEntry (Z.land offset 0xFFFF) selector 0 attr (Z.land (Z.shiftr offset 16) 0xFFFF)]> (idt st))
    (isrRoutines st).

(** The addresses of the assembly stubs. *)
Class Stubs : Type := { isr : Z → Z; syscallHandler : Z }.

Section install.
Context `{!Stubs}.

Definition gate (gate ring : Z) : Z := Z.lor (Z.lor gate ring) IDT_PRESENT.

Definition irqsInstall (st : irq_st) : irq_st :=
  let st := foldl (λ st i, idtSetGate i (isr i) 0x08 (gate IDT_INTERRUPT_GATE IDT_RING0) st) st (seqZ 0 49) in
  let st := idtSetGate 49 (isr 49) 0x08 (gate IDT_INTERRUPT_GATE IDT_RING3) st in
  idtSetGate 73 syscallHandler 0x08 (gate IDT_TRAP_GATE IDT_RING3) st.
End install.

(** An index behind the array is out of bounds. *)
Definition isrInstallHandler (n handler : Z) (st : irq_st) : option irq_st :=
  if (0 <=? n) && (n <? 256) then Some (Irq (idt st) (<[Z.to_nat n := handler]> (isrRoutines st))) else None.
Definition isrUninstallHandler (n : Z) (st : irq_st) : option irq_st := isrInstallHandler n 0 st.

(** ** pic.h *)
Definition PIC1_COMMAND : Z := 0x20.
Definition PIC1_DATA : Z := 0x21.
Definition PIC2_COMMAND : Z := 0xA0.
Definition PIC2_DATA : Z := 0xA1.
Definition PIC_EOI : Z := 0x20.

(** [r->field] of the context at [r], with the offset of the field. *)
Class Contexts (S : Type) : Type := { field_of : Z → Z → ST S Z }.

(** What the handler needs of the rest of the kernel: handlers called by their
    address, and the scheduler. *)
Class Kernel_services (S : Type) : Type := {
  call_handler : Z → Z → ST S unit;
  run_schedule : Z → ST S Z;
}.

(** interrupt.h *)
Definition exceptionMessages : list string :=
  ["Devide-by-zero"; "Debug"; "Non-maskable Interrupt"; "Breakpoint"; "Into Detected Overflow"; "Bound Range Exceeded";
   "Invalid Opcode"; "No Coprocessor"; "Double Fault"; "Coprocessor Segment Overrun"; "Invalid TSS";
   "Segment Not Present"; "Stack-Segment Fault"; "General Protection Fault"; "Page Fault"; "Unknown Interrupt";
   "x87 Floating-Point"; "Alignment Check"; "Machine Check"; "SIMD Floating-Point"; "Virtualization"]%string
  ++ replicate 13 "Reserved"%string.

Section interrupts.
Context {S : Type} `{I : !Lens S irq_st} `{C : !Contexts S} `{P : !Ports S} `{W : !Console S}.
Context `{KS : !Kernel_services S} `{St : !Stubs} (fuel : nat).

Definition modify_irq (f : irq_st → irq_st) : ST S unit := λ s, Ok (tt, set (f (get s)) s).

(** Interrupt::isrInstallHandler *)
Definition install (n handler : Z) : ST S unit := λ s,
  match isrInstallHandler n handler (get s) with
  | Some st => Ok (tt, set st s)
  | None => Fault
  end.

Definition picRemap : ST S unit :=
  outportb PIC1_COMMAND 0x11;;
  outportb PIC2_COMMAND 0x11;;
  outportb PIC1_DATA 0x20;;
  outportb PIC2_DATA 0x28;;
  outportb PIC1_DATA 0x04;;
  outportb PIC2_DATA 0x02;;
  outportb PIC1_DATA 0x01;;
  outportb PIC2_DATA 0x01.

Definition initPic : ST S unit := picRemap;; modify_irq irqsInstall.

Definition print_registers (r : Z) : ST S unit :=
  eax ← field_of r ctx_eax; ebx ← field_of r ctx_ebx; ecx ← field_of r ctx_ecx; edx ← field_of r ctx_edx;
  printf ("eax: 0x%x, ebx: 0x%x, ecx: 0x%x, edx: 0x%x" +:+ newline) [eax; ebx; ecx; edx];;
  edi ← field_of r ctx_edi; esi ← field_of r ctx_esi; ebp ← field_of r ctx_ebp; esp ← field_of r ctx_esp;
  printf ("edi: 0x%x, esi: 0x%x, ebp: 0x%x, esp: 0x%x" +:+ newline) [edi; esi; ebp; esp];;
  cs ← field_of r ctx_cs; eip ← field_of r ctx_eip; eflags ← field_of r ctx_eflags; ss ← field_of r ctx_ss;
  printf ("cs: 0x%x, eip: 0x%x, eflags: 0x%x, ss: 0x%x" +:+ newline) [cs; eip; eflags; ss].

Definition interruptHandler (warnTerminal : ST S unit) (r : Z) : ST S Z :=
  int_no ← field_of r ctx_int_no;
  if int_no <? 32 then
    warnTerminal;;
    print_registers r;;
    printf "%s" [literal (default EmptyString (exceptionMessages !! Z.to_nat int_no))];;
    printf (" Exception. System Halted!" +:+ newline) [];;
    loop fuel (λ _ : unit, mret (Next tt)) tt
  else if (int_no <=? 47) && (32 <=? int_no) then
    newContext ← (if int_no =? 32 then run_schedule r else mret r);
    int_no ← field_of r ctx_int_no;
    handler ← (λ s, match isrRoutines (get s) !! Z.to_nat int_no with Some h => Ok (h, s) | None => Fault end);
    (if Z_bool handler then call_handler handler r else mret tt);;
    int_no ← field_of r ctx_int_no;
    (if 40 <=? int_no then outportb PIC2_COMMAND PIC_EOI else mret tt);;
    outportb PIC1_COMMAND PIC_EOI;;
    mret newContext
  else if int_no =? 0x31 then run_schedule r
  else printf ("Unknow interrupt %u!" +:+ newline) [int_no];; mret r.
End interrupts.

(** ** Gates *)
Definition gate_offset (e : idt_entry) : Z := Z.lor (offset_low e) (Z.shiftl (offset_high e) 16).
Definition gate_ring (e : idt_entry) : Z := Z.land (Z.shiftr (attr e) 5) 3.
Definition gate_present (e : idt_entry) : bool := Z.testbit (attr e) 7.

Lemma gate_offset_set offset sel a :
  0 <= offset < 2 ^ 32 →
  gate_offset (IdtEntry (Z.land offset 0xFFFF) sel 0 a (Z.land (Z.shiftr offset 16) 0xFFFF)) = offset.
Proof.
  intros Ho. unfold gate_offset. cbn [offset_low offset_high].
  apply Z.bits_inj'. intros n Hn. rewrite Z.lor_spec, Z.land_spec, Z.shiftl_spec by done.
  change 0xFFFF with (Z.ones 16). rewrite Z.testbit_ones_nonneg by lia.
  destruct (Z.ltb_spec n 16).
  - rewrite andb_true_r, (Z.testbit_neg_r _ (n - 16)) by lia. by rewrite orb_false_r.
  - rewrite andb_false_r, Z.land_spec, Z.shiftr_spec, Z.testbit_ones_nonneg by lia.
    replace (n - 16 + 16) with n by lia. destruct (Z.ltb_spec (n - 16) 16); [by rewrite andb_true_r|].
    rewrite andb_false_r. symmetry. destruct (Z.eq_dec offset 0) as [->|]; [apply Z.bits_0|].
    apply Z.bits_above_log2; [lia|]. apply Z.log2_lt_pow2; [lia|]. eapply Z.lt_le_trans; [apply Ho|].
    apply Z.pow_le_mono_r; lia.
Qed.

Section gates.
Context `{!Stubs}.
Hypothesis isr_range : ∀ i, 0 <= isr i < 2 ^ 32.
Hypothesis syscall_range : 0 <= syscallHandler < 2 ^ 32.

(** The stub of a vector. *)
Definition stub_of (n : Z) : Z := if n =? 73 then syscallHandler else isr n.

Lemma idt_set st n o a k :
  0 <= n < 256 → 0 <= k < 256 → length (idt st) = 256%nat →
  length (idt (idtSetGate n o 8 a st)) = 256%nat ∧
  idt (idtSetGate n o 8 a st) !! Z.to_nat k =
    if decide (k = n) then Some (IdtEntry (Z.land o 0xFFFF) 8 0 a (Z.land (Z.shiftr o 16) 0xFFFF))
    else idt st !! Z.to_nat k.
Proof.
  intros Hn Hk Hl. unfold idtSetGate. cbn [idt]. rewrite u8_small by done. split; [by rewrite length_insert|].
  case_decide as Heq; [subst; apply list_lookup_insert_eq; lia|]. apply list_lookup_insert_ne. lia.
Qed.

Lemma install_fold l st k :
  (∀ i, i ∈ l → 0 <= i < 256) → 0 <= k < 256 → length (idt st) = 256%nat →
  let st' := foldl (λ st i, idtSetGate i (isr i) 0x08 (gate IDT_INTERRUPT_GATE IDT_RING0) st) st l in
  length (idt st') = 256%nat ∧
  idt st' !! Z.to_nat k =
    if decide (k ∈ l) then Some (IdtEntry (Z.land (isr k) 0xFFFF) 8 0 (gate IDT_INTERRUPT_GATE IDT_RING0)
                                   (Z.land (Z.shiftr (isr k) 16) 0xFFFF))
    else idt st !! Z.to_nat k.
Proof.
  revert st. induction l as [|i l IH]; intros st Hl Hk Hlen; cbn [foldl]; [done|].
  destruct (idt_set st i (isr i) (gate IDT_INTERRUPT_GATE IDT_RING0) k) as [Hlen' Hi]; [apply Hl; left|done|done|].
  destruct (IH (idtSetGate i (isr i) 0x08 (gate IDT_INTERRUPT_GATE IDT_RING0) st)) as [H1 H2]; [intros; apply Hl; by right|done|done|].
  split; [done|]. rewrite H2, Hi. repeat case_decide; try done; try set_solver.
Qed.

(** C31. After irqsInstall exactly the vectors 0 to 49 and 73 have a present gate,
    each of them enters its own stub in the kernel's code segment, and programs
    may raise only 49 (schedule) and 73 (system calls) themselves.  (The comment
    above the table in idt.cpp says that only the first 32 are used.) *)
Theorem gates_installed st n e :
  idt st = replicate 256 (IdtEntry 0 0 0 0 0) → 0 <= n < 256 → idt (irqsInstall st) !! Z.to_nat n = Some e →
  (gate_present e = true ↔ 0 <= n <= 49 ∨ n = 73) ∧
  (gate_present e = true → gate_offset e = stub_of n ∧ selector e = 0x08 ∧ (gate_ring e = 3 ↔ n = 49 ∨ n = 73)).
Proof using isr_range syscall_range.
  intros Hst Hn. assert (length (idt st) = 256%nat) as Hlen by by rewrite Hst.
  unfold irqsInstall.
  destruct (install_fold (seqZ 0 49) st n) as [Hl1 H1]; [intros i; rewrite elem_of_seqZ; lia|done|done|].
  set (st1 := foldl _ st _) in *.
  destruct (idt_set st1 49 (isr 49) (gate IDT_INTERRUPT_GATE IDT_RING3) n) as [Hl2 H2]; [done|done|done|].
  set (st2 := idtSetGate 49 _ _ _ _) in *.
  destruct (idt_set st2 73 syscallHandler (gate IDT_TRAP_GATE IDT_RING3) n) as [_ H3]; [done|done|done|].
  rewrite H3, H2, H1, Hst, lookup_replicate_2 by lia. clear H1 H2 H3 Hl1 Hl2 Hst Hlen st1 st2 st.
  assert (∀ o a, 0 <= o < 2 ^ 32 → Some (IdtEntry (Z.land o 0xFFFF) 8 0 a (Z.land (Z.shiftr o 16) 0xFFFF)) = Some e →
    gate_offset e = o ∧ selector e = 8 ∧ attr e = a) as Hset.
  { intros o a Ho [= <-]. split; [by apply gate_offset_set|done]. }
  unfold gate_present, gate_ring, stub_of.
  destruct (decide (n = 73)) as [->|H73]; [|destruct (decide (n = 49)) as [->|H49]; [|destruct (decide (n ∈ seqZ 0 49)) as [Hin|Hin]]].
  - intros He. destruct (Hset _ _ syscall_range He) as (Ho & Hs & Ha). rewrite Ha.
    split; [split; [by right|done]|]. intros _. split; [done|]. split; [done|]. split; [by right|done].
  - intros He. destruct (Hset _ _ (isr_range 49) He) as (Ho & Hs & Ha). rewrite Ha.
    split; [split; [left; lia|done]|]. intros _. split; [done|]. split; [done|]. split; [by left|done].
  - apply elem_of_seqZ in Hin. intros He. destruct (Hset _ _ (isr_range n) He) as (Ho & Hs & Ha). rewrite Ha.
    split; [split; [left; lia|done]|]. intros _. rewrite (proj2 (Z.eqb_neq n 73) H73).
    split; [done|]. split; [done|]. split; [done|]. by intros [?|?].
  - rewrite elem_of_seqZ in Hin. intros [= <-]. cbn [attr]. rewrite Z.bits_0.
    split; [split; [done|lia]|done].
Qed.
End gates.

Definition demo_stubs : Stubs := {| isr i := u32 (0x100000 + 16 * i); syscallHandler := 0x123456 |}.

Lemma gates_installed_witness :
  match idt (irqsInstall (H := demo_stubs) irq_start) !! 73%nat with
  | Some e => gate_offset e = 0x123456 ∧ gate_ring e = 3
  | None => False
  end.
Proof.
  pose proof (λ e : idt_entry, gates_installed (H := demo_stubs) (λ i, u32_range _) ltac:(done) irq_start 73 e eq_refl ltac:(done)) as Hg.
  change (Z.to_nat 73) with 73%nat in Hg. revert Hg. destruct (_ !! 73%nat) as [e|] eqn:He.
  - intros Hg. destruct (Hg e eq_refl) as [Hp Hg']. destruct Hg' as (Ho & _ & Hr); [by apply Hp; right|].
    split; [exact Ho|]. apply Hr. by right.
  - intros _. vm_compute in He. discriminate He.
Defined.
