(* ===== verification/Ps2.v ===== *)
(** * The PS/2 controller (kernel/src/ps2.cpp)

    PS2::initialize talks to the controller through the I/O ports, looks for a
    keyboard at the first port, and installs its interrupt handler. *)
From S2P Require Import Prelude Memory Vga Keyboard Process Print Interrupt.

Definition PS2_DATA_PORT : Z := 0x60.
Definition PS2_STATUS_PORT : Z := 0x64.
Definition PS2_COMMAND_PORT : Z := 0x64.
Definition COMMAND_READ_CONFIG : Z := 0x20.
Definition COMMAND_WRITE_CONFIG : Z := 0x60.
Definition COMMAND_DISABLE_PORT2 : Z := 0xA7.
Definition COMMAND_ENABLE_PORT2 : Z := 0xA8.
Definition COMMAND_TEST_PORT2 : Z := 0xA9.
Definition COMMAND_SELF_TEST : Z := 0xAA.
Definition COMMAND_TEST_PORT1 : Z := 0xAB.
Definition COMMAND_DISABLE_PORT1 : Z := 0xAD.
Definition COMMAND_ENABLE_PORT1 : Z := 0xAE.
Definition PS2_CONFIG_FIRST_INTERRUPT : Z := Z.shiftl 1 0.
Definition PS2_CONFIG_SECOND_INTERRUPT : Z := Z.shiftl 1 1.
Definition PS2_CONFIG_SECOND_CLOCK : Z := Z.shiftl 1 5.
Definition DEVICE_CMD_IDENTIFY : Z := 0xF2.
Definition DEVICE_CMD_DISABLE_SCANNING : Z := 0xF5.
Definition DEVICE_CMD_RESET : Z := 0xFF.
Definition DEVICE_ACK : Z := 0xFA.
Definition DEVICE_RESET_OK : Z := 0xAA.
Definition REG_STATUS_OUTPUT : Z := Z.shiftl 1 0.
Definition REG_STATUS_INPUT : Z := Z.shiftl 1 1.

(** The static variable [ps2Device1]: the address of the device, 0 for none. *)
Record device_st : Type := Device1 { ps2Device1 : Z }.

Section ps2.
Context {S : Type} `{P : !Ports S} `{W : !Console S} `{I : !Lens S irq_st} `{KB : !Lens S ps2_st} `{DV : !Lens S device_st}.
Context `{C : !Contexts S} `{KL : !Listener S} (fuel : nat).
(** The addresses of irqHandler and of the keyboard object new makes. *)
Context (irqHandler_address new_keyboard : Z).

Definition irqHandler (r : Z) : ST S unit :=
  int_no ← field_of r ctx_int_no;
  if int_no =? 33 then
    d ← (λ s, Ok (get s, s)) : ST S device_st;
    if Z_bool (ps2Device1 d) then Keyboard.irqHandler fuel else mret tt
  else fault.

(** [while (inportb(PS2_STATUS_PORT) & REG_STATUS_INPUT) {}] *)
Definition wait_input : ST S unit :=
  loop fuel (λ _ : unit,
    st ← inportb PS2_STATUS_PORT;
    if Z_bool (Z.land st REG_STATUS_INPUT) then mret (Next tt) else mret (Done tt)) tt.

Definition readDataPort : ST S Z :=
  loop fuel (λ _ : unit,
    st ← inportb PS2_STATUS_PORT;
    if negb (Z_bool (Z.land st REG_STATUS_OUTPUT)) then mret (Next tt) else mret (Done tt)) tt;;
  inportb PS2_DATA_PORT.

Definition sendPS2Command (command : Z) : ST S unit :=
  wait_input;; outportb PS2_COMMAND_PORT command.

Definition sendPS2Command_data (command data : Z) : ST S unit :=
  wait_input;; outportb PS2_COMMAND_PORT command;;
  wait_input;; outportb PS2_DATA_PORT data.

Definition sendPS2CommandWithResponse (command : Z) : ST S Z :=
  wait_input;; outportb PS2_COMMAND_PORT command;; readDataPort.

Definition flush_output : ST S unit :=
  loop fuel (λ _ : unit,
    st ← inportb PS2_STATUS_PORT;
    if Z_bool (Z.land st REG_STATUS_OUTPUT) then inportb PS2_DATA_PORT;; mret (Next tt) else mret (Done tt)) tt.

(** A command to the device, acknowledged or not. *)
Definition sendDevice (command : Z) : ST S bool :=
  wait_input;; outportb PS2_DATA_PORT command;;
  ack ← readDataPort; mret (ack =? DEVICE_ACK).

(** The block that finds out what is at the first port; [break] leaves it. *)
Definition detectDevice : ST S unit :=
  ack ← sendDevice DEVICE_CMD_RESET;
  if negb ack then mret tt else
  ok ← readDataPort;
  if negb (ok =? DEVICE_RESET_OK) then mret tt else
  ack ← sendDevice DEVICE_CMD_DISABLE_SCANNING;
  if negb ack then mret tt else
  ack ← sendDevice DEVICE_CMD_IDENTIFY;
  if negb ack then mret tt else
  id ← readDataPort;
  if id =? 0xAB then
    id ← inportb PS2_DATA_PORT;
    if (id =? 0x41) || (id =? 0xC1) || (id =? 0x83) then
      PS2Keyboard fuel;;
      printf ("PS/2 Keyboard found" +:+ newline) [];;
      p ← get_ps2;
      set_ps2 (Ps2 (ps2_escaped p) (ledState p) true);;
      (λ s, Ok (tt, set (Device1 new_keyboard) s));;
      install 33 irqHandler_address
    else mret tt
  else mret tt.

Definition initialize : ST S unit :=
  sendPS2Command COMMAND_DISABLE_PORT1;;
  sendPS2Command COMMAND_DISABLE_PORT2;;
  flush_output;;
  config ← sendPS2CommandWithResponse COMMAND_READ_CONFIG;
  let config := Z.land config (u8 (Z.lnot PS2_CONFIG_FIRST_INTERRUPT)) in
  let config := Z.land config (u8 (Z.lnot PS2_CONFIG_SECOND_INTERRUPT)) in
  sendPS2Command_data COMMAND_WRITE_CONFIG config;;
  test ← sendPS2CommandWithResponse COMMAND_SELF_TEST;
  if negb (test =? 0x55) then printf ("PS/2 self test failed (response = 0x%x)" +:+ newline) [test] else
  dualChannel ←
    (if Z_bool (Z.land config PS2_CONFIG_SECOND_CLOCK) then
       sendPS2Command COMMAND_ENABLE_PORT2;;
       config ← sendPS2CommandWithResponse COMMAND_READ_CONFIG;
       mret (Z_bool (Z.land config PS2_CONFIG_SECOND_CLOCK))
     else mret false);
  test1 ← sendPS2CommandWithResponse COMMAND_TEST_PORT1;
  let port1Exists := test1 =? 0x00 in
  port2Exists ←
    (if dualChannel : bool then test2 ← sendPS2CommandWithResponse COMMAND_TEST_PORT2; mret (test2 =? 0x00)
     else mret false);
  (if negb port1Exists && negb port2Exists then printf ("No usable PS/2 port found" +:+ newline) [] else mret tt);;
  config ← sendPS2CommandWithResponse COMMAND_READ_CONFIG;
  let config := if port1Exists then Z.lor config PS2_CONFIG_FIRST_INTERRUPT else config in
  let config := if port2Exists : bool then Z.lor config PS2_CONFIG_SECOND_INTERRUPT else config in
  sendPS2Command_data COMMAND_WRITE_CONFIG config;;
  (if port1Exists then sendPS2Command COMMAND_ENABLE_PORT1 else mret tt);;
  (if port2Exists then sendPS2Command COMMAND_ENABLE_PORT2 else mret tt);;
  if port1Exists then detectDevice else mret tt.
End ps2.

(** ** A controller

    The 8042 as its documentation describes it: a queue of bytes to be read, a
    configuration byte, and at the first port a keyboard that acknowledges its
    commands.  [dual]: there is a second port, whose clock bit enabling clears
    and disabling sets; without one the bit stays as it is. *)
Record pc : Type := Pc { output : list Z; config : Z; pending : bool; dual : bool }.

Definition controller_command (c : Z) (s : pc) : pc :=
  let reply bs := Pc (output s ++ bs) (config s) (pending s) (dual s) in
  let set_config v := Pc (output s) v (pending s) (dual s) in
  if c =? 0x20 then reply [config s]
  else if c =? 0x60 then Pc (output s) (config s) true (dual s)
  else if c =? 0xA7 then if dual s then set_config (Z.setbit (config s) 5) else s
  else if c =? 0xA8 then if dual s then set_config (Z.clearbit (config s) 5) else s
  else if c =? 0xA9 then reply [0x00]
  else if c =? 0xAA then reply [0x55]
  else if c =? 0xAB then reply [0x00]
  else if c =? 0xAD then set_config (Z.setbit (config s) 4)
  else if c =? 0xAE then set_config (Z.clearbit (config s) 4)
  else s.

Definition keyboard_reply (c : Z) : list Z :=
  if c =? 0xFF then [0xFA; 0xAA] else if c =? 0xF2 then [0xFA; 0xAB; 0x83] else [0xFA].

Definition data_byte (c : Z) (s : pc) : pc :=
  if pending s then Pc (output s) c false (dual s)
  else Pc (output s ++ keyboard_reply c) (config s) false (dual s).

(** What a byte written does: [true] for the command port. *)
Definition perform (w : bool * Z) (c : pc) : pc := if w.1 then controller_command w.2 c else data_byte w.2 c.

(** It takes its time.  A byte written stays in the input buffer for a while, and
    another one written meanwhile is lost; what it answers is to be seen later
    still, and [gap] after a byte has been read the next one of the answer.  Time
    is counted in readings of the status; [lag] has the delays to come.  Reading
    the data port when nothing is to be seen gives the byte read last. *)
Record controller : Type := Controller {
  inner : pc;
  inbuf : option (nat * (bool * Z));
  hold : nat;
  lag : list nat;
  gap : nat;
  latch : Z;
}.

Definition next_lag (m : controller) : nat := default 0%nat (head (lag m)).

Definition tick (m : controller) : controller :=
  match inbuf m with
  | Some (O, w) =>
      Controller (perform w (inner m)) None
        (match output (inner m) with [] => next_lag m | _ => hold m end) (tail (lag m)) (gap m) (latch m)
  | Some (Datatypes.S n, w) => Controller (inner m) (Some (n, w)) (hold m) (lag m) (gap m) (latch m)
  | None => Controller (inner m) None (pred (hold m)) (lag m) (gap m) (latch m)
  end.

Definition visible (m : controller) : bool :=
  match output (inner m) with [] => false | _ => Nat.eqb (hold m) 0 end.

Definition status (m : controller) : Z :=
  (if visible m then 1 else 0) + (if inbuf m then 2 else 0).

Definition data_in (w : bool * Z) (m : controller) : controller :=
  match inbuf m with
  | Some _ => m
  | None => Controller (inner m) (Some (next_lag m, w)) (hold m) (tail (lag m)) (gap m) (latch m)
  end.

Definition data_out (m : controller) : Z * controller :=
  if visible m then
    let c := inner m in
    let b := default 0 (head (output c)) in
    (b, Controller (Pc (tail (output c)) (config c) (pending c) (dual c)) (inbuf m) (gap m) (lag m) (gap m) b)
  else (latch m, m).

Definition machine : Type := controller * (irq_st * (ps2_st * device_st)).

#[export] Instance pc_ports : Ports machine := {|
  inportb port s :=
    if port =? 0x64 then Ok (status (tick s.1), (tick s.1, s.2))
    else let (b, m) := data_out s.1 in Ok (b, (m, s.2));
  outportb port b s := Ok (tt, (data_in (port =? 0x64, b) s.1, s.2)) |}.
#[export] Instance pc_console : Console machine := {| printf _ _ := mret tt; literal _ := 0 |}.
#[export] Instance pc_listener : Listener machine := {| onKeyboardEvent _ := mret tt |}.

(** What the controller comes to be when it is left alone. *)
Definition ideal (m : controller) : pc :=
  match inbuf m with Some (_, w) => perform w (inner m) | None => inner m end.

(** No delay is longer than [D]. *)
Definition within (D : nat) (m : controller) : Prop :=
  Forall (λ n, (n <= D)%nat) (lag m) ∧ (hold m <= D)%nat ∧ (gap m <= D)%nat ∧
  match inbuf m with Some (n, _) => (n <= D)%nat | None => True end.

(** All bytes to be read have arrived, or are there without delay. *)
Definition arrived (m : controller) : Prop :=
  output (inner m) = output (ideal m) ∧ (output (inner m) = [] ∨ hold m = 0%nat) ∧
  (gap m = 0%nat ∨ (length (output (inner m)) <= 1)%nat).

(** There is no byte to be read that was there before the one written. *)
Definition settled (m : controller) : Prop := inbuf m = None ∨ output (inner m) = [].

Section detection.
Context (D fuel g : nat) (handler keyboard : Z).
Implicit Types (m : controller) (c : pc) (r : irq_st * (ps2_st * device_st)).

Lemma perform_cons w b out cf pe du :
  perform w (Pc (b :: out) cf pe du) =
  let c := perform w (Pc out cf pe du) in Pc (b :: output c) (config c) (pending c) (dual c).
Proof.
  destruct w as [[] v]; unfold perform, controller_command, data_byte; cbn [fst snd output config pending dual].
  - by repeat case_match.
  - by destruct pe.
Qed.

(** The controller is on its way to [c]. *)
Definition at_pc (c : pc) (m : controller) : Prop := ideal m = c ∧ within D m ∧ gap m = g.

(** How long that takes at most. *)
Definition due (m : controller) : nat :=
  (match inbuf m with Some (n, _) => n + 1 + D | None => 0 end + hold m)%nat.

Lemma next_lag_within m : within D m → (next_lag m <= D)%nat ∧ Forall (λ n, (n <= D)%nat) (tail (lag m)).
Proof.
  intros (Hl & _). unfold next_lag. destruct Hl; cbn; [split; [lia|constructor]|done].
Qed.

Lemma due_within c m : at_pc c m → (due m <= 3 * D + 1)%nat.
Proof. intros (_ & (_ & Hh & _ & Hb) & _). unfold due. destruct (inbuf m) as [[n w]|]; lia. Qed.

Lemma tick_at c m :
  at_pc c m → at_pc c (tick m) ∧ (due (tick m) <= pred (due m))%nat ∧
    (arrived m → arrived (tick m)) ∧ (settled m → settled (tick m)).
Proof.
  intros (Hi & Hw & Hg). destruct (next_lag_within m Hw) as [Hn Ht]. destruct Hw as (Hl & Hh & Hgap & Hb).
  unfold at_pc, within, arrived, settled, due, tick, ideal in *. destruct (inbuf m) as [[[|n] w]|] eqn:Hm; cbn -[Nat.leb Nat.mul] in *;
    rewrite ?Hm in *; cbn -[Nat.leb Nat.mul] in *.
  - split_and!; try done; [by destruct (output (inner m)); lia..| |by left].
    intros (Heq & Hz & Hg'). split; [done|]. rewrite <-Heq. split; [|done]. destruct (output (inner m)); [by left|]. by destruct Hz; right.
  - split_and!; try done; try lia. by intros [?|?]; [|right].
  - split_and!; try done; try lia. intros (_ & Hz & Hg'). split; [done|]. split; [|done]. destruct Hz; [by left|right; lia].
Qed.

(** What an operation does, however long the controller takes. *)
Definition does {A} (op : ST machine A) c r (a : A) c' r' : Prop :=
  ∀ m, at_pc c m → ∃ m', op (m, r) = Ok (a, (m', r')) ∧ at_pc c' m'.

Lemma does_ret {A} (a : A) c r : does (mret a) c r a c r.
Proof. intros m Hm. by exists m. Qed.

Lemma does_bind {A B} (op : ST machine A) (k : A → ST machine B) c r a c1 r1 b c2 r2 :
  does op c r a c1 r1 → does (k a) c1 r1 b c2 r2 → does (op ≫= k) c r b c2 r2.
Proof.
  intros H1 H2 m Hm. destruct (H1 m Hm) as (m1 & Hop & Hm1). destruct (H2 m1 Hm1) as (m2 & Hk & Hm2).
  exists m2. by rewrite (bind_ok _ _ _ _ _ Hop).
Qed.

Lemma bind_assoc_at {A B C} (op : ST machine A) (f : A → ST machine B) (k : B → ST machine C) s :
  ((op ≫= f) ≫= k) s = (op ≫= λ a, f a ≫= k) s.
Proof. unfold mbind, ST_bind. by destruct (op s) as [[a s']| |]. Qed.

Lemma does_assoc {A B C} (op : ST machine A) (f : A → ST machine B) (k : B → ST machine C) c r b c' r' :
  does ((op ≫= f) ≫= k) c r b c' r' → does (op ≫= λ a, f a ≫= k) c r b c' r'.
Proof.
  intros H m Hm. destruct (H m Hm) as (m' & Hrun & Hm'). exists m'. by rewrite <-bind_assoc_at.
Qed.

Lemma data_in_at c w m :
  at_pc c m → inbuf m = None →
  at_pc (perform w c) (data_in w m) ∧ (output (perform w c) = output c → arrived m → arrived (data_in w m)) ∧
    (output c = [] → settled (data_in w m)).
Proof.
  intros (Hi & Hw & Hg) Hb. destruct (next_lag_within m Hw) as [Hn Ht]. destruct Hw as (Hl & Hh & Hgap & _).
  unfold at_pc, within, arrived, settled, data_in, ideal in *. rewrite Hb in *. cbn. subst c. split; [done|].
  split; [|by right]. intros Heq (_ & Hz & Hg'). by rewrite Heq.
Qed.

(** A byte taken out. *)
Lemma data_out_at b out cf pe du m :
  at_pc (Pc (b :: out) cf pe du) m → visible m = true → 
  (data_out m).1 = b ∧ at_pc (Pc out cf pe du) (data_out m).2 ∧ (arrived m → arrived (data_out m).2).
Proof.
  intros (Hi & (Hl & Hh & Hgap & Hb) & Hg) Hv. unfold data_out. rewrite Hv. cbn [fst snd].
  unfold visible in Hv. unfold at_pc, within, arrived, ideal in *.
  destruct (inner m) as [[|b' out'] cf' pe' du'] eqn:Hin; [done|]. cbn [output config pending dual head tail default] in *.
  destruct m as [i ib h l gp la]. cbn [inner inbuf hold lag gap latch] in *. subst i.
  destruct ib as [[n w]|]; cbn [inner inbuf hold lag gap latch output] in *.
  - rewrite perform_cons in Hi. cbv zeta in Hi. destruct (perform w (Pc out' cf' pe' du')) as [o2 cf2 pe2 du2] eqn:Hp.
    cbn [output config pending dual] in Hi. injection Hi as -> -> -> -> ->. split; [done|]. split; [done|].
    rewrite perform_cons, Hp. cbn. intros (Heq & _ & Hg'). injection Heq as Heq. split; [done|]. 
    destruct Hg' as [->|Hlen]; [split; [by right|by left]|]. destruct out'; [|cbn in Hlen; lia]. split; [by left|right; cbn; lia].
  - injection Hi as -> -> -> -> ->. split; [done|]. split; [done|]. cbn. intros (_ & _ & Hg'). split; [done|].
    destruct Hg' as [->|Hlen]; [split; [by right|by left]|]. destruct out; [|cbn in Hlen; lia]. split; [by left|right; cbn; lia].
Qed.

Hypothesis Hfuel : (3 * D + 1 < fuel)%nat.

Lemma status_ok m r : inportb PS2_STATUS_PORT (m, r) = Ok (status (tick m), (tick m, r)).
Proof. done. Qed.

(** The loop ends with the input buffer empty. *)
Lemma wait_input_at c m r :
  at_pc c m → ∃ m', wait_input fuel (m, r) = Ok (tt, (m', r)) ∧ at_pc c m' ∧ inbuf m' = None ∧ (arrived m → arrived m').
Proof using Hfuel.
  intros Hm. pose proof (due_within c m Hm) as Hd. assert (due m < fuel)%nat as Hf by lia. clear Hd Hfuel.
  unfold wait_input. revert m Hm Hf. induction fuel as [|n IH]; intros m Hm Hf; [lia|].
  destruct (tick_at c m Hm) as (Ht & Hdue & Harr & _). destruct (inbuf (tick m)) as [[k w]|] eqn:Hb.
  - assert (0 < due (tick m))%nat as Hpos by (unfold due; rewrite Hb; lia).
    destruct (IH (tick m) Ht ltac:(lia)) as (m' & Hrun & Hat & Hnone & Harr'). exists m'.
    split; [|by auto]. erewrite loop_next; [exact Hrun|]. rewrite (bind_ok _ _ _ _ _ (status_ok m r)).
    unfold status. rewrite Hb. by destruct (visible (tick m)).
  - exists (tick m). split; [|done]. apply loop_done. rewrite (bind_ok _ _ _ _ _ (status_ok m r)).
    unfold status. rewrite Hb. by destruct (visible (tick m)).
Qed.

(** Waiting and writing. *)
Lemma write_at port b c m r :
  at_pc c m → ∃ m', (wait_input fuel;; outportb port b) (m, r) = Ok (tt, (m', r)) ∧ at_pc (perform (port =? 0x64, b) c) m' ∧
    (output (perform (port =? 0x64, b) c) = output c → arrived m → arrived m') ∧ (output c = [] → settled m').
Proof using Hfuel.
  intros Hm. destruct (wait_input_at c m r Hm) as (m1 & Hrun & Hm1 & Hb & Harr).
  destruct (data_in_at c (port =? 0x64, b) m1 Hm1 Hb) as (Hat & Harr' & Hset).
  eexists. rewrite (bind_ok _ _ _ _ _ Hrun). split; [done|]. split; [done|]. auto.
Qed.

Lemma write_ok port b c r : does (wait_input fuel;; outportb port b) c r tt (perform (port =? 0x64, b) c) r.
Proof using Hfuel. intros m Hm. destruct (write_at port b c m r Hm) as (m' & Hrun & Hm' & _). by exists m'. Qed.

(** Once it has been read, nothing is to be seen for [gap]. *)
Lemma readDataPort_at b out cf pe du m r :
  at_pc (Pc (b :: out) cf pe du) m →
  ∃ m', readDataPort fuel (m, r) = Ok (b, (m', r)) ∧ at_pc (Pc out cf pe du) m' ∧ hold m' = g ∧ latch m' = b ∧
    (settled m → inbuf m' = None).
Proof using Hfuel.
  intros Hm. pose proof (due_within _ m Hm) as Hd. assert (due m < fuel)%nat as Hf by lia. clear Hd Hfuel.
  assert (∃ m1, loop fuel (λ _ : unit, st ← inportb PS2_STATUS_PORT;
      if negb (Z_bool (Z.land st REG_STATUS_OUTPUT)) then mret (Next tt) else mret (Done tt)) tt (m, r) = Ok (tt, (m1, r)) ∧
      at_pc (Pc (b :: out) cf pe du) m1 ∧ visible m1 = true ∧ (settled m → settled m1)) as (m1 & Hrun & Hm1 & Hv & Hs).
  { revert m Hm Hf. induction fuel as [|n IH]; intros m Hm Hf; [lia|].
    destruct (tick_at _ m Hm) as (Ht & Hdue & _ & Hset). destruct (visible (tick m)) eqn:Hv.
    - exists (tick m). split; [|done]. apply loop_done. rewrite (bind_ok _ _ _ _ _ (status_ok m r)). unfold status. rewrite Hv. by destruct (inbuf (tick m)).
    - assert (0 < due (tick m))%nat as Hpos.
      { destruct Ht as (Hi & _). unfold due, visible, ideal in *. destruct (inbuf (tick m)) as [[]|]; [lia|].
        rewrite Hi in Hv. cbn in Hv. apply Nat.eqb_neq in Hv. lia. }
      destruct (IH (tick m) Ht ltac:(lia)) as (m1 & Hrun & Hat & Hv1 & Hs). exists m1. split; [|by auto].
      erewrite loop_next; [exact Hrun|]. rewrite (bind_ok _ _ _ _ _ (status_ok m r)). unfold status. rewrite Hv. by destruct (inbuf (tick m)). }
  destruct (data_out_at b out cf pe du m1 Hm1 Hv) as (Hb & Hat & _). exists (data_out m1).2. split; [|split; [done|]].
  - unfold readDataPort. rewrite (bind_ok _ _ _ _ _ Hrun). cbn. destruct (data_out m1) as [b' m2]. cbn [fst] in Hb. by subst b'.
  - unfold data_out in *. rewrite Hv in *. cbn [fst snd hold latch inbuf] in *. destruct Hm1 as (_ & _ & Hg).
    split; [done|]. split; [done|]. intros Hset. destruct (Hs Hset) as [?|He]; [done|]. unfold visible in Hv. by rewrite He in Hv.
Qed.

Lemma readDataPort_ok b out cf pe du r :
  does (readDataPort fuel) (Pc (b :: out) cf pe du) r b (Pc out cf pe du) r.
Proof using Hfuel. intros m Hm. destruct (readDataPort_at b out cf pe du m r Hm) as (m' & Hrun & Hat & _). by exists m'. Qed.

Lemma send_ok cmd c r : does (sendPS2Command fuel cmd) c r tt (controller_command cmd c) r.
Proof using Hfuel. exact (write_ok PS2_COMMAND_PORT cmd c r). Qed.

Lemma send_data_ok cmd b c r :
  does (sendPS2Command_data fuel cmd b) c r tt (data_byte b (controller_command cmd c)) r.
Proof using Hfuel.
  apply does_assoc. eapply does_bind; [apply send_ok|]. exact (write_ok PS2_DATA_PORT b _ r).
Qed.

Lemma send_response_ok cmd c r b out cf pe du :
  controller_command cmd c = Pc (b :: out) cf pe du →
  does (sendPS2CommandWithResponse fuel cmd) c r b (Pc out cf pe du) r.
Proof using Hfuel.
  intros Hc. apply does_assoc. eapply does_bind; [apply send_ok|]. rewrite Hc. apply readDataPort_ok.
Qed.

Lemma read_config_ok (cf : Z) du r :
  does (sendPS2CommandWithResponse fuel COMMAND_READ_CONFIG) (Pc [] cf false du) r cf (Pc [] cf false du) r.
Proof using Hfuel. by apply send_response_ok. Qed.

Lemma device_ok cmd out cf du r :
  keyboard_reply cmd = 0xFA :: out →
  does (sendDevice fuel cmd) (Pc [] cf false du) r true (Pc out cf false du) r.
Proof using Hfuel.
  intros Hr. apply does_assoc. eapply does_bind; [apply write_ok|].
  change (perform (PS2_DATA_PORT =? 0x64, cmd) (Pc [] cf false du)) with (Pc (keyboard_reply cmd) cf false du). rewrite Hr.
  eapply does_bind; [apply readDataPort_ok|]. apply does_ret.
Qed.

Lemma does_eq {A} (op op' : ST machine A) c r a c' r' :
  (∀ m, op (m, r) = op' (m, r)) → does op' c r a c' r' → does op c r a c' r'.
Proof using. intros Heq H m Hm. rewrite Heq. by apply H. Qed.

(** The constructor of the keyboard talks to the same ports. *)
Lemma keyboard_ok cf du (irq : irq_st) ps2 (q : device_st) :
  does (PS2Keyboard fuel) (Pc [] cf false du) (irq, (ps2, q)) tt
    (Pc [] cf false du) (irq, (Ps2 (ps2_escaped ps2) (ledState ps2) false, q)).
Proof using Hfuel.
  intros m Hm. unfold PS2Keyboard. erewrite bind_ok by done. erewrite bind_ok by done. cbn [set Lens_snd Lens_fst fst snd get].
  revert m Hm. change (does (sendKeyboardCommand fuel KEYBOARD_ENABLE_SCANNING) (Pc [] cf false du)
    (irq, (Ps2 (ps2_escaped ps2) (ledState ps2) false, q)) tt (Pc [] cf false du) (irq, (Ps2 (ps2_escaped ps2) (ledState ps2) false, q))).
  apply does_assoc. eapply does_bind; [apply write_ok|]. eapply does_bind; [apply readDataPort_ok|]. apply does_ret.
Qed.

(** The second byte of the identification is read without waiting for it: when
    it has not come the first is read again. *)
Lemma second_byte_ok cf du m r :
  at_pc (Pc [0x83] cf false du) m → hold m = g → latch m = 0xAB → inbuf m = None →
  ∃ m', inportb PS2_DATA_PORT (m, r) = Ok (if Nat.eqb g 0 then 0x83 else 0xAB, (m', r)) ∧
    at_pc (Pc (if Nat.eqb g 0 then [] else [0x83]) cf false du) m'.
Proof using.
  intros Hm Hh Hl Hb. pose proof Hm as (Hi & _). unfold ideal in Hi. rewrite Hb in Hi.
  assert (visible m = Nat.eqb g 0) as Hv by (unfold visible; rewrite Hi, Hh; done).
  destruct (Nat.eqb g 0).
  - destruct (data_out_at _ _ _ _ _ m Hm Hv) as (Heq & Hat & _). exists (data_out m).2. split; [|done].
    cbn. destruct (data_out m). cbn [fst snd] in *. by subst.
  - exists m. split; [|done]. cbn. unfold data_out. by rewrite Hv, Hl.
Qed.

Lemma identify_ok cf du m r :
  at_pc (Pc [] cf false du) m →
  ∃ m1 m2 m3, sendDevice fuel DEVICE_CMD_IDENTIFY (m, r) = Ok (true, (m1, r)) ∧
    readDataPort fuel (m1, r) = Ok (0xAB, (m2, r)) ∧
    inportb PS2_DATA_PORT (m2, r) = Ok (if Nat.eqb g 0 then 0x83 else 0xAB, (m3, r)) ∧
    at_pc (Pc (if Nat.eqb g 0 then [] else [0x83]) cf false du) m3.
Proof using Hfuel.
  intros Hm. destruct (write_at PS2_DATA_PORT DEVICE_CMD_IDENTIFY _ m r Hm) as (m0 & Hrun & Hm0 & _ & Hs0).
  destruct (readDataPort_at 0xFA [0xAB; 0x83] cf false du m0 r Hm0) as (m1 & Hrun1 & Hm1 & _ & _ & Hs1).
  destruct (readDataPort_at 0xAB [0x83] cf false du m1 r Hm1) as (m2 & Hrun2 & Hm2 & Hh & Hl & Hs2).
  assert (inbuf m1 = None) as Hb by by apply Hs1, Hs0.
  destruct (second_byte_ok cf du m2 r Hm2 Hh Hl) as (m3 & Hrun3 & Hm3); [by apply Hs2; left|].
  exists m1, m2, m3. split; [|done].
  unfold sendDevice. rewrite <-bind_assoc_at, (bind_ok _ _ _ _ _ Hrun). by rewrite (bind_ok _ _ _ _ _ Hrun1).
Qed.

Definition found (irq : irq_st) ps2 dv : irq_st * (ps2_st * device_st) :=
  if Nat.eqb g 0
  then (Irq (idt irq) (<[33%nat := handler]> (isrRoutines irq)), (Ps2 (ps2_escaped ps2) (ledState ps2) true, Device1 keyboard))
  else (irq, (ps2, dv)).

Lemma detectDevice_ok cf du irq ps2 dv :
  does (detectDevice fuel handler keyboard) (Pc [] cf false du) (irq, (ps2, dv)) tt
    (Pc (if Nat.eqb g 0 then [] else [0x83]) cf false du) (found irq ps2 dv).
Proof using Hfuel.
  set (r := (irq, (ps2, dv))).
  eapply does_bind; [by apply (device_ok DEVICE_CMD_RESET [0xAA])|]. cbn [negb].
  eapply does_bind; [apply readDataPort_ok|]. change (0xAA =? DEVICE_RESET_OK) with true. cbn [negb].
  eapply does_bind; [by apply (device_ok DEVICE_CMD_DISABLE_SCANNING [])|]. cbn [negb].
  intros m Hm. destruct (identify_ok cf du m r Hm) as (m1 & m2 & m3 & Hrun1 & Hrun2 & Hrun3 & Hm3).
  rewrite (bind_ok _ _ _ _ _ Hrun1). cbn [negb]. rewrite (bind_ok _ _ _ _ _ Hrun2).
  change (0xAB =? 0xAB) with true. cbv iota. rewrite (bind_ok _ _ _ _ _ Hrun3). unfold found.
  destruct (Nat.eqb g 0); [|by exists m3].
  change ((0x83 =? 0x41) || (0x83 =? 0xC1) || (0x83 =? 0x83)) with true. cbv iota.
  destruct (keyboard_ok cf du irq ps2 dv m3 Hm3) as (m4 & Hrun4 & Hm4). subst r.
  rewrite (bind_ok _ _ _ _ _ Hrun4). do 4 (erewrite bind_ok by done). by exists m4.
Qed.

(** Emptying the output buffer, with every byte there at once. *)
Lemma flush_ok out cf pe du m r :
  (length out < fuel)%nat → at_pc (Pc out cf pe du) m → arrived m →
  ∃ m', flush_output fuel (m, r) = Ok (tt, (m', r)) ∧ at_pc (Pc [] cf pe du) m'.
Proof using.
  unfold flush_output. clear Hfuel. revert out m. induction fuel as [|n IH]; intros out m Hf Hm Ha; [lia|].
  destruct (tick_at _ m Hm) as (Ht & _ & Harr & _). pose proof (Harr Ha) as Ha'. pose proof Ht as (Hi & _).
  pose proof Ha' as (Heq & Hz & Hg). clear Harr. rewrite Hi in Heq. cbn [output] in Heq. destruct out as [|b out].
  - exists (tick m). split; [|done]. apply loop_done. rewrite (bind_ok _ _ _ _ _ (status_ok m r)).
    unfold status, visible. rewrite Heq. by destruct (inbuf (tick m)).
  - assert (visible (tick m) = true) as Hv by (unfold visible; destruct Hz as [Hz| ->]; [by rewrite Heq in Hz|by rewrite Heq]).
    destruct (data_out_at _ _ _ _ _ _ Ht Hv) as (Hb & Hat & Harr).
    destruct (IH out (data_out (tick m)).2) as (m' & Hrun & Hm'); [cbn in Hf; lia|done|by apply Harr|].
    exists m'. split; [|done]. erewrite loop_next; [exact Hrun|]. rewrite (bind_ok _ _ _ _ _ (status_ok m r)).
    assert (Z_bool (Z.land (status (tick m)) REG_STATUS_OUTPUT) = true) as ->
      by (unfold status; rewrite Hv; by destruct (inbuf (tick m))).
    assert (inportb PS2_DATA_PORT (tick m, r) = Ok ((data_out (tick m)).1, ((data_out (tick m)).2, r))) as Hrd
      by (cbn; by destruct (data_out (tick m))).
    by rewrite (bind_ok _ _ _ _ _ Hrd).
Qed.

(** The bytes that were waiting are thrown away first. *)
Lemma drain_ok {A} (k : ST machine A) out cf du m r a c' r' :
  (length out < fuel)%nat → at_pc (Pc out cf false du) m → arrived m →
  let c1 : Z := if du then Z.setbit (Z.setbit cf 4) 5 else Z.setbit cf 4 in
  does k (Pc [] c1 false du) r a c' r' →
  ∃ m', (sendPS2Command fuel COMMAND_DISABLE_PORT1;; sendPS2Command fuel COMMAND_DISABLE_PORT2;; flush_output fuel;; k) (m, r) =
    Ok (a, (m', r')) ∧ at_pc c' m'.
Proof using Hfuel.
  intros Hf Hm Ha c1 Hk.
  destruct (write_at PS2_COMMAND_PORT COMMAND_DISABLE_PORT1 _ m r Hm) as (m1 & Hrun1 & Hm1 & Ha1 & _).
  destruct (write_at PS2_COMMAND_PORT COMMAND_DISABLE_PORT2 _ m1 r Hm1) as (m2 & Hrun2 & Hm2 & Ha2 & _).
  assert (perform (PS2_COMMAND_PORT =? 0x64, COMMAND_DISABLE_PORT2) (perform (PS2_COMMAND_PORT =? 0x64, COMMAND_DISABLE_PORT1)
    (Pc out cf false du)) = Pc out c1 false du) as Hc by by destruct du.
  rewrite Hc in *. destruct (flush_ok out c1 false du m2 r Hf Hm2) as (m3 & Hrun3 & Hm3); [by apply Ha2, Ha1|].
  destruct (Hk m3 Hm3) as (m4 & Hrun4 & Hm4). exists m4. split; [|done].
  rewrite (bind_ok _ _ _ _ _ Hrun1), (bind_ok _ _ _ _ _ Hrun2), (bind_ok _ _ _ _ _ Hrun3). exact Hrun4.
Qed.

(** What the configuration byte becomes: written with the interrupts off, the
    clocks changed by the commands that enable and disable the ports. *)
Definition config_off (du : bool) (cf : Z) : Z :=
  let c := Z.setbit cf 4 in
  Z.land (Z.land (if du then Z.setbit c 5 else c) 254) 253.

Definition config_end (du : bool) (cf : Z) : Z :=
  let c := config_off du cf in
  let c := if du then Z.clearbit c 5 else c in
  let c := Z.lor c PS2_CONFIG_FIRST_INTERRUPT in
  let c := if du then c
           else if Z_bool (Z.land (config_off du cf) PS2_CONFIG_SECOND_CLOCK)
                then Z.lor c PS2_CONFIG_SECOND_INTERRUPT else c in
  Z.clearbit c 4.

(** Facts about a configuration byte, checked on all of them. *)
Definition config_check (du : bool) (cf : Z) : bool :=
  let c := config_end du cf in
  Z.testbit c 0 && negb (Z.testbit c 4) && Bool.eqb (Z.testbit c 1) (negb du && Z.testbit cf 5) &&
  Bool.eqb (Z.testbit c 5) (negb du && Z.testbit cf 5) &&
  (negb du || Z_bool (Z.land (config_off du cf) PS2_CONFIG_SECOND_CLOCK) &&
              negb (Z_bool (Z.land (Z.clearbit (config_off du cf) 5) PS2_CONFIG_SECOND_CLOCK))).

Lemma config_checked du cf : 0 <= cf < 256 → config_check du cf = true.
Proof using.
  clear Hfuel. intros Hc. assert (forallb (λ c : Z, config_check true c && config_check false c) (seqZ 0 256) = true) as Hall
    by (vm_compute; done).
  rewrite forallb_forall in Hall. specialize (Hall cf). rewrite andb_true_iff in Hall.
  destruct Hall as [Ht Hf]; [apply list_elem_of_In, elem_of_seqZ; lia|]. by destruct du.
Qed.

(** The test for the second port. *)
Lemma second_port_ok du (c2 : Z) r :
  (du = true → Z_bool (Z.land c2 PS2_CONFIG_SECOND_CLOCK) = true ∧ Z_bool (Z.land (Z.clearbit c2 5) PS2_CONFIG_SECOND_CLOCK) = false) →
  does (if Z_bool (Z.land c2 PS2_CONFIG_SECOND_CLOCK) then
      sendPS2Command fuel COMMAND_ENABLE_PORT2;;
      config ← sendPS2CommandWithResponse fuel COMMAND_READ_CONFIG;
      mret (Z_bool (Z.land config PS2_CONFIG_SECOND_CLOCK))
    else mret false) (Pc [] c2 false du) r
    (negb du && Z_bool (Z.land c2 PS2_CONFIG_SECOND_CLOCK)) (Pc [] (if du then Z.clearbit c2 5 else c2) false du) r.
Proof using Hfuel.
  intros Hd. destruct du.
  - destruct (Hd eq_refl) as [-> Hd0]. eapply does_bind; [apply send_ok|].
    eapply does_bind; [exact (read_config_ok (Z.clearbit c2 5) true r)|]. rewrite Hd0. apply does_ret.
  - cbn [negb andb]. destruct (Z_bool (Z.land c2 PS2_CONFIG_SECOND_CLOCK)) eqn:Hz; [|apply does_ret].
    eapply does_bind; [apply send_ok|]. eapply does_bind; [exact (read_config_ok c2 false r)|]. rewrite Hz. apply does_ret.
Qed.

Lemma initialize_ok out cf du irq ps2 dv m :
  (length out < fuel)%nat → 0 <= cf < 256 → at_pc (Pc out cf false du) m → arrived m →
  ∃ m', initialize fuel handler keyboard (m, (irq, (ps2, dv))) = Ok (tt, (m', found irq ps2 dv)) ∧
    at_pc (Pc (if Nat.eqb g 0 then [] else [0x83]) (config_end du cf) false du) m'.
Proof using Hfuel.
  intros Hout Hcf Hm Ha. pose proof (config_checked du cf Hcf) as Hck. unfold config_check in Hck. cbv zeta in Hck.
  rewrite !andb_true_iff in Hck. destruct Hck as [_ Hd].
  apply (drain_ok _ out cf du m _ _ _ _ Hout Hm Ha).
  set (c1 := if du then Z.setbit (Z.setbit cf 4) 5 else Z.setbit cf 4).
  eapply does_bind; [apply read_config_ok|]. eapply does_bind; [apply send_data_ok|].
  change (Z.land (Z.land c1 (u8 (Z.lnot PS2_CONFIG_FIRST_INTERRUPT))) (u8 (Z.lnot PS2_CONFIG_SECOND_INTERRUPT)))
    with (config_off du cf). set (c2 := config_off du cf) in *.
  change (data_byte c2 (controller_command COMMAND_WRITE_CONFIG (Pc [] c1 false du))) with (Pc [] c2 false du).
  eapply does_bind; [exact (send_response_ok COMMAND_SELF_TEST (Pc [] c2 false du) _ 0x55 [] c2 false du eq_refl)|]. change (0x55 =? 0x55) with true. cbn [negb].
  eapply does_bind.
  { apply second_port_ok. intros ->. cbn [negb orb] in Hd. apply andb_true_iff in Hd as [-> Hd]. by apply negb_true_iff in Hd. }
  set (b := negb du && Z_bool (Z.land c2 PS2_CONFIG_SECOND_CLOCK)). set (c3 := if du then Z.clearbit c2 5 else c2).
  eapply does_bind; [exact (send_response_ok COMMAND_TEST_PORT1 (Pc [] c3 false du) _ 0 [] c3 false du eq_refl)|].
  eapply (does_bind _ _ _ _ b (Pc [] c3 false du)).
  { destruct b; [|apply does_ret].
    eapply does_bind; [exact (send_response_ok COMMAND_TEST_PORT2 (Pc [] c3 false du) _ 0 [] c3 false du eq_refl)|]. apply does_ret. }
  change (0 =? 0) with true. cbn [negb andb]. eapply does_bind; [apply does_ret|].
  eapply does_bind; [apply read_config_ok|]. eapply does_bind; [apply send_data_ok|].
  eapply does_bind; [apply send_ok|].
  eapply (does_bind _ _ _ _ tt (Pc [] (config_end du cf) false du)); [|apply detectDevice_ok].
  unfold b, c3, config_end. fold c2. destruct du; [apply does_ret|]. cbn [negb andb].
  destruct (Z_bool _); [apply send_ok|apply does_ret].
Qed.
End detection.


(** A slow controller, with a byte waiting, whose answers come at once and come
    byte by byte. *)
Definition slow_controller (g : nat) : controller :=
  Controller (Pc [0x1C] 0x61 false true) None 0 [2; 3; 0; 1; 3]%nat g 0.

