(* ===== verification/Timer.v ===== *)
(** * Timers and sleeping (kernel/src/pit.cpp, timer.cpp)

    The programmable interval timer interrupts a thousand times a second; every
    tick takes its length off the time of each registered timer, and nanosleep
    waits until the time of its own is used up. *)
From S2P Require Import Prelude Memory Kthread Vga Print Interrupt.

(** ** timespec.h *)
Record timespec : Type := Timespec { tv_sec : Z; tv_nsec : Z }.

Definition PIT_FREQUENCY : Z := 1193182.
Definition HZ : Z := 1000.
Definition PIT_PORT_CHANNEL0 : Z := 0x40.
Definition PIT_PORT_MODE : Z := 0x43.
Definition PIT_MODE_RATE_GENERATOR : Z := 0x4.
Definition PIT_MODE_LOBYTE_HIBYTE : Z := 0x30.
Definition frequency : Z := u16 (PIT_FREQUENCY / HZ).
Definition nanoseconds : Z := u32 (1000000000 / PIT_FREQUENCY * frequency).
Definition NUM_TIMERS : Z := 20.

Record timer : Type := MkTimer { time : timespec; index : Z }.

Record timers_st : Type := Timers {
  timers : list Z;             (* the registered timers, 0 where there is none *)
  objects : gmap Z timer;
  pit_ticker : Z;
}.

(** [minus]: the time in a timespec, [nsec] wrapping as a 32-bit long; three
    additions at most make it positive again, since the least long is above
    - 3 * 10^9. *)
Fixpoint normalise (fuel : nat) (t : timespec) : timespec :=
  match fuel with
  | O => t
  | Datatypes.S fuel =>
      if tv_nsec t <? 0 then normalise fuel (Timespec (tv_sec t - 1) (s32 (tv_nsec t + 1000000000))) else t
  end.

Definition minus (t : timespec) (ns : Z) : timespec :=
  let t := normalise 3 (Timespec (tv_sec t) (s32 (u32 (tv_nsec t) - ns))) in
  if tv_sec t <? 0 then Timespec 0 0 else t.

Definition isZero (t : timespec) : bool := (tv_sec t =? 0) && (tv_nsec t =? 0).

Section timer.
Context {S : Type} `{T : !Lens S timers_st} `{W : !Console S} `{Y : !Sched S} (fuel : nat).

Definition get_timers : ST S timers_st := λ s, Ok (get s, s).
Definition modify_timers (f : timers_st → timers_st) : ST S unit := λ s, Ok (tt, set (f (get s)) s).
Definition get_timer (this : Z) : ST S timer := λ s,
  match objects (get s) !! this with Some t => Ok (t, s) | None => Fault end.
Definition put_timer (this : Z) (t : timer) : ST S unit :=
  modify_timers (λ st, Timers (timers st) (<[this := t]> (objects st)) (pit_ticker st)).

(** The constructor. *)
Definition Timer (this : Z) (t : timespec) : ST S unit := put_timer this (MkTimer t 0).

Definition advance (this ns : Z) : ST S unit :=
  t ← get_timer this; put_timer this (MkTimer (minus (time t) ns) (index t)).

(** The handler of the timer interrupt. *)
Fixpoint advance_all (l : list Z) : ST S unit :=
  match l with
  | [] => mret tt
  | t :: l => (if t =? 0 then mret tt else advance t nanoseconds);; advance_all l
  end.
Definition irqHandler : ST S unit :=
  modify_timers (λ st, Timers (timers st) (objects st) (s64 (pit_ticker st + 1)));;
  st ← get_timers;
  advance_all (timers st).

(** An index behind the array is out of bounds. *)
Definition deregisterTimer (i : Z) : ST S unit :=
  st ← get_timers;
  if (0 <=? i) && (i <? Z.of_nat (length (timers st)))
  then modify_timers (λ st, Timers (<[Z.to_nat i := 0]> (timers st)) (objects st) (pit_ticker st))
  else fault.

Definition registerTimer (t : Z) : ST S Z :=
  loop 21 (λ i : Z,
    if i <? NUM_TIMERS then
      st ← get_timers;
      match timers st !! Z.to_nat i with
      | Some d =>
          if d =? 0 then
            modify_timers (λ st, Timers (<[Z.to_nat i := t]> (timers st)) (objects st) (pit_ticker st));;
            mret (Done i)
          else mret (Next (i + 1))
      | None => fault
      end
    else
      printf ("Error: Too many timers" +:+ newline) [];;
      mret (Done (u32 (-1)))) 0.

Definition start (this : Z) : ST S unit :=
  i ← registerTimer this;
  t ← get_timer this;
  put_timer this (MkTimer (time t) i).

Definition wait (this : Z) : ST S unit :=
  loop fuel (λ _ : unit,
    t ← get_timer this;
    if negb (isZero (time t)) then sched_yield;; mret (Next tt) else mret (Done tt)) tt;;
  t ← get_timer this;
  deregisterTimer (index t).

(** [Syscall::nanosleep]; [this] is the timer on the kernel stack. *)
Definition nanosleep (this : Z) (request : timespec) : ST S (Z * timespec) :=
  Timer this request;;
  start this;;
  wait this;;
  mret (0, Timespec 0 0).

End timer.

(** [Pit::initialize]; [handler] is the address of irqHandler. *)
Definition pit_initialize {S : Type} `{I : !Lens S irq_st} `{P : !Ports S} (handler : Z) : ST S unit :=
  install 32 handler;;
  outportb PIT_PORT_MODE (Z.lor PIT_MODE_RATE_GENERATOR PIT_MODE_LOBYTE_HIBYTE);;
  outportb PIT_PORT_CHANNEL0 (Z.land frequency 0xFF);;
  outportb PIT_PORT_CHANNEL0 (Z.land (Z.shiftr frequency 8) 0xFF).

(** ** Counting down *)
Definition NS : Z := 1000000000.
Definition total (t : timespec) : Z := tv_sec t * NS + tv_nsec t.
Definition normal (t : timespec) : Prop := 0 <= tv_sec t ∧ 0 <= tv_nsec t < NS.

(** A tick takes its length off, stopping at zero. *)
Lemma minus_total t ns :
  normal t → 0 <= ns <= NS → normal (minus t ns) ∧ total (minus t ns) = Z.max 0 (total t - ns).
Proof.
  intros [Hs Hn] Hns. unfold NS in *. destruct t as [sec nsec]. cbn [tv_sec tv_nsec] in *.
  assert (s32 (u32 nsec - ns) = nsec - ns) as Hd by (rewrite u32_small, s32_small; lia).
  unfold minus. cbn [tv_sec tv_nsec]. rewrite Hd. cbn [normalise tv_sec tv_nsec].
  destruct (nsec - ns <? 0) eqn:H1; zb.
  - rewrite s32_small by lia. rewrite (proj2 (Z.ltb_ge (nsec - ns + 1000000000) 0)) by lia. cbn [tv_sec tv_nsec].
    unfold total, normal, NS. destruct (sec - 1 <? 0) eqn:H2; zb; cbn [tv_sec tv_nsec]; lia.
  - cbn [tv_sec tv_nsec]. rewrite (proj2 (Z.ltb_ge sec 0)) by lia. unfold total, normal, NS. cbn [tv_sec tv_nsec]. lia.
Qed.

Lemma isZero_total t : normal t → isZero t = (total t =? 0).
Proof.
  intros [Hs Hn]. unfold isZero, total, NS in *. destruct (_ =? 0) eqn:H1, (tv_nsec t =? 0) eqn:H2; zb; cbn [andb];
    symmetry; [apply Z.eqb_eq|apply Z.eqb_neq..]; lia.
Qed.

Definition live (st : timers_st) (l : list Z) : Prop := ∀ t, t ∈ l → t ≠ 0 → is_Some (objects st !! t).

(** ** A tick *)
Section tick.
Context {S : Type} `{T : !Lens S timers_st}.
Implicit Types (s : S) (l : list Z).

Lemma get_timer_ok s t x : objects (get s) !! t = Some x → get_timer t s = Ok (x, s).
Proof. intros Hx. unfold get_timer. by rewrite Hx. Qed.

Lemma timer_advance_ok s t x :
  objects (get s) !! t = Some x →
  advance t nanoseconds s =
  Ok (tt, set (Timers (timers (get s)) (<[t := MkTimer (minus (time x) nanoseconds) (index x)]> (objects (get s)))
    (pit_ticker (get s))) s).
Proof. intros Hx. unfold advance. by rewrite (bind_ok _ _ _ _ _ (get_timer_ok s t x Hx)). Qed.

Lemma advance_all_ok s l :
  live (get s) l →
  ∃ obj, advance_all l s = Ok (tt, set (Timers (timers (get s)) obj (pit_ticker (get s))) s) ∧
    (∀ t, is_Some (objects (get s) !! t) → is_Some (obj !! t)) ∧
    (∀ t, t ∉ l → obj !! t = objects (get s) !! t) ∧
    (∀ l1 t l2 x, l = l1 ++ t :: l2 → t ≠ 0 → t ∉ l1 → t ∉ l2 → objects (get s) !! t = Some x →
       obj !! t = Some (MkTimer (minus (time x) nanoseconds) (index x))).
Proof.
  revert s. induction l as [|a l IH]; intros s Hl.
  - exists (objects (get s)). split; [|split; [done|split; [done|by intros []]]].
    cbn [advance_all]. destruct (get s) as [ts obj p] eqn:Hg. cbn [timers objects pit_ticker]. by rewrite <-Hg, set_get.
  - cbn [advance_all]. assert (∃ s1, (if a =? 0 then mret tt else advance a nanoseconds) s = Ok (tt, s1) ∧
      (∀ st, set st s1 = set st s) ∧ timers (get s1) = timers (get s) ∧ pit_ticker (get s1) = pit_ticker (get s) ∧
      (∀ t, t ≠ a → objects (get s1) !! t = objects (get s) !! t) ∧
      (∀ t, is_Some (objects (get s) !! t) → is_Some (objects (get s1) !! t)) ∧
      ∀ x, a ≠ 0 → objects (get s) !! a = Some x →
           objects (get s1) !! a = Some (MkTimer (minus (time x) nanoseconds) (index x)))
      as (s1 & Hrun & Hset & Ht & Hp & Hother & Hsome & Ha).
    { zcase (a =? 0); [exists s; by split_and!|]. destruct (Hl a) as [x Hx]; [left|done|].
      rewrite (timer_advance_ok s a x Hx). eexists. split; [done|]. rewrite get_set. cbn [timers objects pit_ticker].
      split; [intros st; by rewrite set_set|]. split; [done|]. split; [done|]. split_and!.
      - intros t Hne. by rewrite lookup_insert_ne.
      - intros t Hs. apply lookup_insert_is_Some'. by right.
      - intros y _ Hy. rewrite Hx in Hy. injection Hy as <-. apply lookup_insert_eq. }
    rewrite (bind_ok _ _ _ _ _ Hrun). destruct (IH s1) as (obj & -> & Hs & Hout & Hin).
    { intros t Htl H0. apply Hsome, Hl; [by right|done]. }
    exists obj. rewrite Ht, Hp, Hset. split; [done|]. split; [auto|]. split.
    + intros t Hnot. rewrite Hout, Hother by set_solver. done.
    + intros l1 t l2 x Heq H0 H1 H2 Hx. destruct l1 as [|b l1]; injection Heq as <- Heq.
      * subst l2. rewrite Hout by done. by apply Ha.
      * apply (Hin l1 t l2); [done|done|set_solver|done|]. rewrite Hother by set_solver. done.
Qed.

(** The handler of the timer interrupt advances every registered timer. *)
Lemma tick_ok s :
  live (get s) (timers (get s)) →
  ∃ st', irqHandler s = Ok (tt, set st' s) ∧ timers st' = timers (get s) ∧
    pit_ticker st' = s64 (pit_ticker (get s) + 1) ∧
    (∀ t, is_Some (objects (get s) !! t) → is_Some (objects st' !! t)) ∧
    (∀ t, t ∉ timers (get s) → objects st' !! t = objects (get s) !! t) ∧
    ∀ l1 t l2 x, timers (get s) = l1 ++ t :: l2 → t ≠ 0 → t ∉ l1 → t ∉ l2 → objects (get s) !! t = Some x →
      objects st' !! t = Some (MkTimer (minus (time x) nanoseconds) (index x)).
Proof.
  intros Hl. unfold irqHandler. erewrite bind_ok by (unfold modify_timers; reflexivity).
  erewrite bind_ok by (unfold get_timers; reflexivity). rewrite get_set.
  set (st1 := Timers (timers (get s)) (objects (get s)) (s64 (pit_ticker (get s) + 1))).
  destruct (advance_all_ok (set st1 s) (timers st1)) as (obj & -> & Hs & Hout & Hin); [by rewrite get_set|].
  rewrite get_set in *. rewrite set_set. cbn [timers objects pit_ticker st1] in *.
  eexists. split; [done|]. by split_and!.
Qed.
End tick.

(** ** Sleeping

    sched_yield only gives the CPU away (int 0x31).  How many timer interrupts
    arrive until the thread runs again is up to the others: the state has a list
    of these numbers, one for each time, and none arrive behind its end. *)
Definition passing : Type := timers_st * list nat.

Section ticking.
Context {S : Type} `{T : !Lens S timers_st}.
Fixpoint ticks (n : nat) : ST S unit :=
  match n with
  | O => mret tt
  | Datatypes.S n => irqHandler;; ticks n
  end.
End ticking.

Section sleeping.
Definition passing_sched : Sched passing := {|
  sched_yield := λ s : passing,
    mbind (M := ST passing) (λ _ : unit, (λ s', Ok (tt, (s'.1, tail s'.2))) : ST passing unit)
      (ticks (default 0%nat (head s.2))) s |}.
Definition quiet_console : Console passing := {| printf _ _ := mret tt; literal _ := 0 |}.
#[local] Existing Instances passing_sched quiet_console.
Implicit Types (st : timers_st) (ks : list nat) (l : list Z).

Lemma timer_at st ks t x : objects st !! t = Some x → get_timer t (st, ks) = Ok (x, (st, ks)).
Proof. exact (get_timer_ok (st, ks) t x). Qed.

(** After [j] ticks the timer [this] has counted down. *)
Definition counting (st0 : timers_st) (this : Z) (t : timespec) (i : Z) (j : nat) (st : timers_st) : Prop :=
  timers st = timers st0 ∧ pit_ticker st = s64 (pit_ticker st0 + Z.of_nat j) ∧ live st (timers st0) ∧
  ∃ t', objects st !! this = Some (MkTimer t' i) ∧ normal t' ∧
        total t' = Z.max 0 (total t - Z.of_nat j * nanoseconds).

Lemma s64_add a b : s64 (s64 a + b) = s64 (a + b).
Proof.
  unfold s64. f_equal. replace ((a + 2 ^ 63) mod 2 ^ 64 - 2 ^ 63 + b + 2 ^ 63) with ((a + 2 ^ 63) mod 2 ^ 64 + b) by lia.
  rewrite Zplus_mod_idemp_l. f_equal. lia.
Qed.

Lemma tick_counts st0 this t i j st ks l1 l2 :
  timers st0 = l1 ++ this :: l2 → this ≠ 0 → this ∉ l1 → this ∉ l2 →
  counting st0 this t i j st → ∃ st', irqHandler (st, ks) = Ok (tt, (st', ks)) ∧ counting st0 this t i (Datatypes.S j) st'.
Proof.
  intros Heq H0 H1 H2 (Ht & Hp & Hl & t' & Hx & Hn & Htot).
  destruct (tick_ok (st, ks)) as (st' & -> & Ht' & Hp' & Hs & _ & Hin); cbn [get Lens_fst fst set snd] in *.
  { by rewrite Ht. }
  eexists. split; [done|]. split; [congruence|]. split; [|split].
  - rewrite Hp', Hp, s64_add. f_equal. lia.
  - intros q Hq Hq0. apply Hs, Hl; done.
  - rewrite Ht in Hin. eexists. split; [exact (Hin l1 this l2 _ Heq H0 H1 H2 Hx)|]. cbn [time].
    destruct (minus_total t' nanoseconds Hn) as [Hn' Htot']; [done|]. split; [done|]. rewrite Htot', Htot.
    assert (nanoseconds = 999734) as -> by done. lia.
Qed.

Lemma ticks_count n st0 this t i j st ks l1 l2 :
  timers st0 = l1 ++ this :: l2 → this ≠ 0 → this ∉ l1 → this ∉ l2 →
  counting st0 this t i j st → ∃ st', ticks n (st, ks) = Ok (tt, (st', ks)) ∧ counting st0 this t i (j + n) st'.
Proof.
  intros Heq H0 H1 H2. revert j st. induction n as [|n IH]; intros j st Hc.
  - exists st. by rewrite Nat.add_0_r.
  - destruct (tick_counts st0 this t i j st ks l1 l2 Heq H0 H1 H2 Hc) as (st1 & Hrun & Hc1).
    destruct (IH _ st1 Hc1) as (st' & Hrun' & Hc'). exists st'. cbn [ticks]. rewrite (bind_ok _ _ _ _ _ Hrun).
    split; [done|]. by replace (j + Datatypes.S n)%nat with (Datatypes.S j + n)%nat by lia.
Qed.

(** The number of ticks a time lasts. *)
Definition ticks_of (t : timespec) : nat := Z.to_nat ((total t + nanoseconds - 1) / nanoseconds).

Lemma remaining_zero t j : 0 <= total t → (Z.max 0 (total t - Z.of_nat j * nanoseconds) =? 0) = bool_decide (ticks_of t <= j)%nat.
Proof.
  intros H. unfold ticks_of. assert (nanoseconds = 999734) as -> by done.
  case_bool_decide as Hj; [apply Z.eqb_eq|apply Z.eqb_neq]; Z.to_euclidean_division_equations; lia.
Qed.

Lemma normal_total t : normal t → 0 <= total t.
Proof. unfold normal, total, NS. lia. Qed.

(** One round of the loop in wait. *)
Definition wait_body (this : Z) : unit → ST passing (step unit unit) := λ _,
  x ← get_timer this;
  if negb (isZero (time x)) then sched_yield;; mret (Next tt) else mret (Done tt).

Lemma wait_round st0 this t i j st ks l1 l2 :
  timers st0 = l1 ++ this :: l2 → this ≠ 0 → this ∉ l1 → this ∉ l2 → normal t → counting st0 this t i j st →
  if decide (ticks_of t <= j)%nat then wait_body this tt (st, ks) = Ok (Done tt, (st, ks)) else
  ∃ st', wait_body this tt (st, ks) = Ok (Next tt, (st', tail ks)) ∧
    counting st0 this t i (j + default 0%nat (head ks)) st'.
Proof.
  intros Heq H0 H1 H2 Hn Hc. pose proof Hc as (_ & _ & _ & t' & Hx & Hn' & Htot).
  assert (isZero t' = bool_decide (ticks_of t <= j)%nat) as Hz
    by (rewrite isZero_total, Htot by done; by apply remaining_zero, normal_total).
  unfold wait_body. rewrite (bind_ok _ _ _ _ _ (timer_at st ks this _ Hx)). cbn [time]. rewrite Hz.
  destruct (decide _); [by rewrite bool_decide_eq_true_2|]. rewrite bool_decide_eq_false_2 by done. cbn [negb].
  destruct (ticks_count (default 0%nat (head ks)) st0 this t i j st ks l1 l2 Heq H0 H1 H2 Hc) as (st' & Hrun & Hc').
  exists st'. split; [|done]. erewrite bind_ok; [done|]. unfold sched_yield, passing_sched. cbn [snd].
  by rewrite (bind_ok _ _ _ _ _ Hrun).
Qed.

Lemma sum_take_succ n ks : sum_list (take (Datatypes.S n) ks) = (default 0 (head ks) + sum_list (take n (tail ks)))%nat.
Proof. destruct ks; cbn [tail]; rewrite ?take_nil; done. Qed.

(** The sleeper goes round until as many ticks have passed as its time lasts. *)
Lemma wait_loop st0 this t i l1 l2 n :
  timers st0 = l1 ++ this :: l2 → this ≠ 0 → this ∉ l1 → this ∉ l2 → normal t →
  ∀ ks j st fuel, counting st0 this t i j st →
  (∀ k, (k < n)%nat → (j + sum_list (take k ks) < ticks_of t)%nat) → (ticks_of t <= j + sum_list (take n ks))%nat → (n < fuel)%nat →
  ∃ st', loop fuel (wait_body this) tt (st, ks) = Ok (tt, (st', drop n ks)) ∧
    counting st0 this t i (j + sum_list (take n ks)) st'.
Proof.
  intros Heq H0 H1 H2 Hn. induction n as [|n IH]; intros ks j st fuel Hc Hbefore Hafter Hf; (destruct fuel as [|fuel]; [lia|]);
    pose proof (wait_round st0 this t i j st ks l1 l2 Heq H0 H1 H2 Hn Hc) as Hround.
  - cbn [take sum_list foldr] in *. rewrite Nat.add_0_r in *. rewrite decide_True in Hround by done.
    exists st. split; [by apply loop_done|done].
  - pose proof (Hbefore 0%nat ltac:(lia)) as Hj. cbn in Hj. rewrite decide_False in Hround by lia.
    destruct Hround as (st1 & Hrun & Hc1). rewrite sum_take_succ in *.
    destruct (IH (tail ks) _ st1 fuel Hc1) as (st' & Hrun' & Hc'); [|lia|lia|].
    { intros k Hk. specialize (Hbefore (Datatypes.S k) ltac:(lia)). rewrite sum_take_succ in Hbefore. lia. }
    exists st'. rewrite (loop_next _ _ _ _ _ _ Hrun). split; [by destruct ks; rewrite ?drop_nil in *|].
    by rewrite Nat.add_assoc.
Qed.

(** It does not return before. *)
Lemma wait_forever st0 this t i l1 l2 fuel :
  timers st0 = l1 ++ this :: l2 → this ≠ 0 → this ∉ l1 → this ∉ l2 → normal t →
  ∀ ks j st, counting st0 this t i j st → (j + sum_list ks < ticks_of t)%nat →
  loop fuel (wait_body this) tt (st, ks) = NoFuel.
Proof.
  intros Heq H0 H1 H2 Hn. induction fuel as [|fuel IH]; intros ks j st Hc Hsum; [done|].
  pose proof (wait_round st0 this t i j st ks l1 l2 Heq H0 H1 H2 Hn Hc) as Hround.
  rewrite decide_False in Hround by lia. destruct Hround as (st1 & Hrun & Hc1).
  rewrite (loop_next _ _ _ _ _ _ Hrun). eapply IH; [exact Hc1|]. destruct ks; cbn in *; lia.
Qed.

Lemma register_free st ks l1 l2 this :
  timers st = l1 ++ 0 :: l2 → 0 ∉ l1 → length (timers st) = Z.to_nat NUM_TIMERS →
  registerTimer this (st, ks) = Ok (Z.of_nat (length l1), (Timers (l1 ++ this :: l2) (objects st) (pit_ticker st), ks)).
Proof.
  intros Heq H0l1 Hlen. assert (length l1 < 20)%nat as Hi.
  { change (Z.to_nat NUM_TIMERS) with 20%nat in Hlen. rewrite Heq, length_app in Hlen. cbn [length] in Hlen. lia. }
  unfold registerTimer. apply (loop_trace (λ j, Z.of_nat j) (λ _, (st, ks)) _ (length l1)); [| |lia].
  - intros j Hj. rewrite (proj2 (Z.ltb_lt _ _)) by (unfold NUM_TIMERS; lia). unfold get_timers, mbind, ST_bind. cbn [get Lens_fst fst].
    rewrite Nat2Z.id, Heq, lookup_app_l by done.
    destruct (lookup_lt_is_Some_2 l1 j Hj) as [d Hd]. rewrite Hd.
    assert (d ≠ 0) as Hd0 by (intros ->; by eapply H0l1, list_elem_of_lookup_2).
    rewrite (proj2 (Z.eqb_neq d 0) Hd0). unfold mret, ST_ret.
    do 3 f_equal. lia.
  - rewrite (proj2 (Z.ltb_lt _ _)) by (unfold NUM_TIMERS; lia). unfold get_timers, mbind, ST_bind. cbn [get Lens_fst fst].
    rewrite Nat2Z.id, Heq, list_lookup_middle by done. change (0 =? 0) with true. cbv iota.
    unfold modify_timers, mret, ST_ret. cbn [get set Lens_fst fst snd]. rewrite Heq.
    do 3 f_equal. rewrite <-(Nat.add_0_r (length l1)) at 1. by rewrite insert_app_r.
Qed.

(** The timer takes the first free slot. *)
Lemma start_ok st ks this t l1 l2 :
  timers st = l1 ++ 0 :: l2 → 0 ∉ l1 → length (timers st) = Z.to_nat NUM_TIMERS →
  start this (Timers (timers st) (<[this := MkTimer t 0]> (objects st)) (pit_ticker st), ks) =
  Ok (tt, (Timers (l1 ++ this :: l2)
    (<[this := MkTimer t (Z.of_nat (length l1))]> (<[this := MkTimer t 0]> (objects st))) (pit_ticker st), ks)).
Proof.
  intros Heq H0 Hlen. unfold start.
  rewrite (bind_ok _ _ _ _ _ (register_free (Timers (timers st) _ (pit_ticker st)) ks l1 l2 this Heq H0 Hlen)).
  by rewrite (bind_ok _ _ _ _ _ (timer_at _ ks this (MkTimer t 0) (lookup_insert_eq _ _ _))).
Qed.

(** C30. nanosleep of a valid time takes the first free slot and counts the
    timer interrupts that arrive while the CPU is given away, however they are
    spread.  It returns the first time it is given the CPU back after as many of
    them as the time lasts, rounded up, and leaves the slots as they were; while
    fewer have arrived it does not return. *)
Theorem nanosleep_wakes st ks this t fuel l1 l2 :
  normal t → timers st = l1 ++ 0 :: l2 → 0 ∉ l1 → length (timers st) = Z.to_nat NUM_TIMERS →
  this ≠ 0 → this ∉ timers st → live st (timers st) → - 2 ^ 63 <= pit_ticker st < 2 ^ 63 →
  let k := Z.to_nat ((total t + nanoseconds - 1) / nanoseconds) in
  (∀ n, (∀ i, (i < n)%nat → (sum_list (take i ks) < k)%nat) → (k <= sum_list (take n ks))%nat → (n < fuel)%nat →
   ∃ st', nanosleep fuel this t (st, ks) = Ok ((0, Timespec 0 0), (st', drop n ks)) ∧
     timers st' = timers st ∧ pit_ticker st' = s64 (pit_ticker st + Z.of_nat (sum_list (take n ks)))) ∧
  ((sum_list ks < k)%nat → nanosleep fuel this t (st, ks) = NoFuel).
Proof.
  intros Hn Heq H0l1 Hlen H0 Hnot Hl Htick k. unfold nanosleep.
  set (st1 := Timers (timers st) (<[this := MkTimer t 0]> (objects st)) (pit_ticker st)).
  assert (Timer this t (st, ks) = Ok (tt, (st1, ks))) as HT by done. rewrite (bind_ok _ _ _ _ _ HT).
  rewrite (bind_ok _ _ _ _ _ (start_ok st ks this t l1 l2 Heq H0l1 Hlen)).
  set (i := Z.of_nat (length l1)). set (st3 := Timers (l1 ++ this :: l2) _ _).
  assert (counting st3 this t i 0 st3) as Hc.
  { split; [done|]. split; [|split].
    - cbn [pit_ticker st3 Z.of_nat]. by rewrite Z.add_0_r, s64_small.
    - intros q Hq Hq0. cbn. rewrite !lookup_insert_is_Some'. destruct (decide (this = q)); [tauto|].
      right. right. apply Hl; [|done]. rewrite Heq. set_solver.
    - exists t. split; [apply lookup_insert_eq|]. split; [done|]. pose proof (normal_total t Hn). lia. }
  rewrite Heq in Hnot. assert (this ∉ l1) as Hn1 by set_solver. assert (this ∉ l2) as Hn2 by set_solver.
  unfold wait. split.
  - intros n Hbefore Hafter Hf.
    destruct (wait_loop st3 this t i l1 l2 n eq_refl H0 Hn1 Hn2 Hn ks 0 st3 fuel Hc Hbefore Hafter Hf)
      as (st' & Hw & Ht' & Hp' & _ & t' & Hx & _).
    erewrite bind_ok.
    2: { rewrite (bind_ok _ _ _ _ _ Hw), (bind_ok _ _ _ _ _ (timer_at st' _ this _ Hx)). cbn [index].
         unfold deregisterTimer, get_timers, mbind, ST_bind. cbn [get Lens_fst fst]. rewrite Ht'. cbn [timers st3].
         assert ((0 <=? i) && (i <? Z.of_nat (length (l1 ++ this :: l2))) = true) as ->; [|reflexivity].
         apply andb_true_iff. rewrite Z.leb_le, Z.ltb_lt, length_app. cbn [length]. lia. }
    eexists. split; [done|]. cbn [timers pit_ticker set Lens_fst get fst snd]. split; [|done].
    rewrite Ht', Heq. cbn [timers st3]. unfold i. rewrite Nat2Z.id. rewrite <-(Nat.add_0_r (length l1)) at 1. by rewrite insert_app_r.
  - intros Hsum. pose proof (wait_forever st3 this t i l1 l2 fuel eq_refl H0 Hn1 Hn2 Hn ks 0 st3 Hc Hsum) as Hw.
    apply bind_nofuel, bind_nofuel. exact Hw.
Qed.

(** With all twenty slots in use a timer is not registered and no tick
    reaches it: nanosleep never returns. *)
Theorem full_table_sleeps_forever st ks this t fuel :
  normal t → 0 < total t → 0 ∉ timers st → length (timers st) = Z.to_nat NUM_TIMERS →
  this ∉ timers st → live st (timers st) →
  nanosleep fuel this t (st, ks) = NoFuel.
Proof.
  intros Hn Ht Hfull Hlen Hnot Hl. unfold nanosleep.
  set (st1 := Timers (timers st) (<[this := MkTimer t 0]> (objects st)) (pit_ticker st)).
  assert (Timer this t (st, ks) = Ok (tt, (st1, ks))) as HT by done. rewrite (bind_ok _ _ _ _ _ HT).
  assert (registerTimer this (st1, ks) = Ok (u32 (-1), (st1, ks))) as Hreg.
  { unfold registerTimer. apply (loop_trace (λ j, Z.of_nat j) (λ _, (st1, ks)) _ 20%nat); [|done|lia].
    intros j Hj. rewrite (proj2 (Z.ltb_lt _ _)) by (unfold NUM_TIMERS; lia). unfold get_timers, mbind, ST_bind. cbn [get Lens_fst fst].
    change (timers st1) with (timers st). rewrite Nat2Z.id.
    destruct (lookup_lt_is_Some_2 (timers st) j) as [d Hd]; [by rewrite Hlen|]. rewrite Hd.
    assert (d ≠ 0) as Hd0 by (intros ->; by eapply Hfull, list_elem_of_lookup_2). rewrite (proj2 (Z.eqb_neq d 0) Hd0).
    unfold mret, ST_ret. do 3 f_equal. lia. }
  set (st2 := Timers (timers st) (<[this := MkTimer t (u32 (-1))]> (objects st1)) (pit_ticker st)).
  assert (start this (st1, ks) = Ok (tt, (st2, ks))) as Hstart.
  { unfold start. rewrite (bind_ok _ _ _ _ _ Hreg).
    rewrite (bind_ok _ _ _ _ _ (timer_at _ ks this (MkTimer t 0) (lookup_insert_eq _ _ _))). done. }
  rewrite (bind_ok _ _ _ _ _ Hstart).
  set (I := λ s : timers_st, timers s = timers st ∧ live s (timers st) ∧ objects s !! this = Some (MkTimer t (u32 (-1)))).
  assert (∀ n s ks, I s → ∃ s', ticks n (s, ks) = Ok (tt, (s', ks)) ∧ I s') as Hticks.
  { intros n. induction n as [|n IH]; intros s ks' (Hts & Hls & Hx); [by exists s|].
    destruct (tick_ok (s, ks')) as (s1 & Hrun1 & Ht1 & _ & Hs & Hout & _); cbn [get Lens_fst fst set snd] in *.
    { by rewrite Hts. }
    destruct (IH s1 ks') as (s' & Hrun & Hi).
    { split; [congruence|]. split; [intros q Hq Hq0; apply Hs, Hls; done|]. by rewrite Hout, Hx by by rewrite Hts. }
    exists s'. split; [|done]. cbn [ticks]. by rewrite (bind_ok _ _ _ _ _ Hrun1). }
  assert (wait fuel this (st2, ks) = NoFuel) as Hwait; [|unfold mbind at 1, ST_bind at 1; by rewrite Hwait].
  unfold wait. unfold mbind at 1, ST_bind at 1. rewrite (loop_diverges (λ _ s, I s.1)); [done| |].
  - intros [] [s ks'] Hi. destruct (Hticks (default 0%nat (head ks')) s ks' Hi) as (s' & Hrun & Hi').
    exists tt, (s', tail ks'). split; [|exact Hi']. destruct Hi as (_ & _ & Hx).
    rewrite (bind_ok _ _ _ _ _ (timer_at s ks' this _ Hx)). cbn [time].
    rewrite isZero_total, (proj2 (Z.eqb_neq _ _)) by (done || lia). cbn [negb].
    erewrite bind_ok; [done|]. unfold sched_yield, passing_sched. cbn [snd]. by rewrite (bind_ok _ _ _ _ _ Hrun).
  - split; [done|]. split; [|apply lookup_insert_eq]. intros q Hq Hq0. cbn. rewrite !lookup_insert_is_Some'.
    right. right. by apply Hl.
Qed.
End sleeping.

#[local] Existing Instances passing_sched quiet_console.

(** A time of three ticks: two of them arrive during the second yield, and two
    more during the fourth. *)
Lemma nanosleep_wakes_witness :
  ∃ st', nanosleep 5 7 (Timespec 0 2000000) (Timers (8 :: replicate 19 0) {[8 := MkTimer (Timespec 9 0) 0]} 41, [0; 2; 0; 2; 1]%nat) =
    Ok ((0, Timespec 0 0), (st', [1]%nat)) ∧ pit_ticker st' = 45.
Proof.
  destruct (nanosleep_wakes (Timers (8 :: replicate 19 0) {[8 := MkTimer (Timespec 9 0) 0]} 41) [0; 2; 0; 2; 1]%nat 7
    (Timespec 0 2000000) 5 [8] (replicate 18 0)) as [Hwake _].
  - done.
  - done.
  - set_solver.
  - done.
  - done.
  - apply (bool_decide_eq_true_1 _). vm_compute. reflexivity.
  - intros q Hq Hq0. cbn in Hq. destruct (decide (q = 8)) as [->|]; [by eexists|]. set_solver.
  - done.
  - destruct (Hwake 4%nat) as (st' & Hrun & _ & Htick).
    + intros i Hi. assert (i = 0 ∨ i = 1 ∨ i = 2 ∨ i = 3)%nat as [->|[->|[->| ->]]] by lia; vm_compute; lia.
    + vm_compute. lia.
    + lia.
    + exists st'. split; [exact Hrun|]. rewrite Htick. vm_compute. reflexivity.
Defined.

Lemma full_table_sleeps_forever_witness :
  nanosleep 100 7 (Timespec 1 0) (Timers (replicate 20 8) {[8 := MkTimer (Timespec 9 0) 0]} 0, [1; 1]%nat) = NoFuel.
Proof.
  apply full_table_sleeps_forever; try done.
  - apply (bool_decide_eq_true_1 _). vm_compute. reflexivity.
  - apply (bool_decide_eq_true_1 _). vm_compute. reflexivity.
  - intros q Hq _. apply elem_of_replicate in Hq as [-> _]. by eexists.
Defined.
