(* ===== verification/Kernel.v ===== *)
(** * The kernel put together (kernel/src/kernel.cpp)

    kernel_main brings the components up in order.  Here they share one state:
    the memory manager, the processes, the file system, and the machine [E]
    with the terminal, the interrupt tables, the timers and the ports.  The
    interfaces the interrupt handler asks for are discharged by the scheduler
    and by the handlers the drivers install. *)
From S2P Require Import Prelude Memory Errno Kthread Vga Keyboard Terminal Paging Segments AddressSpace Vfs Process ProcessLaws Print Initrd Interrupt Ps2 Timer.

Definition MULTIBOOT_BOOTLOADER_MAGIC : Z := 0x2BADB002.

Section kernel.
Context {E : Type} `{LE : !Lens E mem} `{D : !Device E} `{Img : !Image}.
Context `{Ym : !Sched mm} `{Yf : !Sched (vfs * E)} `{KH : !Kheap} `{FH : !Kernel_heap} `{PH : !Process_heap}.
Notation kstate := (mm * (ps * (vfs * E)))%type.
Notation ST A := (ST kstate A).
Context `{Y : !Sched kstate} (fuel : nat).
Context `{V : !Lens E vga_st} `{LI : !Lens E irq_st} `{LT : !Lens E timers_st} `{LK : !Lens E ps2_st} `{LD : !Lens E device_st}.
Context `{P : !Ports E} `{W : !Console E} `{KL : !Listener E} `{St : !Stubs}.
(** The addresses of the handlers of pit.cpp and ps2.cpp, and of the keyboard
    object; the address of a string's copy; the version the build sets. *)
Context (timer_handler keyboard_handler new_keyboard : Z) (copy_of : list Z → Z) (INWOX_VERSION : string).

(** ** The interfaces *)
Definition Lens_machine : Lens kstate E :=
  Lens_snd mm (ps * (vfs * E)) E (Lens_snd ps (vfs * E) E (Lens_snd vfs E E (Lens_id E))).
Definition in_machine {A : Type} (c : Prelude.ST E A) : ST A := zoom Lens_machine c.

#[export] Instance kernel_ports : Ports kstate := {|
  inportb port := in_machine (inportb port); outportb port b := in_machine (outportb port b) |}.
#[export] Instance kernel_console : Console kstate := {|
  printf format vl := in_machine (printf format vl); literal := literal |}.
#[export] Instance fs_console : Console (vfs * E) := {|
  printf format vl := device (printf format vl); literal := literal |}.

(** Contexts lie on the kernel stacks. *)
#[export] Instance kernel_contexts : Contexts kstate := {| field_of r field := in_mm (vload (r + field)) |}.

Definition keyboard_irq (r : Z) : ST unit :=
  int_no ← field_of r ctx_int_no;
  if int_no =? 33 then
    in_machine (d ← (λ e, Ok (get e, e)) : Prelude.ST E device_st;
                if Z_bool (ps2Device1 d) then Keyboard.irqHandler fuel else mret tt)
  else fault.

#[export] Instance kernel_services : Kernel_services kstate := {|
  call_handler handler r :=
    if handler =? timer_handler then in_machine (zoom LT Timer.irqHandler)
    else if handler =? keyboard_handler then keyboard_irq r
    else fault;
  run_schedule r := schedule r |}.

Definition handle_interrupt (r : Z) : ST Z :=
  interruptHandler fuel (in_machine Vga.warnTerminal) r.

(** [Syscall::badSyscall], for a number behind the end of the table. *)
Definition badSyscall : ST unit := printf ("Syscall::badSyscall was called" +:+ newline) [].

(** ** Boot *)
(** The copy of the structure the loader left. *)
Definition copy_multiboot (mapped : Z) : ST multiboot_info :=
  flags ← in_mm (vload_le 4 mapped);
  mods_count ← in_mm (vload_le 4 (mapped + 20));
  mods_addr ← in_mm (vload_le 4 (mapped + 24));
  mmap_length ← in_mm (vload_le 4 (mapped + 44));
  mmap_addr ← in_mm (vload_le 4 (mapped + 48));
  mret (Multiboot flags mods_count mods_addr mmap_length mmap_addr).

Fixpoint read_bytes (n : nat) (va : Z) : Prelude.ST mm (list Z) :=
  match n with
  | O => mret []
  | Datatypes.S n => b ← vload8 va; bs ← read_bytes n (va + 1); mret (b :: bs)
  end.

(** The bytes of mapped pages seen as the byte memory of the machine while [c]
    runs. *)
Definition with_pages {A : Type} (va size : Z) (c : Prelude.ST (vfs * E) A) : ST A :=
  bytes ← in_mm (read_bytes (Z.to_nat size) va);
  saved ← in_machine (λ e, Ok (memory e, with_memory e (write_bytes (memory e) va bytes)));
  a ← in_fs c;
  in_machine (λ e, Ok (tt, with_memory e saved));;
  mret a.

Definition loadInitrd (multiboot : multiboot_info) : ST Z :=
  let modulesAligned := Z.land (mods_addr multiboot) (Z.lnot 0xFFF) in
  let offset := mods_addr multiboot - modulesAligned in
  let mappedSize := AddressSpace.ALIGN_UP (offset + mods_count multiboot * sizeof_mod_list) PAGESIZE in
  modulesPage ← in_mm (mapPhysical fuel kernelSpace modulesAligned mappedSize PROT_READ);
  let modules := modulesPage + offset in
  root ← loop fuel (λ '(i, root),
    if i <? mods_count multiboot then
      mod_start ← in_mm (vload_le 4 (modules + sizeof_mod_list * i));
      mod_end ← in_mm (vload_le 4 (modules + sizeof_mod_list * i + 4));
      let size := AddressSpace.ALIGN_UP (u32 (mod_end - mod_start)) PAGESIZE in
      initrd ← in_mm (mapPhysical fuel kernelSpace mod_start size PROT_READ);
      root ← with_pages initrd size (Initrd.loadInitrd fuel copy_of initrd);
      in_mm (unmapPhysical fuel kernelSpace initrd size);;
      n ← in_fs (get_node root);
      match class n with
      | DirectoryVnode _ [] => mret (Next (i + 1, root))
      | DirectoryVnode _ _ => mret (Done root)
      | _ => fault
      end
    else mret (Done root)) (0, 0);
  in_mm (unmapPhysical fuel kernelSpace modulesPage mappedSize);;
  mret root.

(** A line of the boot messages. *)
Definition say (message : string) : ST unit := printf (message +:+ newline) [].

Definition kernel_main (magic multibootAddress : Z) : ST unit :=
  in_machine Vga.init;;
  if negb (magic =? MULTIBOOT_BOOTLOADER_MAGIC) then
    in_machine Vga.warnTerminal;;
    printf ("Invalid magic number: 0x%x" +:+ newline) [magic]
  else
    say ("Welcome to INWOX " +:+ INWOX_VERSION);;
    say "Initializing AddressSpace...";;
    in_mm (AddressSpace.initialize fuel);;
    say "Initializing Physical Memory...";;
    multibootMapped ← in_mm (mapPhysical fuel kernelSpace multibootAddress PAGESIZE PROT_READ);
    multiboot ← copy_multiboot multibootMapped;
    in_mm (unmapPhysical fuel kernelSpace multibootMapped PAGESIZE);;
    in_mm (initialize_frames fuel multiboot);;
    say "Initializing PS/2 Controller...";;
    in_machine (Ps2.initialize fuel keyboard_handler new_keyboard);;
    say "Loading initrd...";;
    rootDir ← loadInitrd multiboot;
    rootFd ← in_fs (new_FileDescription (FileDescription rootDir 0));
    say "Initializing Process...";;
    Process.initialize rootFd;;
    program ← in_fs (resolvePath fuel rootDir (str "/bin/shell"));
    (if Z_bool program then
       say "Launching shell...";;
       newProcess ← make_process;
       execute fuel newProcess program [str "/bin/sh"] [str "PATH=/bin"];;
       addProcess newProcess
     else say "launch shell failed");;
    say "Initializing Interrupt...";;
    in_machine (initPic;; pit_initialize timer_handler);;
    enable;;
    say "Initialization completed!";;
    loop fuel (λ _ : unit, mret (Next tt)) tt.

(** ** Preemption *)
Implicit Types (m : mm) (s : ps) (v : vfs) (e : E).

Lemma field_ok m s v e r k w m' :
  vload (r + k) m = Ok (w, m') → field_of r k (m, (s, (v, e))) = Ok (w, (m', (s, (v, e)))).
Proof. intros H. unfold field_of, kernel_contexts, in_mm, zoom. cbn. by rewrite H. Qed.

(** C34. A timer interrupt takes the CPU from the running process: its context is
    saved, the next process of the list becomes current with its kernel stack
    and its page directory, every registered timer counts one tick down, the
    interrupt controller is acknowledged, and the context returned, with which
    the stub goes on, is the one saved of the next process. *)
Theorem timer_interrupt_preempts m s v e r c d sp (ack : E → E) :
  (∀ e, outportb PIC1_COMMAND PIC_EOI e = Ok (tt, ack e)) →
  isrRoutines (get e) !! 32%nat = Some timer_handler → timer_handler ≠ 0 →
  vload (r + ctx_int_no) m = Ok (32, m) →
  vload (r + ctx_int_no) (with_cr3 (pageDir sp) m) = Ok (32, with_cr3 (pageDir sp) m) →
  procs s !! current s = Some c →
  procs (update (current s) (saved r c) s) !! next_current s c = Some d →
  spaces m !! addressSpace d = Some sp →
  let T := get e : timers_st in
  live T (timers T) →
  ∃ T', handle_interrupt r (m, (s, (v, e))) =
    Ok (interruptContext d, (with_cr3 (pageDir sp) m, (switched r c d s, (v, ack (set T' e))))) ∧
    timers T' = timers T ∧ pit_ticker T' = s64 (pit_ticker T + 1) ∧
    ∀ l1 t l2 x, timers T = l1 ++ t :: l2 → t ≠ 0 → t ∉ l1 → t ∉ l2 → objects T !! t = Some x →
      objects T' !! t = Some (MkTimer (minus (time x) nanoseconds) (index x)).
Proof using.
  intros Hack Hirq Hh Hr Hr' Hc Hd Hsp T Hl. destruct (tick_ok (T := Lens_id timers_st) T Hl) as (T' & Htick & Ht1 & Ht2 & _ & _ & Ht3).
  exists T'. split; [|by split_and!]. unfold handle_interrupt, interruptHandler.
  set (m' := with_cr3 (pageDir sp) m) in *. set (s' := switched r c d s).
  rewrite (bind_ok _ _ _ _ _ (field_ok m s v e r _ _ _ Hr)).
  change (32 <? 32) with false. change ((32 <=? 47) && (32 <=? 32)) with true. change (32 =? 32) with true. cbv iota.
  rewrite (bind_ok _ _ _ _ _ (schedule_ok m s (v, e) r c d sp Hc Hd Hsp)). fold s'.
  rewrite (bind_ok _ _ _ _ _ (field_ok m' s' v e r _ _ _ Hr')).
  assert (∀ B (k : Z → ST B), ((λ s0 : kstate,
    match isrRoutines (get s0) !! Z.to_nat 32 with Some h => Ok (h, s0) | None => Fault end) ≫= k)
      (m', (s', (v, e))) = k timer_handler (m', (s', (v, e)))) as Hroutine.
  { intros B k. apply bind_ok. change (get (m', (s', (v, e)))) with (get e : irq_st).
    change (Z.to_nat 32) with 32%nat. by rewrite Hirq. }
  rewrite Hroutine.
  assert (Z_bool timer_handler = true) as Hz.
  { unfold Z_bool. apply negb_true_iff. by apply Z.eqb_neq. }
  rewrite Hz. cbv iota. erewrite (bind_ok _ _ _ tt (m', (s', (v, set T' e)))).
  2: { unfold call_handler, kernel_services. rewrite Z.eqb_refl. apply (zoom_ok Lens_machine).
       apply (zoom_ok LT). exact Htick. }
  rewrite (bind_ok _ _ _ _ _ (field_ok m' s' v (set T' e) r _ _ _ Hr')).
  change (40 <=? 32) with false. cbv iota. erewrite bind_ok by done.
  erewrite (bind_ok _ _ _ tt (m', (s', (v, ack (set T' e)))));
    [done|exact (zoom_ok Lens_machine (outportb PIC1_COMMAND PIC_EOI) (m', (s', (v, set T' e))) _ _ (Hack _))].
Qed.
End kernel.
