(* ===== verification/KernelDemo.v ===== *)
(** * A timer interrupt on three processes *)
From S2P Require Import Prelude Memory Kthread Vga Terminal Keyboard Paging AddressSpace Vfs Process ProcessLaws ProcessDemo FileSystemDemo Print Interrupt Ps2 Timer Kernel.

Definition demo_machine : Type := mem * (vga_st * (irq_st * (timers_st * (ps2_st * device_st)))).
#[local] Instance demo_machine_ports : Ports demo_machine := {| inportb _ := mret 0; outportb _ _ := mret tt |}.
#[local] Instance demo_machine_console : Console demo_machine := {| printf _ _ := mret tt; literal _ := 0 |}.
#[local] Instance demo_machine_listener : Listener demo_machine := {| onKeyboardEvent _ := mret tt |}.
#[local] Existing Instances demo_image.

(** Both page directories map the page of the context. *)
Definition demo_mapped : mm :=
  MM (list_to_map [(0x3C00, 0x4003); (0x2C00, 0x4003); (0x4014, 0x5003); (0x5020, 32)]) 0x3000 ∅ 0 0 0
    (list_to_map [(0, Space 0x2000 0 0 0 0); (500, Space 0x3000 0 0 0 0)]) ∅ ∅.

Definition demo_timers : timers_st := Timers (8 :: replicate 19 0) {[8 := MkTimer (Timespec 9 0) 0]} 41.
Definition demo_machine_state (video : vga_st) : demo_machine :=
  (∅, (video, (Irq [] (<[32%nat := 100]> (replicate 256 0)), (demo_timers, (ps2_initial, Device1 0))))).

Lemma timer_interrupt_preempts_witness :
  match handle_interrupt 1 100 101 0xC0005000 (demo_mapped, (demo_ps, (demo_fs, demo_machine_state vga_initial))) with
  | Ok (context, (m, (s, (_, e)))) =>
      context = 1001 ∧ current s = 23 ∧ cr3 m = 0x2000 ∧ pit_ticker (get e : timers_st) = 42
  | _ => False
  end.
Proof.
  destruct (timer_interrupt_preempts 1 100 101 demo_mapped demo_ps demo_fs (demo_machine_state vga_initial) 0xC0005000
    (demo_proc 21 23 500 2 [24; 25] false) (demo_proc 22 0 0 1 [] false) (Space 0x2000 0 0 0 0) (λ e, e))
    as (T' & -> & _ & Htick & _); try done.
  intros q Hq Hq0. cbn in Hq. destruct (decide (q = 8)) as [->|]; [by eexists|]. set_solver.
Defined.
