(* ===== verification/Userland.v ===== *)
(** * Programs on the kernel (libc/src/arch/i686/syscall.s, kernel/src/arch/i686/syscall.s)

    The class [Sys] of the C library filled with the handlers of the kernel:
    the state of a program is its environment, its errno and the state of the
    kernel, whose byte memory holds the program's objects.  A descriptor on a
    file keeps the promise of the class [Streams], so that what was proved of
    a program against that class holds of it on this kernel. *)
From S2P Require Import Prelude Memory CString Errno Printf Heap General Environ Unistd Streams Stdio Canonical Programs ProgramsLaws Kthread Paging Segments AddressSpace Vfs VfsLaws FileSystem Process Syscall.

Section userland.
Context {E : Type} `{LE : !Lens E mem} `{D : !Device E} `{Img : !Image}.
Context `{Ym : !Sched mm} `{Yf : !Sched (vfs * E)} `{KH : !Kheap} `{FH : !Kernel_heap} `{PH : !Process_heap}.
Notation kstate := (mm * (ps * (vfs * E)))%type.
Notation user := (env_st * (errno_st * kstate))%type.
Context `{Y : !Sched kstate} (fuel : nat).
(** The registers rfork.s saves, the timers' nanosleep, and uname, whose
    literals are the kernel's. *)
Context (fork_registers : Prelude.ST user regfork_regs) (nanosleep_call : Z → Z → Prelude.ST kstate Z)
  (uname_call : Z → Prelude.ST kstate Z).

(** *** The way into the kernel and back *)
Definition kernel_errno (k : kstate) : Z := errno (k.2.2.1).

(** __syscall and syscallHandler: the kernel's errno starts at 0, and the
    program's is replaced when it is not 0 at the end. *)
Definition __syscall {A : Type} (handler : Prelude.ST kstate A) : Prelude.ST user A := λ '(env, (err, k)),
  match (set_errno 0;; handler) k with
  | Ok (a, k') => Ok (a, (env, (if kernel_errno k' =? 0 then err else Errno (kernel_errno k'), k')))
  | Fault => Fault
  | NoFuel => NoFuel
  end.

(** A string, and a vector of strings closed by a null pointer, read where the
    program keeps them. *)
Definition user_string (p : Z) : Prelude.ST user (list Z) := n ← strlen fuel p; load_bytes p (Z.to_nat n).
Definition user_vector (p : Z) : Prelude.ST user (list (list Z)) :=
  loop fuel (λ '(p, strings),
    a ← load32 p;
    if Z_bool a then s ← user_string a; mret (Next (p + 4, strings ++ [s])) else mret (Done strings)) (p, []).

Definition kernel_sys : Sys user := {|
  sys_read n p size := __syscall (Syscall.read fuel n p size);
  sys_write n p size := __syscall (Syscall.write fuel n p size);
  sys_openat n p flags mode := path ← user_string p; __syscall (Syscall.openat fuel n path flags mode);
  sys_close n := __syscall (Syscall.close n);
  sys_fstat n result := __syscall (Syscall.fstat n result);
  sys_fstatat n p result flags := path ← user_string p; __syscall (Syscall.fstatat fuel n path result flags);
  sys_readdir n offset p size := __syscall (Syscall.readdir fuel n offset p size);
  sys_fchdirat n p := path ← user_string p; __syscall (Syscall.fchdirat fuel n path);
  sys_rfork flags := registers ← fork_registers; __syscall (Syscall.regfork fuel flags registers);
  sys_execve p argv envp :=
    path ← (if Z_bool p then s ← user_string p; mret (Some s) else mret None);
    arguments ← user_vector argv;
    environment ← user_vector envp;
    __syscall (Syscall.execve fuel path arguments environment);
  sys_waitpid pid statusp flags := __syscall (Syscall.waitpid fuel pid statusp flags);
  sys_nanosleep requested remaining := __syscall (nanosleep_call requested remaining);
  sys_uname p := __syscall (uname_call p) |}.

(** ** Reading from a file

    Descriptor 0 of the current process is the description [a], open on the
    file [n], which holds [data]; descriptor 1 is the description [b]. *)
Context (a b n n' : Z) (data : list Z).

(** [input] is what is still to be read. *)
Definition reads_from (input : list Z) (u : user) : Prop :=
  let '(_, (_, (_, (s, (v, e))))) := u in
  fs_ok v ∧ (∃ p, procs s !! current s = Some p ∧ fd p !! 0%nat = Some a ∧ fd p !! 1%nat = Some b) ∧
  ∃ x o, nodes v !! n = Some x ∧ class x = FileVnode data ∧ fds v !! a = Some (FileDescription n o) ∧
    drop (Z.to_nat o) data = input.

(** A call that finds its descriptor and works on the file system. *)
Lemma syscall_fs {A} env err m s v e p k d (call : Z → Prelude.ST (vfs * E) A) (r : A) v' e' :
  procs s !! current s = Some p → 0 <= k → fd p !! Z.to_nat k = Some d → errno v' = 0 →
  call d (with_errno 0 v, e) = Ok (r, (v', e')) →
  __syscall (d ← get_descriptor k; in_fs (call d)) (env, (err, (m, (s, (v, e))))) =
  Ok (r, (env, (err, (m, (s, (v', e')))))).
Proof.
  intros Hp Hk Hd He Hc. unfold __syscall, get_descriptor, current_process, get_ps, get_process, set_errno, in_ps, in_fs.
  unfold mbind, ST_bind, zoom, mret, ST_ret. cbn. rewrite Hp. cbn. zcase (k <? 0). rewrite Hd. cbn. rewrite Hc. cbn.
  unfold kernel_errno. cbn. by rewrite He.
Qed.

Hypothesis Hfuel : (0 < fuel)%nat.
Hypothesis Hdata : Forall byte_ok data.

(** One byte read, or none at the end: the file system keeps its nodes and the
    other descriptions, and the byte goes to the buffer. *)
Lemma read_one_byte env err m s v e q input :
  reads_from input (env, (err, (m, (s, (v, e))))) → mapped (memory e) q 1 →
  let bs := take 1 input in let e' := with_memory e (write_bytes (memory e) q bs) in
  ∃ v', __syscall (Syscall.read fuel 0 q 1) (env, (err, (m, (s, (v, e))))) =
      Ok (Z.of_nat (length bs), (env, (err, (m, (s, (v', e')))))) ∧
    reads_from (drop 1 input) (env, (err, (m, (s, (v', e'))))) ∧
    nodes v' = nodes v ∧ ∀ k, k ≠ a → fds v' !! k = fds v !! k.
Proof using Hdata Hfuel.
  intros (F & (p & Hp & Ha & Hb) & (x & o & Hx & Hc & Hfa & Hin)) Hq bs e'.
  set (v0 := with_errno 0 v). assert (fs_ok v0) as F0 by by apply fs_ok_errno.
  destruct (fs_fds _ F _ _ Hfa) as [_ Ho]. cbn [fd_offset] in Ho.
  pose proof (fd_read_ok fuel Hfuel v0 e a _ x data q 1 F0 Hfa Hx Hc Hdata ltac:(lia) Hq) as Hread.
  cbn [fd_vnode fd_offset] in Hread. rewrite Hin in Hread. change (Z.to_nat 1) with 1%nat in Hread. fold bs in Hread.
  eexists. split; [apply (syscall_fs env err m s v e p 0 a (λ d, fd_read fuel d q 1) _ _ _ Hp); [lia|done| |exact Hread]; reflexivity|].
  pose proof (fs_size _ F _ _ _ Hx Hc) as Hsz.
  assert (length bs <= length data - Z.to_nat o)%nat as Hbs by (unfold bs; rewrite length_take, <-Hin, length_drop; lia).
  split; [|split; [done|intros k Hk; cbn; by apply lookup_insert_ne]].
  split; [apply (fs_ok_put_fd v0); [done|by eexists|]|].
  { destruct (decide (bs = [])) as [->|]; [cbn [length]; lia|]. destruct bs; [done|]. cbn [length] in *. lia. }
  split; [by exists p|]. exists x, (o + Z.of_nat (length bs)). cbn [nodes fds with_fds]. rewrite lookup_insert_eq.
  split; [done|]. split; [done|]. split; [done|]. rewrite Z2Nat.inj_add, Nat2Z.id, <-drop_drop, Hin by lia.
  unfold bs. by destruct input.
Qed.

Lemma reads_from_bytes input u : reads_from input u → Forall byte_ok input.
Proof using Hdata. destruct u as (? & ? & ? & ? & ? & ?). intros (_ & _ & (x & o & _ & _ & _ & <-)). by apply Forall_drop. Qed.

(** ** Files keep the promise of [Streams]

    [b] is open on another file [n'], behind its last byte. *)
Definition redirected (input out : list Z) (room : nat) (u : user) : Prop :=
  reads_from input u ∧
  let '(_, (_, (_, (_, (v, _))))) := u in
  (∃ y, nodes v !! n' = Some y ∧ class y = FileVnode out ∧
    fds v !! b = Some (FileDescription n' (Z.of_nat (length out)))) ∧
  Z.of_nat (length out + room) < 2 ^ 30.

Hypothesis Hdiff : a ≠ b ∧ n ≠ n'.
(** The heap of the kernel has room for files below 1 GiB. *)
Hypothesis Hheap : ∀ v d k, k < 2 ^ 30 → is_Some (realloc_data v d k).

Lemma read_file env err m s v e q input out room :
  redirected input out room (env, (err, (m, (s, (v, e))))) → is_Some (memory e !! q) →
  let bs := take 1 input in let e' := with_memory e (write_bytes (memory e) q bs) in
  ∃ v', __syscall (Syscall.read fuel 0 q 1) (env, (err, (m, (s, (v, e))))) =
      Ok (Z.of_nat (length bs), (env, (err, (m, (s, (v', e')))))) ∧
    redirected (drop 1 input) out room (env, (err, (m, (s, (v', e'))))).
Proof using Hdata Hdiff Hfuel.
  intros (Hin & (y & Hy & Hcy & Hfb) & Hroom) Hq bs e'. destruct Hdiff as [Hab _].
  destruct (read_one_byte env err m s v e q input Hin) as (v' & Hrun & Hin' & Hn & Hf).
  { intros z Hz. by replace z with q by lia. }
  exists v'. split; [exact Hrun|]. split; [exact Hin'|]. split; [|done]. exists y. by rewrite Hn, Hf by done.
Qed.

Lemma write_file env err m s v e q c input out room :
  redirected input out (Datatypes.S room) (env, (err, (m, (s, (v, e))))) → memory e !! q = Some c →
  ∃ v', __syscall (Syscall.write fuel 1 q 1) (env, (err, (m, (s, (v, e))))) =
    Ok (1, (env, (err, (m, (s, (v', e)))))) ∧
    redirected input (out ++ [c]) room (env, (err, (m, (s, (v', e))))).
Proof using Hheap Hdiff Hfuel.
  intros ((F & (p & Hp & Ha & Hb) & (x & o & Hx & Hc & Hfa & Hin)) & (y & Hy & Hcy & Hfb) & Hroom) Hq.
  destruct Hdiff as [Hab Hnn]. set (v0 := with_errno 0 v). assert (fs_ok v0) as F0 by by apply fs_ok_errno.
  destruct (Hheap (with_locked {[n']} v0) out (Z.of_nat (length out) + 1) ltac:(lia)) as [data' Hgrow].
  assert (grown v0 n' out (Z.of_nat (length out) + Z.of_nat (length [c])) = Some data') as Hg.
  { unfold grown. cbn [length]. change (Z.of_nat 1) with 1. zcase (Z.of_nat (length out) <? Z.of_nat (length out) + 1). done. }
  destruct (grown_spec fuel Hfuel _ _ _ _ _ Hg) as [Hl [more ->]]. rewrite length_app in Hl. cbn [length] in Hl.
  assert (list_inserts (Z.to_nat (Z.of_nat (length out))) [c] (out ++ more) = out ++ [c]) as Hins.
  { rewrite Nat2Z.id. cbn [list_inserts]. destruct more as [|z [|? ?]]; cbn [length] in Hl; [lia| |lia].
    replace (length out) with (length out + 0)%nat by lia. by rewrite insert_app_r. }
  assert (bytes_at (memory e) q [c]) as Hbq by (apply bytes_at_cons; split; [done|apply bytes_at_nil]).
  pose proof (fd_write_ok fuel Hfuel v0 e b _ y out q [c] _ F0 Hfb Hy Hcy Hbq ltac:(cbn; lia) ltac:(done) Hg) as Hw.
  cbn [fd_vnode fd_offset length] in Hw. rewrite Hins in Hw.
  eexists. split; [apply (syscall_fs env err m s v e p 1 b (λ d, fd_write fuel d q 1) _ _ _ Hp); [lia|done| |exact Hw]; reflexivity|].
  set (v1 := set_class n' y (FileVnode (out ++ [c])) v0).
  assert (nodes v1 !! n' = Some (Vnode (dev y) (ino y) (mode y) (FileVnode (out ++ [c])))) as Hy1 by apply lookup_insert_eq.
  assert (fs_ok v1) as F1.
  { apply fs_ok_set_class; [done|done|by rewrite Hcy|]. cbn. rewrite length_app. cbn [length]. lia. }
  split; [|split].
  - split; [apply (fs_ok_put_fd v1); [done|by eexists|lia]|]. split; [by exists p|]. exists x, o. split; [unfold set_class; cbn; by rewrite lookup_insert_ne|]. split; [done|].
    split; [cbn; by rewrite lookup_insert_ne|done].
  - eexists. split; [exact Hy1|]. split; [done|]. cbn [fds with_fds]. rewrite lookup_insert_eq, length_app. cbn [length].
    do 2 f_equal. lia.
  - rewrite length_app. cbn [length]. lia.
Qed.

#[refine] Definition file_streams : Streams (S := user) (K := kernel_sys) 0 1 := {|
  streams := redirected; device_memory _ := False; takes := byte_ok |}.
Proof using Hheap Hdata Hdiff Hfuel.
  - intros c rest out room (env & err & m & s & v & e) q Hr Hq _. pose proof Hr as [Hin%reads_from_bytes _].
    apply Forall_cons in Hin as [Hc _]. destruct (read_file env err m s v e q _ out room Hr Hq) as (v' & Hrun & Hr').
    eexists. split; [exact Hrun|]. split; [|exact Hr']. cbn [take write_bytes]. apply (memory_with (S := E)).
  - intros out room (env & err & m & s & v & e) q Hr Hq.
    destruct (read_file env err m s v e q _ out room Hr Hq) as (v' & Hrun & Hr').
    eexists. split; [exact Hrun|]. split; [|exact Hr']. cbn [take write_bytes]. apply (memory_with (S := E)).
  - intros c rest out room (env & err & m & s & v & e) q Hr Hq _ Hc.
    destruct (write_file env err m s v e q c rest out room Hr Hq) as (v' & Hrun & Hr').
    eexists. split; [exact Hrun|]. by split.
  - intros rest out room (env & err & m & s & v & e) m'. done.
  - intros rest out room u [Hin _]. by eapply reads_from_bytes.
Defined.

(** C40. cat with its input and output redirected to files copies the one to the
    other on this kernel: run against the system calls, it ends with status 0,
    the output file then holds exactly the bytes of the input file, which is
    unchanged, and the file system is well formed. *)
Theorem cat_copies_file env err m s v e local object stderr literal argv0 :
  redirected data [] (length data) (env, (err, (m, (s, (v, e))))) →
  cstr (memory e) (literal "-"%string) (str "-") → is_Some (memory e !! object) → (length data + 1 < fuel)%nat →
  ∃ env' err' m' s' v' e',
    cat_main (K := kernel_sys) local object fuel stderr literal [argv0] (env, (err, (m, (s, (v, e))))) =
      Ok (0, (env', (err', (m', (s', (v', e')))))) ∧
    (∃ y, nodes v' !! n' = Some y ∧ class y = FileVnode data) ∧
    (∃ x, nodes v' !! n = Some x ∧ class x = FileVnode data) ∧ fs_ok v'.
Proof using Hheap Hdata Hdiff Hfuel.
  intros Hr Hdash Hobj Hf.
  destruct (cat_copies (K := kernel_sys) (R := file_streams) local object fuel stderr literal
    (λ H, H) (env, (err, (m, (s, (v, e))))) argv0 data [] 0) as ((env' & err' & m' & s' & v' & e') & Hrun & Hr' & _).
  - exact Hdash.
  - by rewrite Nat.add_0_r.
  - exact Hdata.
  - exact Hobj.
  - exact Hf.
  - exists env', err', m', s', v', e'. split; [exact Hrun|].
    destruct Hr' as ((F & _ & (x & o & Hx & Hc & _)) & (y & Hy & Hcy & _) & _).
    split; [by exists y|]. split; [by exists x|done].
Qed.
End userland.
