(* ===== verification/Output.v ===== *)
(** * Formatted output of programs and of the kernel

    printf of the C library hands the pieces of vcbprintf to a stream byte by
    byte, Print::printf of the kernel to the terminal under its mutex.  Both
    callbacks keep the promise of the class [Sink], so that what LibcText.v
    says of the text of a format holds of standard output and of the screen. *)
From S2P Require Import Prelude Memory CString Errno Printf PrintfSpec Heap General Environ Unistd Streams Stdio StdioLaws Programs Vga VgaLaws Kthread Terminal TerminalLaws Print.

(** ** Standard output *)
Section stdout.
Context {S : Type} `{L : !Lens S mem} `{E : !Lens S errno_st} `{K : !Sys S} (fd : Z) `{W : !Writer fd}.
(** The int of fputc on its stack, the FILE object and the buffer of vcbprintf. *)
Context (local file buffer : Z).
Implicit Types (s : S) (o bs : list Z).

Hypothesis Hfd : 0 <= fd < 2 ^ 31.
Hypothesis Hlocal : disjoint_range local 4 file 8 ∧ disjoint_range local 4 (buffer - 1) 25 ∧ disjoint_range file 8 (buffer - 1) 25.
Hypothesis Hdevice : ∀ q, writer_memory q →
  ¬ local <= q < local + 4 ∧ ¬ file <= q < file + 8 ∧ ¬ buffer - 1 <= q < buffer + 24.

(** The output has taken [o] since it was [out]; [total] bytes fit. *)
Context (out : list Z) (total : nat) (flags : Z).

Definition out_inv s o : Prop :=
  (∃ room, (length o + room = total)%nat ∧ wrote (out ++ o) room s) ∧
  stream_at fd file (memory s) flags ∧ mapped (memory s) local 4.
Definition writable (c : Z) : Prop := byte_ok c ∧ writer_takes c.
Definition out_room o : Prop := (length o <= total)%nat ∧ Forall writable o.
Definition out_kept (q : Z) : Prop := ¬ local <= q < local + 4 ∧ ¬ writer_memory q.

Lemma word_at_agree m m' p w : (∀ q, p <= q < p + 4 → m' !! q = m !! q) → word_at m p w → word_at m' p w.
Proof.
  intros Hm (b0 & b1 & b2 & b3 & Hb & Hrest). exists b0, b1, b2, b3. split; [|done]. intros i c Hi.
  rewrite Hm; [by apply Hb|]. apply lookup_lt_Some in Hi. cbn in Hi. lia.
Qed.

Lemma stream_at_agree m m' :
  (∀ q, file <= q < file + 8 → m' !! q = m !! q) → stream_at fd file m flags → stream_at fd file m' flags.
Proof.
  unfold stream_at, file_fd, file_flags. intros Hm [H1 H2].
  split; (eapply word_at_agree; [|eassumption]); intros q Hq; apply Hm; lia.
Qed.

(** The invariant looks at the memory of the device, the FILE object and the
    mapping of the local variable only. *)
Lemma out_inv_memory s o m :
  (∀ q, writer_memory q ∨ file <= q < file + 8 → m !! q = memory s !! q) → mapped m local 4 →
  out_inv s o → out_inv (with_memory s m) o.
Proof.
  intros Hm Hl ((room & Hlen & Hs) & Hf & _). split; [|rewrite memory_with; split; [|done]].
  - exists room. split; [done|]. apply wrote_memory; [done|]. auto.
  - eapply stream_at_agree; [|exact Hf]. auto.
Qed.

Lemma fputc_ok s o c :
  out_inv s o → out_room (o ++ [c]) →
  ∃ s', fputc local c file s = Ok (c, s') ∧ out_inv s' (o ++ [c]) ∧ ∀ q, out_kept q → memory s' !! q = memory s !! q.
Proof using Hfd Hlocal Hdevice.
  intros Hinv [Hlen Hw]. apply Forall_app in Hw as [_ Hw]. apply Forall_singleton in Hw as [Hb Ht].
  pose proof Hinv as ((room & Hroom & _) & _ & Hl). rewrite length_app in Hlen. cbn [length] in Hlen.
  set (m1 := write_bytes (memory s) local (le32 (u32 c))). unfold byte_ok in Hb.
  assert (∀ q, ¬ local <= q < local + 4 → m1 !! q = memory s !! q) as Hm1
    by (intros q Hq; apply lookup_write_bytes_out; cbn [length le32]; lia).
  destruct (out_inv_memory s o m1) as ((room1 & Hroom1 & Hs1) & Hf1 & Hl1); [| |exact Hinv|].
  { intros q Hq. apply Hm1. unfold disjoint_range in Hlocal. destruct Hq as [Hq|Hq]; [by apply Hdevice|lia]. }
  { by apply mapped_write. }
  assert (room1 = Datatypes.S (pred room1)) as Hsucc by lia. rewrite Hsucc in Hs1. rewrite memory_with in Hf1, Hl1.
  destruct (write_one c (out ++ o) (pred room1) (with_memory s m1) local Hs1) as (s2 & Hrun & Hm2 & Hs2).
  { rewrite memory_with. unfold m1. cbn [le32 write_bytes]. rewrite !lookup_insert_ne by lia.
    by rewrite lookup_insert_eq, u32_small, u8_small by lia. }
  { intros Hq. apply Hdevice in Hq. lia. }
  { done. }
  rewrite memory_with in Hm2. exists s2. split; [|split].
  - unfold fputc. rewrite (bind_ok _ _ _ _ _ (store32_ok s local (u32 c) Hl)).
    erewrite bind_ok; [|eapply stream_fd; [exact Hfd|rewrite memory_with; exact Hf1]].
    rewrite (bind_ok _ _ _ _ _ Hrun). done.
  - split; [|split].
    + exists (pred room1). rewrite length_app, app_assoc. cbn [length]. split; [lia|done].
    + eapply stream_at_agree; [|exact Hf1]. intros q Hq. apply Hm2. intros Hd. apply Hdevice in Hd. lia.
    + intros q Hq. rewrite Hm2; [by apply Hl1|]. intros Hd. apply Hdevice in Hd. lia.
  - intros q [Hq Hd]. by rewrite Hm2, Hm1.
Qed.

Lemma fwrite_bytes_ok bs : ∀ s o n,
  out_inv s o → out_room (o ++ bs) →
  ∃ s', fwrite_bytes local bs n file s = Ok (n + Z.of_nat (length bs), s') ∧ out_inv s' (o ++ bs) ∧
    ∀ q, out_kept q → memory s' !! q = memory s !! q.
Proof using Hfd Hlocal Hdevice.
  induction bs as [|c bs IH]; intros s o n Hinv Hroom; cbn [fwrite_bytes length].
  - exists s. rewrite app_nil_r, Z.add_0_r. done.
  - assert (out_room (o ++ [c])) as Hroom1.
    { destruct Hroom as [Hlen Hw]. rewrite length_app in Hlen. cbn [length] in Hlen. split; [rewrite length_app; cbn; lia|].
      apply Forall_app in Hw as [Hw1 Hw2]. apply Forall_cons in Hw2 as [Hc _]. apply Forall_app_2; [done|by apply Forall_singleton]. }
    destruct (fputc_ok s o c Hinv Hroom1) as (s1 & Hrun & Hinv1 & Hk1).
    destruct (IH s1 (o ++ [c]) (n + 1) Hinv1) as (s2 & Hrun2 & Hinv2 & Hk2); [by rewrite <-app_assoc|].
    exists s2. rewrite (bind_ok _ _ _ _ _ Hrun). rewrite <-app_assoc in Hinv2. split; [|split; [exact Hinv2|]].
    + assert (byte_ok c) as Hb. { destruct Hroom1 as [_ [_ Hw]%Forall_app]. by apply Forall_cons in Hw as [[? _] _]. }
      unfold byte_ok in Hb. zcase (c =? EOF); [unfold EOF in *; lia|]. rewrite Hrun2. do 2 f_equal. lia.
    + intros q Hq. by rewrite Hk2, Hk1.
Qed.

Lemma stream_sink : Sink (vfprintf_callback local file) buffer out_inv out_room out_kept.
Proof using Hfd Hlocal Hdevice.
  split.
  - intros s o bs Hi Hr. destruct (fwrite_bytes_ok bs s o 0 Hi Hr) as (s' & Hrun & Hi' & Hk). by exists s'.
  - intros a b [Hl Hb]. rewrite length_app in Hl. apply Forall_app in Hb as [? _]. split; [lia|done].
  - intros s o m Hi Hm. unfold disjoint_range in Hlocal. apply out_inv_memory; [|intros q Hq; rewrite Hm by lia; by apply Hi|done].
    intros q [Hq|Hq]; apply Hm; [by apply Hdevice|lia].
  - intros q Hq. unfold disjoint_range in Hlocal. split; [lia|]. intros Hd%Hdevice. lia.
Qed.

(** printf appends its text to standard output, through one system call per
    byte, and returns the length of the text. *)
Lemma printf_ok s o fuel items :
  out_inv s o → mapped (memory s) (buffer - 1) 25 →
  Forall (item_ok (buffer := buffer) (kept := out_kept) fuel s) items →
  Z.of_nat (length (format_text items)) <= INT_MAX → out_room (o ++ format_text items) →
  ∃ s', Stdio.printf local fuel file buffer (format_of items) (format_args items) s =
      Ok (Z.of_nat (length (format_text items)), s') ∧
    out_inv s' (o ++ format_text items) ∧ mapped (memory s') (buffer - 1) 25 ∧
    untouched (buffer := buffer) (kept := out_kept) s s'.
Proof using Hfd Hlocal Hdevice.
  intros Hi Hb Hok Hlen Hr. pose proof stream_sink as Hsink.
  exact (vcbprintf_ok (K := Hsink) s o fuel items Hi Hb Hok Hlen Hr).
Qed.

(** echo: every word with a space behind it. *)
Definition echo_text (words : list (Z * list Z)) : list Z := words ≫= λ w, w.2 ++ [32].

Definition percent_s (p : Z) (txt : list Z) : item := Dir [] NoWidth NoPrec M_none (AStr p txt).

Lemma plain_string_text p txt : format_text [percent_s p txt] = txt.
Proof.
  unfold format_text. cbn -[Z.sub]. rewrite app_nil_r. unfold str_text, cut. cbn -[Z.sub].
  by replace (Z.to_nat (0 - Z.of_nat (length txt))) with 0%nat by lia.
Qed.

Lemma echo_all_ok fuel words : ∀ s o,
  out_inv s o → mapped (memory s) (buffer - 1) 25 →
  Forall (λ w, arg_ok (buffer := buffer) (kept := out_kept) fuel s M_none (AStr w.1 w.2)) words →
  out_room (o ++ echo_text words) →
  ∃ s', echo_all local buffer fuel file words.*1 s = Ok (tt, s') ∧ out_inv s' (o ++ echo_text words) ∧
    untouched (buffer := buffer) (kept := out_kept) s s'.
Proof using Hfd Hlocal Hdevice.
  pose proof stream_sink as Hsink.
  induction words as [|[p txt] words IH]; intros s o Hi Hb Hok Hr; cbn [fmap list_fmap echo_all fst].
  - exists s. split; [done|]. split; [by rewrite app_nil_r|]. by intros q.
  - apply Forall_cons in Hok as [Hw Hok]. change (echo_text ((p, txt) :: words)) with ((txt ++ [32]) ++ echo_text words) in *.
    rewrite !app_assoc in Hr. pose proof (sink_room (Sink := Hsink) _ _ Hr) as Hr2. pose proof (sink_room (Sink := Hsink) _ _ Hr2) as Hr1.
    destruct (printf_ok s o fuel [percent_s p txt]) as (s1 & Hrun1 & Hi1 & Hb1 & Hu1); [done|done| | | |].
    { apply Forall_cons. split; [|done]. split; [done|]. split; [done|]. split; [done|exact Hw]. }
    { rewrite plain_string_text. by destruct Hw as (_ & _ & ? & _). }
    { by rewrite plain_string_text. }
    rewrite plain_string_text in Hrun1, Hi1.
    destruct (printf_ok s1 (o ++ txt) fuel [Lit 32]) as (s2 & Hrun2 & Hi2 & Hb2 & Hu2); [done|done| | |exact Hr2|].
    { apply Forall_cons. split; [|done]. split; [|done]. done. }
    { vm_compute. discriminate. }
    change (format_text [Lit 32]) with [32] in Hrun2, Hi2.
    destruct (IH s2 ((o ++ txt) ++ [32]) Hi2 Hb2) as (s3 & Hrun3 & Hi3 & Hu3); [|exact Hr|].
    { eapply Forall_impl; [exact Hok|]. intros [q' txt'] (Hc & H1 & H2 & H3). cbn [fst snd] in *. split; [|done].
      eapply cstr_untouched; [exact Hu2|exact H3|]. eapply cstr_untouched; [exact Hu1|exact H3|exact Hc]. }
    exists s3. rewrite (bind_ok _ _ _ _ _ Hrun1), (bind_ok _ _ _ _ _ Hrun2). split; [exact Hrun3|].
    rewrite !app_assoc. split; [exact Hi3|]. intros q Hq Hs. by rewrite Hu3, Hu2, Hu1.
Qed.

(** echo prints its operands, each with a space behind it, and no newline:
    standard output has them behind what it had before, the status is 0, and
    memory other than the locals of the library and the device's is as it was. *)
Theorem echo_prints s fuel argv0 words room :
  (length (echo_text words) + room = total)%nat → wrote out total s →
  stream_at fd file (memory s) flags → mapped (memory s) local 4 → mapped (memory s) (buffer - 1) 25 →
  Forall (λ w, arg_ok (buffer := buffer) (kept := out_kept) fuel s M_none (AStr w.1 w.2)) words →
  Forall writable (echo_text words) →
  ∃ s', echo_main local buffer fuel file (argv0 :: words.*1) s = Ok (0, s') ∧
    wrote (out ++ echo_text words) room s' ∧ untouched (buffer := buffer) (kept := out_kept) s s'.
Proof using Hfd Hlocal Hdevice.
  intros Htotal Hs Hf Hl Hb Hw Ht. destruct (echo_all_ok fuel words s []) as (s' & Hrun & Hinv & Hu); try done.
  - split; [|done]. exists total. by rewrite app_nil_r.
  - split; [cbn; lia|done].
  - exists s'. unfold echo_main. cbn [drop]. rewrite (bind_ok _ _ _ _ _ Hrun). split; [done|]. split; [|done].
    destruct Hinv as ((room' & Hroom & Hs') & _). cbn [app] in *. by replace room with room' by lia.
Qed.
End stdout.

(** ** The console of the kernel *)
Section console_out.
Context {S : Type} `{L : !Lens S mem} `{E : !Lens S errno_st} `{V : !Lens S vga_st} `{T : !Lens S term_st}.
Context `{I : !Indep L V} `{J : !Indep V L} `{ITL : !Indep T L} `{ITV : !Indep T V}.
Context `{ILT : !Indep L T} `{IVT : !Indep V T} `{P : !Ports S} `{Y : !Sched S}.
Context (lock_fuel : nat) (buffer : Z) (literals : string → Z).
Context (color : Z) (screen : text).
Hypothesis Hports : quiet_ports.
Hypothesis Hlock : (0 < lock_fuel)%nat.
Hypothesis Hbuffer : disjoint_range video 4000 (buffer - 1) 25.

Lemma print_characters_ok bs : ∀ s t,
  vga_rep s t → status (get s) = NORMAL → Forall plain bs →
  ∃ s', print_characters bs s = Ok (tt, s') ∧ vga_rep s' (shown (fontColor (get s)) bs t) ∧
    status (get s') = NORMAL ∧ fontColor (get s') = fontColor (get s) ∧
    same_outside video 4000 (memory s) (memory s') ∧ vga_only s s'.
Proof.
  induction bs as [|c bs IH]; intros s t Hr Hn Hp; cbn [print_characters shown fold_left].
  - exists s. split; [done|]. split; [done|]. split; [done|]. split; [done|].
    split; [apply same_outside_refl|apply vga_only_refl].
  - apply Forall_cons in Hp as [Hc Hp]. destruct (plain_s8 c Hc) as [Hrange Hesc].
    destruct (print_plain_ok s t (s8 c) Hr Hn Hrange Hesc) as (s1 & Hrun & Hr1 & Hn1 & Hf1 & Hso1 & Ho1).
    destruct (IH s1 _ Hr1 Hn1 Hp) as (s2 & Hrun2 & Hr2 & Hn2 & Hf2 & Hso2 & m & v & ->).
    eexists. rewrite (bind_ok _ _ _ _ _ Hrun). rewrite Hf1 in Hr2, Hf2. split; [exact Hrun2|]. split; [exact Hr2|].
    split; [done|]. split; [done|]. split; [by eapply same_outside_trans|]. by apply vga_only_set, vga_only_mem.
Qed.

Definition screen_kept (q : Z) : Prop := ¬ video <= q < video + 4000.

Lemma console_sink : Sink (print_callback lock_fuel) buffer (λ s o, on_screen color screen o s) (Forall plain) screen_kept.
Proof using Hports Hlock Hbuffer I J ITL ITV ILT IVT.
  split.
  - intros s o bs (H1 & H2 & H3 & H4) [_ Hp]%Forall_app.
    destruct (locked_output Hports s lock_fuel (print_characters bs) (Z.of_nat (length bs))
      (shown color (o ++ bs) screen) color H1 Hlock) as (s' & Hrun & Hr & Hn & Hf & Ht & Hso).
    + intros s0 (Hm & Hv & _). rewrite memory_set_term in Hm. rewrite vga_set_term in Hv.
      rewrite <-H3, <-Hv, shown_app. apply print_characters_ok; [|by rewrite Hv|done].
      rewrite Hv, H3. destruct (shown color o screen) as [[cs x] y]. unfold vga_rep in *. by rewrite Hm, Hv.
    + exists s'. split; [exact Hrun|]. split; [|intros q Hq; by apply Hso]. split; [by rewrite Ht|]. by split.
  - by intros a b [? _]%Forall_app.
  - intros s o m Hs Hm. apply on_screen_memory; [|done]. intros q Hq. apply Hm. unfold disjoint_range in Hbuffer. lia.
  - intros q Hq. unfold screen_kept. unfold disjoint_range in Hbuffer. lia.
Qed.

(** Print::printf shows the text of its format on the screen, behind what is
    there, at the cursor and under the mutex of the terminal; memory outside the
    screen is as it was but for the locals of vcbprintf. *)
Theorem console_prints s format items out :
  str format = format_of items → on_screen color screen out s → mapped (memory s) (buffer - 1) 25 →
  Forall (item_ok (buffer := buffer) (kept := screen_kept) lock_fuel s) items →
  Z.of_nat (length (format_text items)) <= INT_MAX → Forall plain (out ++ format_text items) →
  ∃ s', printf (Console := terminal_console lock_fuel buffer literals) format (format_args items) s = Ok (tt, s') ∧
    on_screen color screen (out ++ format_text items) s' ∧
    ∀ q, screen_kept q → ¬ buffer - 1 <= q < buffer + 24 → memory s' !! q = memory s !! q.
Proof using Hports Hlock Hbuffer I J ITL ITV ILT IVT.
  intros Hformat Hs Hb Hok Hlen Hp. pose proof console_sink as Hsink.
  destruct (vcbprintf_ok (K := Hsink) s out lock_fuel items Hs Hb Hok Hlen Hp) as (s' & Hrun & Hs' & _ & Hu).
  exists s'. split; [|split; [exact Hs'|exact Hu]]. cbn [printf terminal_console]. rewrite Hformat.
  by rewrite (bind_ok _ _ _ _ _ Hrun).
Qed.
End console_out.
