(* ===== verification/Screen.v ===== *)
(** * The terminal as standard output

    A descriptor on the terminal's node keeps the promise of the class
    [Streams]: what a program writes to it through the system calls appears on
    the reference screen of VgaLaws.v.  So the theorems about programs hold of
    the screen as well as of files. *)
From S2P Require Import Prelude Memory CString Errno PrintfSpec Heap General Environ Unistd Streams Stdio StdioLaws Programs ProgramsLaws Output Vga VgaLaws Kthread Terminal TerminalLaws Paging Segments AddressSpace Vfs VfsLaws FileSystem Process Syscall Userland.

Section screen.
Context {E : Type} `{LE : !Lens E mem} `{LV : !Lens E vga_st} `{LT : !Lens E term_st}.
Context `{I : !Indep LE LV} `{J : !Indep LV LE} `{ITL : !Indep LT LE} `{ITV : !Indep LT LV}.
Context `{ILT : !Indep LE LT} `{IVT : !Indep LV LT} `{P : !Ports E} `{YE : !Sched E} (lock_fuel : nat).
Context `{Img : !Image} `{Ym : !Sched mm} `{Yf : !Sched (vfs * E)} `{KH : !Kheap} `{FH : !Kernel_heap} `{PH : !Process_heap}.
#[local] Instance D : Device E := terminal_device lock_fuel.
Notation kstate := (mm * (ps * (vfs * E)))%type.
Notation user := (env_st * (errno_st * kstate))%type.
Context `{Y : !Sched kstate} (fuel : nat).
Context (fork_registers : Prelude.ST user regfork_regs) (nanosleep_call : Z → Z → Prelude.ST kstate Z)
  (uname_call : Z → Prelude.ST kstate Z).
Notation sys := (kernel_sys fuel fork_registers nanosleep_call uname_call).

(** Descriptor 1 is [b], open on the node [n'] of the terminal, whose screen was
    [screen] and whose colour is [color]; descriptor 0 is [a], open on the file
    [n] that holds [data]. *)
Context (a b n n' : Z) (data : list Z) (screen : text) (color : Z).

Definition shows (out : list Z) (u : user) : Prop :=
  let '(_, (_, (_, (s, (v, e))))) := u in
  (∃ p, procs s !! current s = Some p ∧ fd p !! 1%nat = Some b) ∧
  (∃ y o, nodes v !! n' = Some y ∧ class y = TerminalVnode ∧ fds v !! b = Some (FileDescription n' o)) ∧
  on_screen color screen out e.
Definition displayed (input out : list Z) (u : user) : Prop := reads_from a b n data input u ∧ shows out u.

Hypothesis Hports : quiet_ports.
Hypothesis Hfuel : (0 < fuel)%nat.
Hypothesis Hlock : (0 < lock_fuel)%nat.
(** One byte through the terminal's node. *)
Lemma fd_write_terminal v e q c y o out :
  fds v !! b = Some (FileDescription n' o) → nodes v !! n' = Some y → class y = TerminalVnode →
  on_screen color screen out e → memory e !! q = Some c → plain c → ¬ video <= q < video + 4000 →
  ∃ e', fd_write fuel b q 1 (v, e) = Ok (1, (v, e')) ∧ on_screen color screen (out ++ [c]) e' ∧
    same_outside video 4000 (memory e) (memory e').
Proof using Hfuel Hports Hlock I ILT ITL IVT ITV J.
  intros Hfb Hy Hc (H1 & H2 & H3 & H4) Hq Hp Hout.
  destruct (write_shows Hports e (shown color out screen) lock_fuel q [c] H1 H4 H2)
    as (e' & Hrun & Hr & Hn & Hf & Ht & Hso); try done.
  { apply bytes_at_cons. split; [done|apply bytes_at_nil]. }
  { by apply Forall_singleton. }
  { unfold disjoint_range. cbn [length]. lia. }
  exists e'. split; [|split; [|exact Hso]].
  - unfold fd_write. rewrite (bind_ok _ _ _ _ _ (get_fd_ok _ _ _ _ Hfb)). cbn [fd_vnode].
    unfold isSeekable, Vfs.write. unfold mbind at 1, ST_bind at 1.
    rewrite (bind_ok _ _ _ _ _ (get_node_ok _ _ _ _ Hy)), Hc. cbv iota.
    cbn [mret ST_ret]. rewrite (bind_ok _ _ _ _ _ (get_node_ok _ _ _ _ Hy)), Hc.
    apply (zoom_ok (Lens_snd vfs E E (Lens_id E)) _ (v, e)). exact Hrun.
  - unfold on_screen. rewrite Ht, Hn, Hf. split; [done|]. split; [done|]. split; [done|].
    rewrite shown_app. rewrite H3 in Hr. exact Hr.
Qed.

Lemma write_screen env err m s v e q c out :
  shows out (env, (err, (m, (s, (v, e))))) → memory e !! q = Some c → plain c →
  ¬ video <= q < video + 4000 →
  ∃ e', __syscall (Syscall.write fuel 1 q 1) (env, (err, (m, (s, (v, e))))) =
      Ok (1, (env, (err, (m, (s, (with_errno 0 v, e')))))) ∧
    shows (out ++ [c]) (env, (err, (m, (s, (with_errno 0 v, e'))))) ∧
    same_outside video 4000 (memory e) (memory e').
Proof using Hfuel Hports Hlock I ILT ITL IVT ITV J.
  intros ((p & Hp & Hb) & (y & o & Hy & Hc & Hfb) & Hs) Hq Hpl Hout.
  destruct (fd_write_terminal (with_errno 0 v) e q c y o out Hfb Hy Hc Hs Hq Hpl Hout) as (e' & Hrun & Hs' & Hso).
  exists e'. split; [|split; [|done]].
  - apply (syscall_fs env err m s v e p 1 b (λ d, fd_write fuel d q 1) _ _ _ Hp); [lia|done|done|exact Hrun].
  - split; [by exists p|]. split; [by exists y, o|done].
Qed.

Lemma shows_memory out env err m s v e m' :
  shows out (env, (err, (m, (s, (v, e))))) → (∀ q, video <= q < video + 4000 → m' !! q = memory e !! q) →
  shows out (env, (err, (m, (s, (v, with_memory e m'))))).
Proof using I ILT ITL IVT ITV J.
  intros (Hp & Hn & Hs) Hm. split; [exact Hp|]. split; [exact Hn|]. by apply on_screen_memory.
Qed.

#[refine] Definition screen_writer : Writer (S := user) (K := sys) 1 := {|
  wrote out _ := shows out; writer_memory q := video <= q < video + 4000; writer_takes := plain |}.
Proof using a b n n' data screen color Hfuel Hlock Hports I ILT ITL IVT ITV J.
  - intros c out room (env & err & m & s & v & e) q Hr Hq Hout Hc.
    destruct (write_screen env err m s v e q c out Hr Hq Hc Hout) as (e' & Hrun & Hr' & Hso).
    eexists. split; [exact Hrun|]. split; [exact Hso|exact Hr'].
  - intros out room (env & err & m & s & v & e) m'. apply shows_memory.
Defined.

(** C38. echo shows its operands on the screen: run against the system calls of
    the kernel with the terminal behind descriptor 1, every byte goes through
    printf, vcbprintf, fputc and write to the terminal, and in the end the video
    memory holds the reference screen after the operands, each with a space
    behind it; the status is 0. *)
Theorem echo_shows env err m s v e local file buffer argv0 words flags :
  shows [] (env, (err, (m, (s, (v, e))))) → stream_at 1 file (memory e) flags →
  disjoint_range local 4 file 8 ∧ disjoint_range local 4 (buffer - 1) 25 ∧ disjoint_range file 8 (buffer - 1) 25 →
  disjoint_range video 4000 local 4 ∧ disjoint_range video 4000 file 8 ∧ disjoint_range video 4000 (buffer - 1) 25 →
  mapped (memory e) local 4 → mapped (memory e) (buffer - 1) 25 →
  Forall (λ w, cstr (memory e) w.1 w.2 ∧ Forall (λ c, c ≠ chr_ESC) w.2 ∧ (length w.2 < fuel)%nat ∧
    Z.of_nat (length w.2) <= INT_MAX ∧ disjoint_range local 4 w.1 (Z.of_nat (length w.2) + 1) ∧
    disjoint_range video 4000 w.1 (Z.of_nat (length w.2) + 1) ∧
    disjoint_range (buffer - 1) 25 w.1 (Z.of_nat (length w.2) + 1)) words →
  ∃ env' err' m' s' v' e',
    echo_main (K := sys) local buffer fuel file (argv0 :: words.*1) (env, (err, (m, (s, (v, e))))) =
      Ok (0, (env', (err', (m', (s', (v', e')))))) ∧
    vga_rep e' (shown color (echo_text words) screen).
Proof using a n data Hfuel Hlock Hports I ILT ITL IVT ITV J.
  intros Hs Hf Hd (Hv1 & Hv2 & Hv3) Hl Hb Hw. unfold disjoint_range in Hv1, Hv2, Hv3.
  destruct (echo_prints (K := sys) (W := screen_writer) 1 local file buffer ltac:(lia) Hd) with
    (out := @nil Z) (total := length (echo_text words)) (flags := flags) (fuel := fuel) (argv0 := argv0)
    (words := words) (room := 0%nat) (s := (env, (err, (m, (s, (v, e))))))
    as ((env' & err' & m' & s' & v' & e') & Hrun & (_ & _ & Hs') & _).
  - intros q Hq. cbn in Hq. lia.
  - apply Nat.add_0_r.
  - exact Hs.
  - exact Hf.
  - exact Hl.
  - exact Hb.
  - eapply Forall_impl; [exact Hw|]. intros [p txt] (Hc & _ & H1 & H2 & H3 & H4 & H5). cbn [fst snd] in *.
    unfold disjoint_range in *. split; [exact Hc|]. split; [done|]. split; [done|].
    intros q Hq. split; [|lia]. split; [lia|]. cbn. lia.
  - unfold echo_text. apply Forall_bind. eapply Forall_impl; [exact Hw|]. intros [p txt] ((Hc & _) & He & _).
    cbn [fst snd] in *. apply Forall_app. split; [|repeat constructor; done].
    apply Forall_forall. intros c Hin. rewrite Forall_forall in Hc, He. specialize (Hc c Hin). specialize (He c Hin).
    unfold char_ok in Hc. split; [unfold byte_ok; lia|]. split; [unfold byte_ok; lia|done].
  - exists env', err', m', s', v', e'. split; [exact Hrun|]. apply Hs'.
Qed.

Hypothesis Hdiff : a ≠ b.
Hypothesis Hdata : Forall plain data.

Lemma plain_bytes : Forall byte_ok data.
Proof using Hdata. eapply Forall_impl; [exact Hdata|]. by intros c [Hc _]. Qed.

Lemma read_onto_screen env err m s v e q input out :
  displayed input out (env, (err, (m, (s, (v, e))))) → is_Some (memory e !! q) → (input ≠ [] → ¬ video <= q < video + 4000) →
  let bs := take 1 input in let e' := with_memory e (write_bytes (memory e) q bs) in
  ∃ v', __syscall (Syscall.read fuel 0 q 1) (env, (err, (m, (s, (v, e))))) =
      Ok (Z.of_nat (length bs), (env, (err, (m, (s, (v', e')))))) ∧
    displayed (drop 1 input) out (env, (err, (m, (s, (v', e'))))).
Proof using Hdata Hdiff Hfuel Hlock I ILT ITL IVT ITV J.
  intros (Hin & Hp & (y & o & Hy & Hcy & Hfb) & Hs) Hq Hout bs e'.
  destruct (read_one_byte fuel a b n data Hfuel plain_bytes env err m s v e q input Hin) as (v' & Hrun & Hin' & Hn & Hf).
  { intros z Hz. by replace z with q by lia. }
  exists v'. split; [exact Hrun|]. split; [exact Hin'|]. apply shows_memory.
  - split; [exact Hp|]. split; [exists y, o; by rewrite Hn, Hf by done|done].
  - intros z Hz. destruct (decide (input = [])) as [->|Hne]; [done|]. specialize (Hout Hne). apply lookup_write_bytes_out.
    replace (length bs) with 1%nat by (by destruct input). lia.
Qed.

#[refine] Definition screen_streams : Streams (S := user) (K := sys) 0 1 := {|
  streams input out _ := displayed input out;
  device_memory q := video <= q < video + 4000;
  takes := plain |}.
Proof using n n' screen color Hdata Hdiff Hfuel Hlock Hports I ILT ITL IVT ITV J.
  - intros c rest out room (env & err & m & s & v & e) q Hr Hq Hout.
    destruct (read_onto_screen env err m s v e q _ out Hr Hq) as (v' & Hrun & Hr'); [done|].
    eexists. split; [exact Hrun|]. split; [apply (memory_with (S := E))|exact Hr'].
  - intros out room (env & err & m & s & v & e) q Hr Hq.
    destruct (read_onto_screen env err m s v e q _ out Hr Hq) as (v' & Hrun & Hr'); [done|].
    eexists. split; [exact Hrun|]. split; [apply (memory_with (S := E))|exact Hr'].
  - intros c rest out room (env & err & m & s & v & e) q [(F & Hp & Hfile) Hr] Hq Hout Hc.
    destruct (write_screen env err m s v e q c out Hr Hq Hc Hout) as (e' & Hrun & Hr' & Hso).
    eexists. split; [exact Hrun|]. split; [exact Hso|]. split; [|exact Hr'].
    split; [by apply fs_ok_errno|]. by split.
  - intros rest out room (env & err & m & s & v & e) m' [Hin Hs] Hm. split; [exact Hin|]. by apply shows_memory.
  - intros rest out room u [Hin _]. eapply reads_from_bytes; [exact plain_bytes|exact Hin].
Defined.

(** C39. cat with its input redirected to a file shows the file on the screen:
    run against the system calls of the kernel with the terminal behind
    descriptor 1, it ends with status 0, the video memory holds the reference
    screen after the bytes of the file, the file is as it was, and outside the
    screen only the byte of cat's buffer has changed. *)
Theorem cat_shows_file env err m s v e local object stderr literal argv0 :
  displayed data [] (env, (err, (m, (s, (v, e))))) →
  cstr (memory e) (literal "-"%string) (str "-") → is_Some (memory e !! object) →
  ¬ video <= object < video + 4000 → (length data + 1 < fuel)%nat →
  ∃ env' err' m' s' v' e',
    cat_main (K := sys) local object fuel stderr literal [argv0] (env, (err, (m, (s, (v, e))))) =
      Ok (0, (env', (err', (m', (s', (v', e')))))) ∧
    vga_rep e' (shown color data screen) ∧
    (∃ x, nodes v' !! n = Some x ∧ class x = FileVnode data) ∧
    ∀ q, q ≠ object → ¬ video <= q < video + 4000 → memory e' !! q = memory e !! q.
Proof using Hdata Hdiff Hfuel Hlock Hports I ILT ITL IVT ITV J.
  intros Hr Hdash Hobj Hout Hf.
  destruct (cat_copies (K := sys) (R := screen_streams) local object fuel stderr literal Hout
    (env, (err, (m, (s, (v, e))))) argv0 data [] 0) as ((env' & err' & m' & s' & v' & e') & Hrun & Hr' & Hsame);
    [exact Hdash|exact Hr|exact Hdata|exact Hobj|exact Hf|].
  exists env', err', m', s', v', e'. split; [exact Hrun|].
  destruct Hr' as ((_ & _ & (x & o & Hx & Hc & _)) & _ & _ & (_ & _ & _ & Hs)).
  split; [exact Hs|]. split; [by exists x|]. exact Hsame.
Qed.
End screen.
