(* ===== verification/UserlandDemo.v ===== *)
(** * cat motd > copy

    The property of cat on the kernel applied: process 22 of the demonstration
    processes with its descriptors on two files. The second part runs two more
    functions of user space on the kernel, with the heap of the C library on
    anonymous mappings: getcwd in /usr/bin, and ls in /usr with its output
    redirected to a file. *)
From S2P Require Import Prelude Memory CString Errno Heap HeapSpec HeapLaws PrintfTests General Environ Unistd Streams Stdio Canonical Programs Kthread Paging Segments AddressSpace Vfs VfsLaws FileSystemDemo Process RunList ProcessDemo Userland Vga VgaLaws Terminal TerminalLaws Screen.

#[local] Existing Instances demo_image demo_kheap demo_sched_mm demo_sched_k demo_process_heap.

Definition demo_copy : vnode := Vnode 0 3 (Z.lor S_IFREG 0x1A4) (FileVnode []).
Definition demo_copy_fs : vfs :=
  Vfs (list_to_map [(1, Vnode 0 0 (Z.lor S_IFDIR 0x1ED) (DirectoryVnode 0 [(str "motd", 3); (str "copy", 4)]));
                    (3, demo_motd); (4, demo_copy)])
    (list_to_map [(10, FileDescription 1 0); (11, FileDescription 3 0); (12, FileDescription 4 0)]) ∅ 4 0.
Definition demo_copier : process :=
  Process 1002 0 0 0x5000 false true false 0 [] 500 (<[0%nat := 11]> (<[1%nat := 12]> (replicate 20 0))) 10 0 2 0 0x12.
Definition demo_copy_ps : ps := Ps (list_to_map [(22, demo_copier)]) 22 22 20 6 ∅ true 0.
Definition demo_copy_mem : mem := write_bytes (write_bytes ∅ 100 (str "-" ++ [0])) 200 [7].

Lemma demo_copy_fs_ok : fs_ok demo_copy_fs.
Proof. apply fs_check_ok. split_and!; [done..| | |]; apply (bool_decide_eq_true_1 _); vm_compute; reflexivity. Qed.

Lemma demo_heap_roomy v d k : k < 2 ^ 30 → is_Some (realloc_data (Kernel_heap := demo_heap) v d k).
Proof. intros Hk. cbn. unfold demo_realloc. zcase (k <? 2 ^ 30). eauto. Qed.

Lemma cat_copies_file_witness :
  ∃ env' err' m' s' v' e',
    cat_main (K := kernel_sys 10 fault (λ _ _, mret 0) (λ _, mret 0)) 300 200 10 400 (λ _, 100) [0]
      (env_init, (Errno 0, (demo_mm0, (demo_copy_ps, (demo_copy_fs, demo_copy_mem))))) =
      Ok (0, (env', (err', (m', (s', (v', e')))))) ∧
    ∃ y, nodes v' !! 4 = Some y ∧ class y = FileVnode (str "hi").
Proof.
  destruct (cat_copies_file 10 fault (λ _ _, mret 0) (λ _, mret 0) 11 12 3 4 (str "hi")) with
    (env := env_init) (err := Errno 0) (m := demo_mm0) (s := demo_copy_ps) (v := demo_copy_fs) (e := demo_copy_mem)
    (local := 300) (object := 200) (stderr := 400) (literal := λ _ : string, 100) (argv0 := 0)
    as (env' & err' & m' & s' & v' & e' & Hrun & Hcopy & _).
  - lia.
  - apply (bool_decide_eq_true_1 _). vm_compute. reflexivity.
  - split; discriminate.
  - exact demo_heap_roomy.
  - split; [|split; [by exists demo_copy|done]].
    split; [exact demo_copy_fs_ok|]. split; [by exists demo_copier|]. by exists demo_motd, 0.
  - apply cstr_check. vm_compute. reflexivity.
  - vm_compute. eauto.
  - vm_compute. lia.
  - exists env', err', m', s', v', e'. split; [exact Hrun|exact Hcopy].
Defined.

(** ** cat motd onto the screen

    Description 12 is on the terminal, over a blank screen. *)
Definition demo_screen_fs : vfs :=
  Vfs (list_to_map [(1, Vnode 0 0 (Z.lor S_IFDIR 0x1ED) (DirectoryVnode 0 [(str "motd", 3); (str "tty", 4)]));
                    (3, demo_motd); (4, Vnode 0 3 (Z.lor S_IFCHR 0x1A4) TerminalVnode)])
    (list_to_map [(10, FileDescription 1 0); (11, FileDescription 3 0); (12, FileDescription 4 0)]) ∅ 4 0.
Definition demo_tty_ports : Ports tty := {| inportb _ := mret 0; outportb _ _ := mret tt |}.
Definition demo_screen_tty : tty := (write_bytes demo_tty.1 100 (str "-" ++ [0]), demo_tty.2).
Definition demo_tty_fs_sched : Sched (vfs * tty) := {| sched_yield := mret tt |}.
Definition demo_tty_sched : Sched (mm * (ps * (vfs * tty))) := {| sched_yield := mret tt |}.
#[local] Existing Instances demo_tty_ports tty_sched demo_tty_fs_sched demo_tty_sched.

Lemma demo_screen_fs_ok : fs_ok demo_screen_fs.
Proof. apply fs_check_ok. split_and!; [done..| | |]; apply (bool_decide_eq_true_1 _); vm_compute; reflexivity. Qed.

(** Memory below the video page added to the terminal of the demonstration. *)
Lemma demo_tty_with p bs :
  p + Z.of_nat (length bs) <= video → vga_rep (write_bytes demo_tty.1 p bs, demo_tty.2) (blank, 0, 0).
Proof.
  intros Hp.
  split; [|split; [done|split; [done|split; [done|by apply (bool_decide_eq_true_1 (byte_ok _))]]]].
  destruct demo_tty_vga as ((Hl & Hok & Hb) & _). split; [exact Hl|]. split; [exact Hok|].
  apply bytes_at_write_other; [left; exact Hp|exact Hb].
Qed.

Lemma cat_shows_file_witness :
  ∃ env' err' m' s' v' e',
    cat_main (K := kernel_sys (D := terminal_device 1) 10 fault (λ _ _, mret 0) (λ _, mret 0)) 300 64 10 400 (λ _, 100) [0]
      (env_init, (Errno 0, (demo_mm0, (demo_copy_ps, (demo_screen_fs, demo_screen_tty))))) =
      Ok (0, (env', (err', (m', (s', (v', e')))))) ∧
    vga_rep e' (<[1%nat := (105, DEFAULT_COLOR)]> (<[0%nat := (104, DEFAULT_COLOR)]> blank), 2, 0).
Proof.
  destruct (cat_shows_file (E := tty) 1 10 fault (λ _ _, mret 0) (λ _, mret 0) 11 12 3 4 (str "hi") (blank, 0, 0)
    DEFAULT_COLOR) with
    (env := env_init) (err := Errno 0) (m := demo_mm0) (s := demo_copy_ps) (v := demo_screen_fs) (e := demo_screen_tty)
    (local := 300) (object := 64) (stderr := 400) (literal := λ _ : string, 100) (argv0 := 0)
    as (env' & err' & m' & s' & v' & e' & Hrun & Hshow & _).
  - intros port value s. exists s. split; [done|]. by split.
  - lia.
  - lia.
  - discriminate.
  - repeat constructor; discriminate.
  - split; [split; [exact demo_screen_fs_ok|]; split; [by exists demo_copier|]; by exists demo_motd, 0|].
    split; [by exists demo_copier|]. split; [by eexists _, 0|].
    split; [done|]. split; [done|]. split; [done|]. apply demo_tty_with. vm_compute. discriminate.
  - apply cstr_check. vm_compute. reflexivity.
  - vm_compute. eauto.
  - unfold video. lia.
  - vm_compute. lia.
  - exists env', err', m', s', v', e'. split; [exact Hrun|exact Hshow].
Defined.

(** ** echo hi you

    The objects of the program: stdout at 100, the int of fputc at 108, the
    buffer of vcbprintf at 113, the operands at 140 and 143. *)
Definition demo_echo_tty : tty :=
  (write_bytes demo_tty.1 100 (Stdio.__stdout ++ replicate 32 0 ++ str "hi" ++ [0] ++ str "you" ++ [0]), demo_tty.2).

Lemma echo_shows_witness :
  ∃ env' err' m' s' v' e',
    echo_main (K := kernel_sys (D := terminal_device 1) 10 fault (λ _ _, mret 0) (λ _, mret 0)) 108 113 10 100 [0; 140; 143]
      (env_init, (Errno 0, (demo_mm0, (demo_copy_ps, (demo_screen_fs, demo_echo_tty))))) =
      Ok (0, (env', (err', (m', (s', (v', e')))))) ∧
    vga_rep e' (shown DEFAULT_COLOR (str "hi you ") (blank, 0, 0)).
Proof.
  destruct (echo_shows (E := tty) 1 10 fault (λ _ _, mret 0) (λ _, mret 0) 11 12 3 4 (str "hi") (blank, 0, 0)
    DEFAULT_COLOR) with
    (env := env_init) (err := Errno 0) (m := demo_mm0) (s := demo_copy_ps) (v := demo_screen_fs) (e := demo_echo_tty)
    (local := 108) (file := 100) (buffer := 113) (argv0 := 0) (words := [(140, str "hi"); (143, str "you")]) (flags := 0)
    as (env' & err' & m' & s' & v' & e' & Hrun & Hshow);
    try (unfold disjoint_range, video; lia).
  - intros port value s. exists s. split; [done|]. by split.
  - split; [by exists demo_copier|]. split; [by eexists _, 0|].
    split; [done|]. split; [done|]. split; [done|]. apply demo_tty_with. vm_compute. discriminate.
  - split; apply word_check; vm_compute; reflexivity.
  - apply (bytes_at_mapped _ _ (replicate 4 0)); [apply bytes_check; vm_compute; reflexivity|done].
  - apply (bytes_at_mapped _ _ (replicate 25 0)); [apply bytes_check; vm_compute; reflexivity|done].
  - apply Forall_cons; split; [|apply Forall_singleton]; cbn [fst snd].
    all: split; [apply cstr_check; vm_compute; reflexivity|].
    all: split; [apply (bool_decide_eq_true_1 _); vm_compute; reflexivity|].
    all: split_and!; unfold disjoint_range; apply (bool_decide_eq_true_1 _); vm_compute; reflexivity.
  - exists env', err', m', s', v', e'. split; [exact Hrun|exact Hshow].
Defined.

(** ** The working directory and ls *)

(** The mappings under malloc are those of the demonstration of the heap. *)
Definition demo_program_map : MemMap (env_st * (errno_st * (mm * (ps * (vfs * mem))))) := {|
  Heap.mapMemory size := λ '(env, (err, (m, (s, (v, e))))),
    match Heap.mapMemory (S := HeapLaws.sys) size (e, err) with
    | Ok (p, (e', err')) => Ok (p, (env, (err', (m, (s, (v, e'))))))
    | Fault => Fault
    | NoFuel => NoFuel
    end;
  Heap.unmapMemory p size := λ '(env, (err, (m, (s, (v, e))))),
    match Heap.unmapMemory (S := HeapLaws.sys) p size (e, err) with
    | Ok (_, (e', err')) => Ok (tt, (env, (err', (m, (s, (v, e'))))))
    | Fault => Fault
    | NoFuel => NoFuel
    end |}.

(** / holds motd and the directory usr, which holds lib and bin. Description
    11, the working directory, is /usr/bin in [demo_cwd_fs] and /usr in
    [demo_ls_fs], where description 12 is an empty file. *)
Definition demo_tree : gmap Z vnode :=
  list_to_map [(1, Vnode 0 0 (Z.lor S_IFDIR 0x1ED) (DirectoryVnode 0 [(str "motd", 3); (str "usr", 2)]));
               (2, Vnode 0 1 (Z.lor S_IFDIR 0x1ED) (DirectoryVnode 1 [(str "lib", 5); (str "bin", 4)]));
               (4, Vnode 0 2 (Z.lor S_IFDIR 0x1ED) (DirectoryVnode 2 []));
               (5, Vnode 0 4 (Z.lor S_IFDIR 0x1ED) (DirectoryVnode 2 []));
               (3, demo_motd)].
Definition demo_cwd_fs : vfs :=
  Vfs demo_tree (list_to_map [(10, FileDescription 1 0); (11, FileDescription 4 0)]) ∅ 5 0.
Definition demo_ls_fs : vfs :=
  Vfs (<[6 := Vnode 0 5 (Z.lor S_IFREG 0x1A4) (FileVnode [])]> demo_tree)
    (list_to_map [(10, FileDescription 1 0); (11, FileDescription 2 0); (12, FileDescription 6 0)]) ∅ 6 0.
Definition demo_in (fds : list Z) : ps :=
  Ps (list_to_map [(22, Process 1002 0 0 0x5000 false true false 0 [] 500 fds 10 11 2 0 0x12)]) 22 22 20 6 ∅ true 0.

(** The literals, a buffer for the structures on the stack, and stdout. *)
Definition demo_literal (s : string) : Z :=
  if String.eqb s "." then 200 else if String.eqb s ".." then 210 else 220.
Definition demo_user_mem : mem :=
  write_bytes (write_bytes (write_bytes (write_bytes (write_bytes (write_bytes HeapLaws.start_mem
    200 (str "." ++ [0])) 210 (str ".." ++ [0])) 220 (str "/" ++ [0])) 300 (replicate 32 0))
    400 Stdio.__stdout) 500 [0; 0; 0; 0].

Example getcwd_below_usr :
  match getcwd (M := demo_program_map) (K := kernel_sys 100 fault (λ _ _, mret 0) (λ _, mret 0))
          64 300 100 demo_literal NULL 0
          (env_init, (Errno 0, (demo_mm0, (demo_in (replicate 20 0), (demo_cwd_fs, demo_user_mem))))) with
  | Ok (p, (_, (_, (_, (_, (_, e)))))) => PrintfTests.read_text 30 p e = Some (str "/usr/bin")
  | Fault | NoFuel => False
  end.
Proof. vm_compute. reflexivity. Qed.

Example ls_lists_usr :
  match ls_main (M := demo_program_map) (K := kernel_sys 100 fault (λ _ _, mret 0) (λ _, mret 0))
          64 500 300 100 400 408 demo_literal [0]
          (env_init, (Errno 0, (demo_mm0, (demo_in (<[1%nat := 12]> (replicate 20 0)), (demo_ls_fs, demo_user_mem))))) with
  | Ok (p, (_, (_, (_, (_, (v, _)))))) =>
      p = 0 ∧ (class <$> nodes v !! 6) = Some (FileVnode (str "lib" ++ [10] ++ str "bin" ++ [10]))
  | Fault | NoFuel => False
  end.
Proof. vm_compute. by split. Qed.
